(** * Solar-System: the orbital engine, the scene graph and the camera

    A shallow embedding of [solar_system.py].  Python floats are read as
    real numbers ([R]), Python ints as [Z]; the exceptions the arithmetic
    can raise are kept ([Py.result]).  Objects live in a store (the list
    [SolarSystem.bodies]); a reference to a body is its index there, so
    that a child reads the position its parent has at that moment.

    The file first transcribes the source ([Py], [Pygame],
    [CelestialBody], [SolarSystem], [Catalog],
    [create_real_solar_system], [Main]), then names the notions the
    properties are stated with, then proves the properties. *)

From Stdlib Require Import Reals Lra Lia ZArith String List.
From stdpp Require Import base list.

Local Open Scope R_scope.

(** ** Python primitives *)

Module Py.

(** The exceptions of the modelled fragment.  [Dangling] is not a Python
    exception: it marks a handle that points outside the store, which no
    Python reference can do. *)
Inductive exn : Set :=
| ZeroDivisionError
| ValueError
| KeyError
| IndexError
| Dangling.

Inductive result (A : Type) : Type :=
| Ok (a : A)
| Raise (e : exn).
Arguments Ok {A} a.
Arguments Raise {A} e.

Definition bind {A B : Type} (k : A -> result B) (m : result A) : result B :=
  match m with
  | Ok a => k a
  | Raise e => Raise e
  end.

(** [x / y] on floats. *)
Definition truediv (x y : R) : result R :=
  if Req_dec_T y 0 then Raise ZeroDivisionError else Ok (x / y).

(** [math.sqrt]. *)
Definition sqrt (x : R) : result R :=
  if Rlt_dec x 0 then Raise ValueError else Ok (R_sqrt.sqrt x).

(** [math.log10]. *)
Definition log10 (x : R) : result R :=
  if Rle_dec x 0 then Raise ValueError else Ok (ln x / ln 10).

(** [x % m] on floats, for a divisor [m <> 0]: the result has the sign of
    the divisor.  The only divisor in the source is [2 * math.pi]. *)
Definition fmod (x m : R) : R := x - IZR (Int_part (x / m)) * m.

(** [math.atan2 y x]. *)
Definition atan2 (y x : R) : R :=
  if Rlt_dec 0 x then atan (y / x)
  else if Rlt_dec x 0 then
    if Rle_dec 0 y then atan (y / x) + PI else atan (y / x) - PI
  else if Rlt_dec 0 y then PI / 2
  else if Rlt_dec y 0 then - (PI / 2)
  else 0.

(** [int(x)]: truncation towards zero. *)
Definition int (x : R) : Z :=
  if Rle_dec 0 x then Int_part x else (- Int_part (- x))%Z.

(** [max(a, b)] and [min(a, b)]: the first argument unless the second is
    strictly better. *)
Definition max (a b : R) : R := if Rlt_dec a b then b else a.
Definition min (a b : R) : R := if Rlt_dec b a then b else a.

(** [max(xs)] and [min(xs)] of a sequence; [ValueError] when it is empty. *)
Definition max_of (xs : list R) : result R :=
  match xs with
  | [] => Raise ValueError
  | h :: t => Ok (foldl max h t)
  end.
Definition min_of (xs : list R) : result R :=
  match xs with
  | [] => Raise ValueError
  | h :: t => Ok (foldl min h t)
  end.

Definition ltb (a b : R) : bool := if Rlt_dec a b then true else false.

(** [random.uniform(a, b)], from the draw [u] of [random.random()]. *)
Definition uniform (u a b : R) : R := a + (b - a) * u.

(** [for i in idxs: s = f(s, i)], stopping at the first exception. *)
Fixpoint for_each {S : Type} (f : S -> nat -> result S) (idxs : list nat)
    (s : S) : result S :=
  match idxs with
  | [] => Ok s
  | i :: rest => bind (for_each f rest) (f s i)
  end.

End Py.

#[global] Instance result_bind : MBind Py.result := @Py.bind.
#[global] Instance result_ret : MRet Py.result := @Py.Ok.

(** ** The renderer (pygame), as far as the bodies keep its objects *)

Module Pygame.

Definition Color : Set := (Z * Z * Z)%type.

Record Polyline : Type := {
  pl_color : Z * Z * Z * Z;
  pl_closed : bool;
  pl_points : list (R * R);
  pl_width : Z }.

(** A [pygame.Surface]: its size and what was drawn on it. *)
Record Surface : Type := {
  surf_width : Z;
  surf_height : Z;
  surf_lines : list Polyline }.

Record Rect : Set := {
  rect_left : Z;
  rect_top : Z;
  rect_width : Z;
  rect_height : Z }.

(** The calls a method makes to the renderer. *)
Inductive call : Type :=
| NewSurface (w h : Z)
| DrawLines (p : Polyline).

End Pygame.

(** ** class CelestialBody *)

Module CelestialBody.
Import Pygame.

Record t : Type := {
  x : R;
  y : R;
  radius : R;
  color : Color;
  semi_major_axis : R;
  eccentricity : R;
  angle : R;
  base_orbit_speed : R;
  orbit_speed : R;
  parent : option nat;
  name : string;
  mass : R;
  facts : option (list (string * string));
  orbit_surface : option Surface;
  orbit_rect : option Rect;
  orbit_points : option (list (R * R));
  label_surface : option Surface;
  facts_surface : option Surface;
  one_minus_e2 : R;
  last_zoom : R;
  last_width : Z;
  last_height : Z;
  last_view_x : R;
  last_view_y : R }.

(** Attribute assignments [self.f = v]. *)
Definition set_angle (v : R) (self : t) : t :=
  {| x := x self; y := y self; radius := radius self; color := color self;
     semi_major_axis := semi_major_axis self;
     eccentricity := eccentricity self; angle := v;
     base_orbit_speed := base_orbit_speed self;
     orbit_speed := orbit_speed self; parent := parent self;
     name := name self; mass := mass self; facts := facts self;
     orbit_surface := orbit_surface self; orbit_rect := orbit_rect self;
     orbit_points := orbit_points self;
     label_surface := label_surface self;
     facts_surface := facts_surface self;
     one_minus_e2 := one_minus_e2 self;
     last_zoom := last_zoom self; last_width := last_width self;
     last_height := last_height self; last_view_x := last_view_x self;
     last_view_y := last_view_y self |}.

Definition set_orbit_speed (v : R) (self : t) : t :=
  {| x := x self; y := y self; radius := radius self; color := color self;
     semi_major_axis := semi_major_axis self;
     eccentricity := eccentricity self; angle := angle self;
     base_orbit_speed := base_orbit_speed self; orbit_speed := v;
     parent := parent self; name := name self; mass := mass self;
     facts := facts self; orbit_surface := orbit_surface self;
     orbit_rect := orbit_rect self; orbit_points := orbit_points self;
     label_surface := label_surface self;
     facts_surface := facts_surface self;
     one_minus_e2 := one_minus_e2 self; last_zoom := last_zoom self;
     last_width := last_width self; last_height := last_height self;
     last_view_x := last_view_x self; last_view_y := last_view_y self |}.

Definition set_x (v : R) (self : t) : t :=
  {| x := v; y := y self; radius := radius self; color := color self;
     semi_major_axis := semi_major_axis self;
     eccentricity := eccentricity self; angle := angle self;
     base_orbit_speed := base_orbit_speed self;
     orbit_speed := orbit_speed self; parent := parent self;
     name := name self; mass := mass self; facts := facts self;
     orbit_surface := orbit_surface self; orbit_rect := orbit_rect self;
     orbit_points := orbit_points self;
     label_surface := label_surface self;
     facts_surface := facts_surface self;
     one_minus_e2 := one_minus_e2 self;
     last_zoom := last_zoom self; last_width := last_width self;
     last_height := last_height self; last_view_x := last_view_x self;
     last_view_y := last_view_y self |}.

Definition set_y (v : R) (self : t) : t :=
  {| x := x self; y := v; radius := radius self; color := color self;
     semi_major_axis := semi_major_axis self;
     eccentricity := eccentricity self; angle := angle self;
     base_orbit_speed := base_orbit_speed self;
     orbit_speed := orbit_speed self; parent := parent self;
     name := name self; mass := mass self; facts := facts self;
     orbit_surface := orbit_surface self; orbit_rect := orbit_rect self;
     orbit_points := orbit_points self;
     label_surface := label_surface self;
     facts_surface := facts_surface self;
     one_minus_e2 := one_minus_e2 self;
     last_zoom := last_zoom self; last_width := last_width self;
     last_height := last_height self; last_view_x := last_view_x self;
     last_view_y := last_view_y self |}.

(** The five assignments [self.last_zoom = zoom] ... [self.last_view_y =
    view_y] of [update_orbit_surface]. *)
Definition set_last_view (zoom view_x view_y : R) (width height : Z)
    (self : t) : t :=
  {| x := x self; y := y self; radius := radius self; color := color self;
     semi_major_axis := semi_major_axis self;
     eccentricity := eccentricity self; angle := angle self;
     base_orbit_speed := base_orbit_speed self;
     orbit_speed := orbit_speed self; parent := parent self;
     name := name self; mass := mass self; facts := facts self;
     orbit_surface := orbit_surface self; orbit_rect := orbit_rect self;
     orbit_points := orbit_points self;
     label_surface := label_surface self;
     facts_surface := facts_surface self;
     one_minus_e2 := one_minus_e2 self;
     last_zoom := zoom; last_width := width; last_height := height;
     last_view_x := view_x; last_view_y := view_y |}.

Definition set_orbit_points (v : option (list (R * R))) (self : t) : t :=
  {| x := x self; y := y self; radius := radius self; color := color self;
     semi_major_axis := semi_major_axis self;
     eccentricity := eccentricity self; angle := angle self;
     base_orbit_speed := base_orbit_speed self;
     orbit_speed := orbit_speed self; parent := parent self;
     name := name self; mass := mass self; facts := facts self;
     orbit_surface := orbit_surface self; orbit_rect := orbit_rect self;
     orbit_points := v; label_surface := label_surface self;
     facts_surface := facts_surface self;
     one_minus_e2 := one_minus_e2 self;
     last_zoom := last_zoom self; last_width := last_width self;
     last_height := last_height self; last_view_x := last_view_x self;
     last_view_y := last_view_y self |}.

Definition set_orbit_surface (v : option Surface) (self : t) : t :=
  {| x := x self; y := y self; radius := radius self; color := color self;
     semi_major_axis := semi_major_axis self;
     eccentricity := eccentricity self; angle := angle self;
     base_orbit_speed := base_orbit_speed self;
     orbit_speed := orbit_speed self; parent := parent self;
     name := name self; mass := mass self; facts := facts self;
     orbit_surface := v; orbit_rect := orbit_rect self;
     orbit_points := orbit_points self;
     label_surface := label_surface self;
     facts_surface := facts_surface self;
     one_minus_e2 := one_minus_e2 self;
     last_zoom := last_zoom self; last_width := last_width self;
     last_height := last_height self; last_view_x := last_view_x self;
     last_view_y := last_view_y self |}.

Definition set_orbit_rect (v : option Rect) (self : t) : t :=
  {| x := x self; y := y self; radius := radius self; color := color self;
     semi_major_axis := semi_major_axis self;
     eccentricity := eccentricity self; angle := angle self;
     base_orbit_speed := base_orbit_speed self;
     orbit_speed := orbit_speed self; parent := parent self;
     name := name self; mass := mass self; facts := facts self;
     orbit_surface := orbit_surface self; orbit_rect := v;
     orbit_points := orbit_points self;
     label_surface := label_surface self;
     facts_surface := facts_surface self;
     one_minus_e2 := one_minus_e2 self;
     last_zoom := last_zoom self; last_width := last_width self;
     last_height := last_height self; last_view_x := last_view_x self;
     last_view_y := last_view_y self |}.

(** Reading through a reference. *)
Definition deref (s : list t) (h : nat) : Py.result t :=
  match s !! h with
  | Some b => Py.Ok b
  | None => Py.Raise Py.Dangling
  end.

(** [update], lines 75-77: [E = M], then five times
    [E = M + self.eccentricity * math.sin(E)]. *)
Definition kepler_E (M e : R) : R :=
  Nat.iter 5 (fun E => M + e * sin E) M.

(** [update], lines 78-80: the true anomaly [nu]. *)
Definition true_anomaly (e E : R) : Py.result R :=
  sqrt_one_plus_e ← Py.sqrt (1 + e);
  sqrt_one_minus_e ← Py.sqrt (1 - e);
  Py.Ok (2 * Py.atan2 (sqrt_one_plus_e * sin (E / 2))
                      (sqrt_one_minus_e * cos (E / 2))).

(** [update], line 81: the radius [r]. *)
Definition orbit_radius (self : t) (nu : R) : Py.result R :=
  Py.truediv (semi_major_axis self * one_minus_e2 self)
             (1 + eccentricity self * cos nu).

(** [def update(self)], on the body behind handle [i].  Every statement
    reads the store as the statement before it left it. *)
Definition update (s : list t) (i : nat) : Py.result (list t) :=
  self ← deref s i;
  let s := <[i := set_angle
               (Py.fmod (angle self + orbit_speed self) (2 * PI)) self]> s in
  self ← deref s i;
  match parent self with
  | None => Py.Ok s
  | Some p =>
      let M := angle self in
      let E := kepler_E M (eccentricity self) in
      nu ← true_anomaly (eccentricity self) E;
      r ← orbit_radius self nu;
      parent_ ← deref s p;
      let s := <[i := set_x (x parent_ + r * cos nu) self]> s in
      self ← deref s i;
      parent_ ← deref s p;
      Py.Ok (<[i := set_y (y parent_ + r * sin nu) self]> s)
  end.

(** [update_orbit_surface], lines 88-93: the test under which the cached
    orbit surface is kept. *)
Definition orbit_cache_valid (self : t) (zoom view_x view_y : R)
    (width height : Z) : bool :=
  bool_decide (is_Some (orbit_surface self))
  && Py.ltb (Rabs (zoom - last_zoom self)) 0.01
  && (width =? last_width self)%Z
  && (height =? last_height self)%Z
  && Py.ltb (Rabs (view_x - last_view_x self)) 1
  && Py.ltb (Rabs (view_y - last_view_y self)) 1.

(** [update_orbit_surface], lines 103-107: the 30 samples of the ellipse. *)
Definition sample_orbit (a b : R) : list (R * R) :=
  map (fun t : nat =>
         let theta := 2 * PI * INR t / 29 in
         (a * cos theta, b * sin theta))
      (seq 0 30).

(** [def update_orbit_surface(self, zoom, view_x, view_y, width, height)],
    on the body behind handle [i]; the result also lists the calls made to
    the renderer. *)
Definition update_orbit_surface (s : list t) (i : nat) (zoom view_x view_y : R)
    (width height : Z) : Py.result (list t * list call) :=
  self ← deref s i;
  match parent self with
  | None => Py.Ok (s, [])
  | Some p =>
      if orbit_cache_valid self zoom view_x view_y width height
      then Py.Ok (s, [])
      else
        let s := <[i := set_last_view zoom view_x view_y width height self]> s in
        self ← deref s i;
        root ← Py.sqrt (one_minus_e2 self);
        let b := semi_major_axis self * root in
        let s := <[i := set_orbit_points
                     (Some (sample_orbit (semi_major_axis self) b)) self]> s in
        self ← deref s i;
        parent_ ← deref s p;
        let parent_x := x parent_ in
        let parent_y := y parent_ in
        let screen_points :=
          map (fun pt : R * R =>
                 ((pt.1 + parent_x - view_x) * zoom + IZR (width / 2),
                  (pt.2 + parent_y - view_y) * zoom + IZR (height / 2)))
              (default [] (orbit_points self)) in
        let xs := map fst screen_points in
        let ys := map snd screen_points in
        min_x ← Py.min_of xs;
        max_x ← Py.max_of xs;
        min_y ← Py.min_of ys;
        max_y ← Py.max_of ys;
        let box_width := (Py.int (max_x - min_x) + 2)%Z in
        let box_height := (Py.int (max_y - min_y) + 2)%Z in
        let box_width := Z.max 1 (Z.min box_width width) in
        let box_height := Z.max 1 (Z.min box_height height) in
        let orbit_color := (50, 50, 50, 64)%Z in
        let line_width := if Py.ltb 10 (semi_major_axis self) then 2%Z else 1%Z in
        let local_points :=
          map (fun pt : R * R => (pt.1 - min_x, pt.2 - min_y)) screen_points in
        let lines :=
          {| pl_color := orbit_color; pl_closed := true;
             pl_points := local_points; pl_width := line_width |} in
        let surface :=
          {| surf_width := box_width; surf_height := box_height;
             surf_lines := [lines] |} in
        let rect :=
          {| rect_left := Py.int min_x; rect_top := Py.int min_y;
             rect_width := box_width; rect_height := box_height |} in
        let s := <[i := set_orbit_rect (Some rect)
                     (set_orbit_surface (Some surface) self)]> s in
        Py.Ok (s, [NewSurface box_width box_height; DrawLines lines])
  end.

(** [draw], lines 154-156: where the body lands on the screen. *)
Definition scaled_x (self : t) (zoom view_x : R) (width : Z) : R :=
  (x self - view_x) * zoom + IZR (width / 2).

Definition scaled_y (self : t) (zoom view_y : R) (height : Z) : R :=
  (y self - view_y) * zoom + IZR (height / 2).

Definition scaled_radius (self : t) (zoom : R) : R := radius self * zoom.

End CelestialBody.

(** ** class SolarSystem *)

Module SolarSystem.
Import Pygame.

Definition MOON_COLOR : Color := (200, 200, 200)%Z.

(** [stars], [planets] and [moons] hold references to objects that are in
    [bodies] too. *)
Record t : Type := {
  bodies : list CelestialBody.t;
  stars : list nat;
  planets : list nat;
  moons : list nat;
  time_factor : R }.

(** [def __init__(self)]. *)
Definition init : t :=
  {| bodies := []; stars := []; planets := []; moons := [];
     time_factor := 1 |}.

Definition set_bodies (v : list CelestialBody.t) (self : t) : t :=
  {| bodies := v; stars := stars self; planets := planets self;
     moons := moons self; time_factor := time_factor self |}.

Definition set_time_factor (v : R) (self : t) : t :=
  {| bodies := bodies self; stars := stars self; planets := planets self;
     moons := moons self; time_factor := v |}.

(** [def add_star(self, x, y, radius, color, name, mass, facts)]; the
    result carries the reference to the new body. *)
Definition add_star (self : t) (x y radius : R) (color : Color)
    (name : string) (mass : R) (facts : option (list (string * string)))
    : t * nat :=
  let star :=
    {| CelestialBody.x := x; CelestialBody.y := y;
       CelestialBody.radius := radius; CelestialBody.color := color;
       CelestialBody.semi_major_axis := 0; CelestialBody.eccentricity := 0;
       CelestialBody.angle := 0; CelestialBody.base_orbit_speed := 0;
       CelestialBody.orbit_speed := 0; CelestialBody.parent := None;
       CelestialBody.name := name; CelestialBody.mass := mass;
       CelestialBody.facts := facts;
       CelestialBody.orbit_surface := None; CelestialBody.orbit_rect := None;
       CelestialBody.orbit_points := None;
       CelestialBody.label_surface := None;
       CelestialBody.facts_surface := None;
       CelestialBody.one_minus_e2 := 1;
       CelestialBody.last_zoom := 0; CelestialBody.last_width := 0;
       CelestialBody.last_height := 0; CelestialBody.last_view_x := 0;
       CelestialBody.last_view_y := 0 |} in
  let h := length (bodies self) in
  ({| bodies := bodies self ++ [star]; stars := stars self ++ [h];
      planets := planets self; moons := moons self;
      time_factor := time_factor self |}, h).

(** [def add_planet(self, parent, semi_major_axis, radius, color,
    orbit_speed, eccentricity, name, mass, facts)]; [u] is the draw of
    [random.random()] behind [random.uniform(0, 2 * math.pi)]. *)
Definition add_planet (u : R) (self : t) (parent : nat)
    (semi_major_axis radius : R) (color : Color) (orbit_speed eccentricity : R)
    (name : string) (mass : R) (facts : option (list (string * string)))
    : Py.result (t * nat) :=
  let angle := Py.uniform u 0 (2 * PI) in
  let one_minus_e2 := 1 - eccentricity * eccentricity in
  parent_ ← CelestialBody.deref (bodies self) parent;
  let planet :=
    {| CelestialBody.x := CelestialBody.x parent_;
       CelestialBody.y := CelestialBody.y parent_;
       CelestialBody.radius := radius; CelestialBody.color := color;
       CelestialBody.semi_major_axis := semi_major_axis;
       CelestialBody.eccentricity := eccentricity;
       CelestialBody.angle := angle;
       CelestialBody.base_orbit_speed := orbit_speed;
       CelestialBody.orbit_speed := orbit_speed;
       CelestialBody.parent := Some parent;
       CelestialBody.name := name; CelestialBody.mass := mass;
       CelestialBody.facts := facts;
       CelestialBody.orbit_surface := None; CelestialBody.orbit_rect := None;
       CelestialBody.orbit_points := None;
       CelestialBody.label_surface := None;
       CelestialBody.facts_surface := None;
       CelestialBody.one_minus_e2 := one_minus_e2;
       CelestialBody.last_zoom := 0; CelestialBody.last_width := 0;
       CelestialBody.last_height := 0; CelestialBody.last_view_x := 0;
       CelestialBody.last_view_y := 0 |} in
  let h := length (bodies self) in
  Py.Ok ({| bodies := bodies self ++ [planet]; stars := stars self;
            planets := planets self ++ [h]; moons := moons self;
            time_factor := time_factor self |}, h).

(** [def add_moon(self, parent, semi_major_axis, radius, orbit_speed,
    eccentricity, name, mass, facts)]. *)
Definition add_moon (u : R) (self : t) (parent : nat)
    (semi_major_axis radius orbit_speed eccentricity : R)
    (name : string) (mass : R) (facts : option (list (string * string)))
    : Py.result (t * nat) :=
  let angle := Py.uniform u 0 (2 * PI) in
  let one_minus_e2 := 1 - eccentricity * eccentricity in
  parent_ ← CelestialBody.deref (bodies self) parent;
  let min_orbit :=
    if negb (String.eqb (CelestialBody.name parent_) "Sun")
    then CelestialBody.radius parent_ * 2
    else semi_major_axis in
  let semi_major_axis := Py.max semi_major_axis min_orbit in
  let moon :=
    {| CelestialBody.x := CelestialBody.x parent_;
       CelestialBody.y := CelestialBody.y parent_;
       CelestialBody.radius := radius; CelestialBody.color := MOON_COLOR;
       CelestialBody.semi_major_axis := semi_major_axis;
       CelestialBody.eccentricity := eccentricity;
       CelestialBody.angle := angle;
       CelestialBody.base_orbit_speed := orbit_speed;
       CelestialBody.orbit_speed := orbit_speed;
       CelestialBody.parent := Some parent;
       CelestialBody.name := name; CelestialBody.mass := mass;
       CelestialBody.facts := facts;
       CelestialBody.orbit_surface := None; CelestialBody.orbit_rect := None;
       CelestialBody.orbit_points := None;
       CelestialBody.label_surface := None;
       CelestialBody.facts_surface := None;
       CelestialBody.one_minus_e2 := one_minus_e2;
       CelestialBody.last_zoom := 0; CelestialBody.last_width := 0;
       CelestialBody.last_height := 0; CelestialBody.last_view_x := 0;
       CelestialBody.last_view_y := 0 |} in
  let h := length (bodies self) in
  Py.Ok ({| bodies := bodies self ++ [moon]; stars := stars self;
            planets := planets self; moons := moons self ++ [h];
            time_factor := time_factor self |}, h).

(** [update], lines 236-238: the body of the loop, for the body behind
    handle [i]. *)
Definition update_body (time_factor : R) (s : list CelestialBody.t) (i : nat)
    : Py.result (list CelestialBody.t) :=
  body ← CelestialBody.deref s i;
  let s :=
    match CelestialBody.parent body with
    | Some _ =>
        <[i := CelestialBody.set_orbit_speed
                 (CelestialBody.base_orbit_speed body * time_factor) body]> s
    | None => s
    end in
  CelestialBody.update s i.

(** [def update(self)]: [for body in self.bodies], in list order. *)
Definition update (self : t) : Py.result t :=
  s ← Py.for_each (update_body (time_factor self))
        (seq 0 (length (bodies self))) (bodies self);
  Py.Ok (set_bodies s self).

End SolarSystem.

(** ** def create_real_solar_system *)

Module Catalog.
Import Pygame.

(** The records of the literal [planets] (lines 251-1045): a planet, and a
    moon under its key ["moons"]. *)
Record Moon : Type := {
  moon_name : string;
  moon_mass : R;
  moon_radius : R;
  moon_orbit_radius : R;
  moon_orbital_period : R;
  moon_eccentricity : R;
  moon_facts : option (list (string * string)) }.

Record Planet : Type := {
  name : string;
  mass : R;
  radius : R;
  orbit_radius : R;
  orbital_period : R;
  eccentricity : R;
  color : Color;
  facts : option (list (string * string));
  moons : option (list Moon) }.

(** Lines 27-38. *)
Definition DWARF_PLANET_COLORS : list (string * Color) :=
  [("Pluto", (200, 100, 100)); ("Eris", (180, 180, 180));
   ("Haumea", (230, 230, 230)); ("Makemake", (200, 120, 120));
   ("Quaoar", (150, 150, 150)); ("Orcus", (160, 160, 160));
   ("Ceres", (170, 170, 170)); ("Gonggong", (190, 100, 100));
   ("Sedna", (200, 80, 80)); ("Salacia", (140, 140, 140))]%string%Z.

(** [d[key]] on a dict given as its items. *)
Fixpoint getitem {V : Type} (d : list (string * V)) (key : string)
    : Py.result V :=
  match d with
  | [] => Py.Raise Py.KeyError
  | (k, v) :: rest => if String.eqb k key then Py.Ok v else getitem rest key
  end.

Definition distance_scale : R := 1.335e-7.
Definition sun_pixel_radius : R := 5.
Definition earth_period : R := 365.26.
Definition base_frames : R := 3600.
Definition base_speed : R := 2 * PI / base_frames.

(** Line 1064. *)
Definition pixel_radius (real_radius_km : R) : Py.result R :=
  l ← Py.log10 (real_radius_km / 1000);
  Py.Ok (Py.max 1 (1 + 8 * l)).

(** Line 1066:
    [base_speed * (earth_period / period_days) if period_days > 0 else 0]. *)
Definition orbit_speed (period_days : R) : Py.result R :=
  if Rlt_dec 0 period_days
  then q ← Py.truediv earth_period period_days; Py.Ok (base_speed * q)
  else Py.Ok 0.

(** Line 1085. *)
Definition moon_pixel_radius (moon_real_radius : R) : Py.result R :=
  l ← Py.log10 (moon_real_radius / 1000);
  Py.Ok (Py.max 0.5 (0.5 + 5 * l)).

(** Line 1087: [base_speed * (earth_period / abs(moon_period))
    * (-1 if moon_period < 0 else 1)]. *)
Definition moon_speed (moon_period : R) : Py.result R :=
  q ← Py.truediv earth_period (Rabs moon_period);
  Py.Ok (base_speed * q * (if Rlt_dec moon_period 0 then -1 else 1)).

(** Lines 1083-1098: one round of the loop over the moons of [planet].
    [rnd k] is the draw of [random.random()] made for the body that gets
    handle [k]. *)
Definition add_catalog_moon (rnd : nat -> R) (planet : nat)
    (solar_system : SolarSystem.t) (moon_data : Moon)
    : Py.result SolarSystem.t :=
  let moon_semi_major_axis := moon_orbit_radius moon_data * distance_scale in
  moon_pixel_radius ← moon_pixel_radius (moon_radius moon_data);
  moon_speed ← moon_speed (moon_orbital_period moon_data);
  built ← SolarSystem.add_moon
            (rnd (length (SolarSystem.bodies solar_system))) solar_system
            planet moon_semi_major_axis moon_pixel_radius moon_speed
            (moon_eccentricity moon_data) (moon_name moon_data)
            (moon_mass moon_data) (moon_facts moon_data);
  Py.Ok built.1.

Fixpoint add_catalog_moons (rnd : nat -> R) (planet : nat)
    (moons : list Moon) (solar_system : SolarSystem.t)
    : Py.result SolarSystem.t :=
  match moons with
  | [] => Py.Ok solar_system
  | moon_data :: rest =>
      solar_system ← add_catalog_moon rnd planet solar_system moon_data;
      add_catalog_moons rnd planet rest solar_system
  end.

(** Line 1067: [planets[i]["color"] if i <= 8 else
    DWARF_PLANET_COLORS[planets[i]["name"]]]. *)
Definition planet_color (i : nat) (entry : Planet) : Py.result Color :=
  if (i <=? 8)%nat then Py.Ok (color entry)
  else getitem DWARF_PLANET_COLORS (name entry).

(** Lines 1062-1079: the planet of round [i] of the loop over [planets]. *)
Definition add_catalog_planet (rnd : nat -> R) (sun i : nat)
    (solar_system : SolarSystem.t) (entry : Planet)
    : Py.result (SolarSystem.t * nat) :=
  let semi_major_axis_pixels := orbit_radius entry * distance_scale in
  pixel_radius ← pixel_radius (radius entry);
  orbit_speed ← orbit_speed (orbital_period entry);
  color ← planet_color i entry;
  SolarSystem.add_planet
    (rnd (length (SolarSystem.bodies solar_system))) solar_system sun
    semi_major_axis_pixels pixel_radius color orbit_speed
    (eccentricity entry) (name entry) (mass entry) (facts entry).

(** Lines 1061-1098: rounds [i], [i + 1], ... of the loop over [planets]. *)
Fixpoint add_catalog_planets (rnd : nat -> R) (sun i : nat)
    (entries : list Planet) (solar_system : SolarSystem.t)
    : Py.result SolarSystem.t :=
  match entries with
  | [] => Py.Ok solar_system
  | entry :: rest =>
      built ← add_catalog_planet rnd sun i solar_system entry;
      solar_system ←
        match moons entry with
        | Some moons => add_catalog_moons rnd built.2 moons built.1
        | None => Py.Ok built.1
        end;
      add_catalog_planets rnd sun (S i) rest solar_system
  end.

(** The literal [planets] of lines 251-1045, entry for entry; [SUN_COLOR],
    [PLANET_COLORS[k]] and [DWARF_PLANET_COLORS[name]] stand as the
    colours of lines 15-38 they evaluate to. *)
Definition planets : list Planet := [
  {| name := "Sun"; mass := 1.989e30; radius := 696340;
     orbit_radius := 0; orbital_period := 0;
     eccentricity := 0.0; color := (255, 255, 190)%Z;
     facts := Some [
        ("Radius",
         "696340 km");
        ("Composition",
         "Hydrogen (73.5%), Helium (24%) plasma");
        ("Discovery",
         "Prehistoric");
        ("Missions",
         "Parker Solar Probe (2018–present)");
        ("Trivia",
         "Contains 99.86% of Solar System's mass")]%string;
     moons := None |};
  {| name := "Mercury"; mass := 3.301e23; radius := 2439.7;
     orbit_radius := 57.91e6; orbital_period := 87.97;
     eccentricity := 0.2056; color := (170, 170, 170)%Z;
     facts := Some [
        ("Radius",
         "2439.7 km");
        ("Composition",
         "Rock (silicates, iron core)");
        ("Discovery",
         "Prehistoric");
        ("Missions",
         "Mariner 10 (1974–75), MESSENGER (2011–15)");
        ("Trivia",
         "Highest orbital eccentricity of planets")]%string;
     moons := None |};
  {| name := "Venus"; mass := 4.867e24; radius := 6051.8;
     orbit_radius := 108.21e6; orbital_period := 224.70;
     eccentricity := 0.0067; color := (230, 230, 230)%Z;
     facts := Some [
        ("Radius",
         "6051.8 km");
        ("Composition",
         "Rock (silicates, carbon dioxide atmosphere)");
        ("Discovery",
         "Prehistoric");
        ("Missions",
         "Venera (1961–84), Magellan (1990–94)");
        ("Trivia",
         "Hottest planet due to greenhouse effect")]%string;
     moons := None |};
  {| name := "Earth"; mass := 5.972e24; radius := 6371;
     orbit_radius := 149.60e6; orbital_period := 365.26;
     eccentricity := 0.0167; color := (50, 100, 200)%Z;
     facts := Some [
        ("Radius",
         "6371 km");
        ("Composition",
         "Rock (silicates, iron core), water");
        ("Discovery",
         "Prehistoric");
        ("Missions",
         "Apollo, ISS (1998–present)");
        ("Trivia",
         "Only known planet with life")]%string;
     moons := None |};
  {| name := "Mars"; mass := 6.417e23; radius := 3389.5;
     orbit_radius := 227.94e6; orbital_period := 686.98;
     eccentricity := 0.0934; color := (200, 100, 50)%Z;
     facts := Some [
        ("Radius",
         "3389.5 km");
        ("Composition",
         "Rock (silicates, iron oxide)");
        ("Discovery",
         "Prehistoric");
        ("Missions",
         "Viking (1976), Perseverance (2021–present)");
        ("Trivia",
         "Has the largest volcano (Olympus Mons)")]%string;
     moons := Some [
       {| moon_name := "Phobos"; moon_mass := 1.066e16; moon_radius := 11.1;
          moon_orbit_radius := 9377; moon_orbital_period := 0.319;
          moon_eccentricity := 0.0151;
          moon_facts := Some [
             ("Radius",
              "11.1 km");
             ("Composition",
              "Rock, regolith");
             ("Discovery",
              "1877 (Asaph Hall)");
             ("Missions",
              "Mars rovers (imagery)");
             ("Trivia",
              "Will crash into Mars in ~50M years")]%string |};
       {| moon_name := "Deimos"; moon_mass := 1.471e15; moon_radius := 6.2;
          moon_orbit_radius := 23460; moon_orbital_period := 1.263;
          moon_eccentricity := 0.0002;
          moon_facts := Some [
             ("Radius",
              "6.2 km");
             ("Composition",
              "Rock, regolith");
             ("Discovery",
              "1877 (Asaph Hall)");
             ("Missions",
              "Mars rovers (imagery)");
             ("Trivia",
              "Smallest moon of Mars")]%string |}] |};
  {| name := "Jupiter"; mass := 1.898e27; radius := 69911;
     orbit_radius := 778.57e6; orbital_period := 4332.59;
     eccentricity := 0.0489; color := (220, 180, 130)%Z;
     facts := Some [
        ("Radius",
         "69911 km");
        ("Composition",
         "Gas (hydrogen, helium)");
        ("Discovery",
         "Prehistoric");
        ("Missions",
         "Voyager, Juno (2016–present)");
        ("Trivia",
         "Largest planet, Great Red Spot")]%string;
     moons := Some [
       {| moon_name := "Io"; moon_mass := 8.932e22; moon_radius := 1821.6;
          moon_orbit_radius := 421800; moon_orbital_period := 1.769;
          moon_eccentricity := 0.0041;
          moon_facts := Some [
             ("Radius",
              "1821.6 km");
             ("Composition",
              "Rock, sulfur");
             ("Discovery",
              "1610 (Galileo)");
             ("Missions",
              "Voyager, Galileo");
             ("Trivia",
              "Most volcanically active body")]%string |};
       {| moon_name := "Europa"; moon_mass := 4.800e22; moon_radius := 1560.8;
          moon_orbit_radius := 671100; moon_orbital_period := 3.551;
          moon_eccentricity := 0.0094;
          moon_facts := Some [
             ("Radius",
              "1560.8 km");
             ("Composition",
              "Ice, rock");
             ("Discovery",
              "1610 (Galileo)");
             ("Missions",
              "Voyager, Galileo, Europa Clipper (2024)");
             ("Trivia",
              "Possible subsurface ocean")]%string |};
       {| moon_name := "Ganymede"; moon_mass := 1.482e23; moon_radius := 2631.2;
          moon_orbit_radius := 1070400; moon_orbital_period := 7.155;
          moon_eccentricity := 0.0013;
          moon_facts := Some [
             ("Radius",
              "2631.2 km");
             ("Composition",
              "Ice, rock");
             ("Discovery",
              "1610 (Galileo)");
             ("Missions",
              "Voyager, Galileo");
             ("Trivia",
              "Largest moon in Solar System")]%string |};
       {| moon_name := "Callisto"; moon_mass := 1.076e23; moon_radius := 2410.3;
          moon_orbit_radius := 1882700; moon_orbital_period := 16.689;
          moon_eccentricity := 0.0074;
          moon_facts := Some [
             ("Radius",
              "2410.3 km");
             ("Composition",
              "Ice, rock");
             ("Discovery",
              "1610 (Galileo)");
             ("Missions",
              "Voyager, Galileo");
             ("Trivia",
              "Most heavily cratered moon")]%string |}] |};
  {| name := "Saturn"; mass := 5.683e26; radius := 58232;
     orbit_radius := 1433.53e6; orbital_period := 10759.22;
     eccentricity := 0.0565; color := (220, 190, 150)%Z;
     facts := Some [
        ("Radius",
         "58232 km");
        ("Composition",
         "Gas (hydrogen, helium)");
        ("Discovery",
         "Prehistoric");
        ("Missions",
         "Cassini (2004–2017)");
        ("Trivia",
         "Famous for prominent rings")]%string;
     moons := Some [
       {| moon_name := "Mimas"; moon_mass := 3.751e19; moon_radius := 198.2;
          moon_orbit_radius := 185540; moon_orbital_period := 0.942;
          moon_eccentricity := 0.0196;
          moon_facts := Some [
             ("Radius",
              "198.2 km");
             ("Composition",
              "Ice");
             ("Discovery",
              "1789 (William Herschel)");
             ("Missions",
              "Cassini");
             ("Trivia",
              "Herschel Crater resembles Death Star")]%string |};
       {| moon_name := "Enceladus"; moon_mass := 1.080e20; moon_radius := 252.1;
          moon_orbit_radius := 238040; moon_orbital_period := 1.370;
          moon_eccentricity := 0.0047;
          moon_facts := Some [
             ("Radius",
              "252.1 km");
             ("Composition",
              "Ice, possible subsurface ocean");
             ("Discovery",
              "1789 (William Herschel)");
             ("Missions",
              "Cassini");
             ("Trivia",
              "Geysers eject water vapor")]%string |};
       {| moon_name := "Tethys"; moon_mass := 6.174e20; moon_radius := 531.1;
          moon_orbit_radius := 294670; moon_orbital_period := 1.888;
          moon_eccentricity := 0.0001;
          moon_facts := Some [
             ("Radius",
              "531.1 km");
             ("Composition",
              "Ice");
             ("Discovery",
              "1684 (Cassini)");
             ("Missions",
              "Cassini");
             ("Trivia",
              "Features Ithaca Chasma")]%string |};
       {| moon_name := "Dione"; moon_mass := 1.095e21; moon_radius := 561.7;
          moon_orbit_radius := 377420; moon_orbital_period := 2.737;
          moon_eccentricity := 0.0022;
          moon_facts := Some [
             ("Radius",
              "561.7 km");
             ("Composition",
              "Ice, rock");
             ("Discovery",
              "1684 (Cassini)");
             ("Missions",
              "Cassini");
             ("Trivia",
              "Wispy terrain on trailing hemisphere")]%string |};
       {| moon_name := "Rhea"; moon_mass := 2.307e21; moon_radius := 763.8;
          moon_orbit_radius := 527070; moon_orbital_period := 4.518;
          moon_eccentricity := 0.001;
          moon_facts := Some [
             ("Radius",
              "763.8 km");
             ("Composition",
              "Ice, rock");
             ("Discovery",
              "1672 (Cassini)");
             ("Missions",
              "Cassini");
             ("Trivia",
              "Second-largest Saturnian moon")]%string |};
       {| moon_name := "Titan"; moon_mass := 1.345e23; moon_radius := 2574.7;
          moon_orbit_radius := 1221870; moon_orbital_period := 15.945;
          moon_eccentricity := 0.0288;
          moon_facts := Some [
             ("Radius",
              "2574.7 km");
             ("Composition",
              "Ice, rock, methane atmosphere");
             ("Discovery",
              "1655 (Christiaan Huygens)");
             ("Missions",
              "Cassini-Huygens");
             ("Trivia",
              "Only moon with stable lakes")]%string |};
       {| moon_name := "Iapetus"; moon_mass := 1.806e21; moon_radius := 734.5;
          moon_orbit_radius := 3560840; moon_orbital_period := 79.330;
          moon_eccentricity := 0.0283;
          moon_facts := Some [
             ("Radius",
              "734.5 km");
             ("Composition",
              "Ice, rock");
             ("Discovery",
              "1671 (Cassini)");
             ("Missions",
              "Cassini");
             ("Trivia",
              "Two-toned coloration")]%string |}] |};
  {| name := "Uranus"; mass := 8.681e25; radius := 25362;
     orbit_radius := 2872.46e6; orbital_period := 30589.00;
     eccentricity := 0.0457; color := (180, 210, 230)%Z;
     facts := Some [
        ("Radius",
         "25362 km");
        ("Composition",
         "Gas (hydrogen, helium, methane)");
        ("Discovery",
         "1781 (William Herschel)");
        ("Missions",
         "Voyager 2 (1986)");
        ("Trivia",
         "Axis tilted 98 degrees")]%string;
     moons := Some [
       {| moon_name := "Miranda"; moon_mass := 6.590e19; moon_radius := 235.8;
          moon_orbit_radius := 129900; moon_orbital_period := 1.413;
          moon_eccentricity := 0.0013;
          moon_facts := Some [
             ("Radius",
              "235.8 km");
             ("Composition",
              "Ice, rock");
             ("Discovery",
              "1948 (Gerard Kuiper)");
             ("Missions",
              "Voyager 2");
             ("Trivia",
              "Extreme geological features")]%string |};
       {| moon_name := "Ariel"; moon_mass := 1.353e21; moon_radius := 578.9;
          moon_orbit_radius := 190900; moon_orbital_period := 2.520;
          moon_eccentricity := 0.0012;
          moon_facts := Some [
             ("Radius",
              "578.9 km");
             ("Composition",
              "Ice, rock");
             ("Discovery",
              "1851 (William Lassell)");
             ("Missions",
              "Voyager 2");
             ("Trivia",
              "Brightest Uranian moon")]%string |};
       {| moon_name := "Umbriel"; moon_mass := 1.172e21; moon_radius := 584.7;
          moon_orbit_radius := 266000; moon_orbital_period := 4.144;
          moon_eccentricity := 0.0039;
          moon_facts := Some [
             ("Radius",
              "584.7 km");
             ("Composition",
              "Ice, rock");
             ("Discovery",
              "1851 (William Lassell)");
             ("Missions",
              "Voyager 2");
             ("Trivia",
              "Darkest Uranian moon")]%string |};
       {| moon_name := "Titania"; moon_mass := 3.527e21; moon_radius := 788.9;
          moon_orbit_radius := 436300; moon_orbital_period := 8.706;
          moon_eccentricity := 0.0011;
          moon_facts := Some [
             ("Radius",
              "788.9 km");
             ("Composition",
              "Ice, rock");
             ("Discovery",
              "1787 (William Herschel)");
             ("Missions",
              "Voyager 2");
             ("Trivia",
              "Largest Uranian moon")]%string |};
       {| moon_name := "Oberon"; moon_mass := 3.014e21; moon_radius := 761.4;
          moon_orbit_radius := 583500; moon_orbital_period := 13.463;
          moon_eccentricity := 0.0014;
          moon_facts := Some [
             ("Radius",
              "761.4 km");
             ("Composition",
              "Ice, rock");
             ("Discovery",
              "1787 (William Herschel)");
             ("Missions",
              "Voyager 2");
             ("Trivia",
              "Features large craters")]%string |}] |};
  {| name := "Neptune"; mass := 1.024e26; radius := 24622;
     orbit_radius := 4495.06e6; orbital_period := 59800.00;
     eccentricity := 0.0113; color := (100, 150, 230)%Z;
     facts := Some [
        ("Radius",
         "24622 km");
        ("Composition",
         "Gas (hydrogen, helium, methane)");
        ("Discovery",
         "1846 (Le Verrier, Galle)");
        ("Missions",
         "Voyager 2 (1989)");
        ("Trivia",
         "Strongest winds in Solar System")]%string;
     moons := Some [
       {| moon_name := "Triton"; moon_mass := 2.140e22; moon_radius := 1353.4;
          moon_orbit_radius := 354760; moon_orbital_period := (-5.877);
          moon_eccentricity := 0.000016;
          moon_facts := Some [
             ("Radius",
              "1353.4 km");
             ("Composition",
              "Ice, rock, nitrogen frost");
             ("Discovery",
              "1846 (William Lassell)");
             ("Missions",
              "Voyager 2");
             ("Trivia",
              "Retrograde orbit, likely captured")]%string |}] |};
  {| name := "Pluto"; mass := 1.309e22; radius := 1188;
     orbit_radius := 5906.38e6; orbital_period := 90560;
     eccentricity := 0.2488; color := (200, 100, 100)%Z;
     facts := Some [
        ("Radius",
         "1188 km");
        ("Composition",
         "Ice (nitrogen, methane), rock");
        ("Discovery",
         "1930 (Clyde Tombaugh)");
        ("Missions",
         "New Horizons (2015)");
        ("Trivia",
         "Reclassified as dwarf planet (2006)")]%string;
     moons := Some [
       {| moon_name := "Charon"; moon_mass := 1.586e21; moon_radius := 606;
          moon_orbit_radius := 19640; moon_orbital_period := 6.387;
          moon_eccentricity := 0.0;
          moon_facts := Some [
             ("Radius",
              "606 km");
             ("Composition",
              "Ice, rock");
             ("Discovery",
              "1978 (James Christy)");
             ("Missions",
              "New Horizons (2015)");
             ("Trivia",
              "Forms binary system with Pluto")]%string |};
       {| moon_name := "Nix"; moon_mass := 4.5e16; moon_radius := 23;
          moon_orbit_radius := 48694; moon_orbital_period := 24.854;
          moon_eccentricity := 0.002;
          moon_facts := Some [
             ("Radius",
              "23 km");
             ("Composition",
              "Ice");
             ("Discovery",
              "2005 (Weaver, Stern)");
             ("Missions",
              "New Horizons");
             ("Trivia",
              "Small, irregular shape")]%string |};
       {| moon_name := "Hydra"; moon_mass := 4.8e16; moon_radius := 30.5;
          moon_orbit_radius := 64738; moon_orbital_period := 38.202;
          moon_eccentricity := 0.005;
          moon_facts := Some [
             ("Radius",
              "30.5 km");
             ("Composition",
              "Ice");
             ("Discovery",
              "2005 (Weaver, Stern)");
             ("Missions",
              "New Horizons");
             ("Trivia",
              "Elongated shape")]%string |};
       {| moon_name := "Kerberos"; moon_mass := 1.6e16; moon_radius := 14;
          moon_orbit_radius := 57783; moon_orbital_period := 32.167;
          moon_eccentricity := 0.003;
          moon_facts := Some [
             ("Radius",
              "14 km");
             ("Composition",
              "Ice");
             ("Discovery",
              "2011 (Showalter)");
             ("Missions",
              "New Horizons");
             ("Trivia",
              "Faint, small moon")]%string |};
       {| moon_name := "Styx"; moon_mass := 7.5e15; moon_radius := 10;
          moon_orbit_radius := 42656; moon_orbital_period := 20.161;
          moon_eccentricity := 0.006;
          moon_facts := Some [
             ("Radius",
              "10 km");
             ("Composition",
              "Ice");
             ("Discovery",
              "2012 (Showalter)");
             ("Missions",
              "New Horizons");
             ("Trivia",
              "Smallest Plutonian moon")]%string |}] |};
  {| name := "Eris"; mass := 1.66e22; radius := 1163;
     orbit_radius := 10159.8e6; orbital_period := 203670;
     eccentricity := 0.436; color := (180, 180, 180)%Z;
     facts := Some [
        ("Radius",
         "1163 km");
        ("Composition",
         "Ice, rock");
        ("Discovery",
         "2005 (Brown, Trujillo, Rabinowitz)");
        ("Missions",
         "None");
        ("Trivia",
         "More massive than Pluto")]%string;
     moons := Some [
       {| moon_name := "Dysnomia"; moon_mass := 1.5e20; moon_radius := 175;
          moon_orbit_radius := 37350; moon_orbital_period := 15.774;
          moon_eccentricity := 0.013;
          moon_facts := Some [
             ("Radius",
              "175 km");
             ("Composition",
              "Ice");
             ("Discovery",
              "2005 (Brown)");
             ("Missions",
              "None");
             ("Trivia",
              "Named after Eris's daughter")]%string |}] |};
  {| name := "Haumea"; mass := 4.006e21; radius := 816;
     orbit_radius := 6452.2e6; orbital_period := 103660;
     eccentricity := 0.194; color := (230, 230, 230)%Z;
     facts := Some [
        ("Radius",
         "816 km");
        ("Composition",
         "Ice, rock");
        ("Discovery",
         "2004 (Brown)");
        ("Missions",
         "None");
        ("Trivia",
         "Oblate shape due to fast rotation")]%string;
     moons := Some [
       {| moon_name := "Hi’iaka"; moon_mass := 1.79e19; moon_radius := 160;
          moon_orbit_radius := 49880; moon_orbital_period := 49.12;
          moon_eccentricity := 0.051;
          moon_facts := Some [
             ("Radius",
              "160 km");
             ("Composition",
              "Ice");
             ("Discovery",
              "2005 (Brown)");
             ("Missions",
              "None");
             ("Trivia",
              "Named after Hawaiian goddess")]%string |};
       {| moon_name := "Namaka"; moon_mass := 1.79e18; moon_radius := 85;
          moon_orbit_radius := 25657; moon_orbital_period := 18.28;
          moon_eccentricity := 0.103;
          moon_facts := Some [
             ("Radius",
              "85 km");
             ("Composition",
              "Ice");
             ("Discovery",
              "2005 (Brown)");
             ("Missions",
              "None");
             ("Trivia",
              "Named after Hawaiian sea goddess")]%string |}] |};
  {| name := "Makemake"; mass := 3.1e21; radius := 715;
     orbit_radius := 6834.7e6; orbital_period := 111690;
     eccentricity := 0.159; color := (200, 120, 120)%Z;
     facts := Some [
        ("Radius",
         "715 km");
        ("Composition",
         "Ice (methane, ethane), rock");
        ("Discovery",
         "2005 (Brown)");
        ("Missions",
         "None");
        ("Trivia",
         "Named after Rapa Nui creator god")]%string;
     moons := None |};
  {| name := "Quaoar"; mass := 1.4e21; radius := 555;
     orbit_radius := 6534.1e6; orbital_period := 105120;
     eccentricity := 0.038; color := (150, 150, 150)%Z;
     facts := Some [
        ("Radius",
         "555 km");
        ("Composition",
         "Ice, rock");
        ("Discovery",
         "2002 (Brown, Trujillo)");
        ("Missions",
         "None");
        ("Trivia",
         "Named after Tongva creator god")]%string;
     moons := Some [
       {| moon_name := "Weywot"; moon_mass := 1.4e18; moon_radius := 85;
          moon_orbit_radius := 14500; moon_orbital_period := 12.438;
          moon_eccentricity := 0.14;
          moon_facts := Some [
             ("Radius",
              "85 km");
             ("Composition",
              "Ice");
             ("Discovery",
              "2007 (Brown)");
             ("Missions",
              "None");
             ("Trivia",
              "Named after Tongva sky god's son")]%string |}] |};
  {| name := "Orcus"; mass := 6.41e20; radius := 458;
     orbit_radius := 5894.8e6; orbital_period := 89425;
     eccentricity := 0.226; color := (160, 160, 160)%Z;
     facts := Some [
        ("Radius",
         "458 km");
        ("Composition",
         "Ice, rock");
        ("Discovery",
         "2004 (Brown, Trujillo, Rabinowitz)");
        ("Missions",
         "None");
        ("Trivia",
         "Anti-Pluto, orbits opposite Pluto")]%string;
     moons := Some [
       {| moon_name := "Vanth"; moon_mass := 9.0e19; moon_radius := 221;
          moon_orbit_radius := 9000; moon_orbital_period := 9.54;
          moon_eccentricity := 0.007;
          moon_facts := Some [
             ("Radius",
              "221 km");
             ("Composition",
              "Ice");
             ("Discovery",
              "2007 (Brown)");
             ("Missions",
              "None");
             ("Trivia",
              "Named after Etruscan deity")]%string |}] |};
  {| name := "Ceres"; mass := 9.38e20; radius := 473;
     orbit_radius := 414.0e6; orbital_period := 1680;
     eccentricity := 0.075; color := (170, 170, 170)%Z;
     facts := Some [
        ("Radius",
         "473 km");
        ("Composition",
         "Rock, ice");
        ("Discovery",
         "1801 (Giuseppe Piazzi)");
        ("Missions",
         "Dawn (2015–2018)");
        ("Trivia",
         "Largest asteroid, only dwarf planet in asteroid belt")]%string;
     moons := None |};
  {| name := "Gonggong"; mass := 1.75e21; radius := 615;
     orbit_radius := 10092.3e6; orbital_period := 202210;
     eccentricity := 0.503; color := (190, 100, 100)%Z;
     facts := Some [
        ("Radius",
         "615 km");
        ("Composition",
         "Ice, rock");
        ("Discovery",
         "2007 (Schwamb, Brown, Rabinowitz)");
        ("Missions",
         "None");
        ("Trivia",
         "Highly eccentric orbit")]%string;
     moons := Some [
       {| moon_name := "Xiangliu"; moon_mass := 1.0e19; moon_radius := 100;
          moon_orbit_radius := 24000; moon_orbital_period := 25.2;
          moon_eccentricity := 0.29;
          moon_facts := Some [
             ("Radius",
              "100 km");
             ("Composition",
              "Ice");
             ("Discovery",
              "2010 (Schwamb)");
             ("Missions",
              "None");
             ("Trivia",
              "Named after Chinese serpent deity")]%string |}] |};
  {| name := "Sedna"; mass := 1.0e21; radius := 498;
     orbit_radius := 75679.2e6; orbital_period := 4161000;
     eccentricity := 0.855; color := (200, 80, 80)%Z;
     facts := Some [
        ("Radius",
         "498 km");
        ("Composition",
         "Ice, rock");
        ("Discovery",
         "2003 (Brown, Trujillo, Rabinowitz)");
        ("Missions",
         "None");
        ("Trivia",
         "Most distant known orbit (~76–936 AU)")]%string;
     moons := None |};
  {| name := "Salacia"; mass := 4.38e20; radius := 423;
     orbit_radius := 6314.8e6; orbital_period := 100010;
     eccentricity := 0.106; color := (140, 140, 140)%Z;
     facts := Some [
        ("Radius",
         "423 km");
        ("Composition",
         "Ice, rock");
        ("Discovery",
         "2004 (Noll, Stephens, Grundy)");
        ("Missions",
         "None");
        ("Trivia",
         "Named after Roman sea goddess")]%string;
     moons := Some [
       {| moon_name := "Actaea"; moon_mass := 1.2e19; moon_radius := 150;
          moon_orbit_radius := 5700; moon_orbital_period := 5.493;
          moon_eccentricity := 0.008;
          moon_facts := Some [
             ("Radius",
              "150 km");
             ("Composition",
              "Ice");
             ("Discovery",
              "2006 (Noll)");
             ("Missions",
              "None");
             ("Trivia",
              "Named after sea nymph")]%string |}] |}].

End Catalog.

(** [def create_real_solar_system(width, height)], with the literal
    [planets] and the source of randomness as arguments. *)
Definition create_real_solar_system (rnd : nat -> R)
    (planets : list Catalog.Planet) (width height : Z)
    : Py.result SolarSystem.t :=
  let center_x := (width / 2)%Z in
  let center_y := (height / 2)%Z in
  match planets with
  | [] => Py.Raise Py.IndexError
  | first :: rest =>
      let built :=
        SolarSystem.add_star SolarSystem.init (IZR center_x) (IZR center_y)
          Catalog.sun_pixel_radius (Catalog.color first) (Catalog.name first)
          (Catalog.mass first) (Catalog.facts first) in
      Catalog.add_catalog_planets rnd built.2 1 rest built.1
  end.

(** ** The frame loop of [main] *)

Module Main.

(** [main], lines 1181-1182: [if not paused: solar_system.update()]. *)
Definition step (paused : bool) (solar_system : SolarSystem.t)
    : Py.result SolarSystem.t :=
  if negb paused then SolarSystem.update solar_system
  else Py.Ok solar_system.

(** [main], lines 1176-1178: a pointer move of [(dx, dy)] while dragging. *)
Definition drag (zoom : R) (view : R * R) (d : R * R) : Py.result (R * R) :=
  wx ← Py.truediv d.1 zoom;
  wy ← Py.truediv d.2 zoom;
  Py.Ok (view.1 - wx, view.2 - wy).

(** Frames of the loop while the simulation runs: the frame at [tf] in
    [tfs] finds [time_factor = tf] (lines 1139-1142 assign it between two
    frames) and calls [solar_system.update()]. *)
Fixpoint ticks (tfs : list R) (solar_system : SolarSystem.t)
    : Py.result SolarSystem.t :=
  match tfs with
  | [] => Py.Ok solar_system
  | tf :: rest =>
      solar_system ← SolarSystem.update
                        (SolarSystem.set_time_factor tf solar_system);
      ticks rest solar_system
  end.

End Main.

(** ** The event loop of [main] *)

Module MainLoop.

(** The keys [main] tells apart, and the events of [pygame.event.get()]. *)
Inductive key : Set :=
| K_ESCAPE | K_SPACE | K_PLUS | K_EQUALS | K_MINUS | K_r | K_i | K_o
| K_other.

Inductive event : Set :=
| QUIT
| VIDEORESIZE (w h : Z)
| KEYDOWN (k : key)
| MOUSEBUTTONDOWN (button : Z) (pos : Z * Z)
| MOUSEBUTTONUP (button : Z)
| MOUSEMOTION (pos : Z * Z)
| OTHER.

(** The globals and locals of [main] that the handling of events reads or
    writes (lines 1103-1113); the locals of the info panel
    ([last_fps], ...) are not among them. *)
Record state : Type := {
  solar_system : SolarSystem.t;
  WIDTH : Z;
  HEIGHT : Z;
  running : bool;
  paused : bool;
  view_x : R;
  view_y : R;
  zoom : R;
  dragging : bool;
  last_mouse_pos : Z * Z;
  selected_body : option nat;
  info_surface : option Pygame.Surface }.

Definition set_running (v : bool) (st : state) : state :=
  {| solar_system := solar_system st; WIDTH := WIDTH st;
     HEIGHT := HEIGHT st; running := v; paused := paused st;
     view_x := view_x st; view_y := view_y st; zoom := zoom st;
     dragging := dragging st; last_mouse_pos := last_mouse_pos st;
     selected_body := selected_body st; info_surface := info_surface st |}.

Definition set_paused (v : bool) (st : state) : state :=
  {| solar_system := solar_system st; WIDTH := WIDTH st;
     HEIGHT := HEIGHT st; running := running st; paused := v;
     view_x := view_x st; view_y := view_y st; zoom := zoom st;
     dragging := dragging st; last_mouse_pos := last_mouse_pos st;
     selected_body := selected_body st; info_surface := info_surface st |}.

Definition set_zoom (v : R) (st : state) : state :=
  {| solar_system := solar_system st; WIDTH := WIDTH st;
     HEIGHT := HEIGHT st; running := running st; paused := paused st;
     view_x := view_x st; view_y := view_y st; zoom := v;
     dragging := dragging st; last_mouse_pos := last_mouse_pos st;
     selected_body := selected_body st; info_surface := info_surface st |}.

Definition set_solar_system (v : SolarSystem.t) (st : state) : state :=
  {| solar_system := v; WIDTH := WIDTH st; HEIGHT := HEIGHT st;
     running := running st; paused := paused st; view_x := view_x st;
     view_y := view_y st; zoom := zoom st; dragging := dragging st;
     last_mouse_pos := last_mouse_pos st; selected_body := selected_body st;
     info_surface := info_surface st |}.

Definition set_dragging (v : bool) (st : state) : state :=
  {| solar_system := solar_system st; WIDTH := WIDTH st;
     HEIGHT := HEIGHT st; running := running st; paused := paused st;
     view_x := view_x st; view_y := view_y st; zoom := zoom st;
     dragging := v; last_mouse_pos := last_mouse_pos st;
     selected_body := selected_body st; info_surface := info_surface st |}.

Definition set_last_mouse_pos (v : Z * Z) (st : state) : state :=
  {| solar_system := solar_system st; WIDTH := WIDTH st;
     HEIGHT := HEIGHT st; running := running st; paused := paused st;
     view_x := view_x st; view_y := view_y st; zoom := zoom st;
     dragging := dragging st; last_mouse_pos := v;
     selected_body := selected_body st; info_surface := info_surface st |}.

Definition set_selected_body (v : option nat) (st : state) : state :=
  {| solar_system := solar_system st; WIDTH := WIDTH st;
     HEIGHT := HEIGHT st; running := running st; paused := paused st;
     view_x := view_x st; view_y := view_y st; zoom := zoom st;
     dragging := dragging st; last_mouse_pos := last_mouse_pos st;
     selected_body := v; info_surface := info_surface st |}.

Definition set_view (vx vy : R) (st : state) : state :=
  {| solar_system := solar_system st; WIDTH := WIDTH st;
     HEIGHT := HEIGHT st; running := running st; paused := paused st;
     view_x := vx; view_y := vy; zoom := zoom st; dragging := dragging st;
     last_mouse_pos := last_mouse_pos st; selected_body := selected_body st;
     info_surface := info_surface st |}.

Definition set_info_surface (v : option Pygame.Surface) (st : state) : state :=
  {| solar_system := solar_system st; WIDTH := WIDTH st;
     HEIGHT := HEIGHT st; running := running st; paused := paused st;
     view_x := view_x st; view_y := view_y st; zoom := zoom st;
     dragging := dragging st; last_mouse_pos := last_mouse_pos st;
     selected_body := selected_body st; info_surface := v |}.

Definition set_size (w h : Z) (st : state) : state :=
  {| solar_system := solar_system st; WIDTH := w; HEIGHT := h;
     running := running st; paused := paused st; view_x := view_x st;
     view_y := view_y st; zoom := zoom st; dragging := dragging st;
     last_mouse_pos := last_mouse_pos st; selected_body := selected_body st;
     info_surface := info_surface st |}.

(** Lines 1130-1132, for one body: [body.last_zoom = -1],
    [body.orbit_surface = None], [body.facts_surface = None]. *)
Definition clear_caches (body : CelestialBody.t) : CelestialBody.t :=
  {| CelestialBody.x := CelestialBody.x body;
     CelestialBody.y := CelestialBody.y body;
     CelestialBody.radius := CelestialBody.radius body;
     CelestialBody.color := CelestialBody.color body;
     CelestialBody.semi_major_axis := CelestialBody.semi_major_axis body;
     CelestialBody.eccentricity := CelestialBody.eccentricity body;
     CelestialBody.angle := CelestialBody.angle body;
     CelestialBody.base_orbit_speed := CelestialBody.base_orbit_speed body;
     CelestialBody.orbit_speed := CelestialBody.orbit_speed body;
     CelestialBody.parent := CelestialBody.parent body;
     CelestialBody.name := CelestialBody.name body;
     CelestialBody.mass := CelestialBody.mass body;
     CelestialBody.facts := CelestialBody.facts body;
     CelestialBody.orbit_surface := None;
     CelestialBody.orbit_rect := CelestialBody.orbit_rect body;
     CelestialBody.orbit_points := CelestialBody.orbit_points body;
     CelestialBody.label_surface := CelestialBody.label_surface body;
     CelestialBody.facts_surface := None;
     CelestialBody.one_minus_e2 := CelestialBody.one_minus_e2 body;
     CelestialBody.last_zoom := -1;
     CelestialBody.last_width := CelestialBody.last_width body;
     CelestialBody.last_height := CelestialBody.last_height body;
     CelestialBody.last_view_x := CelestialBody.last_view_x body;
     CelestialBody.last_view_y := CelestialBody.last_view_y body |}.

(** [math.hypot]. *)
Definition hypot (a b : R) : R := sqrt (a * a + b * b).

Definition leb (a b : R) : bool := if Rle_dec a b then true else false.

(** Lines 1160-1164: whether the pointer is on [body]. *)
Definition hit (st : state) (mouse_pos : Z * Z) (body : CelestialBody.t)
    : bool :=
  let scaled_x := CelestialBody.scaled_x body (zoom st) (view_x st) (WIDTH st) in
  let scaled_y := CelestialBody.scaled_y body (zoom st) (view_y st) (HEIGHT st) in
  let scaled_radius := CelestialBody.scaled_radius body (zoom st) in
  let dist := hypot (IZR mouse_pos.1 - scaled_x) (IZR mouse_pos.2 - scaled_y) in
  leb dist (Py.max scaled_radius 10).

(** The loop of lines 1159-1171 as far as its [break]: the handle of the
    first body of [bodies] (whose first handle is [i]) that is hit. *)
Fixpoint first_hit (st : state) (mouse_pos : Z * Z) (i : nat)
    (bodies : list CelestialBody.t) : option nat :=
  match bodies with
  | [] => None
  | body :: rest =>
      if hit st mouse_pos body then Some i
      else first_hit st mouse_pos (S i) rest
  end.

Section Events.

(** [selected_body == body] is the [__eq__] that [@dataclass] generates,
    which is not in the source file: [body_eq s j i] stands for it on the
    bodies behind handles [j] and [i] of the store [s]. *)
Variable body_eq : list CelestialBody.t -> nat -> nat -> bool.

(** The literal [planets], as for [create_real_solar_system]. *)
Variable planets : list Catalog.Planet.

(** Lines 1159-1171: the selection after a press of button 1. *)
Definition click (st : state) (mouse_pos : Z * Z) : option nat :=
  let bodies := SolarSystem.bodies (solar_system st) in
  match first_hit st mouse_pos 0 bodies with
  | Some i =>
      match selected_body st with
      | Some j => if body_eq bodies j i then None else Some i
      | None => Some i
      end
  | None => None
  end.

(** Lines 1123-1179: one round of [for event in pygame.event.get()].
    [mouse_pos] is what [pygame.mouse.get_pos()] returned at the top of the
    frame, [rnd] the draws [random.random()] returns during this round. *)
Definition handle_event (mouse_pos : Z * Z) (rnd : nat -> R) (st : state)
    (ev : event) : Py.result state :=
  match ev with
  | QUIT => Py.Ok (set_running false st)
  | VIDEORESIZE w h =>
      let st := set_size w h st in
      let st := set_view (IZR (WIDTH st / 2)) (IZR (HEIGHT st / 2)) st in
      let st :=
        set_solar_system
          (SolarSystem.set_bodies
             (map clear_caches (SolarSystem.bodies (solar_system st)))
             (solar_system st)) st in
      Py.Ok (set_info_surface None st)
  | KEYDOWN K_ESCAPE => Py.Ok (set_running false st)
  | KEYDOWN K_SPACE => Py.Ok (set_paused (negb (paused st)) st)
  | KEYDOWN K_PLUS | KEYDOWN K_EQUALS =>
      Py.Ok (set_solar_system
               (SolarSystem.set_time_factor
                  (Py.min (SolarSystem.time_factor (solar_system st) * 1.5)
                          100)
                  (solar_system st)) st)
  | KEYDOWN K_MINUS =>
      Py.Ok (set_solar_system
               (SolarSystem.set_time_factor
                  (Py.max (SolarSystem.time_factor (solar_system st) / 1.5)
                          0.01)
                  (solar_system st)) st)
  | KEYDOWN K_r =>
      fresh ← create_real_solar_system rnd planets (WIDTH st) (HEIGHT st);
      let st := set_solar_system fresh st in
      let st := set_view (IZR (WIDTH st / 2)) (IZR (HEIGHT st / 2)) st in
      let st := set_zoom 1 st in
      let st := set_selected_body None st in
      Py.Ok (set_info_surface None st)
  | KEYDOWN K_i =>
      let st := set_zoom (zoom st * 1.1) st in
      Py.Ok (set_zoom (Py.max 0.05 (Py.min (zoom st) 5)) st)
  | KEYDOWN K_o =>
      let st := set_zoom (zoom st * 0.909) st in
      Py.Ok (set_zoom (Py.max 0.05 (Py.min (zoom st) 5)) st)
  | KEYDOWN K_other => Py.Ok st
  | MOUSEBUTTONDOWN button pos =>
      if (button =? 1)%Z then
        let st := set_dragging true st in
        let st := set_last_mouse_pos pos st in
        Py.Ok (set_selected_body (click st mouse_pos) st)
      else Py.Ok st
  | MOUSEBUTTONUP button =>
      if (button =? 1)%Z then Py.Ok (set_dragging false st) else Py.Ok st
  | MOUSEMOTION pos =>
      if dragging st then
        let dx := (pos.1 - (last_mouse_pos st).1)%Z in
        let dy := (pos.2 - (last_mouse_pos st).2)%Z in
        view ← Main.drag (zoom st) (view_x st, view_y st) (IZR dx, IZR dy);
        let st := set_view view.1 view.2 st in
        Py.Ok (set_last_mouse_pos pos st)
      else Py.Ok st
  | OTHER => Py.Ok st
  end.

(** The whole loop of line 1122 over the events of one frame, each with
    its draws. *)
Fixpoint handle_events (mouse_pos : Z * Z) (evs : list ((nat -> R) * event))
    (st : state) : Py.result state :=
  match evs with
  | [] => Py.Ok st
  | (rnd, ev) :: rest =>
      st ← handle_event mouse_pos rnd st ev;
      handle_events mouse_pos rest st
  end.

(** Lines 1120-1182: the frame up to and including the step of the
    engine. *)
Definition frame (mouse_pos : Z * Z) (evs : list ((nat -> R) * event))
    (st : state) : Py.result state :=
  st ← handle_events mouse_pos evs st;
  fresh ← Main.step (paused st) (solar_system st);
  Py.Ok (set_solar_system fresh st).

(** Lines 1104-1113: the state [main] starts its loop with. *)
Definition start (rnd : nat -> R) : Py.result state :=
  fresh ← create_real_solar_system rnd planets 1200 800;
  Py.Ok {| solar_system := fresh; WIDTH := 1200; HEIGHT := 800;
           running := true; paused := false;
           view_x := IZR (1200 / 2); view_y := IZR (800 / 2); zoom := 1;
           dragging := false; last_mouse_pos := (0, 0)%Z;
           selected_body := None; info_surface := None |}.

(** Line 1119: [while running:], over the pointer positions and the
    events that the frames to come find. *)
Fixpoint loop (inputs : list ((Z * Z) * list ((nat -> R) * event)))
    (st : state) : Py.result state :=
  match inputs with
  | [] => Py.Ok st
  | (mouse_pos, evs) :: rest =>
      if running st then
        st ← frame mouse_pos evs st;
        loop rest st
      else Py.Ok st
  end.

End Events.

End MainLoop.

(** ** Painting the bodies *)

Module Draw.
Import Pygame.

(** What [draw] does to the surface it is given, and on the way to the
    renderer through [update_orbit_surface]. *)
Inductive paint : Type :=
| Offscreen (c : call)
| Lines (color : Z * Z * Z * Z) (closed : bool) (points : list (Z * Z))
    (width : Z)
| BlitRect (source : Surface) (dest : option Rect)
| Blit (source : Surface) (dest : Z * Z)
| Circle (color : Color) (center : Z * Z) (radius : Z).

Definition set_label_surface (v : option Surface) (self : CelestialBody.t)
    : CelestialBody.t :=
  {| CelestialBody.x := CelestialBody.x self;
     CelestialBody.y := CelestialBody.y self;
     CelestialBody.radius := CelestialBody.radius self;
     CelestialBody.color := CelestialBody.color self;
     CelestialBody.semi_major_axis := CelestialBody.semi_major_axis self;
     CelestialBody.eccentricity := CelestialBody.eccentricity self;
     CelestialBody.angle := CelestialBody.angle self;
     CelestialBody.base_orbit_speed := CelestialBody.base_orbit_speed self;
     CelestialBody.orbit_speed := CelestialBody.orbit_speed self;
     CelestialBody.parent := CelestialBody.parent self;
     CelestialBody.name := CelestialBody.name self;
     CelestialBody.mass := CelestialBody.mass self;
     CelestialBody.facts := CelestialBody.facts self;
     CelestialBody.orbit_surface := CelestialBody.orbit_surface self;
     CelestialBody.orbit_rect := CelestialBody.orbit_rect self;
     CelestialBody.orbit_points := CelestialBody.orbit_points self;
     CelestialBody.label_surface := v;
     CelestialBody.facts_surface := CelestialBody.facts_surface self;
     CelestialBody.one_minus_e2 := CelestialBody.one_minus_e2 self;
     CelestialBody.last_zoom := CelestialBody.last_zoom self;
     CelestialBody.last_width := CelestialBody.last_width self;
     CelestialBody.last_height := CelestialBody.last_height self;
     CelestialBody.last_view_x := CelestialBody.last_view_x self;
     CelestialBody.last_view_y := CelestialBody.last_view_y self |}.

(** [draw], lines 158-161: the body is too far off the viewport. *)
Definition culled (self : CelestialBody.t) (zoom view_x view_y : R)
    (width height : Z) : bool :=
  let scaled_x := CelestialBody.scaled_x self zoom view_x width in
  let scaled_y := CelestialBody.scaled_y self zoom view_y height in
  let margin := 0.5 * IZR (Z.max width height) in
  Py.ltb scaled_x (- margin) || Py.ltb (IZR width + margin) scaled_x
  || Py.ltb scaled_y (- margin) || Py.ltb (IZR height + margin) scaled_y.

(** [draw], lines 165-174: the orbit of a body whose parent is not named
    ["Sun"], as 30 points in whole pixels. *)
Definition orbit_pixels (self parent_ : CelestialBody.t)
    (zoom view_x view_y : R) (width height : Z) : Py.result (list (Z * Z)) :=
  root ← Py.sqrt (CelestialBody.one_minus_e2 self);
  let b := CelestialBody.semi_major_axis self * root in
  Py.Ok (map (fun pt : R * R =>
                (Py.int ((pt.1 + CelestialBody.x parent_ - view_x) * zoom
                         + IZR (width / 2)),
                 Py.int ((pt.2 + CelestialBody.y parent_ - view_y) * zoom
                         + IZR (height / 2))))
             (CelestialBody.sample_orbit (CelestialBody.semi_major_axis self)
                b)).

Section Font.

(** [font.render(text, True, WHITE)]. *)
Variable render : string -> Surface.

(** [draw], lines 163-178: the orbit of the body behind handle [i]. *)
Definition draw_orbit (s : list CelestialBody.t) (i : nat)
    (zoom view_x view_y : R) (width height : Z)
    : Py.result (list CelestialBody.t * list paint) :=
  self ← CelestialBody.deref s i;
  match CelestialBody.parent self with
  | None => Py.Ok (s, [])
  | Some p =>
      parent_ ← CelestialBody.deref s p;
      if negb (String.eqb (CelestialBody.name parent_) "Sun") then
        points ← orbit_pixels self parent_ zoom view_x view_y width height;
        Py.Ok (s, [Lines (50, 50, 50, 64)%Z true points 1])
      else
        updated ← CelestialBody.update_orbit_surface s i zoom view_x view_y
                     width height;
        self ← CelestialBody.deref updated.1 i;
        match CelestialBody.orbit_surface self with
        | Some orbit_surface =>
            Py.Ok (updated.1,
                   map Offscreen updated.2
                   ++ [BlitRect orbit_surface (CelestialBody.orbit_rect self)])
        | None => Py.Ok (updated.1, map Offscreen updated.2)
        end
  end.

(** [draw], lines 182-186: the label of the body behind handle [i]. *)
Definition draw_label (s : list CelestialBody.t) (i : nat)
    (scaled_x scaled_y scaled_radius : R) (height : Z)
    : Py.result (list CelestialBody.t * list paint) :=
  self ← CelestialBody.deref s i;
  if negb (String.eqb (CelestialBody.name self) "")
     && Py.ltb 1 scaled_radius
  then
    let label_surface :=
      match CelestialBody.label_surface self with
      | None => render (CelestialBody.name self)
      | Some label_surface => label_surface
      end in
    let s :=
      match CelestialBody.label_surface self with
      | None => <[i := set_label_surface (Some label_surface) self]> s
      | Some _ => s
      end in
    let offset_y :=
      if Py.ltb scaled_y (IZR (height / 2)) then - scaled_radius - 15
      else scaled_radius + 5 in
    Py.Ok (s, [Blit label_surface
                 (Py.int (scaled_x - IZR (surf_width label_surface / 2)),
                  Py.int (scaled_y + offset_y))])
  else Py.Ok (s, []).

(** [def draw(self, surface, zoom, view_x, view_y, width, height)] of
    [CelestialBody], on the body behind handle [i]. *)
Definition draw_body (s : list CelestialBody.t) (i : nat)
    (zoom view_x view_y : R) (width height : Z)
    : Py.result (list CelestialBody.t * list paint) :=
  self ← CelestialBody.deref s i;
  let scaled_x := CelestialBody.scaled_x self zoom view_x width in
  let scaled_y := CelestialBody.scaled_y self zoom view_y height in
  let scaled_radius := CelestialBody.scaled_radius self zoom in
  if culled self zoom view_x view_y width height then Py.Ok (s, [])
  else
    orbit ← draw_orbit s i zoom view_x view_y width height;
    let circle :=
      Circle (CelestialBody.color self) (Py.int scaled_x, Py.int scaled_y)
        (Z.max 1 (Py.int scaled_radius)) in
    label ← draw_label orbit.1 i scaled_x scaled_y scaled_radius height;
    Py.Ok (label.1, orbit.2 ++ [circle] ++ label.2).

(** [def draw(self, surface, zoom, view_x, view_y, width, height)] of
    [SolarSystem]: [for body in self.bodies], in list order. *)
Fixpoint draw_bodies (idxs : list nat) (s : list CelestialBody.t)
    (zoom view_x view_y : R) (width height : Z)
    : Py.result (list CelestialBody.t * list paint) :=
  match idxs with
  | [] => Py.Ok (s, [])
  | i :: rest =>
      first ← draw_body s i zoom view_x view_y width height;
      others ← draw_bodies rest first.1 zoom view_x view_y width height;
      Py.Ok (others.1, first.2 ++ others.2)
  end.

Definition draw (self : SolarSystem.t) (zoom view_x view_y : R)
    (width height : Z) : Py.result (SolarSystem.t * list paint) :=
  drawn ← draw_bodies (seq 0 (length (SolarSystem.bodies self)))
             (SolarSystem.bodies self) zoom view_x view_y width height;
  Py.Ok (SolarSystem.set_bodies drawn.1 self, drawn.2).

End Font.

End Draw.

(** ** The facts panel *)

Module Facts.
Import Pygame.

(** What [update_facts_surface] asks of the renderer. *)
Inductive op : Type :=
| NewSurface (w h : Z)
| DrawRect (color : Z * Z * Z * Z) (rect : Z * Z * Z * Z) (border_radius : Z)
| BlitLine (source : Surface) (dest : Z * Z).

Definition set_facts_surface (v : option Surface) (self : CelestialBody.t)
    : CelestialBody.t :=
  {| CelestialBody.x := CelestialBody.x self;
     CelestialBody.y := CelestialBody.y self;
     CelestialBody.radius := CelestialBody.radius self;
     CelestialBody.color := CelestialBody.color self;
     CelestialBody.semi_major_axis := CelestialBody.semi_major_axis self;
     CelestialBody.eccentricity := CelestialBody.eccentricity self;
     CelestialBody.angle := CelestialBody.angle self;
     CelestialBody.base_orbit_speed := CelestialBody.base_orbit_speed self;
     CelestialBody.orbit_speed := CelestialBody.orbit_speed self;
     CelestialBody.parent := CelestialBody.parent self;
     CelestialBody.name := CelestialBody.name self;
     CelestialBody.mass := CelestialBody.mass self;
     CelestialBody.facts := CelestialBody.facts self;
     CelestialBody.orbit_surface := CelestialBody.orbit_surface self;
     CelestialBody.orbit_rect := CelestialBody.orbit_rect self;
     CelestialBody.orbit_points := CelestialBody.orbit_points self;
     CelestialBody.label_surface := CelestialBody.label_surface self;
     CelestialBody.facts_surface := v;
     CelestialBody.one_minus_e2 := CelestialBody.one_minus_e2 self;
     CelestialBody.last_zoom := CelestialBody.last_zoom self;
     CelestialBody.last_width := CelestialBody.last_width self;
     CelestialBody.last_height := CelestialBody.last_height self;
     CelestialBody.last_view_x := CelestialBody.last_view_x self;
     CelestialBody.last_view_y := CelestialBody.last_view_y self |}.

(** Lines 137-139: [f"{key}: {value}"] for the items of [facts], whose
    values are strings. *)
Definition fact_lines (facts : list (string * string)) : list string :=
  map (fun item => String.append item.1 (String.append ": " item.2)) facts.

(** Line 135: [not self.facts]. *)
Definition no_facts (self : CelestialBody.t) : bool :=
  match CelestialBody.facts self with
  | Some (_ :: _) => false
  | _ => true
  end.

Section Font.

(** [facts_font.render(line, True, WHITE)]. *)
Variable render : string -> Surface.

(** [def update_facts_surface(self, width, height)], on the body behind
    handle [i]. *)
Definition update_facts_surface (s : list CelestialBody.t) (i : nat)
    (width height : Z) : Py.result (list CelestialBody.t * list op) :=
  self ← CelestialBody.deref s i;
  if bool_decide (is_Some (CelestialBody.facts_surface self)) || no_facts self
  then Py.Ok (s, [])
  else
    let lines := fact_lines (default [] (CelestialBody.facts self)) in
    let line_surfaces := map render lines in
    let max_width :=
      foldl (fun max_width surf => Z.max max_width (surf_width surf)) 0%Z
        line_surfaces in
    let box_width := (max_width + 24)%Z in
    let box_height := (Z.of_nat (length lines) * 20 + 24)%Z in
    let facts_surface :=
      {| surf_width := box_width; surf_height := box_height;
         surf_lines := [] |} in
    let s := <[i := set_facts_surface (Some facts_surface) self]> s in
    Py.Ok (s,
           NewSurface box_width box_height
           :: DrawRect (0, 0, 0, 128)%Z (0, 0, box_width, box_height)%Z 6
           :: imap (fun k surf =>
                      BlitLine surf (12, 12 + Z.of_nat k * 20)%Z)
                   line_surfaces).

(** [main], lines 1187-1196: the facts of the selected body beside the
    pointer; the result holds what is blitted on the screen, and where. *)
Definition facts_panel (s : list CelestialBody.t)
    (selected_body : option nat) (mouse_pos : Z * Z) (WIDTH HEIGHT : Z)
    : Py.result (list CelestialBody.t * list op * option (Surface * (Z * Z))) :=
  match selected_body with
  | None => Py.Ok (s, [], None)
  | Some i =>
      updated ← update_facts_surface s i WIDTH HEIGHT;
      self ← CelestialBody.deref updated.1 i;
      match CelestialBody.facts_surface self with
      | None => Py.Ok (updated.1, updated.2, None)
      | Some facts_surface =>
          let facts_x := (mouse_pos.1 + 20)%Z in
          let facts_y := (mouse_pos.2 + 20)%Z in
          let facts_x :=
            if (WIDTH <? facts_x + surf_width facts_surface)%Z
            then (mouse_pos.1 - surf_width facts_surface - 20)%Z
            else facts_x in
          let facts_y :=
            if (HEIGHT <? facts_y + surf_height facts_surface)%Z
            then (mouse_pos.2 - surf_height facts_surface - 20)%Z
            else facts_y in
          Py.Ok (updated.1, updated.2,
                 Some (facts_surface, (facts_x, facts_y)))
      end
  end.

End Font.

End Facts.

(** ** Vocabulary of the properties *)

Abbreviation body := CelestialBody.t.
Abbreviation store := (list CelestialBody.t).

(** The position of a body, and the distance between two positions. *)
Definition position (b : body) : R * R :=
  (CelestialBody.x b, CelestialBody.y b).

Definition distance (p q : R * R) : R :=
  sqrt ((p.1 - q.1) * (p.1 - q.1) + (p.2 - q.2) * (p.2 - q.2)).

(** What no method of the engine assigns to. *)
Definition same_elements (b b' : body) : Prop :=
  CelestialBody.base_orbit_speed b' = CelestialBody.base_orbit_speed b
  /\ CelestialBody.semi_major_axis b' = CelestialBody.semi_major_axis b
  /\ CelestialBody.eccentricity b' = CelestialBody.eccentricity b
  /\ CelestialBody.radius b' = CelestialBody.radius b
  /\ CelestialBody.parent b' = CelestialBody.parent b
  /\ CelestialBody.name b' = CelestialBody.name b
  /\ CelestialBody.one_minus_e2 b' = CelestialBody.one_minus_e2 b.

(** The body an orbiting body becomes, given where its parent is. *)
Definition resolve (b : body) (parent_x parent_y : R) : Py.result body :=
  let M := Py.fmod (CelestialBody.angle b + CelestialBody.orbit_speed b)
                   (2 * PI) in
  let E := CelestialBody.kepler_E M (CelestialBody.eccentricity b) in
  nu ← CelestialBody.true_anomaly (CelestialBody.eccentricity b) E;
  r ← CelestialBody.orbit_radius b nu;
  Py.Ok (CelestialBody.set_y (parent_y + r * sin nu)
           (CelestialBody.set_x (parent_x + r * cos nu)
              (CelestialBody.set_angle M b))).

(** The scenes the constructors build from elements in range: a star has
    no speed of its own, a child comes after its parent, and
    [0 <= e < 1] with [one_minus_e2 = 1 - e * e]. *)
Definition well_formed (s : store) : Prop :=
  forall (i : nat) (b : body), s !! i = Some b ->
    match CelestialBody.parent b with
    | None => CelestialBody.orbit_speed b = 0
    | Some p =>
        (p < i)%nat
        /\ 0 <= CelestialBody.eccentricity b < 1
        /\ CelestialBody.one_minus_e2 b =
             1 - CelestialBody.eccentricity b * CelestialBody.eccentricity b
    end.

(** What a run of the loop of [SolarSystem.update] at [tf] may do to the
    store: no body appears or goes, no element changes, a parentless body
    keeps its place and speed, and a speed is either kept or set from the
    base speed. *)
Definition tick_rel (tf : R) (s s' : store) : Prop :=
  forall (j : nat) (b : body), s !! j = Some b ->
    exists b', s' !! j = Some b' /\ same_elements b b'
      /\ (CelestialBody.parent b = None ->
          CelestialBody.x b' = CelestialBody.x b
          /\ CelestialBody.y b' = CelestialBody.y b
          /\ CelestialBody.orbit_speed b' = CelestialBody.orbit_speed b)
      /\ (CelestialBody.orbit_speed b' = CelestialBody.orbit_speed b
          \/ CelestialBody.orbit_speed b' =
               CelestialBody.base_orbit_speed b * tf).

(** What any number of updates may do: elements and the places of the
    parentless bodies stay. *)
Definition keeps (s s' : store) : Prop :=
  forall (j : nat) (b : body), s !! j = Some b ->
    exists b', s' !! j = Some b' /\ same_elements b b'
      /\ (CelestialBody.parent b = None ->
          CelestialBody.x b' = CelestialBody.x b
          /\ CelestialBody.y b' = CelestialBody.y b
          /\ CelestialBody.orbit_speed b' = CelestialBody.orbit_speed b).

(** A body sits where [update] puts it for its present angle and the
    present place of its parent, and its angle is reduced modulo a turn.
    A store is settled when all its bodies are: the state any completed
    [update] leaves behind. *)
Definition settled_at (s : store) (b : body) : Prop :=
  0 <= CelestialBody.angle b < 2 * PI
  /\ match CelestialBody.parent b with
     | None => True
     | Some p =>
         exists (pb : body) (nu r : R),
           s !! p = Some pb
           /\ CelestialBody.true_anomaly (CelestialBody.eccentricity b)
                (CelestialBody.kepler_E (CelestialBody.angle b)
                   (CelestialBody.eccentricity b)) = Py.Ok nu
           /\ CelestialBody.orbit_radius b nu = Py.Ok r
           /\ CelestialBody.x b = CelestialBody.x pb + r * cos nu
           /\ CelestialBody.y b = CelestialBody.y pb + r * sin nu
     end.

Definition settled (s : store) : Prop :=
  forall (i : nat) (b : body), s !! i = Some b -> settled_at s b.

(** No body's mean anomaly or position differs between [s] and [s']. *)
Definition same_kinematics (s s' : store) : Prop :=
  length s' = length s
  /\ forall (j : nat) (b : body), s !! j = Some b ->
       exists b', s' !! j = Some b'
         /\ CelestialBody.angle b' = CelestialBody.angle b
         /\ CelestialBody.x b' = CelestialBody.x b
         /\ CelestialBody.y b' = CelestialBody.y b.

(** The same, with the elements and the speed of the parentless bodies. *)
Definition kin_equiv (s s' : store) : Prop :=
  length s' = length s
  /\ forall (j : nat) (b : body), s !! j = Some b ->
       exists b', s' !! j = Some b' /\ same_elements b b'
         /\ CelestialBody.angle b' = CelestialBody.angle b
         /\ CelestialBody.x b' = CelestialBody.x b
         /\ CelestialBody.y b' = CelestialBody.y b
         /\ (CelestialBody.parent b = None ->
             CelestialBody.orbit_speed b' = CelestialBody.orbit_speed b).

(** Every mean anomaly is reduced modulo a turn, as the constructors and
    [update] leave it. *)
Definition angles_reduced (s : store) : Prop :=
  forall (i : nat) (b : body), s !! i = Some b ->
    0 <= CelestialBody.angle b < 2 * PI.

(** No body's mean anomaly differs between [s] and [s']. *)
Definition same_angles (s s' : store) : Prop :=
  length s' = length s
  /\ forall (j : nat) (b : body), s !! j = Some b ->
       exists b', s' !! j = Some b'
         /\ CelestialBody.angle b' = CelestialBody.angle b.

(** The same, with the elements and what the parentless bodies keep. *)
Definition angle_equiv (s s' : store) : Prop :=
  length s' = length s
  /\ forall (j : nat) (b : body), s !! j = Some b ->
       exists b', s' !! j = Some b' /\ same_elements b b'
         /\ CelestialBody.angle b' = CelestialBody.angle b
         /\ (CelestialBody.parent b = None ->
             CelestialBody.x b' = CelestialBody.x b
             /\ CelestialBody.y b' = CelestialBody.y b
             /\ CelestialBody.orbit_speed b' = CelestialBody.orbit_speed b).

(** A star of radius 5 and one planet around it, built by the
    constructors: the smallest scene with an orbit. *)
Definition star_and_planet (star_x star_y a e u speed : R)
    : Py.result SolarSystem.t :=
  let built :=
    SolarSystem.add_star SolarSystem.init star_x star_y 5
      (255, 255, 190)%Z "Sun" 0 None in
  built ← SolarSystem.add_planet u built.1 built.2 a 1 (50, 100, 200)%Z
             speed e "Planet" 0 None;
  Py.Ok built.1.

(** How many surfaces a method built: the [NewSurface] calls it made. *)
Fixpoint rebuilds (calls : list Pygame.call) : nat :=
  match calls with
  | [] => 0
  | Pygame.NewSurface _ _ :: rest => S (rebuilds rest)
  | Pygame.DrawLines _ :: rest => rebuilds rest
  end.

(** The camera transform in the words of the specification:
    [((p.x - pan.x) * zoom + viewport.w / 2,
      (p.y - pan.y) * zoom + viewport.h / 2)]. *)
Definition world_to_screen_spec (p pan : R * R) (zoom : R) (w h : Z) : R * R :=
  ((p.1 - pan.1) * zoom + IZR w / 2, (p.2 - pan.2) * zoom + IZR h / 2).

(** Entries for small catalogues: the Sun of lines 252-259 (without its
    facts), a planet of radius 1000 km with a given orbital period and
    given moons, and a moon of radius 1000 km with a given period. *)
Definition sun_entry : Catalog.Planet :=
  {| Catalog.name := "Sun"; Catalog.mass := 1.989e30;
     Catalog.radius := 696340; Catalog.orbit_radius := 0;
     Catalog.orbital_period := 0; Catalog.eccentricity := 0;
     Catalog.color := (255, 255, 190)%Z; Catalog.facts := None;
     Catalog.moons := None |}.

Definition planet_entry (period : R) (moons : option (list Catalog.Moon))
    : Catalog.Planet :=
  {| Catalog.name := "Planet"; Catalog.mass := 1;
     Catalog.radius := 1000; Catalog.orbit_radius := 1000000000;
     Catalog.orbital_period := period; Catalog.eccentricity := 0;
     Catalog.color := (50, 100, 200)%Z; Catalog.facts := None;
     Catalog.moons := moons |}.

Definition moon_entry (period : R) : Catalog.Moon :=
  {| Catalog.moon_name := "Moon"; Catalog.moon_mass := 1;
     Catalog.moon_radius := 1000; Catalog.moon_orbit_radius := 1000000;
     Catalog.moon_orbital_period := period; Catalog.moon_eccentricity := 0;
     Catalog.moon_facts := None |}.

(** A catalogue whose orbiting entries have eccentricities in range. *)
Definition moons_in_range (moons : list Catalog.Moon) : Prop :=
  Forall (fun m => 0 <= Catalog.moon_eccentricity m < 1) moons.

Definition planets_in_range (planets : list Catalog.Planet) : Prop :=
  Forall (fun e => 0 <= Catalog.eccentricity e < 1
                   /\ moons_in_range (default [] (Catalog.moons e)))
         planets.

(** [b'] is [b] but for [angle], [x], [y] and [orbit_speed]. *)
Definition moved (b b' : body) : Prop :=
  b' = CelestialBody.set_orbit_speed (CelestialBody.orbit_speed b')
         (CelestialBody.set_y (CelestialBody.y b')
            (CelestialBody.set_x (CelestialBody.x b')
               (CelestialBody.set_angle (CelestialBody.angle b') b))).

(** The scenes that calls of the methods of [SolarSystem] reach from
    [SolarSystem()] when every planet and every moon is given a body of
    the scene itself as its parent.  The methods do not ask for that: they
    take any object as [parent]; a parent from elsewhere has no handle
    here, and such scenes are not among these. *)
Inductive built : SolarSystem.t -> Prop :=
| built_init : built SolarSystem.init
| built_star (ss : SolarSystem.t) (x y radius : R) (color : Pygame.Color)
    (name : string) (mass : R) (facts : option (list (string * string))) :
    built ss ->
    built (SolarSystem.add_star ss x y radius color name mass facts).1
| built_planet (u : R) (ss ss' : SolarSystem.t) (parent h : nat)
    (a radius : R) (color : Pygame.Color) (speed e : R) (name : string)
    (mass : R) (facts : option (list (string * string))) :
    built ss ->
    (parent < length (SolarSystem.bodies ss))%nat ->
    SolarSystem.add_planet u ss parent a radius color speed e name mass facts
      = Py.Ok (ss', h) ->
    built ss'
| built_moon (u : R) (ss ss' : SolarSystem.t) (parent h : nat)
    (a radius speed e : R) (name : string) (mass : R)
    (facts : option (list (string * string))) :
    built ss ->
    (parent < length (SolarSystem.bodies ss))%nat ->
    SolarSystem.add_moon u ss parent a radius speed e name mass facts
      = Py.Ok (ss', h) ->
    built ss'
| built_update (ss ss' : SolarSystem.t) :
    built ss -> SolarSystem.update ss = Py.Ok ss' -> built ss'
| built_time_factor (tf : R) (ss : SolarSystem.t) :
    built ss -> built (SolarSystem.set_time_factor tf ss).

(** The scene graph: [stars], [planets] and [moons] share out the handles
    of [bodies], the stars are the bodies without a parent, and a parent
    comes before its children. *)
Definition scene_graph (ss : SolarSystem.t) : Prop :=
  SolarSystem.stars ss ++ SolarSystem.planets ss ++ SolarSystem.moons ss
    ≡ₚ seq 0 (length (SolarSystem.bodies ss))
  /\ (forall (h : nat) (b : body), SolarSystem.bodies ss !! h = Some b ->
        h ∈ SolarSystem.stars ss <-> CelestialBody.parent b = None)
  /\ (forall (h p : nat) (b : body), SolarSystem.bodies ss !! h = Some b ->
        CelestialBody.parent b = Some p -> (p < h)%nat).

(** A call that returns. *)
Definition returns {A : Type} (m : Py.result A) : Prop :=
  exists a : A, m = Py.Ok a.

(** What [create_real_solar_system] needs of a catalogue: a first entry
    (the star), and for every later entry a positive radius and a colour
    (its own up to index 8, that of its name in [DWARF_PLANET_COLORS]
    beyond), with moons of positive radius and non-zero period. *)
Definition moon_buildable (m : Catalog.Moon) : Prop :=
  0 < Catalog.moon_radius m /\ Catalog.moon_orbital_period m <> 0.

Definition planet_buildable (i : nat) (e : Catalog.Planet) : Prop :=
  0 < Catalog.radius e
  /\ returns (Catalog.planet_color i e)
  /\ Forall moon_buildable (default [] (Catalog.moons e)).

Fixpoint planets_buildable (i : nat) (entries : list Catalog.Planet) : Prop :=
  match entries with
  | [] => True
  | e :: rest => planet_buildable i e /\ planets_buildable (S i) rest
  end.

Definition catalog_buildable (planets : list Catalog.Planet) : Prop :=
  match planets with
  | [] => False
  | _ :: rest => planets_buildable 1 rest
  end.

(** A scene of two levels under the star with handle 0: the planets
    orbit the star, the moons orbit planets. *)
Definition two_level (ss : SolarSystem.t) : Prop :=
  SolarSystem.stars ss = [0%nat]
  /\ (forall h : nat, h ∈ SolarSystem.planets ss ->
        exists b : body,
          SolarSystem.bodies ss !! h = Some b
          /\ CelestialBody.parent b = Some 0%nat)
  /\ (forall h : nat, h ∈ SolarSystem.moons ss ->
        exists (b : body) (p : nat),
          SolarSystem.bodies ss !! h = Some b
          /\ CelestialBody.parent b = Some p
          /\ p ∈ SolarSystem.planets ss).

(** The number of moons in a list of entries. *)
Definition moon_count (entries : list Catalog.Planet) : nat :=
  sum_list (map (fun e => length (default [] (Catalog.moons e))) entries).

(** The limits the keys keep the zoom and the time factor in. *)
Definition within_limits (st : MainLoop.state) : Prop :=
  0.05 <= MainLoop.zoom st <= 5
  /\ 0.01 <= SolarSystem.time_factor (MainLoop.solar_system st) <= 100.

(** Where [body] is on the screen of [st]. *)
Definition on_screen (st : MainLoop.state) (b : body) : R * R :=
  (CelestialBody.scaled_x b (MainLoop.zoom st) (MainLoop.view_x st)
     (MainLoop.WIDTH st),
   CelestialBody.scaled_y b (MainLoop.zoom st) (MainLoop.view_y st)
     (MainLoop.HEIGHT st)).

(** The pointer is on [b]: within [max(radius * zoom, 10)] pixels of where
    [b] is on the screen. *)
Definition under_pointer (st : MainLoop.state) (mouse_pos : Z * Z) (b : body)
    : Prop :=
  distance (IZR mouse_pos.1, IZR mouse_pos.2) (on_screen st b)
    <= Py.max (CelestialBody.radius b * MainLoop.zoom st) 10.

(** Pointer moves to the positions [poss], one event each. *)
Definition pointer_moves (rnd : nat -> R) (poss : list (Z * Z))
    : list ((nat -> R) * MainLoop.event) :=
  map (fun pos => (rnd, MainLoop.MOUSEMOTION pos)) poss.

(** A body without what [draw] keeps for later frames (the orbit surface
    with its rect, points and camera, and the label), and a scene of such
    bodies: what the engine works on. *)
Definition uncached (b : body) : body :=
  Draw.set_label_surface None
    (CelestialBody.set_orbit_rect None
       (CelestialBody.set_orbit_surface None
          (CelestialBody.set_orbit_points None
             (CelestialBody.set_last_view 0 0 0 0 0 b)))).

Definition simulation (ss : SolarSystem.t) : SolarSystem.t :=
  SolarSystem.set_bodies (map uncached (SolarSystem.bodies ss)) ss.

Definition result_map {A B : Type} (f : A -> B) (m : Py.result A)
    : Py.result B :=
  match m with
  | Py.Ok a => Py.Ok (f a)
  | Py.Raise e => Py.Raise e
  end.

(** The disc [draw] paints for [b]. *)
Definition disc_of (zoom view_x view_y : R) (width height : Z) (b : body)
    : Pygame.Color * (Z * Z) * Z :=
  (CelestialBody.color b,
   (Py.int (CelestialBody.scaled_x b zoom view_x width),
    Py.int (CelestialBody.scaled_y b zoom view_y height)),
   Z.max 1 (Py.int (CelestialBody.scaled_radius b zoom))).

(** The discs among what was painted. *)
Fixpoint discs (paints : list Draw.paint)
    : list (Pygame.Color * (Z * Z) * Z) :=
  match paints with
  | [] => []
  | Draw.Circle color center radius :: rest =>
      (color, center, radius) :: discs rest
  | _ :: rest => discs rest
  end.

(** The body is within the margin of half the longer side around the
    viewport. *)
Definition in_sight (b : body) (zoom view_x view_y : R) (width height : Z)
    : Prop :=
  let margin := 0.5 * IZR (Z.max width height) in
  - margin <= CelestialBody.scaled_x b zoom view_x width <= IZR width + margin
  /\ - margin <= CelestialBody.scaled_y b zoom view_y height
     <= IZR height + margin.





(** The iteration as the specification words it: [E <- M], then [n]
    repetitions of [E <- M + e sin E]. *)
Fixpoint kepler_spec (n : nat) (M e : R) : R :=
  match n with
  | O => M
  | S k => M + e * sin (kepler_spec k M e)
  end.

(** The bodies that the loops of [create_real_solar_system] append for
    [entries], the first of them under handle [h]: each planet, with its
    name and its parent [sun], followed by its moons, with their names
    and that planet as their parent; and the handles of the planets and
    of the moons among them. *)
Fixpoint family_tree (sun h : nat) (entries : list Catalog.Planet)
    : list (string * option nat) :=
  match entries with
  | [] => []
  | e :: rest =>
      let moons := default [] (Catalog.moons e) in
      (Catalog.name e, Some sun)
      :: map (fun m => (Catalog.moon_name m, Some h)) moons
      ++ family_tree sun (h + 1 + length moons) rest
  end.

Fixpoint planet_handles (h : nat) (entries : list Catalog.Planet)
    : list nat :=
  match entries with
  | [] => []
  | e :: rest =>
      h :: planet_handles (h + 1 + length (default [] (Catalog.moons e))) rest
  end.

Fixpoint moon_handles (h : nat) (entries : list Catalog.Planet) : list nat :=
  match entries with
  | [] => []
  | e :: rest =>
      let moons := default [] (Catalog.moons e) in
      seq (h + 1) (length moons) ++ moon_handles (h + 1 + length moons) rest
  end.

(** The name and the parent of a body. *)
Definition name_and_parent (b : body) : string * option nat :=
  (CelestialBody.name b, CelestialBody.parent b).

(** ** The arithmetic primitives *)

Section Primitives.

Lemma bind_Ok {A B : Type} (m : Py.result A) (k : A -> Py.result B) (v : B) :
  m ≫= k = Py.Ok v -> exists a, m = Py.Ok a /\ k a = Py.Ok v.
Proof.
  destruct m as [a|e]; simpl; intros H; [eauto | discriminate].
Qed.

Lemma sqrt_Ok (v : R) : 0 <= v -> Py.sqrt v = Py.Ok (sqrt v).
Proof.
  intros Hv. unfold Py.sqrt. destruct (Rlt_dec v 0); [lra | reflexivity].
Qed.

Lemma truediv_Ok (u v : R) : v <> 0 -> Py.truediv u v = Py.Ok (u / v).
Proof.
  intros Hv. unfold Py.truediv. destruct (Req_dec_T v 0); [contradiction | reflexivity].
Qed.

Lemma truediv_zero (u : R) : Py.truediv u 0 = Py.Raise Py.ZeroDivisionError.
Proof.
  unfold Py.truediv. destruct (Req_dec_T 0 0); [reflexivity | contradiction].
Qed.

Lemma Int_part_unit (v : R) : 0 <= v < 1 -> Int_part v = 0%Z.
Proof.
  intros Hv. symmetry. apply Int_part_spec. simpl. lra.
Qed.

Lemma fmod_small (v m : R) : 0 <= v < m -> Py.fmod v m = v.
Proof.
  intros Hv. unfold Py.fmod.
  rewrite Int_part_unit; [simpl; lra |].
  assert (0 < m) by lra. split.
  - apply Rmult_le_pos; [lra | left; apply Rinv_0_lt_compat; lra].
  - apply (Rmult_lt_reg_r m); [lra |]. unfold Rdiv.
    rewrite Rmult_assoc, Rinv_l by lra. lra.
Qed.

Lemma fmod_range (v m : R) : 0 < m -> 0 <= Py.fmod v m < m.
Proof.
  intros Hm. unfold Py.fmod.
  destruct (base_Int_part (v / m)) as [Hlo Hhi].
  assert (Hv : v = v / m * m) by (field; lra).
  split.
  - apply (Rmult_le_compat_r m) in Hlo; lra.
  - assert (v / m - IZR (Int_part (v / m)) < 1) as Hlt by lra.
    apply (Rmult_lt_compat_r m) in Hlt; lra.
Qed.

Lemma two_PI_pos : 0 < 2 * PI.
Proof. pose proof PI_RGT_0. lra. Qed.

Lemma atan2_1_0 : Py.atan2 1 0 = PI / 2.
Proof.
  unfold Py.atan2.
  destruct (Rlt_dec 0 0); [lra |].
  destruct (Rlt_dec 0 1); [reflexivity | lra].
Qed.

Lemma atan2_0_pos (v : R) : 0 < v -> Py.atan2 0 v = 0.
Proof.
  intros Hv. unfold Py.atan2.
  destruct (Rlt_dec 0 v); [| lra].
  unfold Rdiv. rewrite Rmult_0_l. apply atan_0.
Qed.

(** The primitives on the inputs where Python differs from the C
    conventions: [-1 % (2 * math.pi)] is positive, [int(-1.5)] is [-1],
    and [math.atan2(0.0, -1.0)] is [math.pi]. *)
Example fmod_negative : Py.fmod (-1) (2 * PI) = 2 * PI - 1.
Proof.
  unfold Py.fmod. pose proof PI2_3_2 as HPI.
  assert (1 < 2 * PI) as H1 by (unfold Rdiv in HPI; lra).
  replace (Int_part (-1 / (2 * PI))) with (-1)%Z; [lra |].
  apply Int_part_spec.
  assert (0 < / (2 * PI) < 1) as [Hlo Hhi].
  { split; [apply Rinv_0_lt_compat; lra |].
    rewrite <- Rinv_1. apply Rinv_lt_contravar; lra. }
  unfold Rdiv. lra.
Qed.

Example int_truncates : Py.int (-3 / 2) = (-1)%Z /\ Py.int (3 / 2) = 1%Z.
Proof.
  unfold Py.int. split.
  - destruct (Rle_dec 0 (-3 / 2)); [lra |].
    replace (Int_part (- (-3 / 2))) with 1%Z; [reflexivity |].
    apply Int_part_spec. lra.
  - destruct (Rle_dec 0 (3 / 2)); [| lra]. symmetry.
    apply Int_part_spec. lra.
Qed.

Example atan2_negative_axis : Py.atan2 0 (-1) = PI.
Proof.
  unfold Py.atan2.
  destruct (Rlt_dec 0 (-1)); [lra |]. destruct (Rlt_dec (-1) 0); [| lra].
  destruct (Rle_dec 0 0); [| lra].
  unfold Rdiv. rewrite Rmult_0_l, atan_0. lra.
Qed.

End Primitives.

(** ** Reading and writing the store *)

Section Store.

Implicit Types (s : store) (b : body) (i j p : nat).

Lemma deref_Ok s i b : CelestialBody.deref s i = Py.Ok b <-> s !! i = Some b.
Proof.
  unfold CelestialBody.deref. destruct (s !! i); split; intros H;
    inversion H; reflexivity.
Qed.

Lemma deref_lookup s i b : s !! i = Some b -> CelestialBody.deref s i = Py.Ok b.
Proof. apply deref_Ok. Qed.

Lemma deref_insert_eq s i b b0 :
  s !! i = Some b0 -> CelestialBody.deref (<[i := b]> s) i = Py.Ok b.
Proof.
  intros H. apply deref_lookup, list_lookup_insert_eq.
  eapply lookup_lt_Some, H.
Qed.

Lemma deref_insert_ne s i j b :
  i <> j -> CelestialBody.deref (<[i := b]> s) j = CelestialBody.deref s j.
Proof.
  intros H. unfold CelestialBody.deref. rewrite list_lookup_insert_ne by done.
  reflexivity.
Qed.

End Store.

(** ** One call of [CelestialBody.update] *)

Section Update.

Implicit Types (s : store) (b : body) (i j p : nat).

(** A parentless body: only the angle advances. *)
Lemma update_root s i b :
  s !! i = Some b -> CelestialBody.parent b = None ->
  CelestialBody.update s i =
    Py.Ok (<[i := CelestialBody.set_angle
                 (Py.fmod (CelestialBody.angle b + CelestialBody.orbit_speed b)
                          (2 * PI)) b]> s).
Proof.
  intros Hb Hp. unfold CelestialBody.update.
  rewrite (deref_lookup _ _ _ Hb). simpl.
  rewrite (deref_insert_eq _ _ _ _ Hb). simpl. rewrite Hp. reflexivity.
Qed.

Lemma update_child s i p b pb :
  s !! i = Some b -> CelestialBody.parent b = Some p -> p <> i ->
  s !! p = Some pb ->
  CelestialBody.update s i =
    b' ← resolve b (CelestialBody.x pb) (CelestialBody.y pb);
    Py.Ok (<[i := b']> s).
Proof.
  intros Hb Hp Hne Hpb. unfold CelestialBody.update, resolve.
  rewrite (deref_lookup _ _ _ Hb). simpl.
  rewrite (deref_insert_eq _ _ _ _ Hb). simpl. rewrite Hp.
  destruct (CelestialBody.true_anomaly _ _) as [nu|]; [simpl | reflexivity].
  unfold CelestialBody.orbit_radius at 1 2. simpl.
  destruct (Py.truediv _ _) as [r|]; [simpl | reflexivity].
  rewrite deref_insert_ne by done. rewrite (deref_lookup _ _ _ Hpb). simpl.
  rewrite list_insert_insert_eq.
  rewrite (deref_insert_eq _ _ _ _ Hb). simpl.
  rewrite deref_insert_ne by done. rewrite (deref_lookup _ _ _ Hpb). simpl.
  rewrite list_insert_insert_eq. reflexivity.
Qed.

End Update.

Section UpdateAny.

Implicit Types (s : store) (b : body) (i j p : nat).

(** Whatever the parent reference is, a completed [update] rewrites the
    body behind [i] and nothing else, and assigns to [angle], [x], [y]
    only. *)
Lemma update_inv s i s' :
  CelestialBody.update s i = Py.Ok s' ->
  exists b b',
    s !! i = Some b /\ s' = <[i := b']> s /\ same_elements b b'
    /\ CelestialBody.orbit_speed b' = CelestialBody.orbit_speed b
    /\ CelestialBody.angle b' =
         Py.fmod (CelestialBody.angle b + CelestialBody.orbit_speed b) (2 * PI)
    /\ (CelestialBody.parent b = None ->
        CelestialBody.x b' = CelestialBody.x b
        /\ CelestialBody.y b' = CelestialBody.y b).
Proof.
  intros H. unfold CelestialBody.update in H.
  apply bind_Ok in H as (b & Hb & H). apply deref_Ok in Hb.
  cbv zeta in H. rewrite (deref_insert_eq _ _ _ _ Hb) in H. cbn [mbind result_bind Py.bind] in H.
  exists b. destruct (CelestialBody.parent _) as [p|] eqn:Hp in H.
  - apply bind_Ok in H as (nu & _ & H). apply bind_Ok in H as (r & _ & H).
    apply bind_Ok in H as (p1 & _ & H).
    rewrite list_insert_insert_eq in H.
    rewrite (deref_insert_eq _ _ _ _ Hb) in H. cbn [mbind result_bind Py.bind] in H.
    apply bind_Ok in H as (p2 & _ & H).
    rewrite list_insert_insert_eq in H. inversion H; subst s'; clear H.
    eexists; split; [exact Hb |]. split; [reflexivity |].
    simpl in Hp. unfold same_elements; simpl. rewrite Hp.
    repeat split; try reflexivity; intros; discriminate.
  - inversion H; subst s'; clear H.
    eexists; split; [exact Hb |]. split; [reflexivity |].
    unfold same_elements; simpl. repeat split; reflexivity.
Qed.

(** The same for one round of the loop of [SolarSystem.update]. *)
Lemma update_body_inv (tf : R) s i s' :
  SolarSystem.update_body tf s i = Py.Ok s' ->
  exists b b',
    s !! i = Some b /\ s' = <[i := b']> s /\ same_elements b b'
    /\ (CelestialBody.parent b = None ->
        CelestialBody.x b' = CelestialBody.x b
        /\ CelestialBody.y b' = CelestialBody.y b
        /\ CelestialBody.orbit_speed b' = CelestialBody.orbit_speed b)
    /\ (CelestialBody.parent b <> None ->
        CelestialBody.orbit_speed b' = CelestialBody.base_orbit_speed b * tf).
Proof.
  intros H. unfold SolarSystem.update_body in H.
  apply bind_Ok in H as (b & Hb & H). apply deref_Ok in Hb.
  exists b. destruct (CelestialBody.parent b) as [p|] eqn:Hp.
  - apply update_inv in H as (b1 & b' & H1 & -> & Hel & Hsp & _ & _).
    rewrite list_lookup_insert_eq in H1 by (eapply lookup_lt_Some, Hb).
    inversion H1; subst b1; clear H1.
    rewrite list_insert_insert_eq.
    exists b'. split; [exact Hb |]. split; [reflexivity |].
    split; [exact Hel |]. split; [intros; discriminate |].
    intros _. rewrite Hsp. reflexivity.
  - apply update_inv in H as (b1 & b' & H1 & -> & Hel & Hsp & _ & Hxy).
    rewrite Hb in H1. inversion H1; subst b1; clear H1.
    exists b'. split; [exact Hb |]. split; [reflexivity |].
    split; [exact Hel |]. split; [| congruence].
    intros _. destruct (Hxy Hp) as [-> ->]. rewrite Hsp. done.
Qed.

End UpdateAny.

(** ** The loop of [SolarSystem.update] *)

Section Loop.

Implicit Types (s : store) (b : body) (i j p : nat).

Lemma same_elements_refl b : same_elements b b.
Proof. unfold same_elements. done. Qed.

Lemma same_elements_trans b1 b2 b3 :
  same_elements b1 b2 -> same_elements b2 b3 -> same_elements b1 b3.
Proof.
  unfold same_elements.
  intros (?&?&?&?&?&?&?) (?&?&?&?&?&?&?). repeat split; congruence.
Qed.

Lemma tick_rel_refl (tf : R) s : tick_rel tf s s.
Proof.
  intros j b Hb. exists b. split; [done |]. split; [apply same_elements_refl |].
  split; [done | by left].
Qed.

Lemma tick_rel_trans (tf : R) s1 s2 s3 :
  tick_rel tf s1 s2 -> tick_rel tf s2 s3 -> tick_rel tf s1 s3.
Proof.
  intros H12 H23 j b Hb.
  destruct (H12 j b Hb) as (b2 & Hb2 & He2 & Hr2 & Hs2).
  destruct (H23 j b2 Hb2) as (b3 & Hb3 & He3 & Hr3 & Hs3).
  exists b3. split; [done |]. split; [eapply same_elements_trans; eauto |].
  pose proof He2 as (Hbase & _ & _ & _ & Hpar & _).
  split.
  - intros Hp. destruct (Hr2 Hp) as (? & ? & ?).
    destruct Hr3 as (? & ? & ?); [congruence |]. repeat split; congruence.
  - destruct Hs3 as [Hs3|Hs3]; [destruct Hs2; [left | right]; congruence |].
    right. congruence.
Qed.

Lemma update_body_tick_rel (tf : R) s i s' :
  SolarSystem.update_body tf s i = Py.Ok s' -> tick_rel tf s s'.
Proof.
  intros H. apply update_body_inv in H as (b & b' & Hb & -> & Hel & Hroot & Hsp).
  intros j bj Hj. destruct (decide (i = j)) as [<-|Hne].
  - rewrite Hb in Hj. inversion Hj; subst bj; clear Hj.
    exists b'. split; [apply list_lookup_insert_eq; eapply lookup_lt_Some, Hb |].
    split; [done |]. split; [done |].
    destruct (CelestialBody.parent b) eqn:Hp.
    + right. apply Hsp. done.
    + left. by destruct Hroot as (_ & _ & ?).
  - exists bj. rewrite list_lookup_insert_ne by done.
    split; [done |]. split; [apply same_elements_refl |]. split; [done | by left].
Qed.

Lemma for_each_tick_rel (tf : R) (idxs : list nat) s s' :
  Py.for_each (SolarSystem.update_body tf) idxs s = Py.Ok s' ->
  tick_rel tf s s'.
Proof.
  revert s. induction idxs as [|i rest IH]; intros s H; simpl in H.
  - inversion H. apply tick_rel_refl.
  - apply bind_Ok in H as (s1 & H1 & H).
    eapply tick_rel_trans; [eapply update_body_tick_rel, H1 | apply IH, H].
Qed.

(** Every body the loop went through carries the rescaled speed. *)
Lemma for_each_speed (tf : R) (idxs : list nat) s s' :
  Py.for_each (SolarSystem.update_body tf) idxs s = Py.Ok s' ->
  forall j b', j ∈ idxs -> s' !! j = Some b' ->
    CelestialBody.parent b' <> None ->
    CelestialBody.orbit_speed b' = CelestialBody.base_orbit_speed b' * tf.
Proof.
  revert s. induction idxs as [|i rest IH]; intros s H j b' Hin Hb' Hp;
    simpl in H.
  - by apply elem_of_nil in Hin.
  - apply bind_Ok in H as (s1 & H1 & H).
    destruct (decide (j ∈ rest)) as [Hr|Hr]; [by eapply IH |].
    apply elem_of_cons in Hin as [->|?]; [| done].
    apply update_body_inv in H1 as (b & b1 & Hb & -> & Hel & _ & Hsp).
    apply for_each_tick_rel in H.
    destruct (H i b1) as (b2 & Hb2 & Hel2 & _ & Hs2).
    { apply list_lookup_insert_eq. eapply lookup_lt_Some, Hb. }
    rewrite Hb' in Hb2. inversion Hb2; subst b2; clear Hb2.
    destruct Hel as (Hbase & _ & _ & _ & Hpar & _).
    destruct Hel2 as (Hbase2 & _ & _ & _ & Hpar2 & _).
    rewrite Hbase2. assert (CelestialBody.parent b <> None) as Hpb by congruence.
    specialize (Hsp Hpb). destruct Hs2; congruence.
Qed.

Lemma tick_rel_keeps (tf : R) s s' : tick_rel tf s s' -> keeps s s'.
Proof.
  intros H j b Hb. destruct (H j b Hb) as (b' & ? & ? & ? & _). eauto.
Qed.

Lemma keeps_refl s : keeps s s.
Proof.
  intros j b Hb. exists b. split; [done |]. split; [apply same_elements_refl | done].
Qed.

Lemma keeps_trans s1 s2 s3 : keeps s1 s2 -> keeps s2 s3 -> keeps s1 s3.
Proof.
  intros H12 H23 j b Hb.
  destruct (H12 j b Hb) as (b2 & Hb2 & He2 & Hr2).
  destruct (H23 j b2 Hb2) as (b3 & Hb3 & He3 & Hr3).
  exists b3. split; [done |]. split; [eapply same_elements_trans; eauto |].
  pose proof He2 as (_ & _ & _ & _ & Hpar & _).
  intros Hp. destruct (Hr2 Hp) as (? & ? & ?).
  destruct Hr3 as (? & ? & ?); [congruence |]. repeat split; congruence.
Qed.

Lemma update_keeps (ss ss' : SolarSystem.t) :
  SolarSystem.update ss = Py.Ok ss' ->
  tick_rel (SolarSystem.time_factor ss) (SolarSystem.bodies ss)
           (SolarSystem.bodies ss').
Proof.
  unfold SolarSystem.update. intros H.
  apply bind_Ok in H as (s & Hs & H). inversion H; subst ss'; simpl.
  eapply for_each_tick_rel, Hs.
Qed.

Lemma ticks_keeps (tfs : list R) (ss ss' : SolarSystem.t) :
  Main.ticks tfs ss = Py.Ok ss' ->
  keeps (SolarSystem.bodies ss) (SolarSystem.bodies ss').
Proof.
  revert ss. induction tfs as [|tf rest IH]; intros ss H; simpl in H.
  - inversion H. apply keeps_refl.
  - apply bind_Ok in H as (ss1 & H1 & H).
    eapply keeps_trans; [| apply IH, H].
    apply update_keeps in H1. simpl in H1. eapply tick_rel_keeps, H1.
Qed.

End Loop.

(** ** Scenes in range: [update] completes *)

Section InRange.

Implicit Types (s : store) (b : body) (i j p : nat).

Lemma true_anomaly_Ok (e E : R) :
  -1 <= e <= 1 ->
  CelestialBody.true_anomaly e E =
    Py.Ok (2 * Py.atan2 (sqrt (1 + e) * sin (E / 2))
                        (sqrt (1 - e) * cos (E / 2))).
Proof.
  intros He. unfold CelestialBody.true_anomaly.
  rewrite sqrt_Ok by lra. simpl. rewrite sqrt_Ok by lra. reflexivity.
Qed.

Lemma orbit_denominator_pos (e nu : R) : 0 <= e < 1 -> 1 - e <= 1 + e * cos nu <= 1 + e.
Proof.
  intros He. pose proof (COS_bound nu) as [Hlo Hhi]. nra.
Qed.

Lemma orbit_radius_Ok b (nu : R) :
  0 <= CelestialBody.eccentricity b < 1 ->
  CelestialBody.orbit_radius b nu =
    Py.Ok (CelestialBody.semi_major_axis b * CelestialBody.one_minus_e2 b
           / (1 + CelestialBody.eccentricity b * cos nu)).
Proof.
  intros He. unfold CelestialBody.orbit_radius. apply truediv_Ok.
  pose proof (orbit_denominator_pos _ nu He). lra.
Qed.

Lemma resolve_Ok b (px py : R) :
  0 <= CelestialBody.eccentricity b < 1 ->
  exists nu r,
    let M := Py.fmod (CelestialBody.angle b + CelestialBody.orbit_speed b)
                     (2 * PI) in
    CelestialBody.true_anomaly (CelestialBody.eccentricity b)
      (CelestialBody.kepler_E M (CelestialBody.eccentricity b)) = Py.Ok nu
    /\ CelestialBody.orbit_radius b nu = Py.Ok r
    /\ resolve b px py =
         Py.Ok (CelestialBody.set_y (py + r * sin nu)
                  (CelestialBody.set_x (px + r * cos nu)
                     (CelestialBody.set_angle M b))).
Proof.
  intros He. eexists. eexists. cbv zeta.
  split; [apply true_anomaly_Ok; lra |].
  split; [apply orbit_radius_Ok; lra |].
  unfold resolve. rewrite true_anomaly_Ok by lra. simpl.
  rewrite orbit_radius_Ok by lra. reflexivity.
Qed.

(** One round of the loop on a well-formed store. *)
Lemma update_body_wf (tf : R) s i b :
  well_formed s -> s !! i = Some b ->
  exists b',
    SolarSystem.update_body tf s i = Py.Ok (<[i := b']> s)
    /\ same_elements b b'
    /\ match CelestialBody.parent b with
       | None =>
           CelestialBody.angle b' =
             Py.fmod (CelestialBody.angle b + 0) (2 * PI)
           /\ CelestialBody.x b' = CelestialBody.x b
           /\ CelestialBody.y b' = CelestialBody.y b
           /\ CelestialBody.orbit_speed b' = 0
       | Some p =>
           CelestialBody.angle b' =
             Py.fmod (CelestialBody.angle b
                      + CelestialBody.base_orbit_speed b * tf) (2 * PI)
           /\ CelestialBody.orbit_speed b' =
                CelestialBody.base_orbit_speed b * tf
           /\ exists (pb : body) (nu r : R),
                s !! p = Some pb /\ (p < i)%nat
                /\ CelestialBody.true_anomaly (CelestialBody.eccentricity b)
                     (CelestialBody.kepler_E (CelestialBody.angle b')
                        (CelestialBody.eccentricity b)) = Py.Ok nu
                /\ CelestialBody.orbit_radius b nu = Py.Ok r
                /\ CelestialBody.x b' = CelestialBody.x pb + r * cos nu
                /\ CelestialBody.y b' = CelestialBody.y pb + r * sin nu
       end.
Proof.
  intros Hwf Hb. pose proof (Hwf i b Hb) as Hi.
  unfold SolarSystem.update_body. rewrite (deref_lookup _ _ _ Hb). simpl.
  destruct (CelestialBody.parent b) as [p|] eqn:Hp.
  - destruct Hi as (Hlt & He & Home).
    assert (is_Some (s !! p)) as [pb Hpb].
    { apply lookup_lt_is_Some. apply lookup_lt_Some in Hb. lia. }
    set (b1 := CelestialBody.set_orbit_speed _ b).
    rewrite (update_child _ i p b1 pb).
    + destruct (resolve_Ok b1 (CelestialBody.x pb) (CelestialBody.y pb) He)
        as (nu & r & Hnu & Hr & ->). simpl.
      rewrite list_insert_insert_eq. eexists. split; [reflexivity |].
      split; [unfold same_elements; simpl; done |]. simpl.
      split; [reflexivity |]. split; [reflexivity |].
      exists pb, nu, r. repeat split; try done.
    + apply list_lookup_insert_eq. eapply lookup_lt_Some, Hb.
    + exact Hp.
    + lia.
    + rewrite list_lookup_insert_ne by lia. exact Hpb.
  - rewrite (update_root _ _ _ Hb Hp). eexists. split; [reflexivity |].
    split; [unfold same_elements; simpl; done |]. simpl. rewrite Hi. done.
Qed.

End InRange.

Section Totality.

Implicit Types (s : store) (b : body) (i j p : nat).

Lemma update_body_length (tf : R) s i s' :
  SolarSystem.update_body tf s i = Py.Ok s' -> length s' = length s.
Proof.
  intros H. apply update_body_inv in H as (b & b' & _ & -> & _).
  apply length_insert.
Qed.

Lemma for_each_length (tf : R) (idxs : list nat) s s' :
  Py.for_each (SolarSystem.update_body tf) idxs s = Py.Ok s' ->
  length s' = length s.
Proof.
  revert s. induction idxs as [|i rest IH]; intros s H; simpl in H.
  - by inversion H.
  - apply bind_Ok in H as (s1 & H1 & H).
    rewrite (IH _ H). eapply update_body_length, H1.
Qed.

(** Well-formedness only looks at what the loop keeps. *)
Lemma well_formed_keeps s s' :
  well_formed s -> keeps s s' -> length s' = length s -> well_formed s'.
Proof.
  intros Hwf Hk Hlen i b' Hb'.
  assert (is_Some (s !! i)) as [b Hb].
  { apply lookup_lt_is_Some. rewrite <- Hlen. eapply lookup_lt_Some, Hb'. }
  destruct (Hk i b Hb) as (b2 & Hb2 & Hel & Hroot).
  rewrite Hb' in Hb2. inversion Hb2; subst b2; clear Hb2.
  destruct Hel as (_ & _ & He & _ & Hpar & _ & Home).
  specialize (Hwf i b Hb). rewrite Hpar.
  destruct (CelestialBody.parent b) as [p|].
  - rewrite He, Home. exact Hwf.
  - destruct Hroot as (_ & _ & ->); done.
Qed.

Lemma for_each_total (tf : R) (idxs : list nat) s :
  well_formed s -> (forall i, i ∈ idxs -> (i < length s)%nat) ->
  exists s', Py.for_each (SolarSystem.update_body tf) idxs s = Py.Ok s'.
Proof.
  revert s. induction idxs as [|i rest IH]; intros s Hwf Hidx; simpl.
  - eauto.
  - assert (is_Some (s !! i)) as [b Hb].
    { apply lookup_lt_is_Some, Hidx. by left. }
    destruct (update_body_wf tf s i b Hwf Hb) as (b' & Hstep & _).
    rewrite Hstep. simpl. apply IH.
    + eapply well_formed_keeps; [exact Hwf | | apply length_insert].
      eapply tick_rel_keeps, update_body_tick_rel, Hstep.
    + intros j Hj. rewrite length_insert. apply Hidx. by right.
Qed.

Lemma update_total (ss : SolarSystem.t) :
  well_formed (SolarSystem.bodies ss) ->
  exists ss', SolarSystem.update ss = Py.Ok ss'.
Proof.
  intros Hwf. unfold SolarSystem.update.
  destruct (for_each_total (SolarSystem.time_factor ss)
              (seq 0 (length (SolarSystem.bodies ss))) _ Hwf) as [s' ->].
  - intros i Hi. apply elem_of_seq in Hi. lia.
  - simpl. eauto.
Qed.

Lemma update_well_formed (ss ss' : SolarSystem.t) :
  well_formed (SolarSystem.bodies ss) -> SolarSystem.update ss = Py.Ok ss' ->
  well_formed (SolarSystem.bodies ss').
Proof.
  intros Hwf H. eapply well_formed_keeps; [exact Hwf | |].
  - eapply tick_rel_keeps, update_keeps, H.
  - unfold SolarSystem.update in H. apply bind_Ok in H as (s & Hs & H).
    inversion H; subst ss'; simpl. eapply for_each_length, Hs.
Qed.

Lemma ticks_total (tfs : list R) (ss : SolarSystem.t) :
  well_formed (SolarSystem.bodies ss) ->
  exists ss', Main.ticks tfs ss = Py.Ok ss'
              /\ well_formed (SolarSystem.bodies ss').
Proof.
  revert ss. induction tfs as [|tf rest IH]; intros ss Hwf; simpl.
  - eauto.
  - destruct (update_total (SolarSystem.set_time_factor tf ss)) as [ss1 H1];
      [exact Hwf |].
    rewrite H1. simpl. apply IH.
    eapply update_well_formed; [| exact H1]. exact Hwf.
Qed.

End Totality.

(** ** The constructors build well-formed scenes *)

Section Constructors.

Implicit Types (s : store) (b : body) (i j p : nat).

Lemma well_formed_nil : well_formed [].
Proof. intros i b Hb. by rewrite lookup_nil in Hb. Qed.

Lemma well_formed_snoc s b :
  well_formed s ->
  match CelestialBody.parent b with
  | None => CelestialBody.orbit_speed b = 0
  | Some p =>
      (p < length s)%nat
      /\ 0 <= CelestialBody.eccentricity b < 1
      /\ CelestialBody.one_minus_e2 b =
           1 - CelestialBody.eccentricity b * CelestialBody.eccentricity b
  end ->
  well_formed (s ++ [b]).
Proof.
  intros Hwf Hb i bi Hi. apply lookup_snoc_Some in Hi as [[_ Hi]|[-> <-]].
  - by apply Hwf.
  - exact Hb.
Qed.

Lemma add_star_well_formed (ss : SolarSystem.t) (sx sy radius : R)
    (color : Pygame.Color) (name : string) (mass : R)
    (facts : option (list (string * string))) :
  well_formed (SolarSystem.bodies ss) ->
  well_formed
    (SolarSystem.bodies
       (SolarSystem.add_star ss sx sy radius color name mass facts).1).
Proof.
  intros Hwf. simpl. by apply well_formed_snoc.
Qed.

Lemma add_planet_well_formed (u : R) (ss ss' : SolarSystem.t) (parent h : nat)
    (a radius : R) (color : Pygame.Color) (speed e : R) (name : string)
    (mass : R) (facts : option (list (string * string))) :
  well_formed (SolarSystem.bodies ss) -> 0 <= e < 1 ->
  SolarSystem.add_planet u ss parent a radius color speed e name mass facts
    = Py.Ok (ss', h) ->
  well_formed (SolarSystem.bodies ss').
Proof.
  intros Hwf He H. unfold SolarSystem.add_planet in H.
  apply bind_Ok in H as (pb & Hpb & H). apply deref_Ok in Hpb.
  inversion H; subst ss' h; clear H. simpl.
  apply well_formed_snoc; [exact Hwf |]. simpl.
  split; [eapply lookup_lt_Some, Hpb | done].
Qed.

Lemma add_moon_well_formed (u : R) (ss ss' : SolarSystem.t) (parent h : nat)
    (a radius speed e : R) (name : string) (mass : R)
    (facts : option (list (string * string))) :
  well_formed (SolarSystem.bodies ss) -> 0 <= e < 1 ->
  SolarSystem.add_moon u ss parent a radius speed e name mass facts
    = Py.Ok (ss', h) ->
  well_formed (SolarSystem.bodies ss').
Proof.
  intros Hwf He H. unfold SolarSystem.add_moon in H.
  apply bind_Ok in H as (pb & Hpb & H). apply deref_Ok in Hpb.
  inversion H; subst ss' h; clear H. simpl.
  apply well_formed_snoc; [exact Hwf |]. simpl.
  split; [eapply lookup_lt_Some, Hpb | done].
Qed.

Lemma star_and_planet_well_formed (sx sy a e u speed : R) (ss : SolarSystem.t) :
  0 <= e < 1 -> star_and_planet sx sy a e u speed = Py.Ok ss ->
  well_formed (SolarSystem.bodies ss).
Proof.
  intros He H. unfold star_and_planet in H. cbv zeta in H.
  apply bind_Ok in H as ([ss1 h] & H1 & H). inversion H; subst ss; clear H.
  eapply add_planet_well_formed; [| exact He | exact H1].
  apply add_star_well_formed, well_formed_nil.
Qed.

Lemma uniform_turn (u : R) :
  0 <= u < 1 -> 0 <= Py.uniform u 0 (2 * PI) < 2 * PI.
Proof.
  intros Hu. unfold Py.uniform. pose proof PI_RGT_0. nra.
Qed.

Lemma angles_reduced_snoc s b :
  angles_reduced s -> 0 <= CelestialBody.angle b < 2 * PI ->
  angles_reduced (s ++ [b]).
Proof.
  intros Hs Hb i bi Hi. apply lookup_snoc_Some in Hi as [[_ Hi]|[_ <-]].
  - by eapply Hs.
  - exact Hb.
Qed.

(** With draws in [[0, 1)], the constructors leave every angle reduced. *)
Lemma add_star_angles_reduced (ss : SolarSystem.t) (sx sy radius : R)
    (color : Pygame.Color) (name : string) (mass : R)
    (facts : option (list (string * string))) :
  angles_reduced (SolarSystem.bodies ss) ->
  angles_reduced
    (SolarSystem.bodies
       (SolarSystem.add_star ss sx sy radius color name mass facts).1).
Proof.
  intros Hs. simpl. apply angles_reduced_snoc; [exact Hs |]. simpl.
  pose proof PI_RGT_0. lra.
Qed.

Lemma add_planet_angles_reduced (u : R) (ss ss' : SolarSystem.t)
    (parent h : nat) (a radius : R) (color : Pygame.Color) (speed e : R)
    (name : string) (mass : R) (facts : option (list (string * string))) :
  angles_reduced (SolarSystem.bodies ss) -> 0 <= u < 1 ->
  SolarSystem.add_planet u ss parent a radius color speed e name mass facts
    = Py.Ok (ss', h) ->
  angles_reduced (SolarSystem.bodies ss').
Proof.
  intros Hs Hu H. unfold SolarSystem.add_planet in H.
  apply bind_Ok in H as (pb & _ & H). inversion H; subst ss' h; clear H.
  simpl. apply angles_reduced_snoc; [exact Hs |]. simpl.
  by apply uniform_turn.
Qed.

Lemma add_moon_angles_reduced (u : R) (ss ss' : SolarSystem.t)
    (parent h : nat) (a radius speed e : R) (name : string) (mass : R)
    (facts : option (list (string * string))) :
  angles_reduced (SolarSystem.bodies ss) -> 0 <= u < 1 ->
  SolarSystem.add_moon u ss parent a radius speed e name mass facts
    = Py.Ok (ss', h) ->
  angles_reduced (SolarSystem.bodies ss').
Proof.
  intros Hs Hu H. unfold SolarSystem.add_moon in H.
  apply bind_Ok in H as (pb & _ & H). inversion H; subst ss' h; clear H.
  simpl. apply angles_reduced_snoc; [exact Hs |]. simpl.
  by apply uniform_turn.
Qed.

End Constructors.

(** ** The claims about the engine *)

Section Engine.

Implicit Types (s : store) (b : body) (i j p : nat).

(** C2. The engine never moves a parentless body: after any number of
    calls of [SolarSystem.update], whatever [time_factor] each call runs
    at, the body is still parentless and its [x] and [y] are what they
    were.  On a well-formed scene every such run completes. *)
Theorem root_position_fixed (tfs : list R) (ss : SolarSystem.t) i b :
  SolarSystem.bodies ss !! i = Some b ->
  CelestialBody.parent b = None ->
  (forall ss' : SolarSystem.t,
     Main.ticks tfs ss = Py.Ok ss' ->
     exists b',
       SolarSystem.bodies ss' !! i = Some b'
       /\ CelestialBody.parent b' = None
       /\ CelestialBody.x b' = CelestialBody.x b
       /\ CelestialBody.y b' = CelestialBody.y b)
  /\ (well_formed (SolarSystem.bodies ss) ->
      exists ss' : SolarSystem.t, Main.ticks tfs ss = Py.Ok ss').
Proof.
  intros Hb Hp. split.
  - intros ss' Hrun. apply ticks_keeps in Hrun.
    destruct (Hrun i b Hb) as (b' & Hb' & Hel & Hroot).
    destruct (Hroot Hp) as (Hx & Hy & _).
    destruct Hel as (_ & _ & _ & _ & Hpar & _).
    exists b'. repeat split; congruence.
  - intros Hwf. destruct (ticks_total tfs ss Hwf) as (ss' & Hrun & _). eauto.
Qed.

(** C10. A call of [SolarSystem.update], after any run of earlier ones,
    leaves every body that has a parent with [orbit_speed] equal to the
    [base_orbit_speed] it started the run with times the current
    [time_factor], and the elements of every body
    ([base_orbit_speed], [semi_major_axis], [eccentricity], [radius],
    [parent]) as they were: the speed is rescaled from the base each
    tick and never compounds.  On a well-formed scene the run and the
    call complete. *)
Theorem orbit_speed_rescaled (tfs : list R) (ss : SolarSystem.t) i b :
  SolarSystem.bodies ss !! i = Some b ->
  (forall ss1 ss' : SolarSystem.t,
     Main.ticks tfs ss = Py.Ok ss1 ->
     SolarSystem.update ss1 = Py.Ok ss' ->
     exists b',
       SolarSystem.bodies ss' !! i = Some b'
       /\ CelestialBody.base_orbit_speed b' = CelestialBody.base_orbit_speed b
       /\ CelestialBody.semi_major_axis b' = CelestialBody.semi_major_axis b
       /\ CelestialBody.eccentricity b' = CelestialBody.eccentricity b
       /\ CelestialBody.radius b' = CelestialBody.radius b
       /\ CelestialBody.parent b' = CelestialBody.parent b
       /\ (CelestialBody.parent b <> None ->
           CelestialBody.orbit_speed b' =
             CelestialBody.base_orbit_speed b * SolarSystem.time_factor ss1))
  /\ (well_formed (SolarSystem.bodies ss) ->
      exists ss1 ss' : SolarSystem.t,
        Main.ticks tfs ss = Py.Ok ss1 /\ SolarSystem.update ss1 = Py.Ok ss').
Proof.
  intros Hb. split.
  - intros ss1 ss' Hrun Hup. apply ticks_keeps in Hrun.
    destruct (Hrun i b Hb) as (b1 & Hb1 & Hel1 & _).
    pose proof (update_keeps _ _ Hup) as Hk. apply tick_rel_keeps in Hk.
    destruct (Hk i b1 Hb1) as (b' & Hb' & Hel & _).
    pose proof (same_elements_trans _ _ _ Hel1 Hel)
      as (Hbase & Ha & He & Hr & Hpar & _).
    exists b'. repeat split; try done.
    intros Hp. rewrite <- Hbase.
    unfold SolarSystem.update in Hup. apply bind_Ok in Hup as (s & Hs & Hup).
    inversion Hup; subst ss'; clear Hup. simpl in Hb'.
    eapply for_each_speed; [exact Hs | | exact Hb' | congruence].
    apply elem_of_seq. apply lookup_lt_Some in Hb1. lia.
  - intros Hwf. destruct (ticks_total tfs ss Hwf) as (ss1 & Hrun & Hwf1).
    destruct (update_total ss1 Hwf1) as (ss' & Hup). eauto.
Qed.

End Engine.

Lemma root_position_fixed_witness :
  exists (ss ss' : SolarSystem.t) (b' : body),
    star_and_planet 3 4 100 (1 / 2) 0 (1 / 100) = Py.Ok ss
    /\ Main.ticks [1; 3 / 2] ss = Py.Ok ss'
    /\ SolarSystem.bodies ss' !! 0%nat = Some b'
    /\ CelestialBody.x b' = 3 /\ CelestialBody.y b' = 4.
Proof.
  destruct (star_and_planet 3 4 100 (1 / 2) 0 (1 / 100)) as [ss|] eqn:Hss;
    [| discriminate Hss].
  assert (well_formed (SolarSystem.bodies ss)) as Hwf.
  { eapply star_and_planet_well_formed; [| exact Hss]. lra. }
  injection Hss as <-.
  match type of Hwf with
  | well_formed (SolarSystem.bodies ?ss) =>
      destruct (root_position_fixed [1; 3 / 2] ss 0%nat _ eq_refl eq_refl)
        as [Hkept Htotal]
  end.
  destruct (Htotal Hwf) as (ss' & Hrun).
  destruct (Hkept ss' Hrun) as (b' & Hb' & _ & Hx & Hy).
  eexists _, ss', b'. split; [reflexivity |]. split; [exact Hrun |].
  split; [exact Hb' |]. split; [exact Hx | exact Hy].
Defined.

Lemma orbit_speed_rescaled_witness :
  exists (ss ss1 ss' : SolarSystem.t) (b' : body),
    star_and_planet 3 4 100 (1 / 2) 0 (1 / 100) = Py.Ok ss
    /\ Main.ticks [2; 3] ss = Py.Ok ss1
    /\ SolarSystem.update ss1 = Py.Ok ss'
    /\ SolarSystem.bodies ss' !! 1%nat = Some b'
    /\ CelestialBody.orbit_speed b' = 1 / 100 * SolarSystem.time_factor ss1.
Proof.
  destruct (star_and_planet 3 4 100 (1 / 2) 0 (1 / 100)) as [ss|] eqn:Hss;
    [| discriminate Hss].
  assert (well_formed (SolarSystem.bodies ss)) as Hwf.
  { eapply star_and_planet_well_formed; [| exact Hss]. lra. }
  injection Hss as <-.
  match type of Hwf with
  | well_formed (SolarSystem.bodies ?ss) =>
      destruct (orbit_speed_rescaled [2; 3] ss 1%nat _ eq_refl)
        as [Hkept Htotal]
  end.
  destruct (Htotal Hwf) as (ss1 & ss' & Hrun & Hup).
  destruct (Hkept ss1 ss' Hrun Hup) as (b' & Hb' & _ & _ & _ & _ & _ & Hsp).
  eexists _, ss1, ss', b'. split; [reflexivity |]. split; [exact Hrun |].
  split; [exact Hup |]. split; [exact Hb' |]. apply Hsp. discriminate.
Defined.

Section Orbit.

Implicit Types (s : store) (b : body) (i j p : nat).

Lemma distance_polar (px py r nu : R) :
  0 <= r -> distance (px + r * cos nu, py + r * sin nu) (px, py) = r.
Proof.
  intros Hr. unfold distance. simpl.
  replace ((px + r * cos nu - px) * (px + r * cos nu - px)
           + (py + r * sin nu - py) * (py + r * sin nu - py))
    with (r * r * ((sin nu)² + (cos nu)²)) by (unfold Rsqr; ring).
  rewrite sin2_cos2, Rmult_1_r. apply sqrt_square, Hr.
Qed.

(** The radius of line 81, between periapsis and apoapsis. *)
Lemma radius_bounds (a e nu : R) :
  0 < a -> 0 <= e < 1 ->
  a * (1 - e) <= a * (1 - e * e) / (1 + e * cos nu) <= a * (1 + e).
Proof.
  intros Ha He. pose proof (orbit_denominator_pos e nu He) as [Hlo Hhi].
  assert (0 < 1 + e * cos nu) as Hd by lra.
  assert (a * (1 - e * e) / (1 + e * cos nu) * (1 + e * cos nu)
          = a * (1 - e) * (1 + e)) as Hmul by (field; lra).
  assert (0 <= a * (1 - e)) as Hp by (apply Rmult_le_pos; lra).
  assert (0 <= a * (1 + e)) as Hq by (apply Rmult_le_pos; lra).
  split; apply (Rmult_le_reg_r (1 + e * cos nu)); try exact Hd; rewrite Hmul.
  - apply Rmult_le_compat_l; [exact Hp | exact Hhi].
  - replace (a * (1 - e) * (1 + e)) with (a * (1 + e) * (1 - e)) by ring.
    apply Rmult_le_compat_l; [exact Hq | exact Hlo].
Qed.

(** C1. For a body that has a parent (another body), with semi-major axis
    [a > 0] and eccentricity [0 <= e < 1] (and [one_minus_e2 = 1 - e * e],
    as its constructor left it), [CelestialBody.update] completes, whatever
    [angle] and [orbit_speed] it finds, and leaves the body at a distance
    [r] from its parent with [a (1 - e) <= r <= a (1 + e)]. *)
Theorem radius_within_apsides s i p b pb :
  s !! i = Some b -> CelestialBody.parent b = Some p -> p <> i ->
  s !! p = Some pb ->
  0 < CelestialBody.semi_major_axis b ->
  0 <= CelestialBody.eccentricity b < 1 ->
  CelestialBody.one_minus_e2 b =
    1 - CelestialBody.eccentricity b * CelestialBody.eccentricity b ->
  exists (s' : store) (b' pb' : body),
    CelestialBody.update s i = Py.Ok s'
    /\ s' !! i = Some b' /\ s' !! p = Some pb'
    /\ CelestialBody.semi_major_axis b * (1 - CelestialBody.eccentricity b)
       <= distance (position b') (position pb')
       <= CelestialBody.semi_major_axis b * (1 + CelestialBody.eccentricity b).
Proof.
  intros Hb Hp Hne Hpb Ha He Home.
  rewrite (update_child s i p b pb Hb Hp Hne Hpb).
  destruct (resolve_Ok b (CelestialBody.x pb) (CelestialBody.y pb) He)
    as (nu & r & _ & Hr & ->). simpl.
  rewrite orbit_radius_Ok in Hr by exact He. injection Hr as <-.
  pose proof (radius_bounds _ _ nu Ha He) as Hbound. rewrite <- Home in Hbound.
  eexists _, _, pb. split; [reflexivity |].
  split; [apply list_lookup_insert_eq; eapply lookup_lt_Some, Hb |].
  split; [by rewrite list_lookup_insert_ne |].
  unfold position. simpl. rewrite distance_polar; [exact Hbound |].
  assert (0 <= CelestialBody.semi_major_axis b * (1 - CelestialBody.eccentricity b))
    by (apply Rmult_le_pos; lra).
  lra.
Qed.

End Orbit.

Lemma radius_within_apsides_witness :
  exists ss : SolarSystem.t,
    star_and_planet 3 4 100 (1 / 2) 0 (1 / 100) = Py.Ok ss
    /\ exists (s' : store) (b' pb' : body),
         CelestialBody.update (SolarSystem.bodies ss) 1 = Py.Ok s'
         /\ s' !! 1%nat = Some b' /\ s' !! 0%nat = Some pb'
         /\ 100 * (1 - 1 / 2) <= distance (position b') (position pb')
            <= 100 * (1 + 1 / 2).
Proof.
  destruct (star_and_planet 3 4 100 (1 / 2) 0 (1 / 100)) as [ss|] eqn:Hss;
    [| discriminate Hss].
  injection Hss as <-. eexists. split; [reflexivity |].
  match goal with
  | |- context [CelestialBody.update ?s _] =>
      apply (radius_within_apsides s 1%nat 0%nat _ _ eq_refl eq_refl
               ltac:(lia) eq_refl)
  end.
  - simpl. lra.
  - simpl. lra.
  - reflexivity.
Defined.

Section Kepler.

Lemma kepler_E_unfold (M e : R) :
  CelestialBody.kepler_E M e =
  M + e * sin (M + e * sin (M + e * sin (M + e * sin (M + e * sin M)))).
Proof. reflexivity. Qed.

Lemma kepler_E_circular (M : R) : CelestialBody.kepler_E M 0 = M.
Proof. rewrite kepler_E_unfold. ring. Qed.

End Kepler.

Section HalfTurn.

Implicit Types (s : store) (b : body) (i j p : nat).

Lemma true_anomaly_half_turn :
  CelestialBody.true_anomaly 0 (CelestialBody.kepler_E PI 0) = Py.Ok PI.
Proof.
  rewrite kepler_E_circular, true_anomaly_Ok by lra.
  replace (1 + 0) with 1 by lra. replace (1 - 0) with 1 by lra.
  rewrite sqrt_1, sin_PI2, cos_PI2, Rmult_1_l, Rmult_0_r, atan2_1_0.
  f_equal. lra.
Qed.

(** C9. A planet with [a = 100] and [e = 0] (so [one_minus_e2 = 1 - 0 * 0])
    whose mean anomaly, once advanced, is exactly [PI]: [update] finds the
    true anomaly [nu = PI] and the radius [r = 100], and puts the planet
    at [(parent.x - 100, parent.y)]. *)
Theorem half_turn s i p b pb :
  s !! i = Some b -> CelestialBody.parent b = Some p -> p <> i ->
  s !! p = Some pb ->
  CelestialBody.semi_major_axis b = 100 ->
  CelestialBody.eccentricity b = 0 ->
  CelestialBody.one_minus_e2 b = 1 - 0 * 0 ->
  Py.fmod (CelestialBody.angle b + CelestialBody.orbit_speed b) (2 * PI) = PI ->
  CelestialBody.true_anomaly (CelestialBody.eccentricity b)
    (CelestialBody.kepler_E PI (CelestialBody.eccentricity b)) = Py.Ok PI
  /\ CelestialBody.orbit_radius b PI = Py.Ok 100
  /\ exists b',
       CelestialBody.update s i = Py.Ok (<[i := b']> s)
       /\ CelestialBody.angle b' = PI
       /\ CelestialBody.x b' = CelestialBody.x pb - 100
       /\ CelestialBody.y b' = CelestialBody.y pb.
Proof.
  intros Hb Hp Hne Hpb Ha He Home HM.
  assert (CelestialBody.orbit_radius b PI = Py.Ok 100) as Hr.
  { rewrite orbit_radius_Ok by (rewrite He; lra).
    rewrite Ha, He, Home, cos_PI. f_equal. field. }
  rewrite He. split; [exact true_anomaly_half_turn |]. split; [exact Hr |].
  rewrite (update_child s i p b pb Hb Hp Hne Hpb). unfold resolve.
  rewrite HM, He, true_anomaly_half_turn. simpl. rewrite Hr. simpl.
  eexists. split; [reflexivity |]. simpl. rewrite cos_PI, sin_PI.
  split; [reflexivity |]. split; lra.
Qed.

End HalfTurn.

Lemma half_turn_witness :
  exists ss : SolarSystem.t,
    star_and_planet 0 0 100 0 (1 / 2) 0 = Py.Ok ss
    /\ CelestialBody.true_anomaly 0 (CelestialBody.kepler_E PI 0) = Py.Ok PI
    /\ exists b' : body,
         CelestialBody.update (SolarSystem.bodies ss) 1
           = Py.Ok (<[1%nat := b']> (SolarSystem.bodies ss))
         /\ CelestialBody.orbit_radius b' PI = Py.Ok 100
         /\ CelestialBody.angle b' = PI
         /\ CelestialBody.x b' = 0 - 100
         /\ CelestialBody.y b' = 0.
Proof.
  destruct (star_and_planet 0 0 100 0 (1 / 2) 0) as [ss|] eqn:Hss;
    [| discriminate Hss].
  injection Hss as <-. eexists. split; [reflexivity |].
  assert (Py.fmod (Py.uniform (1 / 2) 0 (2 * PI) + 0) (2 * PI) = PI) as HM.
  { unfold Py.uniform. pose proof PI_RGT_0.
    rewrite fmod_small; lra. }
  match goal with
  | |- context [CelestialBody.update ?s _] =>
      destruct (half_turn s 1%nat 0%nat _ _ eq_refl eq_refl ltac:(lia) eq_refl
                  eq_refl eq_refl eq_refl HM)
        as (Hnu & Hr & b' & Hup & Hang & Hx & Hy)
  end.
  split; [exact Hnu |]. exists b'. split; [exact Hup |].
  split; [| split; [exact Hang | split; [exact Hx | exact Hy]]].
  apply update_inv in Hup as (b0 & b1 & Hb0 & Heq & Hel & _).
  injection Hb0 as <-.
  assert (b1 = b') as <-.
  { apply (f_equal (fun l : store => l !! 1%nat)) in Heq. simpl in Heq. congruence. }
  destruct Hel as (_ & Ha & He & _ & _ & _ & Home).
  unfold CelestialBody.orbit_radius in *. rewrite Ha, He, Home. exact Hr.
Defined.

(** ** Settled stores: what a completed [update] leaves behind *)

Section Settled.

Implicit Types (s : store) (b : body) (i j k p : nat).

Lemma orbit_radius_elements b b' (nu : R) :
  same_elements b b' ->
  CelestialBody.orbit_radius b' nu = CelestialBody.orbit_radius b nu.
Proof.
  intros (_ & Ha & He & _ & _ & _ & Home).
  unfold CelestialBody.orbit_radius. by rewrite Ha, He, Home.
Qed.

Lemma settled_at_insert s b k (v : body) :
  settled_at s b ->
  (forall p, CelestialBody.parent b = Some p -> p <> k) ->
  settled_at (<[k := v]> s) b.
Proof.
  intros [Hang Hpos] Hne. split; [exact Hang |].
  destruct (CelestialBody.parent b) as [p|]; [| done].
  destruct Hpos as (pb & nu & r & Hpb & Hrest).
  exists pb, nu, r. split; [| exact Hrest].
  rewrite list_lookup_insert_ne; [exact Hpb |]. intros ->. by eapply Hne.
Qed.

(** After the round for body [k], the bodies up to [k] are settled. *)
Lemma update_body_settles (tf : R) s k s1 :
  well_formed s ->
  (forall i b, (i < k)%nat -> s !! i = Some b -> settled_at s b) ->
  SolarSystem.update_body tf s k = Py.Ok s1 ->
  forall i b, (i < S k)%nat -> s1 !! i = Some b -> settled_at s1 b.
Proof.
  intros Hwf Hbelow Hstep i bi Hi Hbi.
  pose proof Hstep as Hinv.
  apply update_body_inv in Hinv as (b & b0 & Hb & _).
  destruct (update_body_wf tf s k b Hwf Hb) as (b' & Hstep' & Hel & Hnew).
  rewrite Hstep in Hstep'. injection Hstep' as ->.
  destruct (decide (i = k)) as [->|Hik].
  - rewrite list_lookup_insert_eq in Hbi by (eapply lookup_lt_Some, Hb).
    injection Hbi as <-.
    pose proof Hel as (_ & _ & He & _ & Hpar & _).
    split.
    + destruct (CelestialBody.parent b); destruct Hnew as [-> _];
        apply fmod_range, two_PI_pos.
    + rewrite Hpar. destruct (CelestialBody.parent b) as [p|]; [| done].
      destruct Hnew as (_ & _ & pb & nu & r & Hpb & Hlt & Hnu & Hr & Hx & Hy).
      exists pb, nu, r. rewrite list_lookup_insert_ne by lia.
      rewrite He, (orbit_radius_elements b b' nu Hel). done.
  - rewrite list_lookup_insert_ne in Hbi by done.
    apply settled_at_insert; [apply (Hbelow i); [lia | done] |].
    intros p Hp. specialize (Hwf i bi Hbi). rewrite Hp in Hwf. lia.
Qed.

Lemma for_each_settles (tf : R) (n k : nat) s s' :
  well_formed s ->
  (forall i b, (i < k)%nat -> s !! i = Some b -> settled_at s b) ->
  Py.for_each (SolarSystem.update_body tf) (seq k n) s = Py.Ok s' ->
  forall i b, (i < k + n)%nat -> s' !! i = Some b -> settled_at s' b.
Proof.
  revert k s. induction n as [|n IH]; intros k s Hwf Hbelow H; simpl in H.
  - injection H as <-. intros i b Hi. apply Hbelow. lia.
  - apply bind_Ok in H as (s1 & H1 & H).
    intros i b Hi. apply (IH (S k) s1); [| | exact H | lia].
    + eapply well_formed_keeps; [exact Hwf | |].
      * eapply tick_rel_keeps, update_body_tick_rel, H1.
      * eapply update_body_length, H1.
    + eapply update_body_settles; eauto.
Qed.

(** A completed [SolarSystem.update] of a well-formed scene leaves it
    settled (and well-formed). *)
Lemma update_settles (ss ss' : SolarSystem.t) :
  well_formed (SolarSystem.bodies ss) -> SolarSystem.update ss = Py.Ok ss' ->
  settled (SolarSystem.bodies ss').
Proof.
  intros Hwf H. unfold SolarSystem.update in H.
  apply bind_Ok in H as (s & Hs & H). injection H as <-. simpl.
  intros i b Hb. eapply (for_each_settles _ _ 0%nat); [exact Hwf | | exact Hs | | exact Hb].
  - intros ? ? ?. lia.
  - simpl. rewrite <- (for_each_length _ _ _ _ Hs). eapply lookup_lt_Some, Hb.
Qed.

Lemma kin_equiv_refl s : kin_equiv s s.
Proof.
  split; [done |]. intros j b Hb. exists b. split; [done |].
  split; [apply same_elements_refl | done].
Qed.

Lemma kin_equiv_trans s1 s2 s3 :
  kin_equiv s1 s2 -> kin_equiv s2 s3 -> kin_equiv s1 s3.
Proof.
  intros [Hl12 H12] [Hl23 H23]. split; [congruence |]. intros j b Hb.
  destruct (H12 j b Hb) as (b2 & Hb2 & He2 & Ha2 & Hx2 & Hy2 & Hs2).
  destruct (H23 j b2 Hb2) as (b3 & Hb3 & He3 & Ha3 & Hx3 & Hy3 & Hs3).
  exists b3. split; [done |]. split; [eapply same_elements_trans; eauto |].
  pose proof He2 as (_ & _ & _ & _ & Hpar & _).
  repeat split; try congruence.
  intros Hp. rewrite Hs3, Hs2; [done | done | congruence].
Qed.

Lemma kin_equiv_keeps s s' : kin_equiv s s' -> keeps s s'.
Proof.
  intros [_ H] j b Hb. destruct (H j b Hb) as (b' & ? & ? & ? & ? & ? & Hs).
  exists b'. split; [done |]. split; [done |]. intros Hp. auto.
Qed.

Lemma settled_kin_equiv s s' : settled s -> kin_equiv s s' -> settled s'.
Proof.
  intros Hs [Hlen Hk] i b' Hb'.
  assert (is_Some (s !! i)) as [b Hb].
  { apply lookup_lt_is_Some. rewrite <- Hlen. eapply lookup_lt_Some, Hb'. }
  destruct (Hk i b Hb) as (b2 & Hb2 & Hel & Ha & Hx & Hy & _).
  rewrite Hb' in Hb2. injection Hb2 as <-.
  destruct (Hs i b Hb) as [Hang Hpos].
  pose proof Hel as (_ & _ & He & _ & Hpar & _).
  split; [by rewrite Ha |]. rewrite Hpar.
  destruct (CelestialBody.parent b) as [p|]; [| done].
  destruct Hpos as (pb & nu & r & Hpb & Hnu & Hr & Hbx & Hby).
  destruct (Hk p pb Hpb) as (pb' & Hpb' & _ & _ & Hpx & Hpy & _).
  exists pb', nu, r. split; [done |].
  rewrite He, Ha, (orbit_radius_elements b b' nu Hel), Hx, Hy, Hpx, Hpy. done.
Qed.

End Settled.

(** ** A step that changes no mean anomaly and no position *)

Section Frozen.

Implicit Types (s : store) (b : body) (i j k p : nat).

(** At [time_factor = 0], the round for a body of a settled store puts it
    back where it is. *)
Lemma update_body_still s i b :
  well_formed s -> settled s -> s !! i = Some b ->
  exists b',
    SolarSystem.update_body 0 s i = Py.Ok (<[i := b']> s)
    /\ same_elements b b'
    /\ CelestialBody.angle b' = CelestialBody.angle b
    /\ CelestialBody.x b' = CelestialBody.x b
    /\ CelestialBody.y b' = CelestialBody.y b
    /\ (CelestialBody.parent b = None ->
        CelestialBody.orbit_speed b' = CelestialBody.orbit_speed b).
Proof.
  intros Hwf Hset Hb.
  destruct (update_body_wf 0 s i b Hwf Hb) as (b' & Hstep & Hel & Hnew).
  destruct (Hset i b Hb) as [Hang Hpos]. specialize (Hwf i b Hb).
  exists b'. split; [exact Hstep |]. split; [exact Hel |].
  destruct (CelestialBody.parent b) as [p|].
  - destruct Hnew as (Ha & _ & pb & nu & r & Hpb & _ & Hnu & Hr & Hx & Hy).
    rewrite Rmult_0_r, Rplus_0_r, fmod_small in Ha by exact Hang.
    rewrite Ha in Hnu.
    destruct Hpos as (pb0 & nu0 & r0 & Hpb0 & Hnu0 & Hr0 & Hx0 & Hy0).
    rewrite Hpb in Hpb0. injection Hpb0 as <-.
    rewrite Hnu in Hnu0. injection Hnu0 as <-.
    rewrite Hr in Hr0. injection Hr0 as <-.
    repeat split; [congruence .. | intros; discriminate].
  - destruct Hnew as (Ha & Hx & Hy & Hsp).
    rewrite Rplus_0_r, fmod_small in Ha by exact Hang.
    repeat split; try done. intros _. congruence.
Qed.

Lemma kin_equiv_insert s i b b' :
  s !! i = Some b -> same_elements b b' ->
  CelestialBody.angle b' = CelestialBody.angle b ->
  CelestialBody.x b' = CelestialBody.x b ->
  CelestialBody.y b' = CelestialBody.y b ->
  (CelestialBody.parent b = None ->
   CelestialBody.orbit_speed b' = CelestialBody.orbit_speed b) ->
  kin_equiv s (<[i := b']> s).
Proof.
  intros Hb Hel Ha Hx Hy Hs. split; [apply length_insert |].
  intros j bj Hj. destruct (decide (i = j)) as [<-|Hne].
  - rewrite Hb in Hj. injection Hj as <-. exists b'.
    split; [apply list_lookup_insert_eq; eapply lookup_lt_Some, Hb | done].
  - exists bj. rewrite list_lookup_insert_ne by done.
    split; [done |]. split; [apply same_elements_refl | done].
Qed.

Lemma for_each_still (idxs : list nat) s :
  well_formed s -> settled s -> (forall i, i ∈ idxs -> (i < length s)%nat) ->
  exists s',
    Py.for_each (SolarSystem.update_body 0) idxs s = Py.Ok s'
    /\ kin_equiv s s'.
Proof.
  revert s. induction idxs as [|i rest IH]; intros s Hwf Hset Hidx; simpl.
  - exists s. split; [done | apply kin_equiv_refl].
  - assert (is_Some (s !! i)) as [b Hb].
    { apply lookup_lt_is_Some, Hidx. by left. }
    destruct (update_body_still s i b Hwf Hset Hb)
      as (b' & Hstep & Hel & Ha & Hx & Hy & Hs).
    pose proof (kin_equiv_insert s i b b' Hb Hel Ha Hx Hy Hs) as Hk.
    rewrite Hstep. simpl.
    destruct (IH (<[i := b']> s)) as (s' & Hrest & Hk').
    + eapply well_formed_keeps; [exact Hwf | | apply length_insert].
      by apply kin_equiv_keeps.
    + eapply settled_kin_equiv; eauto.
    + intros j Hj. rewrite length_insert. apply Hidx. by right.
    + exists s'. split; [exact Hrest |]. eapply kin_equiv_trans; eauto.
Qed.

Lemma kin_equiv_same_kinematics s s' : kin_equiv s s' -> same_kinematics s s'.
Proof.
  intros [Hlen H]. split; [exact Hlen |]. intros j b Hb.
  destruct (H j b Hb) as (b' & ? & _ & ? & ? & ? & _). eauto.
Qed.

(** At [time_factor = 0], the round for a body whose angle is reduced
    keeps the angle, wherever the body is. *)
Lemma update_body_keeps_angle s i b :
  well_formed s -> angles_reduced s -> s !! i = Some b ->
  exists b',
    SolarSystem.update_body 0 s i = Py.Ok (<[i := b']> s)
    /\ same_elements b b'
    /\ CelestialBody.angle b' = CelestialBody.angle b
    /\ (CelestialBody.parent b = None ->
        CelestialBody.x b' = CelestialBody.x b
        /\ CelestialBody.y b' = CelestialBody.y b
        /\ CelestialBody.orbit_speed b' = CelestialBody.orbit_speed b).
Proof.
  intros Hwf Hang Hb.
  destruct (update_body_wf 0 s i b Hwf Hb) as (b' & Hstep & Hel & Hnew).
  specialize (Hang i b Hb). specialize (Hwf i b Hb).
  exists b'. split; [exact Hstep |]. split; [exact Hel |].
  destruct (CelestialBody.parent b) as [p|].
  - destruct Hnew as (Ha & _).
    rewrite Rmult_0_r, Rplus_0_r, fmod_small in Ha by exact Hang.
    split; [exact Ha | intros; discriminate].
  - destruct Hnew as (Ha & Hx & Hy & Hsp).
    rewrite Rplus_0_r, fmod_small in Ha by exact Hang.
    split; [exact Ha |]. intros _. repeat split; congruence.
Qed.

Lemma angle_equiv_refl s : angle_equiv s s.
Proof.
  split; [done |]. intros j b Hb. exists b. split; [done |].
  split; [apply same_elements_refl | done].
Qed.

Lemma angle_equiv_trans s1 s2 s3 :
  angle_equiv s1 s2 -> angle_equiv s2 s3 -> angle_equiv s1 s3.
Proof.
  intros [Hl12 H12] [Hl23 H23]. split; [congruence |]. intros j b Hb.
  destruct (H12 j b Hb) as (b2 & Hb2 & He2 & Ha2 & Hr2).
  destruct (H23 j b2 Hb2) as (b3 & Hb3 & He3 & Ha3 & Hr3).
  exists b3. split; [done |]. split; [eapply same_elements_trans; eauto |].
  pose proof He2 as (_ & _ & _ & _ & Hpar & _).
  split; [congruence |]. intros Hp. destruct (Hr2 Hp) as (? & ? & ?).
  destruct Hr3 as (? & ? & ?); [congruence |]. repeat split; congruence.
Qed.

Lemma angle_equiv_keeps s s' : angle_equiv s s' -> keeps s s'.
Proof.
  intros [_ H] j b Hb. destruct (H j b Hb) as (b' & ? & ? & _ & ?). eauto.
Qed.

Lemma angles_reduced_equiv s s' :
  angles_reduced s -> angle_equiv s s' -> angles_reduced s'.
Proof.
  intros Hang [Hlen H] i b' Hb'.
  assert (is_Some (s !! i)) as [b Hb].
  { apply lookup_lt_is_Some. rewrite <- Hlen. eapply lookup_lt_Some, Hb'. }
  destruct (H i b Hb) as (b2 & Hb2 & _ & Ha & _).
  rewrite Hb' in Hb2. injection Hb2 as <-. rewrite Ha. by eapply Hang.
Qed.

Lemma for_each_keeps_angle (idxs : list nat) s :
  well_formed s -> angles_reduced s ->
  (forall i, i ∈ idxs -> (i < length s)%nat) ->
  exists s',
    Py.for_each (SolarSystem.update_body 0) idxs s = Py.Ok s'
    /\ angle_equiv s s'.
Proof.
  revert s. induction idxs as [|i rest IH]; intros s Hwf Hang Hidx; simpl.
  - exists s. split; [done | apply angle_equiv_refl].
  - assert (is_Some (s !! i)) as [b Hb].
    { apply lookup_lt_is_Some, Hidx. by left. }
    destruct (update_body_keeps_angle s i b Hwf Hang Hb)
      as (b' & Hstep & Hel & Ha & Hroot).
    assert (angle_equiv s (<[i := b']> s)) as Hk.
    { split; [apply length_insert |]. intros j bj Hj.
      destruct (decide (i = j)) as [<-|Hne].
      - rewrite Hb in Hj. injection Hj as <-. exists b'.
        split; [apply list_lookup_insert_eq; eapply lookup_lt_Some, Hb | done].
      - exists bj. rewrite list_lookup_insert_ne by done.
        split; [done |]. split; [apply same_elements_refl | done]. }
    rewrite Hstep. simpl.
    destruct (IH (<[i := b']> s)) as (s' & Hrest & Hk').
    + eapply well_formed_keeps; [exact Hwf | | apply length_insert].
      by apply angle_equiv_keeps.
    + eapply angles_reduced_equiv; eauto.
    + intros j Hj. rewrite length_insert. apply Hidx. by right.
    + exists s'. split; [exact Hrest |]. eapply angle_equiv_trans; eauto.
Qed.

Lemma angle_equiv_same_angles s s' : angle_equiv s s' -> same_angles s s'.
Proof.
  intros [Hlen H]. split; [exact Hlen |]. intros j b Hb.
  destruct (H j b Hb) as (b' & ? & _ & ? & _). eauto.
Qed.

Lemma same_kinematics_angles s s' : same_kinematics s s' -> same_angles s s'.
Proof.
  intros [Hlen H]. split; [exact Hlen |]. intros j b Hb.
  destruct (H j b Hb) as (b' & ? & ? & _). eauto.
Qed.

(** C7, as the code has it.  While paused, a frame step completes and
    changes nothing at all.  At [time_factor = 0], a frame step of a
    well-formed scene with reduced angles (as the constructors build it)
    completes and changes no body's [angle]; it changes no body's [x] or
    [y] either if the scene is settled (each body where [update] puts it
    for its angle, as after any earlier completed update). *)
Theorem frozen_step (paused : bool) (ss : SolarSystem.t) :
  paused = true
  \/ (SolarSystem.time_factor ss = 0
      /\ well_formed (SolarSystem.bodies ss)
      /\ angles_reduced (SolarSystem.bodies ss)) ->
  exists ss',
    Main.step paused ss = Py.Ok ss'
    /\ (paused = true -> ss' = ss)
    /\ same_angles (SolarSystem.bodies ss) (SolarSystem.bodies ss')
    /\ (paused = true \/ settled (SolarSystem.bodies ss) ->
        same_kinematics (SolarSystem.bodies ss) (SolarSystem.bodies ss')).
Proof.
  assert (forall t : SolarSystem.t,
            same_kinematics (SolarSystem.bodies t) (SolarSystem.bodies t))
    as Hrefl by (intros t; apply kin_equiv_same_kinematics, kin_equiv_refl).
  intros [->|(Htf & Hwf & Hang)].
  - exists ss. split; [reflexivity |]. split; [done |].
    split; [apply same_kinematics_angles, Hrefl | intros _; apply Hrefl].
  - destruct paused.
    + exists ss. split; [reflexivity |]. split; [done |].
      split; [apply same_kinematics_angles, Hrefl | intros _; apply Hrefl].
    + unfold Main.step, SolarSystem.update. cbn [negb]. rewrite Htf.
      assert (forall i, i ∈ seq 0 (length (SolarSystem.bodies ss)) ->
                        (i < length (SolarSystem.bodies ss))%nat) as Hidx.
      { intros i Hi. apply elem_of_seq in Hi. lia. }
      destruct (for_each_keeps_angle _ _ Hwf Hang Hidx) as (s' & Hrun & Hk).
      rewrite Hrun. simpl. eexists. split; [reflexivity |].
      split; [discriminate |]. simpl.
      split; [by apply angle_equiv_same_angles |].
      intros [Hp|Hset]; [discriminate |].
      destruct (for_each_still _ _ Hwf Hset Hidx) as (s'' & Hrun' & Hk').
      rewrite Hrun in Hrun'. injection Hrun' as <-.
      by apply kin_equiv_same_kinematics.
Qed.

End Frozen.

(** A completed [update] leaves every angle reduced. *)
Lemma settled_angles_reduced (s : store) : settled s -> angles_reduced s.
Proof. intros Hset i b Hb. by destruct (Hset i b Hb) as [? _]. Qed.

Lemma frozen_step_witness :
  exists ss0 ss1 ss' : SolarSystem.t,
    star_and_planet 3 4 100 (1 / 2) 0 (1 / 100) = Py.Ok ss0
    /\ SolarSystem.update ss0 = Py.Ok ss1
    /\ Main.step false (SolarSystem.set_time_factor 0 ss1) = Py.Ok ss'
    /\ same_kinematics (SolarSystem.bodies ss1) (SolarSystem.bodies ss').
Proof.
  destruct (star_and_planet 3 4 100 (1 / 2) 0 (1 / 100)) as [ss0|] eqn:Hss;
    [| discriminate Hss].
  assert (well_formed (SolarSystem.bodies ss0)) as Hwf.
  { eapply star_and_planet_well_formed; [| exact Hss]. lra. }
  destruct (update_total ss0 Hwf) as (ss1 & Hup).
  pose proof (update_well_formed ss0 ss1 Hwf Hup) as Hwf1.
  pose proof (update_settles ss0 ss1 Hwf Hup) as Hset1.
  destruct (frozen_step false (SolarSystem.set_time_factor 0 ss1))
    as (ss' & Hstep & _ & _ & Hsame).
  { right. split; [reflexivity |]. split; [exact Hwf1 |].
    apply settled_angles_reduced, Hset1. }
  exists ss0, ss1, ss'. split; [reflexivity |]. split; [exact Hup |].
  split; [exact Hstep |]. apply Hsame. right. exact Hset1.
Defined.

(** C7 as written fails on a scene straight from the constructors, which
    put a new body at its parent's place: the first step at
    [time_factor = 0] moves the planet from [(0, 0)] out to its orbit, at
    [(100, 0)]. *)
Lemma frozen_step_fresh_scene :
  exists (ss ss' : SolarSystem.t) (b b' : body),
    star_and_planet 0 0 100 0 0 1 = Py.Ok ss
    /\ SolarSystem.time_factor (SolarSystem.set_time_factor 0 ss) = 0
    /\ Main.step false (SolarSystem.set_time_factor 0 ss) = Py.Ok ss'
    /\ SolarSystem.bodies (SolarSystem.set_time_factor 0 ss) !! 1%nat = Some b
    /\ SolarSystem.bodies ss' !! 1%nat = Some b'
    /\ CelestialBody.angle b' = CelestialBody.angle b
    /\ CelestialBody.x b = 0 /\ CelestialBody.x b' = 100
    /\ ~ same_kinematics
           (SolarSystem.bodies (SolarSystem.set_time_factor 0 ss))
           (SolarSystem.bodies ss').
Proof.
  destruct (star_and_planet 0 0 100 0 0 1) as [ss|] eqn:Hss;
    [| discriminate Hss].
  assert (well_formed (SolarSystem.bodies ss)) as Hwf.
  { eapply star_and_planet_well_formed; [| exact Hss]. lra. }
  injection Hss as <-. simpl in Hwf.
  match type of Hwf with
  | well_formed ?s =>
      destruct (update_body_wf 0 s 0%nat _ Hwf eq_refl)
        as (star' & Hstep0 & Hel0 & Hnew0)
  end.
  simpl in Hnew0. destruct Hnew0 as (_ & Hx0 & Hy0 & _).
  match type of Hstep0 with
  | _ = Py.Ok ?s1 =>
      assert (well_formed s1) as Hwf1
  end.
  { eapply well_formed_keeps; [exact Hwf | | apply length_insert].
    eapply tick_rel_keeps, update_body_tick_rel, Hstep0. }
  simpl in Hwf1, Hstep0.
  match type of Hwf1 with
  | well_formed ?s1 =>
      destruct (update_body_wf 0 s1 1%nat _ Hwf1 eq_refl)
        as (planet' & Hstep1 & Hel1 & Hnew1)
  end.
  simpl in Hnew1, Hstep1.
  destruct Hnew1 as (Ha & _ & pb & nu & r & Hpb & _ & Hnu & Hr & Hx & _).
  injection Hpb as <-.
  assert (CelestialBody.angle planet' = 0) as Ha0.
  { rewrite Ha. unfold Py.uniform. pose proof PI_RGT_0.
    rewrite fmod_small; lra. }
  rewrite Ha0, kepler_E_circular, true_anomaly_Ok in Hnu by lra.
  injection Hnu as Hnu.
  replace (0 / 2) with 0 in Hnu by lra.
  rewrite sin_0, cos_0, Rmult_0_r, Rmult_1_r, atan2_0_pos, Rmult_0_r in Hnu
    by (apply sqrt_lt_R0; lra).
  subst nu. unfold CelestialBody.orbit_radius in Hr. simpl in Hr.
  rewrite truediv_Ok in Hr by (rewrite cos_0; lra). injection Hr as Hr.
  rewrite cos_0 in Hr, Hx.
  assert (CelestialBody.x planet' = 100) as Hx100.
  { rewrite Hx, Hx0, <- Hr. simpl. field. }
  eexists _, _, _, planet'. split; [reflexivity |]. split; [reflexivity |].
  split.
  { unfold Main.step, SolarSystem.update.
    cbn [negb SolarSystem.bodies SolarSystem.set_time_factor
         SolarSystem.time_factor length seq Py.for_each].
    rewrite Hstep0. cbn [Py.bind]. rewrite Hstep1. reflexivity. }
  split; [reflexivity |]. split; [reflexivity |].
  split; [rewrite Ha0; unfold Py.uniform; simpl; lra |].
  split; [reflexivity |]. split; [exact Hx100 |].
  intros [_ Hsame]. edestruct (Hsame 1%nat) as (b2 & Hb2 & _ & Hx2 & _);
    [reflexivity |].
  simpl in Hb2. injection Hb2 as <-. simpl in Hx2. lra.
Qed.

(** ** The moon's minimum orbit *)

Section Moon.

Implicit Types (s : store) (b : body) (i j k p : nat).

(** C4, as the code has it.  [add_moon] under a parent whose name is not
    ["Sun"] builds a moon whose semi-major axis is [2 * parent.radius] when
    the nominal one is smaller, and the nominal one otherwise.  (The code
    tells the root star by its name, not by its having no parent.) *)
Theorem add_moon_min_orbit (u : R) (ss : SolarSystem.t) (parent : nat)
    (pb : body) (a radius speed e : R) (name : string) (mass : R)
    (facts : option (list (string * string))) :
  SolarSystem.bodies ss !! parent = Some pb ->
  CelestialBody.name pb <> "Sun"%string ->
  exists (ss' : SolarSystem.t) (moon : body),
    SolarSystem.add_moon u ss parent a radius speed e name mass facts
      = Py.Ok (ss', length (SolarSystem.bodies ss))
    /\ SolarSystem.bodies ss' !! length (SolarSystem.bodies ss) = Some moon
    /\ CelestialBody.parent moon = Some parent
    /\ (a < 2 * CelestialBody.radius pb ->
        CelestialBody.semi_major_axis moon = 2 * CelestialBody.radius pb)
    /\ (2 * CelestialBody.radius pb <= a ->
        CelestialBody.semi_major_axis moon = a).
Proof.
  intros Hpb Hname. unfold SolarSystem.add_moon.
  rewrite (deref_lookup _ _ _ Hpb). simpl.
  apply String.eqb_neq in Hname. rewrite Hname. simpl.
  eexists _, _. split; [reflexivity |]. simpl.
  split; [apply list_lookup_middle; reflexivity |]. simpl.
  split; [reflexivity |]. unfold Py.max.
  split; intros Ha; destruct (Rlt_dec _ _); lra.
Qed.

End Moon.

Lemma add_moon_min_orbit_witness :
  exists ss : SolarSystem.t,
    star_and_planet 0 0 100 0 0 1 = Py.Ok ss
    /\ exists (ss' : SolarSystem.t) (moon : body),
         SolarSystem.add_moon 0 ss 1 (1 / 2) 1 1 0 "Moon" 0 None
           = Py.Ok (ss', 2%nat)
         /\ SolarSystem.bodies ss' !! 2%nat = Some moon
         /\ CelestialBody.semi_major_axis moon = 2 * 1.
Proof.
  destruct (star_and_planet 0 0 100 0 0 1) as [ss|] eqn:Hss;
    [| discriminate Hss].
  injection Hss as <-. eexists. split; [reflexivity |].
  match goal with
  | |- context [SolarSystem.add_moon _ ?ss _ _ _ _ _ _ _ _] =>
      destruct (add_moon_min_orbit 0 ss 1%nat _ (1 / 2) 1 1 0 "Moon" 0 None
                  eq_refl)
        as (ss' & moon & Hadd & Hmoon & _ & Hsmall & _)
  end.
  - simpl. discriminate.
  - exists ss', moon. split; [exact Hadd |]. split; [exact Hmoon |].
    apply Hsmall. simpl. lra.
Defined.

(** C4 as written fails under a parent that is not the root but is named
    ["Sun"]: the nominal semi-major axis [1 < 2 * 5] is kept. *)
Lemma add_moon_under_namesake :
  exists (ss ss' : SolarSystem.t) (pb m : body),
    (let built :=
       SolarSystem.add_star SolarSystem.init 0 0 5 (255, 255, 190)%Z
         "Sun" 0 None in
     SolarSystem.add_planet 0 built.1 built.2 100 5 (50, 100, 200)%Z 1 0
       "Sun" 0 None) = Py.Ok (ss, 1%nat)
    /\ SolarSystem.bodies ss !! 1%nat = Some pb
    /\ CelestialBody.parent pb = Some 0%nat
    /\ SolarSystem.add_moon 0 ss 1 1 1 1 0 "Moon" 0 None = Py.Ok (ss', 2%nat)
    /\ SolarSystem.bodies ss' !! 2%nat = Some m
    /\ 1 < 2 * CelestialBody.radius pb
    /\ CelestialBody.semi_major_axis m = 1
    /\ CelestialBody.semi_major_axis m <> 2 * CelestialBody.radius pb.
Proof.
  eexists _, _, _, _. split; [reflexivity |]. split; [reflexivity |].
  split; [reflexivity |]. split; [reflexivity |]. split; [reflexivity |].
  simpl. unfold Py.max. destruct (Rlt_dec 1 1); [lra |].
  repeat split; lra.
Qed.

(** ** The cached orbit surface *)

Section OrbitCache.

Implicit Types (s : store) (b : body) (i j k p : nat).

Lemma ltb_true (u v : R) : Py.ltb u v = true <-> u < v.
Proof.
  unfold Py.ltb. destruct (Rlt_dec u v); split; intros H; done.
Qed.

Lemma min_of_is_Ok (xs : list R) :
  (0 < length xs)%nat -> exists m, Py.min_of xs = Py.Ok m.
Proof. destruct xs; simpl; [lia | eauto]. Qed.

Lemma max_of_is_Ok (xs : list R) :
  (0 < length xs)%nat -> exists m, Py.max_of xs = Py.Ok m.
Proof. destruct xs; simpl; [lia | eauto]. Qed.

Lemma sample_orbit_length (a b : R) : length (CelestialBody.sample_orbit a b) = 30%nat.
Proof. unfold CelestialBody.sample_orbit. by rewrite length_map, length_seq. Qed.

(** The test of lines 88-93, spelled out. *)
Lemma orbit_cache_valid_spec b (zoom view_x view_y : R) (width height : Z) :
  CelestialBody.orbit_cache_valid b zoom view_x view_y width height = true
  <-> is_Some (CelestialBody.orbit_surface b)
      /\ Rabs (zoom - CelestialBody.last_zoom b) < 0.01
      /\ width = CelestialBody.last_width b
      /\ height = CelestialBody.last_height b
      /\ Rabs (view_x - CelestialBody.last_view_x b) < 1
      /\ Rabs (view_y - CelestialBody.last_view_y b) < 1.
Proof.
  unfold CelestialBody.orbit_cache_valid.
  rewrite !andb_true_iff, !ltb_true, !Z.eqb_eq, bool_decide_eq_true.
  tauto.
Qed.

(** The path of lines 95-132, taken when the test fails. *)
Lemma rebuild_Ok s i p b pb (zoom view_x view_y : R) (width height : Z) :
  s !! i = Some b -> CelestialBody.parent b = Some p -> s !! p = Some pb ->
  0 <= CelestialBody.one_minus_e2 b ->
  CelestialBody.orbit_cache_valid b zoom view_x view_y width height = false ->
  exists (surface : Pygame.Surface) (rect : Pygame.Rect)
         (lines : Pygame.Polyline),
    CelestialBody.update_orbit_surface s i zoom view_x view_y width height =
      Py.Ok (<[i := CelestialBody.set_orbit_rect (Some rect)
                  (CelestialBody.set_orbit_surface (Some surface)
                     (CelestialBody.set_orbit_points
                        (Some (CelestialBody.sample_orbit
                                 (CelestialBody.semi_major_axis b)
                                 (CelestialBody.semi_major_axis b
                                  * sqrt (CelestialBody.one_minus_e2 b))))
                        (CelestialBody.set_last_view zoom view_x view_y
                           width height b)))]> s,
             [Pygame.NewSurface (Pygame.surf_width surface)
                (Pygame.surf_height surface);
              Pygame.DrawLines lines]).
Proof.
  intros Hb Hp Hpb Home Hv. unfold CelestialBody.update_orbit_surface.
  rewrite (deref_lookup _ _ _ Hb). cbn [mbind result_bind Py.bind].
  rewrite Hp, Hv. cbv zeta.
  rewrite (deref_insert_eq _ _ _ _ Hb). cbn [mbind result_bind Py.bind].
  cbn [CelestialBody.one_minus_e2 CelestialBody.set_last_view].
  rewrite sqrt_Ok by exact Home. cbn [mbind result_bind Py.bind].
  rewrite list_insert_insert_eq.
  rewrite (deref_insert_eq _ _ _ _ Hb). cbn [mbind result_bind Py.bind].
  cbn [CelestialBody.semi_major_axis CelestialBody.set_last_view
       CelestialBody.orbit_points CelestialBody.set_orbit_points default].
  assert (exists parent_, CelestialBody.deref
            (<[i := CelestialBody.set_orbit_points
                      (Some (CelestialBody.sample_orbit
                               (CelestialBody.semi_major_axis b)
                               (CelestialBody.semi_major_axis b
                                * sqrt (CelestialBody.one_minus_e2 b))))
                      (CelestialBody.set_last_view zoom view_x view_y width
                         height b)]> s) p = Py.Ok parent_) as [parent_ ->].
  { destruct (decide (i = p)) as [<-|Hne].
    - rewrite (deref_insert_eq _ _ _ _ Hb). eauto.
    - rewrite deref_insert_ne by done. rewrite (deref_lookup _ _ _ Hpb). eauto. }
  cbn [mbind result_bind Py.bind]. unfold Datatypes.id.
  repeat match goal with
  | |- context [Py.min_of ?l] =>
      destruct (min_of_is_Ok l) as [? ->];
        [rewrite !length_map, sample_orbit_length; lia |];
        cbn [mbind result_bind Py.bind]
  | |- context [Py.max_of ?l] =>
      destruct (max_of_is_Ok l) as [? ->];
        [rewrite !length_map, sample_orbit_length; lia |];
        cbn [mbind result_bind Py.bind]
  end.
  rewrite !list_insert_insert_eq.
  eexists {| Pygame.surf_width := _; Pygame.surf_height := _;
             Pygame.surf_lines := _ |}, _, _.
  reflexivity.
Qed.

(** C5. For a body with a parent, [update_orbit_surface] completes; it
    builds a surface exactly when the cache is not valid, where valid means
    a surface is there, [|zoom - last_zoom| < 0.01], [width] and [height]
    are the cached ones, and [|view - last_view| < 1] on both axes.  Under
    a valid cache nothing is touched and the renderer is not called; under
    an invalid one exactly one surface is built and the body holds it, its
    rect and the new key [(zoom, width, height, view_x, view_y)]. *)
Theorem orbit_surface_cache s i p b pb (zoom view_x view_y : R)
    (width height : Z) :
  s !! i = Some b -> CelestialBody.parent b = Some p -> s !! p = Some pb ->
  0 <= CelestialBody.one_minus_e2 b ->
  let valid :=
    CelestialBody.orbit_cache_valid b zoom view_x view_y width height in
  (valid = true
   <-> is_Some (CelestialBody.orbit_surface b)
       /\ Rabs (zoom - CelestialBody.last_zoom b) < 0.01
       /\ width = CelestialBody.last_width b
       /\ height = CelestialBody.last_height b
       /\ Rabs (view_x - CelestialBody.last_view_x b) < 1
       /\ Rabs (view_y - CelestialBody.last_view_y b) < 1)
  /\ exists (s' : store) (calls : list Pygame.call),
       CelestialBody.update_orbit_surface s i zoom view_x view_y width height
         = Py.Ok (s', calls)
       /\ (rebuilds calls = 1%nat <-> valid = false)
       /\ (valid = true -> s' = s /\ calls = [])
       /\ (valid = false ->
           rebuilds calls = 1%nat
           /\ exists b',
                s' = <[i := b']> s
                /\ is_Some (CelestialBody.orbit_surface b')
                /\ is_Some (CelestialBody.orbit_rect b')
                /\ CelestialBody.last_zoom b' = zoom
                /\ CelestialBody.last_width b' = width
                /\ CelestialBody.last_height b' = height
                /\ CelestialBody.last_view_x b' = view_x
                /\ CelestialBody.last_view_y b' = view_y).
Proof.
  intros Hb Hp Hpb Home valid. split; [apply orbit_cache_valid_spec |].
  destruct valid eqn:Hv; subst valid.
  - exists s, []. unfold CelestialBody.update_orbit_surface.
    rewrite (deref_lookup _ _ _ Hb). cbn [mbind result_bind Py.bind].
    rewrite Hp, Hv. split; [reflexivity |]. simpl.
    split; [split; discriminate |]. split; [done | discriminate].
  - destruct (rebuild_Ok s i p b pb zoom view_x view_y width height
                Hb Hp Hpb Home Hv) as (surface & rect & lines & ->).
    eexists _, _. split; [reflexivity |]. simpl.
    split; [done |]. split; [discriminate |]. intros _.
    split; [reflexivity |]. eexists. split; [reflexivity |]. simpl.
    repeat split; eauto.
Qed.

End OrbitCache.

Lemma orbit_surface_cache_witness :
  exists ss : SolarSystem.t,
    star_and_planet 3 4 100 (1 / 2) 0 (1 / 100) = Py.Ok ss
    /\ exists (s' : store) (calls : list Pygame.call),
         CelestialBody.update_orbit_surface (SolarSystem.bodies ss) 1
           1 600 400 1200 800 = Py.Ok (s', calls)
         /\ rebuilds calls = 1%nat.
Proof.
  destruct (star_and_planet 3 4 100 (1 / 2) 0 (1 / 100)) as [ss|] eqn:Hss;
    [| discriminate Hss].
  injection Hss as <-. eexists. split; [reflexivity |].
  match goal with
  | |- context [CelestialBody.update_orbit_surface ?s _ _ _ _ _ _] =>
      destruct (orbit_surface_cache s 1%nat 0%nat _ _ 1 600 400 1200 800
                  eq_refl eq_refl eq_refl)
        as (_ & s' & calls & Hcall & _ & _ & Hinvalid)
  end.
  - simpl. lra.
  - exists s', calls. split; [exact Hcall |]. apply Hinvalid. reflexivity.
Defined.

(** ** The camera *)

Section Camera.

Implicit Types (b : body).

Lemma half_of_even (w : Z) : Z.even w = true -> IZR (w / 2) = IZR w / 2.
Proof.
  intros Hw. apply Z.even_spec in Hw as [k ->].
  rewrite Z.mul_comm, Z.div_mul by lia. rewrite mult_IZR. field.
Qed.

(** C8, as the code has it.  The screen position of a body is
    [((x - view_x) * zoom + width // 2, (y - view_y) * zoom + height // 2)],
    with the integer halves of the viewport; it is the affine map of the
    specification when [width] and [height] are even.  For every zoom in
    [[0.05, 5]] and every pan, converting the screen offset between the
    body and the centre of the viewport back with the division by [zoom]
    of the drag handler returns the world position of the body, exactly. *)
Theorem camera_round_trip b (zoom view_x view_y : R) (width height : Z) :
  0.05 <= zoom <= 5 ->
  (CelestialBody.scaled_x b zoom view_x width,
   CelestialBody.scaled_y b zoom view_y height)
    = ((CelestialBody.x b - view_x) * zoom + IZR (width / 2),
       (CelestialBody.y b - view_y) * zoom + IZR (height / 2))
  /\ (Z.even width = true -> Z.even height = true ->
      (CelestialBody.scaled_x b zoom view_x width,
       CelestialBody.scaled_y b zoom view_y height)
        = world_to_screen_spec (position b) (view_x, view_y) zoom width height)
  /\ Main.drag zoom (view_x, view_y)
       (IZR (width / 2) - CelestialBody.scaled_x b zoom view_x width,
        IZR (height / 2) - CelestialBody.scaled_y b zoom view_y height)
     = Py.Ok (CelestialBody.x b, CelestialBody.y b).
Proof.
  intros Hz. split; [reflexivity |]. split.
  - intros Hw Hh. unfold world_to_screen_spec, position,
      CelestialBody.scaled_x, CelestialBody.scaled_y. simpl.
    by rewrite (half_of_even _ Hw), (half_of_even _ Hh).
  - unfold Main.drag, CelestialBody.scaled_x, CelestialBody.scaled_y.
    cbn [fst snd]. rewrite !truediv_Ok by lra.
    cbn [mbind result_bind Py.bind]. f_equal. f_equal; field; lra.
Qed.

Lemma camera_round_trip_witness :
  exists b : body,
    (SolarSystem.bodies
       (SolarSystem.add_star SolarSystem.init 7 9 5 (255, 255, 190)%Z
          "Sun" 0 None).1) !! 0%nat = Some b
    /\ Main.drag (1 / 2) (600, 400)
         (IZR (1201 / 2) - CelestialBody.scaled_x b (1 / 2) 600 1201,
          IZR (800 / 2) - CelestialBody.scaled_y b (1 / 2) 400 800)
       = Py.Ok (7, 9).
Proof.
  eexists. split; [reflexivity |].
  refine (proj2 (proj2 (camera_round_trip _ (1 / 2) 600 400 1201 800 _))).
  lra.
Defined.

(** C8 as written fails on a viewport of odd width: at [width = 1201] the
    code adds [1201 // 2 = 600] where the specification adds [1201 / 2]. *)
Lemma camera_odd_viewport :
  exists b : body,
    (SolarSystem.bodies
       (SolarSystem.add_star SolarSystem.init 0 0 5 (255, 255, 190)%Z
          "Sun" 0 None).1) !! 0%nat = Some b
    /\ CelestialBody.scaled_x b 1 0 1201 = 600
    /\ (world_to_screen_spec (position b) (0, 0) 1 1201 800).1 = 1201 / 2
    /\ (CelestialBody.scaled_x b 1 0 1201, CelestialBody.scaled_y b 1 0 800)
       <> world_to_screen_spec (position b) (0, 0) 1 1201 800.
Proof.
  eexists. split; [reflexivity |].
  unfold CelestialBody.scaled_x, CelestialBody.scaled_y, world_to_screen_spec,
    position. cbn [fst snd CelestialBody.x CelestialBody.y].
  change (1201 / 2)%Z with 600%Z. change (800 / 2)%Z with 400%Z.
  split; [lra |]. split; [lra |].
  intros H. injection H as H _. lra.
Qed.

End Camera.

(** ** Angular speeds from orbital periods *)

Section Periods.

Implicit Types (s : store) (b : body) (i j k p : nat).

Lemma log10_Ok (v : R) : 0 < v -> Py.log10 v = Py.Ok (ln v / ln 10).
Proof.
  intros Hv. unfold Py.log10. destruct (Rle_dec v 0); [lra | reflexivity].
Qed.

Lemma base_speed_pos : 0 < Catalog.base_speed.
Proof.
  unfold Catalog.base_speed, Catalog.base_frames. pose proof PI_RGT_0.
  apply Rdiv_lt_0_compat; lra.
Qed.

Lemma orbit_speed_nonpositive (period : R) :
  period <= 0 -> Catalog.orbit_speed period = Py.Ok 0.
Proof.
  intros Hp. unfold Catalog.orbit_speed.
  destruct (Rlt_dec 0 period); [lra | reflexivity].
Qed.

Lemma orbit_speed_positive (period : R) :
  0 < period ->
  Catalog.orbit_speed period
    = Py.Ok (Catalog.base_speed * (Catalog.earth_period / period))
  /\ 0 < Catalog.base_speed * (Catalog.earth_period / period).
Proof.
  intros Hp. unfold Catalog.orbit_speed.
  destruct (Rlt_dec 0 period); [| lra].
  rewrite truediv_Ok by lra. split; [reflexivity |].
  apply Rmult_lt_0_compat; [apply base_speed_pos |].
  apply Rdiv_lt_0_compat; [unfold Catalog.earth_period; lra | exact Hp].
Qed.

Lemma orbit_speed_never_divides_by_zero (period : R) :
  Catalog.orbit_speed period <> Py.Raise Py.ZeroDivisionError.
Proof.
  destruct (Rlt_dec 0 period) as [Hp|Hp].
  - destruct (orbit_speed_positive period Hp) as [-> _]. discriminate.
  - rewrite orbit_speed_nonpositive by lra. discriminate.
Qed.

(** The moons have no such guard: a period of zero is divided by. *)
Lemma moon_speed_zero_period :
  Catalog.moon_speed 0 = Py.Raise Py.ZeroDivisionError.
Proof.
  unfold Catalog.moon_speed. rewrite Rabs_R0, truediv_zero. reflexivity.
Qed.

Lemma moon_speed_nonzero (period : R) :
  period <> 0 ->
  Catalog.moon_speed period
    = Py.Ok (Catalog.base_speed * (Catalog.earth_period / Rabs period)
             * (if Rlt_dec period 0 then -1 else 1)).
Proof.
  intros Hp. unfold Catalog.moon_speed.
  rewrite truediv_Ok by (by apply Rabs_no_R0). reflexivity.
Qed.

(** The guard of line 1066, on any entry.  A planet whose orbital period
    is zero or negative (its radius being positive and its colour found, so
    that the planet can be built at all) is built with base and current
    angular speed 0, and its speed is derived without a division; the
    derivation of a planet's speed never divides by zero, whatever the
    period.  A positive period, however small, is divided by and gives a
    speed that is not 0. *)
Lemma zero_period_planet (rnd : nat -> R) (sun i : nat)
    (ss : SolarSystem.t) (entry : Catalog.Planet) (pb : body)
    (c : Pygame.Color) :
  Catalog.orbital_period entry <= 0 ->
  0 < Catalog.radius entry ->
  Catalog.planet_color i entry = Py.Ok c ->
  SolarSystem.bodies ss !! sun = Some pb ->
  Catalog.orbit_speed (Catalog.orbital_period entry) = Py.Ok 0
  /\ (forall period : R,
        Catalog.orbit_speed period <> Py.Raise Py.ZeroDivisionError)
  /\ (forall period : R, 0 < period ->
        Catalog.orbit_speed period
          = Py.Ok (Catalog.base_speed * (Catalog.earth_period / period))
        /\ 0 < Catalog.base_speed * (Catalog.earth_period / period))
  /\ exists (ss' : SolarSystem.t) (b : body),
       Catalog.add_catalog_planet rnd sun i ss entry
         = Py.Ok (ss', length (SolarSystem.bodies ss))
       /\ SolarSystem.bodies ss' !! length (SolarSystem.bodies ss) = Some b
       /\ CelestialBody.name b = Catalog.name entry
       /\ CelestialBody.parent b = Some sun
       /\ CelestialBody.base_orbit_speed b = 0
       /\ CelestialBody.orbit_speed b = 0.
Proof.
  intros Hp Hr Hc Hsun.
  split; [by apply orbit_speed_nonpositive |].
  split; [apply orbit_speed_never_divides_by_zero |].
  split; [apply orbit_speed_positive |].
  unfold Catalog.add_catalog_planet, Catalog.pixel_radius.
  rewrite log10_Ok by (apply Rdiv_lt_0_compat; lra).
  cbn [mbind result_bind Py.bind].
  rewrite orbit_speed_nonpositive by exact Hp.
  cbn [mbind result_bind Py.bind].
  rewrite Hc. cbn [mbind result_bind Py.bind].
  unfold SolarSystem.add_planet. rewrite (deref_lookup _ _ _ Hsun).
  cbn [mbind result_bind Py.bind].
  eexists _, _. split; [reflexivity |]. simpl.
  split; [apply list_lookup_middle; reflexivity |]. done.
Qed.

End Periods.

Lemma zero_period_planet_witness :
  exists (ss : SolarSystem.t) (b : body),
    create_real_solar_system (fun _ => 0) [sun_entry; planet_entry 0 None]
      1200 800 = Py.Ok ss
    /\ SolarSystem.bodies ss !! 1%nat = Some b
    /\ CelestialBody.base_orbit_speed b = 0
    /\ CelestialBody.orbit_speed b = 0.
Proof.
  unfold create_real_solar_system. cbv zeta.
  cbn [Catalog.add_catalog_planets Catalog.moons planet_entry].
  match goal with
  | |- context [Catalog.add_catalog_planet ?rnd ?sun ?i ?ss ?entry] =>
      destruct (zero_period_planet rnd sun i ss entry _ _
                  ltac:(simpl; lra) ltac:(simpl; lra) eq_refl eq_refl)
        as (_ & _ & _ & ss' & b & Hadd & Hb & _ & _ & Hbase & Hspeed)
  end.
  rewrite Hadd. exists ss', b. split; [reflexivity |].
  split; [exact Hb |]. split; [exact Hbase | exact Hspeed].
Defined.

(** Were an entry of the catalogue to have a period of a millionth of a
    day (none has), its planet would be built with a speed that is not 0:
    the guard of line 1066 is on the sign of the period alone. *)
Lemma near_zero_period_planet :
  exists (ss : SolarSystem.t) (b : body),
    create_real_solar_system (fun _ => 0)
      [sun_entry; planet_entry (1 / 1000000) None] 1200 800 = Py.Ok ss
    /\ SolarSystem.bodies ss !! 1%nat = Some b
    /\ CelestialBody.base_orbit_speed b
       = Catalog.base_speed * (Catalog.earth_period / (1 / 1000000))
    /\ CelestialBody.base_orbit_speed b <> 0.
Proof.
  destruct (orbit_speed_positive (1 / 1000000)) as [Hspeed Hpos]; [lra |].
  unfold create_real_solar_system. cbv zeta.
  cbn [Catalog.add_catalog_planets Catalog.moons planet_entry].
  unfold Catalog.add_catalog_planet, Catalog.pixel_radius.
  cbn [Catalog.radius Catalog.orbital_period planet_entry].
  rewrite log10_Ok by lra. cbn [mbind result_bind Py.bind].
  rewrite Hspeed. unfold Catalog.planet_color.
  cbn [mbind result_bind Py.bind Nat.leb].
  eexists _, _. split; [reflexivity |]. split; [reflexivity |]. simpl.
  split; [reflexivity | lra].
Qed.

(** Were a moon of the catalogue to have a period of zero (none has),
    line 1087 would stop the construction with [ZeroDivisionError]. *)
Lemma zero_period_moon :
  create_real_solar_system (fun _ => 0)
    [sun_entry; planet_entry 100 (Some [moon_entry 0])] 1200 800
  = Py.Raise Py.ZeroDivisionError.
Proof.
  destruct (orbit_speed_positive 100) as [Hspeed _]; [lra |].
  unfold create_real_solar_system. cbv zeta.
  cbn [Catalog.add_catalog_planets Catalog.moons planet_entry].
  unfold Catalog.add_catalog_planet, Catalog.pixel_radius.
  cbn [Catalog.radius Catalog.orbital_period planet_entry].
  rewrite log10_Ok by lra. cbn [mbind result_bind Py.bind].
  rewrite Hspeed. unfold Catalog.planet_color.
  cbn [mbind result_bind Py.bind Nat.leb].
  unfold SolarSystem.add_planet, SolarSystem.add_star.
  cbn [fst snd SolarSystem.bodies SolarSystem.init app length
       CelestialBody.deref lookup list_lookup mbind result_bind Py.bind
       Catalog.add_catalog_moons].
  unfold Catalog.add_catalog_moon, Catalog.moon_pixel_radius.
  cbn [moon_entry Catalog.moon_radius Catalog.moon_orbital_period].
  rewrite log10_Ok by lra. cbn [mbind result_bind Py.bind].
  rewrite moon_speed_zero_period. reflexivity.
Qed.

(** ** Every tick, every body *)

Section EveryTick.

Implicit Types (s : store) (b : body) (i j k p : nat).

(** In a settled, well-formed store every orbiting body lies between its
    periapsis and its apoapsis. *)
Lemma settled_radius s i b p :
  well_formed s -> settled s -> s !! i = Some b ->
  CelestialBody.parent b = Some p ->
  0 < CelestialBody.semi_major_axis b ->
  exists pb,
    s !! p = Some pb
    /\ CelestialBody.semi_major_axis b * (1 - CelestialBody.eccentricity b)
       <= distance (position b) (position pb)
       <= CelestialBody.semi_major_axis b * (1 + CelestialBody.eccentricity b).
Proof.
  intros Hwf Hset Hb Hp Ha.
  specialize (Hwf i b Hb). destruct (Hset i b Hb) as [_ Hpos].
  rewrite Hp in Hwf, Hpos. destruct Hwf as (_ & He & Home).
  destruct Hpos as (pb & nu & r & Hpb & _ & Hr & Hx & Hy).
  rewrite orbit_radius_Ok in Hr by exact He. injection Hr as <-.
  pose proof (radius_bounds _ _ nu Ha He) as Hbound. rewrite <- Home in Hbound.
  exists pb. split; [exact Hpb |]. unfold position. rewrite Hx, Hy.
  rewrite distance_polar; [exact Hbound |].
  assert (0 <= CelestialBody.semi_major_axis b * (1 - CelestialBody.eccentricity b))
    by (apply Rmult_le_pos; lra).
  lra.
Qed.

(** So it is after every completed tick of a well-formed scene. *)
Lemma tick_radius (ss ss' : SolarSystem.t) i b p :
  well_formed (SolarSystem.bodies ss) -> SolarSystem.update ss = Py.Ok ss' ->
  SolarSystem.bodies ss' !! i = Some b ->
  CelestialBody.parent b = Some p ->
  0 < CelestialBody.semi_major_axis b ->
  exists pb,
    SolarSystem.bodies ss' !! p = Some pb
    /\ CelestialBody.semi_major_axis b * (1 - CelestialBody.eccentricity b)
       <= distance (position b) (position pb)
       <= CelestialBody.semi_major_axis b * (1 + CelestialBody.eccentricity b).
Proof.
  intros Hwf Hup. apply settled_radius.
  - eapply update_well_formed; eauto.
  - eapply update_settles; eauto.
Qed.

End EveryTick.

(** ** The constructed scene is well-formed *)

Section Construction.

Lemma add_catalog_moons_well_formed (rnd : nat -> R) (planet : nat)
    (moons : list Catalog.Moon) (ss ss' : SolarSystem.t) :
  moons_in_range moons -> well_formed (SolarSystem.bodies ss) ->
  Catalog.add_catalog_moons rnd planet moons ss = Py.Ok ss' ->
  well_formed (SolarSystem.bodies ss').
Proof.
  intros Hin. revert ss. induction Hin as [|m rest Hm _ IH]; intros ss Hwf H;
    simpl in H.
  - by injection H as <-.
  - apply bind_Ok in H as (ss1 & H1 & H). apply (IH ss1); [| exact H].
    unfold Catalog.add_catalog_moon in H1.
    apply bind_Ok in H1 as (pr & _ & H1). apply bind_Ok in H1 as (sp & _ & H1).
    apply bind_Ok in H1 as ([ss2 h] & H2 & H1). injection H1 as <-.
    eapply add_moon_well_formed; [exact Hwf | exact Hm | exact H2].
Qed.

Lemma add_catalog_planets_well_formed (rnd : nat -> R) (sun i : nat)
    (entries : list Catalog.Planet) (ss ss' : SolarSystem.t) :
  planets_in_range entries -> well_formed (SolarSystem.bodies ss) ->
  Catalog.add_catalog_planets rnd sun i entries ss = Py.Ok ss' ->
  well_formed (SolarSystem.bodies ss').
Proof.
  intros Hin. revert i ss.
  induction Hin as [|e rest [He Hmoons] _ IH]; intros i ss Hwf H; simpl in H.
  - by injection H as <-.
  - apply bind_Ok in H as ([ss1 h] & H1 & H).
    apply bind_Ok in H as (ss2 & H2 & H). apply (IH (S i) ss2); [| exact H].
    assert (well_formed (SolarSystem.bodies ss1)) as Hwf1.
    { unfold Catalog.add_catalog_planet in H1.
      apply bind_Ok in H1 as (pr & _ & H1). apply bind_Ok in H1 as (sp & _ & H1).
      apply bind_Ok in H1 as (c & _ & H1).
      eapply add_planet_well_formed; [exact Hwf | exact He | exact H1]. }
    simpl in H2. destruct (Catalog.moons e) as [ms|].
    + eapply add_catalog_moons_well_formed; [exact Hmoons | exact Hwf1 | exact H2].
    + by injection H2 as <-.
Qed.

(** Whatever the draws, a completed [create_real_solar_system] on a
    catalogue in range yields a well-formed scene. *)
Lemma create_real_solar_system_well_formed (rnd : nat -> R)
    (first : Catalog.Planet) (rest : list Catalog.Planet) (width height : Z)
    (ss : SolarSystem.t) :
  planets_in_range rest ->
  create_real_solar_system rnd (first :: rest) width height = Py.Ok ss ->
  well_formed (SolarSystem.bodies ss).
Proof.
  intros Hin H. unfold create_real_solar_system in H. cbv zeta in H.
  eapply add_catalog_planets_well_formed; [exact Hin | | exact H].
  apply add_star_well_formed, well_formed_nil.
Qed.

End Construction.

(** ** How good the Kepler solve is *)

Section KeplerAccuracy.

Lemma sin_abs_le (v : R) : Rabs (sin v) <= Rabs v.
Proof.
  assert (forall u, 0 < u -> Rabs (sin u) <= u) as Hpos.
  { intros u Hu. apply Rabs_le. split; [| left; by apply sin_lt_x].
    destruct (Rle_dec 1 u) as [H1|H1].
    - pose proof (SIN_bound u). lra.
    - assert (0 < sin u); [| lra].
      apply sin_gt_0; [exact Hu |]. pose proof PI_4. pose proof PI2_3_2. lra. }
  destruct (Rtotal_order v 0) as [Hv|[->|Hv]].
  - rewrite <- (Ropp_involutive v) at 1. rewrite sin_neg, Rabs_Ropp.
    rewrite (Rabs_left v Hv). apply Hpos. lra.
  - rewrite sin_0, Rabs_R0. lra.
  - rewrite (Rabs_right v) by lra. by apply Hpos.
Qed.

Lemma sin_lipschitz (u v : R) : Rabs (sin u - sin v) <= Rabs (u - v).
Proof.
  rewrite form4, !Rabs_mult.
  pose proof (COS_bound ((u + v) / 2)) as Hc.
  assert (Rabs (cos ((u + v) / 2)) <= 1) as Hc1 by (apply Rabs_le; lra).
  pose proof (sin_abs_le ((u - v) / 2)) as Hs.
  assert (Rabs ((u - v) / 2) = Rabs (u - v) / 2) as Hhalf.
  { unfold Rdiv. rewrite Rabs_mult, (Rabs_right (/ 2)); lra. }
  rewrite Hhalf in Hs. rewrite (Rabs_right 2) by lra.
  pose proof (Rabs_pos (cos ((u + v) / 2))).
  pose proof (Rabs_pos (sin ((u - v) / 2))).
  pose proof (Rabs_pos (u - v)). nra.
Qed.

(** Two successive rounds of the iteration get closer by a factor [e]. *)
Lemma kepler_rounds_close (M e : R) (k : nat) :
  0 <= e ->
  Rabs (Nat.iter (S k) (fun E => M + e * sin E) M
        - Nat.iter k (fun E => M + e * sin E) M) <= e ^ S k.
Proof.
  intros He. induction k as [|k IH].
  - simpl. replace (M + e * sin M - M) with (e * sin M) by ring.
    rewrite Rabs_mult, (Rabs_right e) by lra.
    pose proof (SIN_bound M). assert (Rabs (sin M) <= 1) by (apply Rabs_le; lra).
    pose proof (Rabs_pos (sin M)). nra.
  - set (f := fun E => M + e * sin E) in *.
    change (Nat.iter (S (S k)) f M) with (f (Nat.iter (S k) f M)).
    change (Nat.iter (S k) f M) with (f (Nat.iter k f M)) at 2.
    unfold f at 1 3.
    replace (M + e * sin (Nat.iter (S k) f M) - (M + e * sin (Nat.iter k f M)))
      with (e * (sin (Nat.iter (S k) f M) - sin (Nat.iter k f M))) by ring.
    rewrite Rabs_mult, (Rabs_right e) by lra.
    pose proof (sin_lipschitz (Nat.iter (S k) f M) (Nat.iter k f M)) as Hl.
    change (e ^ S (S k)) with (e * e ^ S k).
    apply Rmult_le_compat_l; [exact He | lra].
Qed.

(** X1. The eccentric anomaly that [update] computes solves Kepler's
    equation [M = E - e * sin E] up to [e ^ 6]. *)
Theorem kepler_residual (M e : R) :
  0 <= e ->
  Rabs (CelestialBody.kepler_E M e - e * sin (CelestialBody.kepler_E M e) - M)
    <= e ^ 6.
Proof.
  intros He. unfold CelestialBody.kepler_E.
  set (f := fun E => M + e * sin E).
  change (Nat.iter 5 f M) with (f (Nat.iter 4 f M)) at 1. unfold f at 1.
  replace (M + e * sin (Nat.iter 4 f M) - e * sin (Nat.iter 5 f M) - M)
    with (- (e * (sin (Nat.iter 5 f M) - sin (Nat.iter 4 f M)))) by ring.
  rewrite Rabs_Ropp, Rabs_mult, (Rabs_right e) by lra.
  pose proof (sin_lipschitz (Nat.iter 5 f M) (Nat.iter 4 f M)) as Hl.
  pose proof (kepler_rounds_close M e 4 He) as Hc. fold f in Hc.
  change (e ^ 6) with (e * e ^ 5).
  apply Rmult_le_compat_l; [exact He | lra].
Qed.

Lemma kepler_residual_witness :
  Rabs (CelestialBody.kepler_E 1 (1 / 2)
        - 1 / 2 * sin (CelestialBody.kepler_E 1 (1 / 2)) - 1) <= (1 / 2) ^ 6.
Proof. apply (kepler_residual 1 (1 / 2)). lra. Defined.

End KeplerAccuracy.

(** ** Where the orbit puts a body *)

Section Apsides.

Implicit Types (s : store) (b : body) (i j p : nat).

Lemma kepler_E_node (M e : R) : sin M = 0 -> CelestialBody.kepler_E M e = M.
Proof.
  intros HM. rewrite kepler_E_unfold.
  rewrite HM, Rmult_0_r, Rplus_0_r, HM, Rmult_0_r, Rplus_0_r, HM,
    Rmult_0_r, Rplus_0_r, HM, Rmult_0_r, Rplus_0_r, HM. ring.
Qed.

(** X2. Periapsis lies on the side of the positive x axis: an orbiting
    body in range whose advanced mean anomaly is 0 is put at
    [(parent.x + a (1 - e), parent.y)], the lower bound of the radius. *)
Theorem periapsis s i p b pb :
  s !! i = Some b -> CelestialBody.parent b = Some p -> p <> i ->
  s !! p = Some pb ->
  0 <= CelestialBody.eccentricity b < 1 ->
  CelestialBody.one_minus_e2 b =
    1 - CelestialBody.eccentricity b * CelestialBody.eccentricity b ->
  Py.fmod (CelestialBody.angle b + CelestialBody.orbit_speed b) (2 * PI) = 0 ->
  exists b',
    CelestialBody.update s i = Py.Ok (<[i := b']> s)
    /\ CelestialBody.x b' =
         CelestialBody.x pb
         + CelestialBody.semi_major_axis b * (1 - CelestialBody.eccentricity b)
    /\ CelestialBody.y b' = CelestialBody.y pb.
Proof.
  intros Hb Hp Hne Hpb He Home HM.
  rewrite (update_child s i p b pb Hb Hp Hne Hpb). unfold resolve.
  rewrite HM, (kepler_E_node 0) by apply sin_0.
  rewrite true_anomaly_Ok by lra. cbn [mbind result_bind Py.bind].
  replace (0 / 2) with 0 by lra.
  rewrite sin_0, cos_0, Rmult_0_r, Rmult_1_r, atan2_0_pos, Rmult_0_r
    by (apply sqrt_lt_R0; lra).
  rewrite orbit_radius_Ok by exact He. cbn [mbind result_bind Py.bind].
  eexists. split; [reflexivity |]. simpl. rewrite cos_0, sin_0, Home.
  split; [| lra]. f_equal. field. lra.
Qed.

Lemma periapsis_witness :
  exists ss : SolarSystem.t,
    star_and_planet 3 4 100 (1 / 2) 0 0 = Py.Ok ss
    /\ exists b' : body,
         CelestialBody.update (SolarSystem.bodies ss) 1
           = Py.Ok (<[1%nat := b']> (SolarSystem.bodies ss))
         /\ CelestialBody.x b' = 3 + 100 * (1 - 1 / 2)
         /\ CelestialBody.y b' = 4.
Proof.
  destruct (star_and_planet 3 4 100 (1 / 2) 0 0) as [ss|] eqn:Hss;
    [| discriminate Hss].
  injection Hss as <-. eexists. split; [reflexivity |].
  match goal with
  | |- context [CelestialBody.update ?s _] =>
      apply (periapsis s 1%nat 0%nat _ _ eq_refl eq_refl ltac:(lia) eq_refl)
  end.
  - simpl. lra.
  - reflexivity.
  - simpl. unfold Py.uniform. pose proof PI_RGT_0. rewrite fmod_small; lra.
Defined.

(** X3. Apoapsis lies opposite: an orbiting body in range whose advanced
    mean anomaly is [PI] is put at [(parent.x - a (1 + e), parent.y)], the
    upper bound of the radius. *)
Theorem apoapsis s i p b pb :
  s !! i = Some b -> CelestialBody.parent b = Some p -> p <> i ->
  s !! p = Some pb ->
  0 <= CelestialBody.eccentricity b < 1 ->
  CelestialBody.one_minus_e2 b =
    1 - CelestialBody.eccentricity b * CelestialBody.eccentricity b ->
  Py.fmod (CelestialBody.angle b + CelestialBody.orbit_speed b) (2 * PI) = PI ->
  exists b',
    CelestialBody.update s i = Py.Ok (<[i := b']> s)
    /\ CelestialBody.x b' =
         CelestialBody.x pb
         - CelestialBody.semi_major_axis b * (1 + CelestialBody.eccentricity b)
    /\ CelestialBody.y b' = CelestialBody.y pb.
Proof.
  intros Hb Hp Hne Hpb He Home HM.
  rewrite (update_child s i p b pb Hb Hp Hne Hpb). unfold resolve.
  rewrite HM, (kepler_E_node PI) by apply sin_PI.
  rewrite true_anomaly_Ok by lra. cbn [mbind result_bind Py.bind].
  rewrite sin_PI2, cos_PI2, Rmult_0_r, Rmult_1_r.
  assert (Py.atan2 (sqrt (1 + CelestialBody.eccentricity b)) 0 = PI / 2) as ->.
  { unfold Py.atan2. destruct (Rlt_dec 0 0); [lra |].
    destruct (Rlt_dec 0 (sqrt (1 + CelestialBody.eccentricity b)));
      [reflexivity |].
    exfalso. apply n0, sqrt_lt_R0. lra. }
  replace (2 * (PI / 2)) with PI by lra.
  rewrite orbit_radius_Ok by exact He. cbn [mbind result_bind Py.bind].
  eexists. split; [reflexivity |]. simpl. rewrite cos_PI, sin_PI, Home.
  split; [| lra].
  replace (CelestialBody.semi_major_axis b
           * (1 - CelestialBody.eccentricity b * CelestialBody.eccentricity b)
           / (1 + CelestialBody.eccentricity b * -1))
    with (CelestialBody.semi_major_axis b * (1 + CelestialBody.eccentricity b))
    by (field; lra).
  lra.
Qed.

Lemma apoapsis_witness :
  exists ss : SolarSystem.t,
    star_and_planet 3 4 100 (1 / 2) (1 / 2) 0 = Py.Ok ss
    /\ exists b' : body,
         CelestialBody.update (SolarSystem.bodies ss) 1
           = Py.Ok (<[1%nat := b']> (SolarSystem.bodies ss))
         /\ CelestialBody.x b' = 3 - 100 * (1 + 1 / 2)
         /\ CelestialBody.y b' = 4.
Proof.
  destruct (star_and_planet 3 4 100 (1 / 2) (1 / 2) 0) as [ss|] eqn:Hss;
    [| discriminate Hss].
  injection Hss as <-. eexists. split; [reflexivity |].
  match goal with
  | |- context [CelestialBody.update ?s _] =>
      apply (apoapsis s 1%nat 0%nat _ _ eq_refl eq_refl ltac:(lia) eq_refl)
  end.
  - simpl. lra.
  - reflexivity.
  - simpl. unfold Py.uniform. pose proof PI_RGT_0. rewrite fmod_small; lra.
Defined.

End Apsides.

(** ** Circular orbits *)

Section Circular.

Implicit Types (s : store) (b : body) (i j p : nat).

(** [math.atan2] recovers an angle of the upper half turn from its sine
    and cosine. *)
Lemma atan2_sin_cos (h : R) : 0 <= h < PI -> Py.atan2 (sin h) (cos h) = h.
Proof.
  intros Hh. pose proof PI_RGT_0 as HPI. unfold Py.atan2.
  destruct (Rtotal_order h (PI / 2)) as [Hlt|[->|Hgt]].
  - assert (0 < cos h) as Hc by (apply cos_gt_0; lra).
    destruct (Rlt_dec 0 (cos h)); [| lra].
    change (sin h / cos h) with (tan h). apply atan_tan. lra.
  - rewrite cos_PI2, sin_PI2.
    destruct (Rlt_dec 0 0); [lra |]. destruct (Rlt_dec 0 1); [reflexivity | lra].
  - assert (cos h < 0) as Hc by (apply cos_lt_0; lra).
    assert (0 < sin h) as Hs by (apply sin_gt_0; lra).
    destruct (Rlt_dec 0 (cos h)); [lra |].
    destruct (Rlt_dec (cos h) 0); [| lra].
    destruct (Rle_dec 0 (sin h)); [| lra].
    assert (sin h = - sin (h - PI)) as Hsin.
    { rewrite <- neg_sin. f_equal. ring. }
    assert (cos h = - cos (h - PI)) as Hcos.
    { rewrite <- neg_cos. f_equal. ring. }
    replace (sin h / cos h) with (tan (h - PI)).
    + rewrite atan_tan by lra. lra.
    + unfold tan. rewrite Hsin, Hcos. field. lra.
Qed.

(** X4. On a circular orbit ([e = 0], so [one_minus_e2 = 1 - 0 * 0]) the
    true anomaly is the mean anomaly and the motion is uniform on the
    circle of radius [a]: with [M] the advanced mean anomaly, [update]
    puts the body at [(parent.x + a cos M, parent.y + a sin M)]. *)
Theorem circular_orbit s i p b pb :
  s !! i = Some b -> CelestialBody.parent b = Some p -> p <> i ->
  s !! p = Some pb ->
  CelestialBody.eccentricity b = 0 ->
  CelestialBody.one_minus_e2 b = 1 - 0 * 0 ->
  let M := Py.fmod (CelestialBody.angle b + CelestialBody.orbit_speed b)
                   (2 * PI) in
  CelestialBody.true_anomaly 0 (CelestialBody.kepler_E M 0) = Py.Ok M
  /\ exists b',
       CelestialBody.update s i = Py.Ok (<[i := b']> s)
       /\ CelestialBody.angle b' = M
       /\ CelestialBody.x b' =
            CelestialBody.x pb + CelestialBody.semi_major_axis b * cos M
       /\ CelestialBody.y b' =
            CelestialBody.y pb + CelestialBody.semi_major_axis b * sin M.
Proof.
  intros Hb Hp Hne Hpb He Home M.
  pose proof (fmod_range (CelestialBody.angle b + CelestialBody.orbit_speed b)
                (2 * PI) two_PI_pos) as HM. fold M in HM.
  assert (CelestialBody.true_anomaly 0 (CelestialBody.kepler_E M 0) = Py.Ok M)
    as Hnu.
  { rewrite kepler_E_circular, true_anomaly_Ok by lra.
    replace (1 + 0) with 1 by lra. replace (1 - 0) with 1 by lra.
    rewrite sqrt_1, !Rmult_1_l, atan2_sin_cos by lra. f_equal. lra. }
  split; [exact Hnu |].
  rewrite (update_child s i p b pb Hb Hp Hne Hpb). unfold resolve. fold M.
  rewrite He, Hnu. cbn [mbind result_bind Py.bind].
  rewrite orbit_radius_Ok by (rewrite He; lra).
  cbn [mbind result_bind Py.bind].
  eexists. split; [reflexivity |]. simpl. rewrite He, Home.
  split; [reflexivity |]. split; f_equal; f_equal; field.
Qed.

Lemma circular_orbit_witness :
  exists ss : SolarSystem.t,
    star_and_planet 3 4 100 0 (1 / 4) (1 / 100) = Py.Ok ss
    /\ exists b' : body,
         CelestialBody.update (SolarSystem.bodies ss) 1
           = Py.Ok (<[1%nat := b']> (SolarSystem.bodies ss))
         /\ CelestialBody.x b' =
              3 + 100 * cos (Py.fmod (Py.uniform (1 / 4) 0 (2 * PI) + 1 / 100)
                                     (2 * PI)).
Proof.
  destruct (star_and_planet 3 4 100 0 (1 / 4) (1 / 100)) as [ss|] eqn:Hss;
    [| discriminate Hss].
  injection Hss as <-. eexists. split; [reflexivity |].
  match goal with
  | |- context [CelestialBody.update ?s _] =>
      destruct (circular_orbit s 1%nat 0%nat _ _ eq_refl eq_refl ltac:(lia)
                  eq_refl eq_refl eq_refl)
        as (_ & b' & Hup & _ & Hx & _)
  end.
  exists b'. split; [exact Hup | exact Hx].
Defined.

End Circular.

(** ** The mean anomaly as a clock *)

Section Clock.

Implicit Types (s : store) (b : body) (i j k p : nat).

Lemma Int_part_minus_Z (v : R) (z : Z) :
  Int_part (v - IZR z) = (Int_part v - z)%Z.
Proof.
  symmetry. apply Int_part_spec. rewrite minus_IZR.
  destruct (base_Int_part v). lra.
Qed.

Lemma fmod_add (u v m : R) :
  0 < m -> Py.fmod (Py.fmod u m + v) m = Py.fmod (u + v) m.
Proof.
  intros Hm. unfold Py.fmod.
  replace ((u - IZR (Int_part (u / m)) * m + v) / m)
    with ((u + v) / m - IZR (Int_part (u / m))) by (field; lra).
  rewrite Int_part_minus_Z, minus_IZR. ring.
Qed.

(** One round of the loop advances the angle by the speed the round
    sets. *)
Lemma update_body_angle (tf : R) s i s' :
  SolarSystem.update_body tf s i = Py.Ok s' ->
  exists b b',
    s !! i = Some b /\ s' = <[i := b']> s /\ same_elements b b'
    /\ CelestialBody.angle b' =
         Py.fmod (CelestialBody.angle b
                  + match CelestialBody.parent b with
                    | Some _ => CelestialBody.base_orbit_speed b * tf
                    | None => CelestialBody.orbit_speed b
                    end) (2 * PI).
Proof.
  intros H. unfold SolarSystem.update_body in H.
  apply bind_Ok in H as (b & Hb & H). apply deref_Ok in Hb.
  exists b. destruct (CelestialBody.parent b) as [p|] eqn:Hp.
  - apply update_inv in H as (b1 & b' & H1 & -> & Hel & _ & Ha & _).
    rewrite list_lookup_insert_eq in H1 by (eapply lookup_lt_Some, Hb).
    injection H1 as <-. rewrite list_insert_insert_eq.
    exists b'. split; [exact Hb |]. split; [reflexivity |].
    split; [exact Hel | exact Ha].
  - apply update_inv in H as (b1 & b' & H1 & -> & Hel & _ & Ha & _).
    rewrite Hb in H1. injection H1 as <-.
    exists b'. split; [exact Hb |]. split; [reflexivity |].
    split; [exact Hel | exact Ha].
Qed.

(** The loop visits every body once: after the rounds for [k], ...,
    [k + n - 1], the bodies below [k + n] carry the advanced angle and the
    others are as they were. *)
Lemma for_each_angles (tf : R) (n k : nat) (s0 s s' : store) :
  (forall i b0, (i < k)%nat -> s0 !! i = Some b0 ->
     exists b, s !! i = Some b /\ same_elements b0 b
       /\ (CelestialBody.parent b0 <> None ->
           CelestialBody.angle b =
             Py.fmod (CelestialBody.angle b0
                      + CelestialBody.base_orbit_speed b0 * tf) (2 * PI))) ->
  (forall i, (k <= i)%nat -> s !! i = s0 !! i) ->
  Py.for_each (SolarSystem.update_body tf) (seq k n) s = Py.Ok s' ->
  forall i b0, (i < k + n)%nat -> s0 !! i = Some b0 ->
    exists b, s' !! i = Some b /\ same_elements b0 b
      /\ (CelestialBody.parent b0 <> None ->
          CelestialBody.angle b =
            Py.fmod (CelestialBody.angle b0
                     + CelestialBody.base_orbit_speed b0 * tf) (2 * PI)).
Proof.
  revert k s. induction n as [|n IH]; intros k s Hdone Hrest H; simpl in H.
  - injection H as <-. intros i b0 Hi. apply Hdone. lia.
  - apply bind_Ok in H as (s1 & H1 & H).
    apply update_body_angle in H1 as (b & b' & Hb & -> & Hel & Ha).
    intros i b0 Hi. apply (IH (S k) (<[k := b']> s)); [| | exact H | lia].
    + intros j bj Hj Hbj. destruct (decide (j = k)) as [->|Hne].
      * rewrite (Hrest k) in Hb by lia. rewrite Hbj in Hb. injection Hb as <-.
        exists b'. split; [| split; [exact Hel |]].
        { apply list_lookup_insert_eq. eapply lookup_lt_is_Some.
          rewrite (Hrest k) by lia. eauto. }
        intros Hp. rewrite Ha. destruct (CelestialBody.parent bj); done.
      * rewrite list_lookup_insert_ne by done. apply Hdone; [lia | done].
    + intros j Hj. rewrite list_lookup_insert_ne by lia. apply Hrest. lia.
Qed.

Lemma update_angle (ss ss' : SolarSystem.t) i b :
  SolarSystem.update ss = Py.Ok ss' ->
  SolarSystem.bodies ss !! i = Some b ->
  exists b',
    SolarSystem.bodies ss' !! i = Some b' /\ same_elements b b'
    /\ (CelestialBody.parent b <> None ->
        CelestialBody.angle b' =
          Py.fmod (CelestialBody.angle b
                   + CelestialBody.base_orbit_speed b
                     * SolarSystem.time_factor ss) (2 * PI)).
Proof.
  intros H Hb. unfold SolarSystem.update in H.
  apply bind_Ok in H as (s & Hs & H). injection H as <-. simpl.
  eapply (for_each_angles _ _ 0%nat (SolarSystem.bodies ss));
    [| | exact Hs | | exact Hb].
  - intros ? ? ?. lia.
  - done.
  - simpl. eapply lookup_lt_Some, Hb.
Qed.

(** Modulo a turn, a run advances the angle by the base speed times the
    sum of the time factors. *)
Lemma ticks_angle_mod (tfs : list R) (ss ss' : SolarSystem.t) i b :
  Main.ticks tfs ss = Py.Ok ss' ->
  SolarSystem.bodies ss !! i = Some b ->
  CelestialBody.parent b <> None ->
  exists b',
    SolarSystem.bodies ss' !! i = Some b' /\ same_elements b b'
    /\ Py.fmod (CelestialBody.angle b') (2 * PI) =
         Py.fmod (CelestialBody.angle b
                  + CelestialBody.base_orbit_speed b * foldr Rplus 0 tfs)
                 (2 * PI)
    /\ (tfs <> [] -> 0 <= CelestialBody.angle b' < 2 * PI).
Proof.
  revert ss b. induction tfs as [|tf rest IH]; intros ss b H Hb Hp; simpl in H.
  - injection H as <-. exists b. split; [done |].
    split; [apply same_elements_refl |]. simpl.
    rewrite Rmult_0_r, Rplus_0_r. done.
  - apply bind_Ok in H as (ss1 & H1 & H).
    destruct (update_angle _ _ i b H1 Hb) as (b1 & Hb1 & Hel1 & Ha1).
    specialize (Ha1 Hp). simpl in Ha1.
    pose proof Hel1 as (Hbase & _ & _ & _ & Hpar & _).
    destruct (IH ss1 b1 H Hb1) as (b' & Hb' & Hel & Ha & Hred);
      [congruence |].
    exists b'. split; [exact Hb' |].
    split; [eapply same_elements_trans; eauto |]. split.
    + rewrite Ha, Ha1, Hbase, fmod_add by apply two_PI_pos.
      f_equal. simpl. ring.
    + intros _. destruct rest as [|tf' rest'].
      * simpl in H. injection H as <-. rewrite Hb1 in Hb'.
        injection Hb' as <-. rewrite Ha1. apply fmod_range, two_PI_pos.
      * apply Hred. discriminate.
Qed.

(** X5. Time scaling acts on the mean anomaly as a clock: after a run of
    at least one [SolarSystem.update] at the time factors [tfs], a body
    with a parent has [angle = (angle0 + base_orbit_speed * sum tfs) mod
    2 pi]. *)
Theorem mean_anomaly_clock (tf : R) (tfs : list R) (ss ss' : SolarSystem.t)
    i b :
  Main.ticks (tf :: tfs) ss = Py.Ok ss' ->
  SolarSystem.bodies ss !! i = Some b ->
  CelestialBody.parent b <> None ->
  exists b',
    SolarSystem.bodies ss' !! i = Some b'
    /\ CelestialBody.angle b' =
         Py.fmod (CelestialBody.angle b
                  + CelestialBody.base_orbit_speed b
                    * foldr Rplus 0 (tf :: tfs))
                 (2 * PI).
Proof.
  intros H Hb Hp.
  destruct (ticks_angle_mod _ _ _ i b H Hb Hp) as (b' & Hb' & _ & Ha & Hred).
  exists b'. split; [exact Hb' |].
  rewrite <- Ha. symmetry. apply fmod_small, Hred. discriminate.
Qed.

Lemma mean_anomaly_clock_witness :
  exists (ss ss' : SolarSystem.t) (b' : body),
    star_and_planet 3 4 100 (1 / 2) 0 (1 / 100) = Py.Ok ss
    /\ Main.ticks [2; 3; 1 / 2] ss = Py.Ok ss'
    /\ SolarSystem.bodies ss' !! 1%nat = Some b'
    /\ CelestialBody.angle b' =
         Py.fmod (Py.uniform 0 0 (2 * PI)
                  + 1 / 100 * foldr Rplus 0 [2; 3; 1 / 2]) (2 * PI).
Proof.
  destruct (star_and_planet 3 4 100 (1 / 2) 0 (1 / 100)) as [ss|] eqn:Hss;
    [| discriminate Hss].
  assert (well_formed (SolarSystem.bodies ss)) as Hwf.
  { eapply star_and_planet_well_formed; [| exact Hss]. lra. }
  destruct (ticks_total [2; 3; 1 / 2] ss Hwf) as (ss' & Hrun & _).
  injection Hss as <-.
  destruct (mean_anomaly_clock 2 [3; 1 / 2] _ ss' 1%nat _ Hrun eq_refl
              ltac:(discriminate)) as (b' & Hb' & Ha).
  eexists _, ss', b'. split; [reflexivity |]. split; [exact Hrun |].
  split; [exact Hb' | exact Ha].
Defined.

End Clock.

(** ** Eccentricities out of range *)

Section Domain.

Implicit Types (s : store) (b : body) (i j k p : nat).

(** X6. The constructors accept any eccentricity; [update] is where one
    out of range shows: for an orbiting body, [e > 1] or [e < -1] raises
    [ValueError] (the square root of a negative number), and
    [-1 < e < 1] never raises. *)
Theorem update_eccentricity_domain s i p b pb :
  s !! i = Some b -> CelestialBody.parent b = Some p -> p <> i ->
  s !! p = Some pb ->
  (1 < CelestialBody.eccentricity b \/ CelestialBody.eccentricity b < -1 ->
   CelestialBody.update s i = Py.Raise Py.ValueError)
  /\ (-1 < CelestialBody.eccentricity b < 1 ->
      exists s', CelestialBody.update s i = Py.Ok s').
Proof.
  intros Hb Hp Hne Hpb.
  rewrite (update_child s i p b pb Hb Hp Hne Hpb). unfold resolve.
  split.
  - intros He. unfold CelestialBody.true_anomaly, Py.sqrt.
    destruct (Rlt_dec (1 + CelestialBody.eccentricity b) 0);
      [reflexivity |].
    cbn [mbind result_bind Py.bind].
    destruct (Rlt_dec (1 - CelestialBody.eccentricity b) 0);
      [reflexivity | lra].
  - intros He. rewrite true_anomaly_Ok by lra.
    cbn [mbind result_bind Py.bind].
    unfold CelestialBody.orbit_radius. rewrite truediv_Ok; [simpl; eauto |].
    match goal with
    | |- 1 + _ * cos ?nu <> 0 => pose proof (COS_bound nu) as [Hlo Hhi];
                                 set (c := cos nu) in *
    end.
    assert (0 < 1 + CelestialBody.eccentricity b * c); [| lra].
    destruct (Rle_dec 0 (CelestialBody.eccentricity b)),
             (Rle_dec 0 c); nra.
Qed.

Lemma update_eccentricity_domain_witness :
  exists ss : SolarSystem.t,
    star_and_planet 3 4 100 2 0 (1 / 100) = Py.Ok ss
    /\ CelestialBody.update (SolarSystem.bodies ss) 1 = Py.Raise Py.ValueError.
Proof.
  destruct (star_and_planet 3 4 100 2 0 (1 / 100)) as [ss|] eqn:Hss;
    [| discriminate Hss].
  injection Hss as <-. eexists. split; [reflexivity |].
  match goal with
  | |- context [CelestialBody.update ?s _] =>
      apply (update_eccentricity_domain s 1%nat 0%nat _ _ eq_refl eq_refl
               ltac:(lia) eq_refl)
  end.
  left. simpl. lra.
Defined.

End Domain.

(** ** What the engine leaves alone *)

Section Untouched.

Implicit Types (s : store) (b : body) (i j k p : nat).

Lemma moved_refl b : moved b b.
Proof. unfold moved. by destruct b. Qed.

Lemma moved_trans b1 b2 b3 : moved b1 b2 -> moved b2 b3 -> moved b1 b3.
Proof.
  unfold moved. intros H12 H23. rewrite H23 at 1. rewrite H12 at 1.
  reflexivity.
Qed.

Lemma update_moved s i s' :
  CelestialBody.update s i = Py.Ok s' ->
  exists b b', s !! i = Some b /\ s' = <[i := b']> s /\ moved b b'.
Proof.
  intros H. unfold CelestialBody.update in H.
  apply bind_Ok in H as (b & Hb & H). apply deref_Ok in Hb.
  cbv zeta in H. rewrite (deref_insert_eq _ _ _ _ Hb) in H.
  cbn [mbind result_bind Py.bind] in H.
  exists b. destruct (CelestialBody.parent _) as [p|] eqn:Hp in H.
  - apply bind_Ok in H as (nu & _ & H). apply bind_Ok in H as (r & _ & H).
    apply bind_Ok in H as (p1 & _ & H).
    rewrite list_insert_insert_eq in H.
    rewrite (deref_insert_eq _ _ _ _ Hb) in H.
    cbn [mbind result_bind Py.bind] in H.
    apply bind_Ok in H as (p2 & _ & H).
    rewrite list_insert_insert_eq in H. injection H as <-.
    eexists. split; [exact Hb |]. split; reflexivity.
  - injection H as <-. eexists. split; [exact Hb |]. split; reflexivity.
Qed.

Lemma update_body_moved (tf : R) s i s' :
  SolarSystem.update_body tf s i = Py.Ok s' ->
  exists b b', s !! i = Some b /\ s' = <[i := b']> s /\ moved b b'.
Proof.
  intros H. unfold SolarSystem.update_body in H.
  apply bind_Ok in H as (b & Hb & H). apply deref_Ok in Hb.
  exists b. destruct (CelestialBody.parent b) as [p|].
  - apply update_moved in H as (b1 & b' & H1 & -> & Hm).
    rewrite list_lookup_insert_eq in H1 by (eapply lookup_lt_Some, Hb).
    injection H1 as <-. rewrite list_insert_insert_eq.
    exists b'. split; [exact Hb |]. split; [reflexivity |].
    unfold moved in *. rewrite Hm at 1. reflexivity.
  - apply update_moved in H as (b1 & b' & H1 & -> & Hm).
    rewrite Hb in H1. injection H1 as <-. eauto.
Qed.

Lemma for_each_moved (tf : R) (idxs : list nat) s s' :
  Py.for_each (SolarSystem.update_body tf) idxs s = Py.Ok s' ->
  length s' = length s
  /\ forall i b, s !! i = Some b -> exists b', s' !! i = Some b' /\ moved b b'.
Proof.
  revert s. induction idxs as [|k rest IH]; intros s H; simpl in H.
  - injection H as <-. split; [done |]. intros i b Hb. exists b.
    split; [done | apply moved_refl].
  - apply bind_Ok in H as (s1 & H1 & H).
    apply update_body_moved in H1 as (bk & bk' & Hbk & -> & Hm).
    destruct (IH _ H) as [Hlen Hall]. split.
    + rewrite Hlen. apply length_insert.
    + intros i b Hb. destruct (decide (i = k)) as [->|Hne].
      * rewrite Hbk in Hb. injection Hb as <-.
        destruct (Hall k bk') as (b' & Hb' & Hm').
        { apply list_lookup_insert_eq. eapply lookup_lt_Some, Hbk. }
        exists b'. split; [exact Hb' |]. eapply moved_trans; eauto.
      * apply Hall. by rewrite list_lookup_insert_ne.
Qed.

(** X7. A tick changes nothing but the kinematics: a completed
    [SolarSystem.update] keeps the number of bodies, the lists [stars],
    [planets] and [moons] and the time factor, and every body is as before
    except for its [angle], [x], [y] and [orbit_speed]; the render caches,
    the name and the facts are never touched. *)
Theorem update_touches_kinematics_only (ss ss' : SolarSystem.t) :
  SolarSystem.update ss = Py.Ok ss' ->
  SolarSystem.stars ss' = SolarSystem.stars ss
  /\ SolarSystem.planets ss' = SolarSystem.planets ss
  /\ SolarSystem.moons ss' = SolarSystem.moons ss
  /\ SolarSystem.time_factor ss' = SolarSystem.time_factor ss
  /\ length (SolarSystem.bodies ss') = length (SolarSystem.bodies ss)
  /\ forall i b, SolarSystem.bodies ss !! i = Some b ->
       exists b', SolarSystem.bodies ss' !! i = Some b' /\ moved b b'.
Proof.
  intros H. unfold SolarSystem.update in H.
  apply bind_Ok in H as (s & Hs & H). injection H as <-. simpl.
  repeat (split; [reflexivity |]). by apply for_each_moved in Hs.
Qed.

Lemma update_touches_kinematics_only_witness :
  exists (ss ss' : SolarSystem.t) (b' : body),
    star_and_planet 3 4 100 (1 / 2) 0 (1 / 100) = Py.Ok ss
    /\ SolarSystem.update ss = Py.Ok ss'
    /\ SolarSystem.bodies ss' !! 1%nat = Some b'
    /\ CelestialBody.name b' = "Planet"%string
    /\ CelestialBody.orbit_surface b' = None.
Proof.
  destruct (star_and_planet 3 4 100 (1 / 2) 0 (1 / 100)) as [ss|] eqn:Hss;
    [| discriminate Hss].
  assert (well_formed (SolarSystem.bodies ss)) as Hwf.
  { eapply star_and_planet_well_formed; [| exact Hss]. lra. }
  destruct (update_total ss Hwf) as (ss' & Hup).
  destruct (update_touches_kinematics_only ss ss' Hup)
    as (_ & _ & _ & _ & _ & Hall).
  injection Hss as <-.
  edestruct (Hall 1%nat) as (b' & Hb' & Hm); [reflexivity |].
  eexists _, ss', b'. split; [reflexivity |]. split; [exact Hup |].
  split; [exact Hb' |]. rewrite Hm. split; reflexivity.
Defined.

End Untouched.

(** ** The scene graph *)

Section SceneGraph.

Implicit Types (s : store) (b : body) (i j k p h : nat).

Lemma scene_graph_init : scene_graph SolarSystem.init.
Proof.
  unfold scene_graph. simpl. split; [done |].
  split; intros *; rewrite lookup_nil; done.
Qed.

(** Appending a body under one of the three lists. *)
Lemma scene_graph_snoc (ss ss' : SolarSystem.t) (b : body) :
  scene_graph ss ->
  SolarSystem.bodies ss' = SolarSystem.bodies ss ++ [b] ->
  (forall p, CelestialBody.parent b = Some p ->
     (p < length (SolarSystem.bodies ss))%nat) ->
  (CelestialBody.parent b = None
   /\ SolarSystem.stars ss'
        = SolarSystem.stars ss ++ [length (SolarSystem.bodies ss)]
   /\ SolarSystem.planets ss' = SolarSystem.planets ss
   /\ SolarSystem.moons ss' = SolarSystem.moons ss)
  \/ (CelestialBody.parent b <> None
      /\ SolarSystem.stars ss' = SolarSystem.stars ss
      /\ ((SolarSystem.planets ss'
             = SolarSystem.planets ss ++ [length (SolarSystem.bodies ss)]
           /\ SolarSystem.moons ss' = SolarSystem.moons ss)
          \/ (SolarSystem.planets ss' = SolarSystem.planets ss
              /\ SolarSystem.moons ss'
                   = SolarSystem.moons ss
                     ++ [length (SolarSystem.bodies ss)]))) ->
  scene_graph ss'.
Proof.
  intros (Hperm & Hstars & Hfirst) Hbodies Hparent Hlists.
  assert (forall h, h ∈ SolarSystem.stars ss ->
            (h < length (SolarSystem.bodies ss))%nat) as Hbound.
  { intros h Hh.
    assert (h ∈ seq 0 (length (SolarSystem.bodies ss))) as Hin.
    { rewrite <- Hperm. apply elem_of_app. by left. }
    apply elem_of_seq in Hin. lia. }
  split; [| split].
  - rewrite Hbodies, length_app. simpl.
    rewrite Nat.add_1_r, seq_S. simpl. rewrite <- Hperm.
    destruct Hlists as [(_ & -> & -> & ->)|(_ & -> & [[-> ->]|[-> ->]])].
    + rewrite <- !app_assoc. apply Permutation_app_head. simpl.
      rewrite app_assoc. apply Permutation_cons_append.
    + rewrite <- !app_assoc. apply Permutation_app_head.
      apply Permutation_app_head. simpl. apply Permutation_cons_append.
    + by rewrite !app_assoc.
  - intros h bh Hh. rewrite Hbodies in Hh.
    apply lookup_snoc_Some in Hh as [[Hlt Hh]|[-> <-]].
    + rewrite <- (Hstars h bh Hh).
      destruct Hlists as [(_ & -> & _)|(_ & -> & _)]; [| done].
      rewrite elem_of_app, list_elem_of_singleton. split; [| by left].
      intros [Hin | ->]; [exact Hin | lia].
    + destruct Hlists as [(Hp & -> & _)|(Hp & -> & _)].
      * split; [done |]. intros _. apply elem_of_app. right. by left.
      * split; [| done]. intros Hin. apply Hbound in Hin. lia.
  - intros h p bh Hh Hp. rewrite Hbodies in Hh.
    apply lookup_snoc_Some in Hh as [[Hlt Hh]|[-> <-]].
    + by eapply Hfirst.
    + by apply Hparent.
Qed.

(** X8. Let a scene be made by calls of [add_star], [add_planet],
    [add_moon] and [update] in which the parent handed to [add_planet] and
    [add_moon] is always a body of the scene itself (the methods take any
    object; [create_real_solar_system] hands them what [add_star] and
    [add_planet] returned).  Then its lists [stars], [planets] and [moons]
    share out the handles of [bodies] (so the three counts of the info
    panel add up to the number of bodies), the stars are exactly the
    bodies without a parent, and every parent was added before its
    children. *)
Theorem built_scene_graph (ss : SolarSystem.t) :
  built ss ->
  scene_graph ss
  /\ length (SolarSystem.bodies ss)
     = (length (SolarSystem.stars ss) + length (SolarSystem.planets ss)
        + length (SolarSystem.moons ss))%nat.
Proof.
  intros Hb.
  assert (scene_graph ss) as Hg.
  { induction Hb as [|ss x y radius color name mass facts _ IH
                     |u ss ss' parent h a radius color speed e name mass
                        facts _ IH Hin H
                     |u ss ss' parent h a radius speed e name mass facts
                        _ IH Hin H
                     |ss ss0 _ IH H|tf ss _ IH].
    - apply scene_graph_init.
    - eapply scene_graph_snoc; [exact IH | reflexivity | |].
      + intros p Hp. discriminate.
      + left. done.
    - unfold SolarSystem.add_planet in H. apply bind_Ok in H as (pb & Hpb & H).
      apply deref_Ok in Hpb. injection H as <- <-.
      eapply scene_graph_snoc; [exact IH | reflexivity | |].
      + intros p Hp. injection Hp as <-. exact Hin.
      + right. split; [done |]. split; [done |]. left. done.
    - unfold SolarSystem.add_moon in H. apply bind_Ok in H as (pb & Hpb & H).
      apply deref_Ok in Hpb. injection H as <- <-.
      eapply scene_graph_snoc; [exact IH | reflexivity | |].
      + intros p Hp. injection Hp as <-. exact Hin.
      + right. split; [done |]. split; [done |]. right. done.
    - unfold SolarSystem.update in H. apply bind_Ok in H as (s & Hs & H).
      injection H as <-. destruct (for_each_moved _ _ _ _ Hs) as [Hlen Hall].
      destruct IH as (Hperm & Hstars & Hfirst).
      unfold scene_graph. simpl. rewrite Hlen.
      split; [exact Hperm |].
      assert (forall h b', s !! h = Some b' ->
                exists b, SolarSystem.bodies ss !! h = Some b
                          /\ CelestialBody.parent b' = CelestialBody.parent b)
        as Hback.
      { intros h b' Hb'.
        assert (is_Some (SolarSystem.bodies ss !! h)) as [b Hbh].
        { apply lookup_lt_is_Some. rewrite <- Hlen.
          eapply lookup_lt_Some, Hb'. }
        destruct (Hall h b Hbh) as (b2 & Hb2 & Hmv).
        rewrite Hb' in Hb2. injection Hb2 as <-.
        exists b. split; [exact Hbh |]. rewrite Hmv. reflexivity. }
      split.
      + intros h b' Hb'. destruct (Hback h b' Hb') as (b & Hbh & ->).
        by apply Hstars.
      + intros h p b' Hb' Hpar. destruct (Hback h b' Hb') as (b & Hbh & Hpb).
        eapply Hfirst; [exact Hbh | congruence].
    - exact IH. }
  split; [exact Hg |]. destruct Hg as (Hperm & _).
  apply Permutation_length in Hperm.
  rewrite !length_app, length_seq in Hperm. lia.
Qed.

End SceneGraph.

Lemma built_scene_graph_witness :
  exists ss : SolarSystem.t,
    star_and_planet 3 4 100 (1 / 2) 0 (1 / 100) = Py.Ok ss
    /\ scene_graph ss
    /\ length (SolarSystem.bodies ss)
       = (length (SolarSystem.stars ss) + length (SolarSystem.planets ss)
          + length (SolarSystem.moons ss))%nat.
Proof.
  destruct (star_and_planet 3 4 100 (1 / 2) 0 (1 / 100)) as [ss|] eqn:Hss;
    [| discriminate Hss].
  exists ss. split; [reflexivity |]. apply built_scene_graph.
  unfold star_and_planet in Hss. cbv zeta in Hss.
  apply bind_Ok in Hss as ([ss1 h] & Hadd & Hss). injection Hss as <-.
  eapply built_planet; [| | exact Hadd]; [apply built_star, built_init |].
  simpl. lia.
Defined.

(** ** When the construction of the scene completes *)

Section Buildable.

Implicit Types (s : store) (b : body) (i j k p h : nat).

Lemma returns_bind {A B : Type} (m : Py.result A) (f : A -> Py.result B) :
  returns (m ≫= f) <-> exists a, m = Py.Ok a /\ returns (f a).
Proof.
  split.
  - intros [v Hv]. apply bind_Ok in Hv as (a & Ha & Hv).
    exists a. split; [exact Ha | by exists v].
  - intros (a & -> & Hf). exact Hf.
Qed.

Lemma log10_returns (v : R) : returns (Py.log10 v) <-> 0 < v.
Proof.
  unfold returns, Py.log10. destruct (Rle_dec v 0); split.
  - intros [a Ha]. discriminate.
  - lra.
  - lra.
  - eauto.
Qed.

Lemma pixel_radius_returns (v : R) : returns (Catalog.pixel_radius v) <-> 0 < v.
Proof.
  unfold Catalog.pixel_radius. rewrite returns_bind. split.
  - intros (a & Ha & _). assert (0 < v / 1000); [| lra].
    apply log10_returns. by exists a.
  - intros Hv. assert (returns (Py.log10 (v / 1000))) as [a Ha].
    { apply log10_returns. lra. }
    exists a. split; [exact Ha | by eexists].
Qed.

Lemma moon_pixel_radius_returns (v : R) :
  returns (Catalog.moon_pixel_radius v) <-> 0 < v.
Proof.
  unfold Catalog.moon_pixel_radius. rewrite returns_bind. split.
  - intros (a & Ha & _). assert (0 < v / 1000); [| lra].
    apply log10_returns. by exists a.
  - intros Hv. assert (returns (Py.log10 (v / 1000))) as [a Ha].
    { apply log10_returns. lra. }
    exists a. split; [exact Ha | by eexists].
Qed.

Lemma moon_speed_returns (v : R) : returns (Catalog.moon_speed v) <-> v <> 0.
Proof.
  split.
  - intros [a Ha] ->. rewrite moon_speed_zero_period in Ha. discriminate.
  - intros Hv. rewrite moon_speed_nonzero by exact Hv. by eexists.
Qed.

Lemma orbit_speed_returns (v : R) : returns (Catalog.orbit_speed v).
Proof.
  unfold Catalog.orbit_speed. destruct (Rlt_dec 0 v); [| by eexists].
  rewrite truediv_Ok by lra. by eexists.
Qed.

Lemma add_planet_returns (u : R) (ss : SolarSystem.t) (parent : nat)
    (a radius : R) (color : Pygame.Color) (speed e : R) (name : string)
    (mass : R) (facts : option (list (string * string))) :
  (parent < length (SolarSystem.bodies ss))%nat ->
  exists ss',
    SolarSystem.add_planet u ss parent a radius color speed e name mass facts
      = Py.Ok (ss', length (SolarSystem.bodies ss))
    /\ length (SolarSystem.bodies ss') = S (length (SolarSystem.bodies ss)).
Proof.
  intros Hp. apply lookup_lt_is_Some in Hp as [pb Hpb].
  unfold SolarSystem.add_planet. rewrite (deref_lookup _ _ _ Hpb).
  eexists. split; [reflexivity |]. simpl. rewrite length_app. simpl. lia.
Qed.

Lemma add_moon_returns (u : R) (ss : SolarSystem.t) (parent : nat)
    (a radius speed e : R) (name : string) (mass : R)
    (facts : option (list (string * string))) :
  (parent < length (SolarSystem.bodies ss))%nat ->
  exists ss',
    SolarSystem.add_moon u ss parent a radius speed e name mass facts
      = Py.Ok (ss', length (SolarSystem.bodies ss))
    /\ length (SolarSystem.bodies ss') = S (length (SolarSystem.bodies ss)).
Proof.
  intros Hp. apply lookup_lt_is_Some in Hp as [pb Hpb].
  unfold SolarSystem.add_moon. rewrite (deref_lookup _ _ _ Hpb).
  eexists. split; [reflexivity |]. simpl. rewrite length_app. simpl. lia.
Qed.

Lemma add_catalog_moon_returns (rnd : nat -> R) (planet : nat)
    (ss : SolarSystem.t) (m : Catalog.Moon) :
  (planet < length (SolarSystem.bodies ss))%nat ->
  (returns (Catalog.add_catalog_moon rnd planet ss m) <-> moon_buildable m)
  /\ forall ss', Catalog.add_catalog_moon rnd planet ss m = Py.Ok ss' ->
       length (SolarSystem.bodies ss') = S (length (SolarSystem.bodies ss)).
Proof.
  intros Hp. unfold Catalog.add_catalog_moon, moon_buildable. split.
  - rewrite returns_bind. split.
    + intros (pr & Hpr & H). apply returns_bind in H as (sp & Hsp & _).
      split; [apply moon_pixel_radius_returns; by exists pr |].
      apply moon_speed_returns. by exists sp.
    + intros [Hr Hper]. apply moon_pixel_radius_returns in Hr as [pr Hpr].
      apply moon_speed_returns in Hper as [sp Hsp].
      exists pr. split; [exact Hpr |]. apply returns_bind.
      exists sp. split; [exact Hsp |].
      edestruct add_moon_returns as (ss' & -> & _); [exact Hp |].
      by eexists.
  - intros ss' H. apply bind_Ok in H as (pr & _ & H).
    apply bind_Ok in H as (sp & _ & H). apply bind_Ok in H as ([ss1 h] & H1 & H).
    injection H as <-.
    edestruct add_moon_returns as (ss2 & Hadd & Hlen); [exact Hp |].
    rewrite Hadd in H1. injection H1 as <- _. exact Hlen.
Qed.

Lemma add_catalog_moons_returns (rnd : nat -> R) (planet : nat)
    (moons : list Catalog.Moon) (ss : SolarSystem.t) :
  (planet < length (SolarSystem.bodies ss))%nat ->
  (returns (Catalog.add_catalog_moons rnd planet moons ss)
   <-> Forall moon_buildable moons)
  /\ forall ss', Catalog.add_catalog_moons rnd planet moons ss = Py.Ok ss' ->
       length (SolarSystem.bodies ss')
       = (length (SolarSystem.bodies ss) + length moons)%nat.
Proof.
  revert ss. induction moons as [|m rest IH]; intros ss Hp; simpl.
  - split; [split; [done | by eexists] |]. intros ss' H. injection H as <-. lia.
  - destruct (add_catalog_moon_returns rnd planet ss m Hp) as [Hone Hlen1].
    split.
    + rewrite returns_bind, Forall_cons. split.
      * intros (ss1 & H1 & Hrest). split; [apply Hone; by exists ss1 |].
        apply (IH ss1); [| exact Hrest]. rewrite (Hlen1 _ H1). lia.
      * intros [Hm Hrest]. apply Hone in Hm as [ss1 H1].
        exists ss1. split; [exact H1 |]. apply (IH ss1); [| exact Hrest].
        rewrite (Hlen1 _ H1). lia.
    + intros ss' H. apply bind_Ok in H as (ss1 & H1 & H).
      destruct (IH ss1) as [_ Hlen]; [rewrite (Hlen1 _ H1); lia |].
      rewrite (Hlen _ H), (Hlen1 _ H1). lia.
Qed.

Lemma add_catalog_planet_returns (rnd : nat -> R) (sun i : nat)
    (ss : SolarSystem.t) (e : Catalog.Planet) :
  (sun < length (SolarSystem.bodies ss))%nat ->
  (returns (Catalog.add_catalog_planet rnd sun i ss e)
   <-> 0 < Catalog.radius e /\ returns (Catalog.planet_color i e))
  /\ forall ss' h, Catalog.add_catalog_planet rnd sun i ss e = Py.Ok (ss', h) ->
       h = length (SolarSystem.bodies ss)
       /\ length (SolarSystem.bodies ss') = S (length (SolarSystem.bodies ss)).
Proof.
  intros Hs. unfold Catalog.add_catalog_planet. split.
  - rewrite returns_bind. split.
    + intros (pr & Hpr & H). apply returns_bind in H as (sp & _ & H).
      apply returns_bind in H as (c & Hc & _).
      split; [apply pixel_radius_returns; by exists pr | by exists c].
    + intros [Hr [c Hc]]. apply pixel_radius_returns in Hr as [pr Hpr].
      destruct (orbit_speed_returns (Catalog.orbital_period e)) as [sp Hsp].
      exists pr. split; [exact Hpr |]. apply returns_bind.
      exists sp. split; [exact Hsp |]. apply returns_bind.
      exists c. split; [exact Hc |].
      edestruct add_planet_returns as (ss' & -> & _); [exact Hs |].
      by eexists.
  - intros ss' h H. apply bind_Ok in H as (pr & _ & H).
    apply bind_Ok in H as (sp & _ & H). apply bind_Ok in H as (c & _ & H).
    edestruct add_planet_returns as (ss2 & Hadd & Hlen); [exact Hs |].
    rewrite Hadd in H. injection H as <- <-. done.
Qed.

Lemma add_catalog_planets_returns (rnd : nat -> R) (sun i : nat)
    (entries : list Catalog.Planet) (ss : SolarSystem.t) :
  (sun < length (SolarSystem.bodies ss))%nat ->
  returns (Catalog.add_catalog_planets rnd sun i entries ss)
  <-> planets_buildable i entries.
Proof.
  revert i ss. induction entries as [|e rest IH]; intros i ss Hs; simpl.
  - split; [done | by eexists].
  - destruct (add_catalog_planet_returns rnd sun i ss e Hs) as [Hone Hlen1].
    unfold planet_buildable. rewrite returns_bind. split.
    + intros ([ss1 h] & H1 & H). apply returns_bind in H as (ss2 & H2 & H).
      destruct (Hlen1 _ _ H1) as [-> Hl1]. simpl in H2.
      assert (0 < Catalog.radius e /\ returns (Catalog.planet_color i e))
        as [Hr Hc] by (apply Hone; by eexists).
      destruct (Catalog.moons e) as [ms|] eqn:Hms; simpl.
      * destruct (add_catalog_moons_returns rnd
                    (length (SolarSystem.bodies ss)) ms ss1) as [Hm Hl2];
          [lia |].
        split; [split; [exact Hr | split; [exact Hc |]] |].
        { apply Hm. by exists ss2. }
        apply (IH (S i) ss2); [| exact H]. rewrite (Hl2 _ H2). lia.
      * injection H2 as <-.
        split; [split; [exact Hr | split; [exact Hc | done]] |].
        apply (IH (S i) ss1); [lia | exact H].
    + intros [(Hr & Hc & Hm) Hrest].
      assert (returns (Catalog.add_catalog_planet rnd sun i ss e))
        as [[ss1 h] H1] by (by apply Hone).
      destruct (Hlen1 _ _ H1) as [-> Hl1].
      exists (ss1, length (SolarSystem.bodies ss)). split; [exact H1 |].
      apply returns_bind. simpl.
      destruct (Catalog.moons e) as [ms|]; simpl in Hm.
      * destruct (add_catalog_moons_returns rnd
                    (length (SolarSystem.bodies ss)) ms ss1) as [Hms Hl2];
          [lia |].
        apply Hms in Hm as [ss2 H2]. exists ss2. split; [exact H2 |].
        apply (IH (S i) ss2); [| exact Hrest]. rewrite (Hl2 _ H2). lia.
      * exists ss1. split; [reflexivity |].
        apply (IH (S i) ss1); [lia | exact Hrest].
Qed.

(** X9. [create_real_solar_system] completes exactly on the buildable
    catalogues, whatever the viewport and the random draws: the catalogue
    has a first entry, and every later entry has a positive radius, a
    colour (its own up to index 8, else one listed under its name in
    [DWARF_PLANET_COLORS]), and moons of positive radius and non-zero
    period.  Eccentricities, masses and orbit radii are not looked at. *)
Theorem create_returns_iff (rnd : nat -> R) (planets : list Catalog.Planet)
    (width height : Z) :
  returns (create_real_solar_system rnd planets width height)
  <-> catalog_buildable planets.
Proof.
  unfold create_real_solar_system, catalog_buildable.
  destruct planets as [|first rest].
  - split; [intros [a Ha]; discriminate | done].
  - cbv zeta. apply add_catalog_planets_returns. simpl. lia.
Qed.

End Buildable.

Lemma create_returns_iff_witness :
  returns (create_real_solar_system (fun _ => 0)
             [sun_entry; planet_entry 100 (Some [moon_entry (-5)])] 1200 800)
  /\ ~ returns (create_real_solar_system (fun _ => 0)
                  [sun_entry; planet_entry 100 (Some [moon_entry 0])]
                  1200 800).
Proof.
  split.
  - apply create_returns_iff. simpl. split; [| done]. split; [simpl; lra |].
    split; [by eexists |]. simpl. repeat constructor; simpl; lra.
  - intros H. apply create_returns_iff in H. simpl in H.
    destruct H as [(_ & _ & Hm) _]. simpl in Hm.
    apply Forall_cons in Hm as [[_ Hp] _]. by apply Hp.
Defined.

(** ** The layout of the constructed scene *)

Section Layout.

Implicit Types (s : store) (b : body) (i j k p h : nat).

Lemma add_moon_layout (u : R) (ss ss' : SolarSystem.t) (planet h : nat)
    (a radius speed e : R) (name : string) (mass : R)
    (facts : option (list (string * string))) (sun : body) :
  two_level ss -> SolarSystem.bodies ss !! 0%nat = Some sun ->
  planet ∈ SolarSystem.planets ss ->
  SolarSystem.add_moon u ss planet a radius speed e name mass facts
    = Py.Ok (ss', h) ->
  two_level ss' /\ SolarSystem.bodies ss' !! 0%nat = Some sun
  /\ SolarSystem.planets ss' = SolarSystem.planets ss
  /\ length (SolarSystem.moons ss') = S (length (SolarSystem.moons ss))
  /\ length (SolarSystem.bodies ss') = S (length (SolarSystem.bodies ss)).
Proof.
  intros (Hstars & Hplanets & Hmoons) Hsun Hin H.
  unfold SolarSystem.add_moon in H. apply bind_Ok in H as (pb & Hpb & H).
  injection H as <- <-. simpl.
  split; [| split; [by apply lookup_app_l_Some | split; [done |]]];
    [| rewrite !length_app; simpl; lia].
  - split; [exact Hstars |]. simpl. split.
    + intros h Hh. destruct (Hplanets h Hh) as (b & Hb & Hp).
      exists b. split; [by apply lookup_app_l_Some | exact Hp].
    + intros h Hh. apply elem_of_app in Hh as [Hh|Hh].
      * destruct (Hmoons h Hh) as (b & p & Hb & Hp & Hpin).
        exists b, p. split; [by apply lookup_app_l_Some | done].
      * apply list_elem_of_singleton in Hh as ->.
        eexists _, planet. split; [apply list_lookup_middle; reflexivity |].
        done.
Qed.

Lemma add_catalog_moons_layout (rnd : nat -> R) (planet : nat)
    (moons : list Catalog.Moon) (ss ss' : SolarSystem.t) (sun : body) :
  two_level ss -> SolarSystem.bodies ss !! 0%nat = Some sun ->
  planet ∈ SolarSystem.planets ss ->
  Catalog.add_catalog_moons rnd planet moons ss = Py.Ok ss' ->
  two_level ss' /\ SolarSystem.bodies ss' !! 0%nat = Some sun
  /\ SolarSystem.planets ss' = SolarSystem.planets ss
  /\ length (SolarSystem.moons ss')
     = (length (SolarSystem.moons ss) + length moons)%nat
  /\ length (SolarSystem.bodies ss')
     = (length (SolarSystem.bodies ss) + length moons)%nat.
Proof.
  revert ss. induction moons as [|m rest IH]; intros ss Hl Hsun Hin H;
    simpl in H.
  - injection H as <-. simpl. rewrite !Nat.add_0_r. done.
  - apply bind_Ok in H as (ss1 & H1 & H).
    unfold Catalog.add_catalog_moon in H1.
    apply bind_Ok in H1 as (pr & _ & H1). apply bind_Ok in H1 as (sp & _ & H1).
    apply bind_Ok in H1 as ([ss2 h] & Hadd & H1). injection H1 as <-.
    destruct (add_moon_layout _ _ _ _ _ _ _ _ _ _ _ _ sun Hl Hsun Hin Hadd)
      as (Hl2 & Hsun2 & Hp2 & Hm2 & Hb2).
    destruct (IH ss2 Hl2 Hsun2) as (Hl' & Hsun' & Hp' & Hm' & Hb');
      [by rewrite Hp2 | exact H |].
    split; [exact Hl' |]. split; [exact Hsun' |].
    split; [congruence |]. simpl. lia.
Qed.

Lemma add_planet_layout (u : R) (ss ss' : SolarSystem.t) (h : nat)
    (a radius : R) (color : Pygame.Color) (speed e : R) (name : string)
    (mass : R) (facts : option (list (string * string))) (sun : body) :
  two_level ss -> SolarSystem.bodies ss !! 0%nat = Some sun ->
  SolarSystem.add_planet u ss 0 a radius color speed e name mass facts
    = Py.Ok (ss', h) ->
  two_level ss' /\ SolarSystem.bodies ss' !! 0%nat = Some sun
  /\ SolarSystem.planets ss' = SolarSystem.planets ss ++ [h]
  /\ SolarSystem.moons ss' = SolarSystem.moons ss
  /\ length (SolarSystem.bodies ss') = S (length (SolarSystem.bodies ss)).
Proof.
  intros (Hstars & Hplanets & Hmoons) Hsun H.
  unfold SolarSystem.add_planet in H. apply bind_Ok in H as (pb & Hpb & H).
  injection H as <- <-. simpl.
  split; [| split; [by apply lookup_app_l_Some |];
            split; [done |]; split; [done |]; rewrite length_app; simpl; lia].
  split; [exact Hstars |]. simpl. split.
  - intros h Hh. apply elem_of_app in Hh as [Hh|Hh].
    + destruct (Hplanets h Hh) as (b & Hb & Hp).
      exists b. split; [by apply lookup_app_l_Some | exact Hp].
    + apply list_elem_of_singleton in Hh as ->.
      eexists. split; [apply list_lookup_middle; reflexivity | done].
  - intros h Hh. destruct (Hmoons h Hh) as (b & p & Hb & Hp & Hpin).
    exists b, p. split; [by apply lookup_app_l_Some |].
    split; [exact Hp |]. apply elem_of_app. by left.
Qed.

Lemma add_catalog_planets_layout (rnd : nat -> R) (i : nat)
    (entries : list Catalog.Planet) (ss ss' : SolarSystem.t) (sun : body) :
  two_level ss -> SolarSystem.bodies ss !! 0%nat = Some sun ->
  Catalog.add_catalog_planets rnd 0 i entries ss = Py.Ok ss' ->
  two_level ss' /\ SolarSystem.bodies ss' !! 0%nat = Some sun
  /\ length (SolarSystem.planets ss')
     = (length (SolarSystem.planets ss) + length entries)%nat
  /\ length (SolarSystem.moons ss')
     = (length (SolarSystem.moons ss) + moon_count entries)%nat
  /\ length (SolarSystem.bodies ss')
     = (length (SolarSystem.bodies ss) + length entries
        + moon_count entries)%nat.
Proof.
  revert i ss. induction entries as [|e rest IH]; intros i ss Hl Hsun H;
    simpl in H.
  - injection H as <-. unfold moon_count. simpl.
    split; [exact Hl |]. split; [exact Hsun |]. lia.
  - apply bind_Ok in H as ([ss1 h] & H1 & H).
    apply bind_Ok in H as (ss2 & H2 & H).
    unfold Catalog.add_catalog_planet in H1.
    apply bind_Ok in H1 as (pr & _ & H1). apply bind_Ok in H1 as (sp & _ & H1).
    apply bind_Ok in H1 as (c & _ & H1).
    destruct (add_planet_layout _ _ _ _ _ _ _ _ _ _ _ _ sun Hl Hsun H1)
      as (Hl1 & Hsun1 & Hp1 & Hm1 & Hb1).
    simpl in H2.
    assert (two_level ss2 /\ SolarSystem.bodies ss2 !! 0%nat = Some sun
            /\ SolarSystem.planets ss2 = SolarSystem.planets ss1
            /\ length (SolarSystem.moons ss2)
               = (length (SolarSystem.moons ss1)
                  + length (default [] (Catalog.moons e)))%nat
            /\ length (SolarSystem.bodies ss2)
               = (length (SolarSystem.bodies ss1)
                  + length (default [] (Catalog.moons e)))%nat)
      as (Hl2 & Hsun2 & Hp2 & Hm2 & Hb2).
    { destruct (Catalog.moons e) as [ms|]; simpl.
      - eapply add_catalog_moons_layout; [exact Hl1 | exact Hsun1 | | exact H2].
        rewrite Hp1. apply elem_of_app. right. by left.
      - injection H2 as <-. rewrite !Nat.add_0_r. done. }
    destruct (IH (S i) ss2 Hl2 Hsun2 H) as (Hl' & Hsun' & Hp' & Hm' & Hb').
    split; [exact Hl' |]. split; [exact Hsun' |].
    unfold moon_count in *. simpl.
    rewrite Hp', Hm', Hb', Hp2, Hm2, Hb2, Hp1, Hm1, Hb1, length_app.
    simpl. lia.
Qed.

Lemma add_catalog_moons_family (rnd : nat -> R) (planet : nat)
    (moons : list Catalog.Moon) (ss ss' : SolarSystem.t) :
  Catalog.add_catalog_moons rnd planet moons ss = Py.Ok ss' ->
  exists new : store,
    SolarSystem.bodies ss' = SolarSystem.bodies ss ++ new
    /\ map name_and_parent new
       = map (fun m => (Catalog.moon_name m, Some planet)) moons
    /\ SolarSystem.stars ss' = SolarSystem.stars ss
    /\ SolarSystem.planets ss' = SolarSystem.planets ss
    /\ SolarSystem.moons ss'
       = SolarSystem.moons ss
         ++ seq (length (SolarSystem.bodies ss)) (length moons).
Proof.
  revert ss. induction moons as [|m rest IH]; intros ss H; simpl in H.
  - injection H as <-. exists []. by rewrite !app_nil_r.
  - apply bind_Ok in H as (ss1 & H1 & H).
    destruct (IH ss1 H) as (new & Hnew & Hkeys & Hst & Hpl & Hmo).
    unfold Catalog.add_catalog_moon in H1.
    apply bind_Ok in H1 as (pr & _ & H1). apply bind_Ok in H1 as (sp & _ & H1).
    apply bind_Ok in H1 as ([ss2 h2] & Hadd & H1). injection H1 as <-.
    unfold SolarSystem.add_moon in Hadd.
    apply bind_Ok in Hadd as (pb & _ & Hadd). injection Hadd as <- _.
    cbn [fst SolarSystem.bodies SolarSystem.stars SolarSystem.planets
         SolarSystem.moons] in *.
    eexists (_ :: new). split; [by rewrite Hnew, <- app_assoc |].
    split; [cbn [map]; by rewrite Hkeys |].
    split; [exact Hst |]. split; [exact Hpl |].
    rewrite Hmo, length_app, <- app_assoc. cbn [length seq app].
    by rewrite Nat.add_1_r.
Qed.

Lemma add_catalog_planets_family (rnd : nat -> R) (sun i : nat)
    (entries : list Catalog.Planet) (ss ss' : SolarSystem.t) :
  Catalog.add_catalog_planets rnd sun i entries ss = Py.Ok ss' ->
  exists new : store,
    SolarSystem.bodies ss' = SolarSystem.bodies ss ++ new
    /\ map name_and_parent new
       = family_tree sun (length (SolarSystem.bodies ss)) entries
    /\ SolarSystem.stars ss' = SolarSystem.stars ss
    /\ SolarSystem.planets ss'
       = SolarSystem.planets ss
         ++ planet_handles (length (SolarSystem.bodies ss)) entries
    /\ SolarSystem.moons ss'
       = SolarSystem.moons ss
         ++ moon_handles (length (SolarSystem.bodies ss)) entries.
Proof.
  revert i ss. induction entries as [|e rest IH]; intros i ss H; simpl in H.
  - injection H as <-. exists []. by rewrite !app_nil_r.
  - apply bind_Ok in H as ([ss1 h1] & H1 & H).
    apply bind_Ok in H as (ss2 & H2 & H).
    destruct (IH _ _ H) as (new3 & Hnew3 & Hkeys3 & Hst3 & Hpl3 & Hmo3).
    assert (exists pl : body,
              SolarSystem.bodies ss1 = SolarSystem.bodies ss ++ [pl]
              /\ name_and_parent pl = (Catalog.name e, Some sun)
              /\ h1 = length (SolarSystem.bodies ss)
              /\ SolarSystem.stars ss1 = SolarSystem.stars ss
              /\ SolarSystem.planets ss1
                 = SolarSystem.planets ss ++ [length (SolarSystem.bodies ss)]
              /\ SolarSystem.moons ss1 = SolarSystem.moons ss)
      as (pl & Hnew1 & Hkey1 & -> & Hst1 & Hpl1 & Hmo1).
    { unfold Catalog.add_catalog_planet in H1.
      apply bind_Ok in H1 as (pr & _ & H1).
      apply bind_Ok in H1 as (sp & _ & H1).
      apply bind_Ok in H1 as (c & _ & H1).
      unfold SolarSystem.add_planet in H1.
      apply bind_Ok in H1 as (pb & _ & H1). injection H1 as <- <-.
      eexists. split; [reflexivity |]. done. }
    cbn [fst snd] in H2.
    assert (exists new2 : store,
              SolarSystem.bodies ss2 = SolarSystem.bodies ss1 ++ new2
              /\ map name_and_parent new2
                 = map (fun m => (Catalog.moon_name m,
                                  Some (length (SolarSystem.bodies ss))))
                     (default [] (Catalog.moons e))
              /\ SolarSystem.stars ss2 = SolarSystem.stars ss1
              /\ SolarSystem.planets ss2 = SolarSystem.planets ss1
              /\ SolarSystem.moons ss2
                 = SolarSystem.moons ss1
                   ++ seq (length (SolarSystem.bodies ss1))
                        (length (default [] (Catalog.moons e))))
      as (new2 & Hnew2 & Hkeys2 & Hst2 & Hpl2 & Hmo2).
    { destruct (Catalog.moons e) as [ms|].
      - by apply add_catalog_moons_family in H2.
      - injection H2 as <-. exists []. cbn [default map length seq].
        by rewrite !app_nil_r. }
    rewrite Hnew1, length_app in Hmo2. cbn [length] in Hmo2.
    rewrite Hnew2, Hnew1, !length_app in Hkeys3, Hpl3, Hmo3.
    cbn [length] in Hkeys3, Hpl3, Hmo3.
    assert (length new2 = length (default [] (Catalog.moons e))) as Hlen2
      by (rewrite <- (length_map name_and_parent), Hkeys2; apply length_map).
    rewrite Hlen2 in Hkeys3, Hpl3, Hmo3.
    exists (pl :: new2 ++ new3).
    split; [by rewrite Hnew3, Hnew2, Hnew1, <- !app_assoc |].
    cbn [family_tree planet_handles moon_handles]. cbv zeta.
    split; [cbn [map]; by rewrite map_app, Hkey1, Hkeys2, Hkeys3 |].
    split; [congruence |].
    split; [by rewrite Hpl3, Hpl2, Hpl1, <- app_assoc |].
    by rewrite Hmo3, Hmo2, Hmo1, <- app_assoc.
Qed.

(** X10. A completed [create_real_solar_system] puts one star with handle
    0 at the integer centre [(width // 2, height // 2)] of the viewport,
    with pixel radius 5 and the name of the first entry.  After it come,
    entry by entry, the planet of each later entry, named after it and
    with the star as its parent, and straight after each planet the moons
    that its entry lists, named after them and with that very planet as
    their parent; [planets] and [moons] hold the handles of these bodies,
    in this order. *)
Theorem created_layout (rnd : nat -> R) (first : Catalog.Planet)
    (rest : list Catalog.Planet) (width height : Z) (ss : SolarSystem.t) :
  create_real_solar_system rnd (first :: rest) width height = Py.Ok ss ->
  two_level ss
  /\ (exists sun : body,
        SolarSystem.bodies ss !! 0%nat = Some sun
        /\ CelestialBody.parent sun = None
        /\ CelestialBody.x sun = IZR (width / 2)
        /\ CelestialBody.y sun = IZR (height / 2)
        /\ CelestialBody.radius sun = 5
        /\ CelestialBody.name sun = Catalog.name first)
  /\ length (SolarSystem.planets ss) = length rest
  /\ length (SolarSystem.moons ss) = moon_count rest
  /\ length (SolarSystem.bodies ss) = (1 + length rest + moon_count rest)%nat
  /\ map name_and_parent (SolarSystem.bodies ss)
     = (Catalog.name first, None) :: family_tree 0 1 rest
  /\ SolarSystem.planets ss = planet_handles 1 rest
  /\ SolarSystem.moons ss = moon_handles 1 rest.
Proof.
  intros H. unfold create_real_solar_system in H. cbv zeta in H.
  assert (map name_and_parent (SolarSystem.bodies ss)
          = (Catalog.name first, None) :: family_tree 0 1 rest
          /\ SolarSystem.planets ss = planet_handles 1 rest
          /\ SolarSystem.moons ss = moon_handles 1 rest) as Hfamily.
  { apply add_catalog_planets_family in H
      as (new & Hnew & Hkeys & Hst & Hpl & Hmo).
    cbn [fst snd SolarSystem.add_star SolarSystem.bodies SolarSystem.stars
         SolarSystem.planets SolarSystem.moons SolarSystem.init app length]
      in *.
    rewrite Hnew. cbn [map]. by rewrite Hkeys. }
  edestruct (add_catalog_planets_layout rnd 1 rest)
    as (Hl & Hsun & Hp & Hm & Hb); [| | exact H |].
  - split; [reflexivity |]. simpl.
    split; intros h Hh; by apply elem_of_nil in Hh.
  - reflexivity.
  - simpl in Hp, Hm, Hb. split; [exact Hl |].
    split; [eexists; split; [exact Hsun | done] |]. done.
Qed.

End Layout.

Lemma created_layout_witness :
  exists ss : SolarSystem.t,
    create_real_solar_system (fun _ => 0)
      [sun_entry; planet_entry 100 (Some [moon_entry (-5)])] 1200 800
      = Py.Ok ss
    /\ two_level ss
    /\ length (SolarSystem.bodies ss) = 3%nat.
Proof.
  destruct (create_real_solar_system (fun _ => 0)
              [sun_entry; planet_entry 100 (Some [moon_entry (-5)])]
              1200 800) as [ss|e] eqn:Hss.
  - exists ss. split; [reflexivity |].
    destruct (created_layout _ _ _ _ _ _ Hss) as (Hl & _ & _ & _ & Hb & _).
    split; [exact Hl | exact Hb].
  - exfalso.
    assert (returns (create_real_solar_system (fun _ => 0)
              [sun_entry; planet_entry 100 (Some [moon_entry (-5)])]
              1200 800)) as [ss Hr].
    { unfold create_real_solar_system. cbv zeta.
      apply add_catalog_planets_returns; [simpl; lia |].
      simpl. split; [| done].
      split; [simpl; lra |].
      split; [by eexists |]. simpl. repeat constructor; simpl; lra. }
    congruence.
Defined.

(** ** The calendar of the moons *)

Section MoonCalendar.

Implicit Types (s : store) (b : body) (i j k p h : nat).

Lemma max_ge_l (a c : R) : a <= Py.max a c.
Proof. unfold Py.max. destruct (Rlt_dec a c); lra. Qed.

Lemma max_ge_r (a c : R) : c <= Py.max a c.
Proof. unfold Py.max. destruct (Rlt_dec a c); lra. Qed.

(** X11. A round of the loop over the moons that completes appends, under
    the next handle, a moon around [planet] whose speed times its period
    of the catalogue is [base_speed * earth_period]: a negative period (a
    retrograde moon) gives a negative speed of the same size as the
    positive period would.  Its pixel radius is at least 0.5 and its semi
    major axis at least the scaled orbit radius. *)
Theorem catalog_moon_calendar (rnd : nat -> R) (planet : nat)
    (ss ss' : SolarSystem.t) (m : Catalog.Moon) :
  Catalog.add_catalog_moon rnd planet ss m = Py.Ok ss' ->
  exists b : body,
    SolarSystem.bodies ss' !! length (SolarSystem.bodies ss) = Some b
    /\ length (SolarSystem.bodies ss') = S (length (SolarSystem.bodies ss))
    /\ CelestialBody.parent b = Some planet
    /\ CelestialBody.orbit_speed b = CelestialBody.base_orbit_speed b
    /\ CelestialBody.orbit_speed b * Catalog.moon_orbital_period m
       = Catalog.base_speed * Catalog.earth_period
    /\ (Catalog.moon_orbital_period m < 0 -> CelestialBody.orbit_speed b < 0)
    /\ (0 < Catalog.moon_orbital_period m -> 0 < CelestialBody.orbit_speed b)
    /\ 0.5 <= CelestialBody.radius b
    /\ Catalog.moon_orbit_radius m * Catalog.distance_scale
       <= CelestialBody.semi_major_axis b.
Proof.
  intros H. unfold Catalog.add_catalog_moon in H.
  apply bind_Ok in H as (pr & Hpr & H). apply bind_Ok in H as (sp & Hsp & H).
  apply bind_Ok in H as ([ss1 h] & Hadd & H). injection H as <-.
  unfold SolarSystem.add_moon in Hadd.
  apply bind_Ok in Hadd as (pb & Hpb & Hadd). injection Hadd as <- <-.
  eexists. split; [simpl; apply list_lookup_middle; reflexivity |].
  split; [simpl; rewrite length_app; simpl; lia |].
  cbn [CelestialBody.parent CelestialBody.orbit_speed
       CelestialBody.base_orbit_speed CelestialBody.radius
       CelestialBody.semi_major_axis].
  split; [reflexivity |]. split; [reflexivity |].
  unfold Catalog.moon_speed in Hsp. apply bind_Ok in Hsp as (q & Hq & Hsp).
  injection Hsp as <-. unfold Py.truediv in Hq.
  destruct (Req_dec_T (Rabs (Catalog.moon_orbital_period m)) 0) as [|Hne];
    [discriminate |]. injection Hq as <-.
  assert (0 < Catalog.base_speed * Catalog.earth_period) as Hpos.
  { unfold Catalog.base_speed, Catalog.earth_period, Catalog.base_frames.
    pose proof PI_RGT_0. lra. }
  set (period := Catalog.moon_orbital_period m) in *.
  assert (0 < Catalog.base_speed
              * (Catalog.earth_period / Rabs period)) as Hq.
  { assert (0 < Rabs period) by (pose proof (Rabs_pos period); lra).
    replace (Catalog.base_speed * (Catalog.earth_period / Rabs period))
      with (Catalog.base_speed * Catalog.earth_period * / Rabs period)
      by (field; lra).
    apply Rmult_lt_0_compat; [exact Hpos | by apply Rinv_0_lt_compat]. }
  split; [| split; [| split; [| split]]].
  - destruct (Rlt_dec period 0) as [Hneg|Hnn].
    + rewrite Rabs_left by exact Hneg. field. lra.
    + rewrite Rabs_right in * by lra. field. lra.
  - intros Hneg. destruct (Rlt_dec period 0); lra.
  - intros Hp. destruct (Rlt_dec period 0); lra.
  - unfold Catalog.moon_pixel_radius in Hpr.
    apply bind_Ok in Hpr as (l & _ & Hpr). injection Hpr as <-.
    apply max_ge_l.
  - apply max_ge_l.
Qed.

Lemma catalog_moon_calendar_witness :
  exists (ss' : SolarSystem.t) (b : body),
    SolarSystem.bodies ss' !! 1%nat = Some b
    /\ CelestialBody.orbit_speed b * (-5)
       = Catalog.base_speed * Catalog.earth_period
    /\ CelestialBody.orbit_speed b < 0.
Proof.
  pose (ss := (SolarSystem.add_star SolarSystem.init 0 0 5 (0, 0, 0)%Z
                 "Neptune" 1 None).1).
  destruct (Catalog.add_catalog_moon (fun _ => 0) 0 ss (moon_entry (-5)))
    as [ss'|e] eqn:Hss.
  - destruct (catalog_moon_calendar _ _ _ _ _ Hss)
      as (b & Hb & _ & _ & _ & Hcal & Hneg & _).
    exists ss', b. split; [exact Hb |]. split; [exact Hcal |].
    apply Hneg. simpl. lra.
  - exfalso.
    assert (returns (Catalog.add_catalog_moon (fun _ => 0) 0 ss
                       (moon_entry (-5)))) as [ss' Hr].
    { apply add_catalog_moon_returns; [simpl; lia |]. split; simpl; lra. }
    congruence.
Defined.

End MoonCalendar.

(** ** The cached orbit after a rebuild *)

Section OrbitRebuild.

Implicit Types (s : store) (b : body) (i j k p : nat).

(** What a call that goes down the path of lines 95-132 leaves. *)
Lemma rebuild_inv s s' i p b (zoom view_x view_y : R) (width height : Z)
    (calls : list Pygame.call) :
  s !! i = Some b -> CelestialBody.parent b = Some p ->
  CelestialBody.orbit_cache_valid b zoom view_x view_y width height = false ->
  CelestialBody.update_orbit_surface s i zoom view_x view_y width height
    = Py.Ok (s', calls) ->
  exists (pb : body) (min_x max_x min_y max_y : R),
    let a := CelestialBody.semi_major_axis b in
    let pts :=
      CelestialBody.sample_orbit a (a * sqrt (CelestialBody.one_minus_e2 b)) in
    let screen :=
      map (fun pt : R * R =>
             ((pt.1 + CelestialBody.x pb - view_x) * zoom + IZR (width / 2),
              (pt.2 + CelestialBody.y pb - view_y) * zoom + IZR (height / 2)))
          pts in
    let box_width := Z.max 1 (Z.min (Py.int (max_x - min_x) + 2) width) in
    let box_height := Z.max 1 (Z.min (Py.int (max_y - min_y) + 2) height) in
    let lines :=
      {| Pygame.pl_color := (50, 50, 50, 64)%Z; Pygame.pl_closed := true;
         Pygame.pl_points :=
           map (fun pt : R * R => (pt.1 - min_x, pt.2 - min_y)) screen;
         Pygame.pl_width := if Py.ltb 10 a then 2%Z else 1%Z |} in
    let surface :=
      {| Pygame.surf_width := box_width; Pygame.surf_height := box_height;
         Pygame.surf_lines := [lines] |} in
    let rect :=
      {| Pygame.rect_left := Py.int min_x; Pygame.rect_top := Py.int min_y;
         Pygame.rect_width := box_width;
         Pygame.rect_height := box_height |} in
    s !! p = Some pb
    /\ 0 <= CelestialBody.one_minus_e2 b
    /\ Py.min_of (map fst screen) = Py.Ok min_x
    /\ Py.max_of (map fst screen) = Py.Ok max_x
    /\ Py.min_of (map snd screen) = Py.Ok min_y
    /\ Py.max_of (map snd screen) = Py.Ok max_y
    /\ s' = <[i := CelestialBody.set_orbit_rect (Some rect)
                (CelestialBody.set_orbit_surface (Some surface)
                   (CelestialBody.set_orbit_points (Some pts)
                      (CelestialBody.set_last_view zoom view_x view_y
                         width height b)))]> s
    /\ calls = [Pygame.NewSurface box_width box_height;
                Pygame.DrawLines lines].
Proof.
  intros Hb Hp Hv H. unfold CelestialBody.update_orbit_surface in H.
  rewrite (deref_lookup _ _ _ Hb) in H. cbn [mbind result_bind Py.bind] in H.
  rewrite Hp, Hv in H. cbv zeta in H.
  rewrite (deref_insert_eq _ _ _ _ Hb) in H.
  cbn [mbind result_bind Py.bind] in H.
  cbn [CelestialBody.one_minus_e2 CelestialBody.set_last_view] in H.
  apply bind_Ok in H as (root & Hroot & H). unfold Py.sqrt in Hroot.
  destruct (Rlt_dec (CelestialBody.one_minus_e2 b) 0) as [|Home];
    [discriminate |]. injection Hroot as <-.
  rewrite list_insert_insert_eq in H.
  rewrite (deref_insert_eq _ _ _ _ Hb) in H.
  cbn [mbind result_bind Py.bind] in H.
  cbn [CelestialBody.semi_major_axis CelestialBody.set_last_view
       CelestialBody.orbit_points CelestialBody.set_orbit_points default] in H.
  apply bind_Ok in H as (parent_ & Hparent & H).
  assert (exists pb, s !! p = Some pb
          /\ CelestialBody.x parent_ = CelestialBody.x pb
          /\ CelestialBody.y parent_ = CelestialBody.y pb)
    as (pb & Hpb & Hx & Hy).
  { apply deref_Ok in Hparent. destruct (decide (i = p)) as [<-|Hne].
    - rewrite list_lookup_insert_eq in Hparent
        by (eapply lookup_lt_Some, Hb).
      injection Hparent as <-. exists b. done.
    - rewrite list_lookup_insert_ne in Hparent by done.
      exists parent_. done. }
  rewrite Hx, Hy in H.
  apply bind_Ok in H as (min_x & Hmin_x & H).
  apply bind_Ok in H as (max_x & Hmax_x & H).
  apply bind_Ok in H as (min_y & Hmin_y & H).
  apply bind_Ok in H as (max_y & Hmax_y & H).
  rewrite !list_insert_insert_eq in H. injection H as <- <-.
  exists pb, min_x, max_x, min_y, max_y. cbv zeta.
  split; [exact Hpb |]. split; [lra |]. done.
Qed.

(** X12. A call of [update_orbit_surface] that completes leaves a store on
    which the next call with the same camera changes nothing and reaches
    no renderer; if the first call built the surface, so does not any call
    whose zoom is within 0.01 and whose pan is within 1 of it on each
    axis, at the same viewport size. *)
Theorem orbit_surface_settles s s' i (zoom view_x view_y : R)
    (width height : Z) (calls : list Pygame.call) :
  CelestialBody.update_orbit_surface s i zoom view_x view_y width height
    = Py.Ok (s', calls) ->
  CelestialBody.update_orbit_surface s' i zoom view_x view_y width height
    = Py.Ok (s', [])
  /\ (calls <> [] ->
      forall zoom' view_x' view_y' : R,
        Rabs (zoom' - zoom) < 0.01 ->
        Rabs (view_x' - view_x) < 1 -> Rabs (view_y' - view_y) < 1 ->
        CelestialBody.update_orbit_surface s' i zoom' view_x' view_y'
          width height = Py.Ok (s', [])).
Proof.
  intros H.
  assert (exists b, s !! i = Some b) as [b Hb].
  { unfold CelestialBody.update_orbit_surface in H.
    apply bind_Ok in H as (b & Hb & _). apply deref_Ok in Hb. eauto. }
  destruct (CelestialBody.parent b) as [p|] eqn:Hp.
  2:{ unfold CelestialBody.update_orbit_surface in H.
      rewrite (deref_lookup _ _ _ Hb) in H.
      cbn [mbind result_bind Py.bind] in H. rewrite Hp in H.
      injection H as <- <-. split; [| done].
      unfold CelestialBody.update_orbit_surface.
      rewrite (deref_lookup _ _ _ Hb). cbn [mbind result_bind Py.bind].
      by rewrite Hp. }
  destruct (CelestialBody.orbit_cache_valid b zoom view_x view_y width height)
    eqn:Hv.
  { unfold CelestialBody.update_orbit_surface in H.
    rewrite (deref_lookup _ _ _ Hb) in H.
    cbn [mbind result_bind Py.bind] in H. rewrite Hp, Hv in H.
    injection H as <- <-. split; [| done].
    unfold CelestialBody.update_orbit_surface.
    rewrite (deref_lookup _ _ _ Hb). cbn [mbind result_bind Py.bind].
    by rewrite Hp, Hv. }
  destruct (rebuild_inv _ _ _ _ _ _ _ _ _ _ _ Hb Hp Hv H)
    as (pb & min_x & max_x & min_y & max_y & Hinv).
  cbv zeta in Hinv. destruct Hinv as (_ & _ & _ & _ & _ & _ & -> & _).
  match goal with
  | |- context [<[i := ?x]> s] => set (b' := x) in *
  end.
  assert (forall zoom' view_x' view_y' : R,
            Rabs (zoom' - zoom) < 0.01 ->
            Rabs (view_x' - view_x) < 1 -> Rabs (view_y' - view_y) < 1 ->
            CelestialBody.update_orbit_surface
              (<[i := b']> s) i zoom' view_x' view_y' width height
            = Py.Ok (<[i := b']> s, [])) as Hnear.
  { intros zoom' view_x' view_y' Hz Hx Hy.
    unfold CelestialBody.update_orbit_surface.
    rewrite (deref_insert_eq _ _ _ _ Hb). cbn [mbind result_bind Py.bind].
    assert (CelestialBody.parent b' = Some p) as -> by exact Hp.
    assert (CelestialBody.orbit_cache_valid b' zoom' view_x' view_y'
              width height = true) as ->; [| reflexivity].
    apply orbit_cache_valid_spec. subst b'. simpl. done. }
  split; [| intros _; exact Hnear].
  apply Hnear; rewrite Rminus_diag, Rabs_R0; lra.
Qed.

Lemma orbit_surface_settles_witness :
  exists (s s' : store) (calls : list Pygame.call),
    CelestialBody.update_orbit_surface s 1 1 0 0 800 600 = Py.Ok (s', calls)
    /\ CelestialBody.update_orbit_surface s' 1 1 0 0 800 600 = Py.Ok (s', [])
    /\ CelestialBody.update_orbit_surface s' 1 1.005 0.5 (-0.5) 800 600
       = Py.Ok (s', []).
Proof.
  destruct (star_and_planet 3 4 100 (1 / 2) 0 (1 / 100)) as [ss|] eqn:Hss;
    [| discriminate Hss].
  exists (SolarSystem.bodies ss). injection Hss as <-.
  match goal with
  | |- exists _ _, CelestialBody.update_orbit_surface ?s _ _ _ _ _ _ = _ /\ _ =>
      destruct (rebuild_Ok s 1 0 _ _ 1 0 0 800 600 eq_refl eq_refl eq_refl
                  ltac:(simpl; lra) eq_refl)
        as (surface & rect & lines & Hre)
  end.
  eexists _, _. split; [exact Hre |].
  destruct (orbit_surface_settles _ _ _ _ _ _ _ _ _ Hre) as [Hsame Hnear].
  split; [exact Hsame |]. apply Hnear; [discriminate | | |].
  - replace (1.005 - 1) with 0.005 by lra. rewrite Rabs_right; lra.
  - replace (0.5 - 0) with 0.5 by lra. rewrite Rabs_right; lra.
  - replace (-0.5 - 0) with (-0.5) by lra. rewrite Rabs_left; lra.
Defined.

End OrbitRebuild.

(** ** The curve an orbit surface shows *)

Section OrbitGeometry.

Implicit Types (s : store) (b : body) (i j k p : nat).

Lemma foldl_min_le (h : R) (t : list R) :
  foldl Py.min h t <= h /\ Forall (fun v => foldl Py.min h t <= v) t.
Proof.
  revert h. induction t as [|v t IH]; intros h; simpl.
  - split; [lra | constructor].
  - destruct (IH (Py.min h v)) as [Hh Ht].
    assert (Py.min h v <= h /\ Py.min h v <= v) as [H1 H2]
      by (unfold Py.min; destruct (Rlt_dec v h); lra).
    split; [lra |]. constructor; [lra | exact Ht].
Qed.

Lemma min_of_le (xs : list R) (m : R) :
  Py.min_of xs = Py.Ok m -> Forall (fun v => m <= v) xs.
Proof.
  destruct xs as [|h t]; simpl; intros H; [discriminate |].
  injection H as <-. destruct (foldl_min_le h t). by constructor.
Qed.

Lemma sample_on_ellipse (a ome : R) :
  0 <= ome ->
  Forall (fun pt : R * R => ome * (pt.1 * pt.1) + pt.2 * pt.2 = ome * (a * a))
         (CelestialBody.sample_orbit a (a * sqrt ome)).
Proof.
  intros Home. unfold CelestialBody.sample_orbit. apply Forall_map.
  apply Forall_forall. intros t _. cbv zeta. cbn [fst snd].
  set (theta := 2 * PI * INR t / 29).
  pose proof (sin2_cos2 theta) as Hsc. unfold Rsqr in Hsc.
  pose proof (sqrt_sqrt ome Home) as Hsq.
  replace (a * sqrt ome * sin theta * (a * sqrt ome * sin theta))
    with (sqrt ome * sqrt ome * (a * a) * (sin theta * sin theta)) by ring.
  rewrite Hsq.
  replace (ome * (a * cos theta * (a * cos theta))
           + ome * (a * a) * (sin theta * sin theta))
    with (ome * (a * a) * (sin theta * sin theta + cos theta * cos theta))
    by ring.
  rewrite Hsc. ring.
Qed.

(** X13. When [update_orbit_surface] builds a surface for a body around
    [p], the 30 points it stores lie on the ellipse with semi axes [a] and
    [a * sqrt one_minus_e2] about the origin, the first of them being
    [(a, 0)]; the closed polyline it draws is that ellipse moved to the
    position of the parent (its centre, not a focus), seen through the
    camera and shifted so that no coordinate is negative. *)
Theorem rebuilt_orbit_curve s s' i p b (zoom view_x view_y : R)
    (width height : Z) (calls : list Pygame.call) :
  s !! i = Some b -> CelestialBody.parent b = Some p ->
  CelestialBody.update_orbit_surface s i zoom view_x view_y width height
    = Py.Ok (s', calls) ->
  calls <> [] ->
  let a := CelestialBody.semi_major_axis b in
  let ome := CelestialBody.one_minus_e2 b in
  exists (pb b' : body) (pts : list (R * R)) (lines : Pygame.Polyline)
         (left top : R),
    s !! p = Some pb /\ s' !! i = Some b'
    /\ CelestialBody.orbit_points b' = Some pts
    /\ length pts = 30%nat
    /\ pts !! 0%nat = Some (a, 0)
    /\ Forall (fun pt : R * R =>
                 ome * (pt.1 * pt.1) + pt.2 * pt.2 = ome * (a * a)) pts
    /\ last calls = Some (Pygame.DrawLines lines)
    /\ Pygame.pl_closed lines = true
    /\ Pygame.pl_points lines
       = map (fun pt : R * R =>
                ((pt.1 + CelestialBody.x pb - view_x) * zoom
                   + IZR (width / 2) - left,
                 (pt.2 + CelestialBody.y pb - view_y) * zoom
                   + IZR (height / 2) - top)) pts
    /\ Forall (fun q : R * R => 0 <= q.1 /\ 0 <= q.2) (Pygame.pl_points lines).
Proof.
  intros Hb Hp H Hcalls a ome.
  destruct (CelestialBody.orbit_cache_valid b zoom view_x view_y width height)
    eqn:Hv.
  { unfold CelestialBody.update_orbit_surface in H.
    rewrite (deref_lookup _ _ _ Hb) in H.
    cbn [mbind result_bind Py.bind] in H. rewrite Hp, Hv in H.
    injection H as <- <-. done. }
  destruct (rebuild_inv _ _ _ _ _ _ _ _ _ _ _ Hb Hp Hv H)
    as (pb & min_x & max_x & min_y & max_y & Hinv).
  cbv zeta in Hinv.
  destruct Hinv as (Hpb & Home & Hmin_x & _ & Hmin_y & _ & -> & ->).
  eexists pb, _, _, _, min_x, min_y. split; [exact Hpb |].
  split; [apply list_lookup_insert_eq; eapply lookup_lt_Some, Hb |].
  cbn [CelestialBody.orbit_points CelestialBody.set_orbit_rect
       CelestialBody.set_orbit_surface CelestialBody.set_orbit_points].
  split; [reflexivity |]. split; [apply sample_orbit_length |].
  split.
  { unfold CelestialBody.sample_orbit. cbn [seq map lookup list_lookup].
    cbv zeta. fold a. f_equal. f_equal.
    - replace (2 * PI * INR 0 / 29) with 0 by (simpl; lra).
      rewrite cos_0. ring.
    - replace (2 * PI * INR 0 / 29) with 0 by (simpl; lra).
      rewrite sin_0. ring. }
  split; [by apply sample_on_ellipse |].
  split; [reflexivity |]. cbn [Pygame.pl_closed Pygame.pl_points].
  split; [reflexivity |]. split; [by rewrite map_map |].
  apply min_of_le in Hmin_x, Hmin_y.
  rewrite Forall_map in Hmin_x, Hmin_y. rewrite Forall_map in Hmin_x, Hmin_y.
  rewrite !Forall_map. rewrite Forall_forall in Hmin_x, Hmin_y.
  apply Forall_forall. intros pt Hin. cbn [fst snd].
  specialize (Hmin_x pt Hin). specialize (Hmin_y pt Hin).
  cbn [fst snd] in Hmin_x, Hmin_y. lra.
Qed.

Lemma rebuilt_orbit_curve_witness :
  exists (s s' : store) (calls : list Pygame.call) (b' : body)
         (pts : list (R * R)),
    CelestialBody.update_orbit_surface s 1 1 0 0 800 600 = Py.Ok (s', calls)
    /\ s' !! 1%nat = Some b'
    /\ CelestialBody.orbit_points b' = Some pts
    /\ pts !! 0%nat = Some (100, 0).
Proof.
  destruct (star_and_planet 3 4 100 (1 / 2) 0 (1 / 100)) as [ss|] eqn:Hss;
    [| discriminate Hss].
  exists (SolarSystem.bodies ss). injection Hss as <-.
  match goal with
  | |- exists _ _ _ _,
         CelestialBody.update_orbit_surface ?s _ _ _ _ _ _ = _ /\ _ =>
      destruct (rebuild_Ok s 1 0 _ _ 1 0 0 800 600 eq_refl eq_refl eq_refl
                  ltac:(simpl; lra) eq_refl)
        as (surface & rect & lines & Hre);
      destruct (rebuilt_orbit_curve s _ 1 0 _ 1 0 0 800 600 _
                  eq_refl eq_refl Hre ltac:(discriminate))
        as (pb & b' & pts & lines' & left & top & _ & Hb' & Hpts & _ & H0 & _)
  end.
  eexists _, _, b', pts. split; [exact Hre |]. split; [exact Hb' |].
  split; [exact Hpts |]. exact H0.
Defined.

(** X14. The surface [update_orbit_surface] builds is never empty and,
    in a viewport of positive size, never larger than the viewport; the
    rect kept with it has the same size. *)
Theorem rebuilt_orbit_box s s' i p b (zoom view_x view_y : R)
    (width height : Z) (calls : list Pygame.call) :
  s !! i = Some b -> CelestialBody.parent b = Some p ->
  CelestialBody.update_orbit_surface s i zoom view_x view_y width height
    = Py.Ok (s', calls) ->
  calls <> [] ->
  exists (b' : body) (surface : Pygame.Surface) (rect : Pygame.Rect),
    s' !! i = Some b'
    /\ CelestialBody.orbit_surface b' = Some surface
    /\ CelestialBody.orbit_rect b' = Some rect
    /\ head calls
       = Some (Pygame.NewSurface (Pygame.surf_width surface)
                 (Pygame.surf_height surface))
    /\ Pygame.rect_width rect = Pygame.surf_width surface
    /\ Pygame.rect_height rect = Pygame.surf_height surface
    /\ (1 <= Pygame.surf_width surface <= Z.max 1 width)%Z
    /\ (1 <= Pygame.surf_height surface <= Z.max 1 height)%Z.
Proof.
  intros Hb Hp H Hcalls.
  destruct (CelestialBody.orbit_cache_valid b zoom view_x view_y width height)
    eqn:Hv.
  { unfold CelestialBody.update_orbit_surface in H.
    rewrite (deref_lookup _ _ _ Hb) in H.
    cbn [mbind result_bind Py.bind] in H. rewrite Hp, Hv in H.
    injection H as <- <-. done. }
  destruct (rebuild_inv _ _ _ _ _ _ _ _ _ _ _ Hb Hp Hv H)
    as (pb & min_x & max_x & min_y & max_y & Hinv).
  cbv zeta in Hinv. destruct Hinv as (_ & _ & _ & _ & _ & _ & -> & ->).
  eexists _, _, _.
  split; [apply list_lookup_insert_eq; eapply lookup_lt_Some, Hb |].
  cbn [CelestialBody.orbit_surface CelestialBody.orbit_rect
       CelestialBody.set_orbit_rect CelestialBody.set_orbit_surface].
  split; [reflexivity |]. split; [reflexivity |].
  cbn [Pygame.rect_width Pygame.rect_height Pygame.surf_width
       Pygame.surf_height head].
  split; [reflexivity |]. split; [reflexivity |]. split; [reflexivity |].
  lia.
Qed.

Lemma rebuilt_orbit_box_witness :
  exists (s s' : store) (calls : list Pygame.call) (b' : body)
         (surface : Pygame.Surface),
    CelestialBody.update_orbit_surface s 1 1 0 0 800 600 = Py.Ok (s', calls)
    /\ s' !! 1%nat = Some b'
    /\ CelestialBody.orbit_surface b' = Some surface
    /\ (1 <= Pygame.surf_width surface <= 800)%Z.
Proof.
  destruct (star_and_planet 3 4 100 (1 / 2) 0 (1 / 100)) as [ss|] eqn:Hss;
    [| discriminate Hss].
  exists (SolarSystem.bodies ss). injection Hss as <-.
  match goal with
  | |- exists _ _ _ _,
         CelestialBody.update_orbit_surface ?s _ _ _ _ _ _ = _ /\ _ =>
      destruct (rebuild_Ok s 1 0 _ _ 1 0 0 800 600 eq_refl eq_refl eq_refl
                  ltac:(simpl; lra) eq_refl)
        as (surface & rect & lines & Hre);
      destruct (rebuilt_orbit_box s _ 1 0 _ 1 0 0 800 600 _
                  eq_refl eq_refl Hre ltac:(discriminate))
        as (b' & surface' & rect' & Hb' & Hsurf & _ & _ & _ & _ & Hw & _)
  end.
  eexists _, _, b', surface'. split; [exact Hre |]. split; [exact Hb' |].
  split; [exact Hsurf |]. lia.
Defined.

End OrbitGeometry.

(** ** The loop of [main] *)

Section MainLoopSafety.

Variable body_eq : list CelestialBody.t -> nat -> nat -> bool.
Variable planets : list Catalog.Planet.

Hypothesis buildable : catalog_buildable planets.
Hypothesis in_range : planets_in_range (tail planets).

Implicit Types (s : store) (b : body) (i j k p h : nat)
  (st : MainLoop.state).

Lemma well_formed_clear_caches s :
  well_formed s -> well_formed (map MainLoop.clear_caches s).
Proof.
  intros Hwf i b Hb. rewrite list_lookup_fmap in Hb.
  destruct (s !! i) as [b0|] eqn:Hb0; [| discriminate].
  injection Hb as <-. exact (Hwf i b0 Hb0).
Qed.

Lemma add_catalog_moons_time_factor (rnd : nat -> R) (planet : nat)
    (moons : list Catalog.Moon) (ss ss' : SolarSystem.t) :
  Catalog.add_catalog_moons rnd planet moons ss = Py.Ok ss' ->
  SolarSystem.time_factor ss' = SolarSystem.time_factor ss.
Proof.
  revert ss. induction moons as [|m rest IH]; intros ss H; simpl in H.
  - by injection H as <-.
  - apply bind_Ok in H as (ss1 & H1 & H). rewrite (IH _ H).
    unfold Catalog.add_catalog_moon in H1.
    apply bind_Ok in H1 as (pr & _ & H1). apply bind_Ok in H1 as (sp & _ & H1).
    apply bind_Ok in H1 as ([ss2 h2] & Hadd & H1). injection H1 as <-.
    unfold SolarSystem.add_moon in Hadd.
    apply bind_Ok in Hadd as (pb & _ & Hadd). by injection Hadd as <- <-.
Qed.

Lemma add_catalog_planets_time_factor (rnd : nat -> R) (sun i : nat)
    (entries : list Catalog.Planet) (ss ss' : SolarSystem.t) :
  Catalog.add_catalog_planets rnd sun i entries ss = Py.Ok ss' ->
  SolarSystem.time_factor ss' = SolarSystem.time_factor ss.
Proof.
  revert i ss. induction entries as [|e rest IH]; intros i ss H; simpl in H.
  - by injection H as <-.
  - apply bind_Ok in H as ([ss1 h1] & H1 & H).
    apply bind_Ok in H as (ss2 & H2 & H). rewrite (IH _ _ H).
    assert (SolarSystem.time_factor ss1 = SolarSystem.time_factor ss) as <-.
    { unfold Catalog.add_catalog_planet in H1.
      apply bind_Ok in H1 as (pr & _ & H1).
      apply bind_Ok in H1 as (sp & _ & H1).
      apply bind_Ok in H1 as (c & _ & H1).
      unfold SolarSystem.add_planet in H1.
      apply bind_Ok in H1 as (pb & _ & H1). by injection H1 as <- <-. }
    simpl in H2. destruct (Catalog.moons e) as [ms|].
    + by apply add_catalog_moons_time_factor in H2.
    + by injection H2 as <-.
Qed.

(** What [create_real_solar_system] returns on the catalogue at hand. *)
Lemma create_fresh (rnd : nat -> R) (width height : Z) :
  exists fresh : SolarSystem.t,
    create_real_solar_system rnd planets width height = Py.Ok fresh
    /\ well_formed (SolarSystem.bodies fresh)
    /\ SolarSystem.time_factor fresh = 1.
Proof.
  destruct planets as [|first rest]; [done |].
  simpl in buildable, in_range.
  assert (returns (create_real_solar_system rnd (first :: rest) width height))
    as [fresh Hfresh].
  { unfold create_real_solar_system. cbv zeta.
    apply add_catalog_planets_returns; [simpl; lia | done]. }
  exists fresh. split; [exact Hfresh |].
  split; [by eapply create_real_solar_system_well_formed |].
  unfold create_real_solar_system in Hfresh. cbv zeta in Hfresh.
  by apply add_catalog_planets_time_factor in Hfresh.
Qed.

Lemma clamp_zoom (z : R) : 0.05 <= Py.max 0.05 (Py.min z 5) <= 5.
Proof.
  unfold Py.max, Py.min.
  destruct (Rlt_dec 5 z); destruct (Rlt_dec 0.05 _); lra.
Qed.

Lemma handle_event_safe (mouse_pos : Z * Z) (rnd : nat -> R) st
    (ev : MainLoop.event) :
  within_limits st ->
  well_formed (SolarSystem.bodies (MainLoop.solar_system st)) ->
  exists st',
    MainLoop.handle_event body_eq planets mouse_pos rnd st ev = Py.Ok st'
    /\ within_limits st'
    /\ well_formed (SolarSystem.bodies (MainLoop.solar_system st')).
Proof.
  intros [Hz Ht] Hwf.
  destruct ev as [|w h|k|button pos|button|pos|]; simpl.
  - eexists. split; [reflexivity |]. done.
  - eexists. split; [reflexivity |].
    split; [done | by apply well_formed_clear_caches].
  - destruct k; simpl; try (eexists; split; [reflexivity |]; done).
    + eexists. split; [reflexivity |]. split; [| done]. split; [done |].
      simpl. unfold Py.min. destruct (Rlt_dec 100 _); lra.
    + eexists. split; [reflexivity |]. split; [| done]. split; [done |].
      simpl. unfold Py.min. destruct (Rlt_dec 100 _); lra.
    + eexists. split; [reflexivity |]. split; [| done]. split; [done |].
      simpl. unfold Py.max. destruct (Rlt_dec _ 0.01); lra.
    + destruct (create_fresh rnd (MainLoop.WIDTH st) (MainLoop.HEIGHT st))
        as (fresh & -> & Hfwf & Hftf).
      eexists. split; [reflexivity |]. simpl.
      split; [| done]. split; simpl; lra.
    + eexists. split; [reflexivity |]. split; [| done].
      split; [apply clamp_zoom | done].
    + eexists. split; [reflexivity |]. split; [| done].
      split; [apply clamp_zoom | done].
  - destruct (button =? 1)%Z; eexists; (split; [reflexivity |]); done.
  - destruct (button =? 1)%Z; eexists; (split; [reflexivity |]); done.
  - destruct (MainLoop.dragging st); [| eexists; split; [reflexivity |]; done].
    unfold Main.drag. cbn [fst snd]. rewrite !truediv_Ok by lra.
    eexists. split; [reflexivity |]. done.
  - eexists. split; [reflexivity |]. done.
Qed.

Lemma handle_events_safe (mouse_pos : Z * Z)
    (evs : list ((nat -> R) * MainLoop.event)) st :
  within_limits st ->
  well_formed (SolarSystem.bodies (MainLoop.solar_system st)) ->
  exists st',
    MainLoop.handle_events body_eq planets mouse_pos evs st = Py.Ok st'
    /\ within_limits st'
    /\ well_formed (SolarSystem.bodies (MainLoop.solar_system st')).
Proof.
  revert st. induction evs as [|[rnd ev] rest IH]; intros st Hl Hwf; simpl.
  - eauto.
  - destruct (handle_event_safe mouse_pos rnd st ev Hl Hwf)
      as (st1 & -> & Hl1 & Hwf1). simpl. by apply IH.
Qed.

Lemma frame_safe (mouse_pos : Z * Z)
    (evs : list ((nat -> R) * MainLoop.event)) st :
  within_limits st ->
  well_formed (SolarSystem.bodies (MainLoop.solar_system st)) ->
  exists st',
    MainLoop.frame body_eq planets mouse_pos evs st = Py.Ok st'
    /\ within_limits st'
    /\ well_formed (SolarSystem.bodies (MainLoop.solar_system st')).
Proof.
  intros Hl Hwf. unfold MainLoop.frame.
  destruct (handle_events_safe mouse_pos evs st Hl Hwf)
    as (st1 & -> & [Hz1 Ht1] & Hwf1). simpl.
  unfold Main.step. destruct (MainLoop.paused st1); simpl.
  - eexists. split; [reflexivity |]. done.
  - destruct (update_total _ Hwf1) as [ss' Hup]. rewrite Hup. simpl.
    eexists. split; [reflexivity |].
    split; [| by eapply update_well_formed].
    split; [done |]. simpl.
    unfold SolarSystem.update in Hup. apply bind_Ok in Hup as (s & _ & Hup).
    by injection Hup as <-.
Qed.

(** X15. On a catalogue that [create_real_solar_system] can build and whose
    orbiting entries have eccentricities in [0, 1), the construction of the
    scene, the handling of every event and the step of the engine complete
    in every frame, whatever events and pointer positions arrive; the zoom
    stays in [0.05, 5] and the time factor in [0.01, 100]. *)
Theorem main_loop_returns (rnd : nat -> R)
    (inputs : list ((Z * Z) * list ((nat -> R) * MainLoop.event))) :
  exists st0 st : MainLoop.state,
    MainLoop.start planets rnd = Py.Ok st0
    /\ MainLoop.loop body_eq planets inputs st0 = Py.Ok st
    /\ within_limits st.
Proof.
  assert (forall st0,
            within_limits st0 ->
            well_formed (SolarSystem.bodies (MainLoop.solar_system st0)) ->
            exists st, MainLoop.loop body_eq planets inputs st0 = Py.Ok st
                       /\ within_limits st) as Hloop.
  { induction inputs as [|[mouse_pos evs] rest IH]; intros st0 Hl Hwf0; simpl.
    - eauto.
    - destruct (MainLoop.running st0); [| eauto].
      destruct (frame_safe mouse_pos evs st0 Hl Hwf0)
        as (st1 & -> & Hl1 & Hwf1).
      simpl. by apply IH. }
  unfold MainLoop.start.
  destruct (create_fresh rnd 1200 800) as (fresh & -> & Hwf & Htf). simpl.
  edestruct Hloop as (st & Hst & Hl); [| | eexists _, st; eauto].
  - split; simpl; lra.
  - exact Hwf.
Qed.

End MainLoopSafety.

Lemma main_loop_returns_witness :
  exists st : MainLoop.state,
    (st0 ← MainLoop.start
             [sun_entry; planet_entry 100 (Some [moon_entry (-5)])]
             (fun _ => 0);
     MainLoop.loop (fun _ j i => Nat.eqb j i)
       [sun_entry; planet_entry 100 (Some [moon_entry (-5)])]
       [((0, 0)%Z, [(fun _ => 0, MainLoop.KEYDOWN MainLoop.K_i);
                    (fun _ => 0, MainLoop.MOUSEBUTTONDOWN 1 (5, 5)%Z);
                    (fun _ => 0, MainLoop.MOUSEMOTION (9, 2)%Z)]);
        ((9, 2)%Z, [(fun _ => 0, MainLoop.KEYDOWN MainLoop.K_r);
                    (fun _ => 0, MainLoop.QUIT)])] st0) = Py.Ok st
    /\ within_limits st.
Proof.
  assert (catalog_buildable
            [sun_entry; planet_entry 100 (Some [moon_entry (-5)])]) as Hb.
  { simpl. split; [| done]. split; [simpl; lra |].
    split; [by eexists |]. simpl. repeat constructor; simpl; lra. }
  assert (planets_in_range
            (tail [sun_entry; planet_entry 100 (Some [moon_entry (-5)])]))
    as Hr by (simpl; repeat constructor; simpl; lra).
  destruct (main_loop_returns (fun _ j i => Nat.eqb j i) _ Hb Hr (fun _ => 0)
              [((0, 0)%Z, [(fun _ => 0, MainLoop.KEYDOWN MainLoop.K_i);
                           (fun _ => 0, MainLoop.MOUSEBUTTONDOWN 1 (5, 5)%Z);
                           (fun _ => 0, MainLoop.MOUSEMOTION (9, 2)%Z)]);
               ((9, 2)%Z, [(fun _ => 0, MainLoop.KEYDOWN MainLoop.K_r);
                           (fun _ => 0, MainLoop.QUIT)])])
    as (st0 & st & H0 & H & Hl).
  exists st. rewrite H0. cbn [mbind result_bind Py.bind].
  split; [exact H | exact Hl].
Defined.

(** ** The camera under the events *)

Section Controls.

Variable body_eq : list CelestialBody.t -> nat -> nat -> bool.
Variable planets : list Catalog.Planet.

Implicit Types (s : store) (b : body) (i j k p h : nat)
  (st : MainLoop.state).

(** X16. A resize sets the viewport, puts the pan back on its integer
    centre and leaves zoom, pause and selection alone; each body keeps its
    handle and all but its caches, and no camera finds its orbit cache
    valid any more, so that the next [update_orbit_surface] of an orbiting
    body builds a surface. *)
Theorem resize_invalidates (mouse_pos : Z * Z) (rnd : nat -> R) st (w h : Z) :
  exists st',
    MainLoop.handle_event body_eq planets mouse_pos rnd st
      (MainLoop.VIDEORESIZE w h) = Py.Ok st'
    /\ MainLoop.WIDTH st' = w /\ MainLoop.HEIGHT st' = h
    /\ MainLoop.view_x st' = IZR (w / 2) /\ MainLoop.view_y st' = IZR (h / 2)
    /\ MainLoop.zoom st' = MainLoop.zoom st
    /\ MainLoop.paused st' = MainLoop.paused st
    /\ MainLoop.selected_body st' = MainLoop.selected_body st
    /\ length (SolarSystem.bodies (MainLoop.solar_system st'))
       = length (SolarSystem.bodies (MainLoop.solar_system st))
    /\ forall i b,
         SolarSystem.bodies (MainLoop.solar_system st) !! i = Some b ->
         SolarSystem.bodies (MainLoop.solar_system st') !! i
           = Some (MainLoop.clear_caches b)
         /\ same_elements b (MainLoop.clear_caches b)
         /\ position (MainLoop.clear_caches b) = position b
         /\ CelestialBody.angle (MainLoop.clear_caches b)
            = CelestialBody.angle b
         /\ forall (zoom view_x view_y : R) (width height : Z),
              CelestialBody.orbit_cache_valid (MainLoop.clear_caches b)
                zoom view_x view_y width height = false
              /\ forall p pb,
                   CelestialBody.parent b = Some p ->
                   SolarSystem.bodies (MainLoop.solar_system st) !! p
                     = Some pb ->
                   0 <= CelestialBody.one_minus_e2 b ->
                   exists s' calls,
                     CelestialBody.update_orbit_surface
                       (SolarSystem.bodies (MainLoop.solar_system st')) i
                       zoom view_x view_y width height = Py.Ok (s', calls)
                     /\ rebuilds calls = 1%nat.
Proof.
  eexists. split; [reflexivity |]. simpl.
  repeat (split; [reflexivity |]). split; [by rewrite length_map |].
  intros i b Hb.
  split; [by rewrite list_lookup_fmap, Hb |]. split; [by repeat split |].
  split; [reflexivity |]. split; [reflexivity |].
  intros zoom view_x view_y width height. split; [reflexivity |].
  intros p pb Hp Hpb Home.
  destruct (rebuild_Ok (map MainLoop.clear_caches
                          (SolarSystem.bodies (MainLoop.solar_system st)))
              i p (MainLoop.clear_caches b) (MainLoop.clear_caches pb)
              zoom view_x view_y width height)
    as (surface & rect & lines & ->); try done.
  - by rewrite list_lookup_fmap, Hb.
  - by rewrite list_lookup_fmap, Hpb.
  - eauto.
Qed.


Lemma last_cons_default {A : Type} (a d : A) (l : list A) :
  List.last (a :: l) d = List.last l a.
Proof.
  revert a d. induction l as [|c l IH]; intros a d; [reflexivity |].
  change (List.last (a :: c :: l) d) with (List.last (c :: l) d).
  rewrite (IH c d), (IH c a). reflexivity.
Qed.

Lemma drag_moves (mouse_pos : Z * Z) (rnd : nat -> R) (poss : list (Z * Z))
    st :
  MainLoop.dragging st = true -> MainLoop.zoom st <> 0 ->
  exists st',
    MainLoop.handle_events body_eq planets mouse_pos (pointer_moves rnd poss)
      st = Py.Ok st'
    /\ MainLoop.last_mouse_pos st' = List.last poss (MainLoop.last_mouse_pos st)
    /\ MainLoop.view_x st'
       = MainLoop.view_x st
         - IZR ((MainLoop.last_mouse_pos st').1 - (MainLoop.last_mouse_pos st).1)
           / MainLoop.zoom st
    /\ MainLoop.view_y st'
       = MainLoop.view_y st
         - IZR ((MainLoop.last_mouse_pos st').2 - (MainLoop.last_mouse_pos st).2)
           / MainLoop.zoom st
    /\ MainLoop.zoom st' = MainLoop.zoom st
    /\ MainLoop.WIDTH st' = MainLoop.WIDTH st
    /\ MainLoop.HEIGHT st' = MainLoop.HEIGHT st
    /\ MainLoop.solar_system st' = MainLoop.solar_system st
    /\ MainLoop.selected_body st' = MainLoop.selected_body st.
Proof.
  revert st. induction poss as [|pos rest IH]; intros st Hd Hz.
  - exists st. split; [reflexivity |]. simpl.
    rewrite !Z.sub_diag. unfold Rdiv. rewrite !Rmult_0_l, !Rminus_0_r. done.
  - cbn [pointer_moves map MainLoop.handle_events MainLoop.handle_event].
    rewrite Hd. unfold Main.drag. cbn [fst snd]. rewrite !truediv_Ok by done.
    cbn [mbind result_bind Py.bind fst snd].
    match goal with
    | |- exists st', MainLoop.handle_events _ _ _ _ ?st1 = _ /\ _ =>
        destruct (IH st1) as (st' & Hev & Hlast & Hx & Hy & Hzoom & Hw & Hh
                              & Hss & Hsel); [exact Hd | exact Hz |]
    end.
    exists st'. split; [exact Hev |].
    cbn [MainLoop.last_mouse_pos MainLoop.view_x MainLoop.view_y MainLoop.zoom
         MainLoop.WIDTH MainLoop.HEIGHT MainLoop.solar_system
         MainLoop.selected_body MainLoop.set_last_mouse_pos MainLoop.set_view
         fst snd] in *.
    split.
    { rewrite Hlast. symmetry. apply last_cons_default. }
    rewrite Hx, Hy, !minus_IZR.
    repeat split; try done; field; done.
Qed.

(** X17. While the button is held and the zoom is not 0, a series of
    pointer moves shifts every body on the screen by exactly the way the
    pointer has gone from where the drag stood to its last position,
    whatever the path in between; bodies, zoom and selection are left
    alone. *)
Theorem drag_follows_pointer (mouse_pos : Z * Z) (rnd : nat -> R)
    (poss : list (Z * Z)) st :
  MainLoop.dragging st = true -> MainLoop.zoom st <> 0 ->
  exists st',
    MainLoop.handle_events body_eq planets mouse_pos (pointer_moves rnd poss)
      st = Py.Ok st'
    /\ MainLoop.last_mouse_pos st' = List.last poss (MainLoop.last_mouse_pos st)
    /\ MainLoop.solar_system st' = MainLoop.solar_system st
    /\ MainLoop.zoom st' = MainLoop.zoom st
    /\ MainLoop.selected_body st' = MainLoop.selected_body st
    /\ forall b,
         on_screen st' b
         = ((on_screen st b).1
              + IZR ((MainLoop.last_mouse_pos st').1
                     - (MainLoop.last_mouse_pos st).1),
            (on_screen st b).2
              + IZR ((MainLoop.last_mouse_pos st').2
                     - (MainLoop.last_mouse_pos st).2)).
Proof.
  intros Hd Hz.
  destruct (drag_moves mouse_pos rnd poss st Hd Hz)
    as (st' & Hev & Hlast & Hx & Hy & Hzoom & Hw & Hh & Hss & Hsel).
  exists st'. repeat (split; [assumption |]).
  intros b. unfold on_screen, CelestialBody.scaled_x, CelestialBody.scaled_y.
  cbn [fst snd]. rewrite Hx, Hy, Hzoom, Hw, Hh. f_equal; field; done.
Qed.

Lemma hit_under_pointer st (mouse_pos : Z * Z) b :
  MainLoop.hit st mouse_pos b = true <-> under_pointer st mouse_pos b.
Proof.
  unfold MainLoop.hit, under_pointer, MainLoop.leb, distance, on_screen,
    MainLoop.hypot, CelestialBody.scaled_radius. cbn [fst snd].
  destruct (Rle_dec _ _); split; intros H; done.
Qed.

Lemma first_hit_Some st (mouse_pos : Z * Z) (k n : nat) (bodies : store) b :
  bodies !! n = Some b -> MainLoop.hit st mouse_pos b = true ->
  (forall j b', (j < n)%nat -> bodies !! j = Some b' ->
                MainLoop.hit st mouse_pos b' = false) ->
  MainLoop.first_hit st mouse_pos k bodies = Some (k + n)%nat.
Proof.
  revert k n. induction bodies as [|c rest IH]; intros k n Hb Hhit Hfirst.
  - by rewrite lookup_nil in Hb.
  - destruct n as [|n]; simpl.
    + injection Hb as ->. rewrite Hhit. f_equal. lia.
    + rewrite (Hfirst 0%nat c) by (try lia; reflexivity).
      rewrite (IH (S k) n); [f_equal; lia | exact Hb | exact Hhit |].
      intros j b' Hj Hb'. apply (Hfirst (S j) b'); [lia | exact Hb'].
Qed.

Lemma first_hit_None st (mouse_pos : Z * Z) (k : nat) (bodies : store) :
  (forall j b', bodies !! j = Some b' ->
                MainLoop.hit st mouse_pos b' = false) ->
  MainLoop.first_hit st mouse_pos k bodies = None.
Proof.
  revert k. induction bodies as [|c rest IH]; intros k Hnone; [reflexivity |].
  simpl. rewrite (Hnone 0%nat c) by reflexivity. apply IH.
  intros j b' Hb'. apply (Hnone (S j) b'). exact Hb'.
Qed.

Lemma hit_false st (mouse_pos : Z * Z) b :
  MainLoop.hit st mouse_pos b = false <-> ~ under_pointer st mouse_pos b.
Proof.
  rewrite <- hit_under_pointer. destruct (MainLoop.hit st mouse_pos b);
    split; intros H; done.
Qed.

(** X18. A press of button 1 starts a drag at the position of the event
    and picks among the bodies the pointer of this frame is on (within
    [max(radius * zoom, 10)] pixels) the one of least handle: it becomes
    the selection, unless it equals the selection, which is then dropped.
    With the pointer on no body the selection is dropped.  Another button
    changes nothing. *)
Theorem click_picks_first (mouse_pos : Z * Z) (rnd : nat -> R) st
    (pos : Z * Z) :
  let bodies := SolarSystem.bodies (MainLoop.solar_system st) in
  (forall button : Z, button <> 1%Z ->
     MainLoop.handle_event body_eq planets mouse_pos rnd st
       (MainLoop.MOUSEBUTTONDOWN button pos) = Py.Ok st)
  /\ exists st',
       MainLoop.handle_event body_eq planets mouse_pos rnd st
         (MainLoop.MOUSEBUTTONDOWN 1 pos) = Py.Ok st'
       /\ MainLoop.dragging st' = true
       /\ MainLoop.last_mouse_pos st' = pos
       /\ MainLoop.solar_system st' = MainLoop.solar_system st
       /\ on_screen st' = on_screen st
       /\ (forall i b,
             bodies !! i = Some b -> under_pointer st mouse_pos b ->
             (forall j b', (j < i)%nat -> bodies !! j = Some b' ->
                           ~ under_pointer st mouse_pos b') ->
             MainLoop.selected_body st'
             = match MainLoop.selected_body st with
               | Some j => if body_eq bodies j i then None else Some i
               | None => Some i
               end)
       /\ ((forall j b', bodies !! j = Some b' ->
                         ~ under_pointer st mouse_pos b') ->
           MainLoop.selected_body st' = None).
Proof.
  intros bodies. split.
  { intros button Hb. simpl. by apply Z.eqb_neq in Hb as ->. }
  eexists. split; [reflexivity |]. simpl.
  repeat (split; [reflexivity |]). unfold MainLoop.click. simpl. split.
  - intros i b Hb Hunder Hfirst.
    rewrite (first_hit_Some _ mouse_pos 0 i _ b); [reflexivity | exact Hb | |].
    + by apply hit_under_pointer.
    + intros j b' Hj Hb'. apply hit_false. rewrite <- hit_under_pointer.
      intros Hhit.
      apply (Hfirst j b' Hj Hb'), hit_under_pointer. exact Hhit.
  - intros Hnone. rewrite first_hit_None; [reflexivity |].
    intros j b' Hb'. apply hit_false. rewrite <- hit_under_pointer.
    intros Hhit. apply (Hnone j b' Hb'), hit_under_pointer. exact Hhit.
Qed.

(** X19. The key R completes exactly on a catalogue that
    [create_real_solar_system] can build.  It then puts a scene built for
    the present viewport in place of the old one, with time factor 1, and
    sets zoom 1, the pan on the integer centre and no selection; pause,
    drag and viewport stay as they are. *)
Theorem reset_key (mouse_pos : Z * Z) (rnd : nat -> R) st :
  (returns (MainLoop.handle_event body_eq planets mouse_pos rnd st
              (MainLoop.KEYDOWN MainLoop.K_r))
   <-> catalog_buildable planets)
  /\ forall st',
       MainLoop.handle_event body_eq planets mouse_pos rnd st
         (MainLoop.KEYDOWN MainLoop.K_r) = Py.Ok st' ->
       create_real_solar_system rnd planets (MainLoop.WIDTH st)
         (MainLoop.HEIGHT st) = Py.Ok (MainLoop.solar_system st')
       /\ SolarSystem.time_factor (MainLoop.solar_system st') = 1
       /\ MainLoop.zoom st' = 1
       /\ MainLoop.view_x st' = IZR (MainLoop.WIDTH st / 2)
       /\ MainLoop.view_y st' = IZR (MainLoop.HEIGHT st / 2)
       /\ MainLoop.selected_body st' = None
       /\ MainLoop.paused st' = MainLoop.paused st
       /\ MainLoop.dragging st' = MainLoop.dragging st
       /\ MainLoop.WIDTH st' = MainLoop.WIDTH st
       /\ MainLoop.HEIGHT st' = MainLoop.HEIGHT st.
Proof.
  cbn [MainLoop.handle_event]. split.
  - rewrite returns_bind. split.
    + intros (fresh & Hfresh & _). destruct planets as [|first rest];
        [discriminate |].
      unfold create_real_solar_system in Hfresh. cbv zeta in Hfresh.
      eapply add_catalog_planets_returns; [| by eexists]. simpl. lia.
    + intros Hb. destruct planets as [|first rest]; [done |].
      assert (returns (create_real_solar_system rnd (first :: rest)
                         (MainLoop.WIDTH st) (MainLoop.HEIGHT st)))
        as [fresh Hfresh].
      { unfold create_real_solar_system. cbv zeta.
        apply add_catalog_planets_returns; [simpl; lia | done]. }
      exists fresh. split; [exact Hfresh | by eexists].
  - intros st' H. apply bind_Ok in H as (fresh & Hfresh & H).
    injection H as <-. simpl. split; [exact Hfresh |].
    split; [| done]. destruct planets as [|first rest]; [discriminate |].
    unfold create_real_solar_system in Hfresh. cbv zeta in Hfresh.
    by apply add_catalog_planets_time_factor in Hfresh.
Qed.

(** X20. Zooming in and then out does not come back: while neither step
    meets a limit, the key I followed by the key O leaves the zoom at
    0.9999 times what it was. *)
Theorem zoom_in_then_out (mouse_pos : Z * Z) (rnd rnd' : nat -> R) st :
  0.05 <= MainLoop.zoom st * 0.9999 -> MainLoop.zoom st * 1.1 <= 5 ->
  exists st',
    MainLoop.handle_events body_eq planets mouse_pos
      [(rnd, MainLoop.KEYDOWN MainLoop.K_i);
       (rnd', MainLoop.KEYDOWN MainLoop.K_o)] st = Py.Ok st'
    /\ MainLoop.zoom st' = 0.9999 * MainLoop.zoom st
    /\ MainLoop.zoom st' < MainLoop.zoom st
    /\ MainLoop.solar_system st' = MainLoop.solar_system st
    /\ MainLoop.view_x st' = MainLoop.view_x st
    /\ MainLoop.view_y st' = MainLoop.view_y st.
Proof.
  intros Hlo Hhi. eexists. split; [reflexivity |]. simpl.
  assert (Py.max 0.05 (Py.min (MainLoop.zoom st * 1.1) 5)
          = MainLoop.zoom st * 1.1) as ->.
  { unfold Py.max, Py.min. destruct (Rlt_dec 5 _); [lra |].
    destruct (Rlt_dec 0.05 _); lra. }
  assert (Py.max 0.05 (Py.min (MainLoop.zoom st * 1.1 * 0.909) 5)
          = MainLoop.zoom st * 1.1 * 0.909) as ->.
  { unfold Py.max, Py.min. destruct (Rlt_dec 5 _); [lra |].
    destruct (Rlt_dec 0.05 _); lra. }
  split; [lra |]. split; [lra |]. done.
Qed.

End Controls.

Lemma drag_follows_pointer_witness :
  exists st st' : MainLoop.state,
    MainLoop.handle_events (fun _ j i => Nat.eqb j i) [] (0, 0)%Z
      (pointer_moves (fun _ => 0) [(30, 5)%Z; (-4, 80)%Z; (12, 7)%Z]) st
      = Py.Ok st'
    /\ MainLoop.last_mouse_pos st = (10, 10)%Z
    /\ forall b, on_screen st' b
                 = ((on_screen st b).1 + 2, (on_screen st b).2 + -3).
Proof.
  pose (st := {| MainLoop.solar_system := SolarSystem.init;
                 MainLoop.WIDTH := 1200; MainLoop.HEIGHT := 800;
                 MainLoop.running := true; MainLoop.paused := false;
                 MainLoop.view_x := 600; MainLoop.view_y := 400;
                 MainLoop.zoom := 2; MainLoop.dragging := true;
                 MainLoop.last_mouse_pos := (10, 10)%Z;
                 MainLoop.selected_body := None;
                 MainLoop.info_surface := None |}).
  destruct (drag_follows_pointer (fun _ j i => Nat.eqb j i) [] (0, 0)%Z
              (fun _ => 0)
              [(30, 5)%Z; (-4, 80)%Z; (12, 7)%Z] st eq_refl)
    as (st' & Hev & Hlast & _ & _ & _ & Hscr); [simpl; lra |].
  exists st, st'. split; [exact Hev |]. split; [reflexivity |].
  intros b. rewrite Hscr, Hlast. reflexivity.
Defined.


Lemma click_picks_first_witness :
  exists (ss : SolarSystem.t) (st' : MainLoop.state),
    star_and_planet 3 4 100 (1 / 2) 0 (1 / 100) = Py.Ok ss
    /\ MainLoop.handle_event (fun _ j i => Nat.eqb j i) [] (0, 0)%Z
         (fun _ => 0)
         {| MainLoop.solar_system := ss;
            MainLoop.WIDTH := 0; MainLoop.HEIGHT := 0;
            MainLoop.running := true; MainLoop.paused := false;
            MainLoop.view_x := 3; MainLoop.view_y := 4;
            MainLoop.zoom := 1; MainLoop.dragging := false;
            MainLoop.last_mouse_pos := (0, 0)%Z;
            MainLoop.selected_body := None;
            MainLoop.info_surface := None |}
         (MainLoop.MOUSEBUTTONDOWN 1 (7, 7)%Z) = Py.Ok st'
    /\ MainLoop.selected_body st' = Some 0%nat.
Proof.
  destruct (star_and_planet 3 4 100 (1 / 2) 0 (1 / 100)) as [ss|] eqn:Hss;
    [| discriminate Hss].
  exists ss.
  match goal with
  | |- exists st', _ /\ MainLoop.handle_event _ _ _ _ ?st _ = _ /\ _ =>
      destruct (click_picks_first (fun _ j i => Nat.eqb j i) [] (0, 0)%Z
                  (fun _ => 0) st (7, 7)%Z)
        as (_ & st' & Hev & _ & _ & _ & _ & Hpick & _)
  end.
  exists st'. split; [reflexivity |]. split; [exact Hev |].
  injection Hss as <-.
  refine (Hpick 0%nat _ eq_refl _ _).
  - unfold under_pointer, distance, on_screen, CelestialBody.scaled_x,
      CelestialBody.scaled_y. simpl.
    change (0 / 2)%Z with 0%Z.
    match goal with
    | |- sqrt ?v <= _ => replace v with 0 by lra
    end.
    rewrite sqrt_0. unfold Py.max. destruct (Rlt_dec _ _); lra.
  - intros j b' Hj. lia.
Defined.

Lemma reset_key_witness :
  exists st' : MainLoop.state,
    MainLoop.handle_event (fun _ j i => Nat.eqb j i)
      [sun_entry; planet_entry 100 (Some [moon_entry (-5)])] (0, 0)%Z
      (fun _ => 0)
      {| MainLoop.solar_system := SolarSystem.set_time_factor 8 SolarSystem.init;
         MainLoop.WIDTH := 640; MainLoop.HEIGHT := 480;
         MainLoop.running := true; MainLoop.paused := true;
         MainLoop.view_x := 3; MainLoop.view_y := 4;
         MainLoop.zoom := 2; MainLoop.dragging := false;
         MainLoop.last_mouse_pos := (0, 0)%Z;
         MainLoop.selected_body := None;
         MainLoop.info_surface := None |}
      (MainLoop.KEYDOWN MainLoop.K_r) = Py.Ok st'
    /\ SolarSystem.time_factor (MainLoop.solar_system st') = 1
    /\ MainLoop.paused st' = true.
Proof.
  match goal with
  | |- exists st', MainLoop.handle_event ?eq ?pl ?mp ?rnd ?st _ = _ /\ _ =>
      destruct (reset_key eq pl mp rnd st) as [[_ Hret] Hst]
  end.
  destruct Hret as [st' Hev].
  { simpl. split; [| done]. split; [simpl; lra |].
    split; [by eexists |]. simpl. repeat constructor; simpl; lra. }
  exists st'. split; [exact Hev |].
  destruct (Hst st' Hev) as (_ & Htf & _ & _ & _ & _ & Hp & _).
  split; [exact Htf | exact Hp].
Defined.

Lemma zoom_in_then_out_witness :
  exists st' : MainLoop.state,
    MainLoop.handle_events (fun _ j i => Nat.eqb j i) [] (0, 0)%Z
      [(fun _ => 0, MainLoop.KEYDOWN MainLoop.K_i);
       (fun _ => 0, MainLoop.KEYDOWN MainLoop.K_o)]
      {| MainLoop.solar_system := SolarSystem.init;
         MainLoop.WIDTH := 640; MainLoop.HEIGHT := 480;
         MainLoop.running := true; MainLoop.paused := false;
         MainLoop.view_x := 3; MainLoop.view_y := 4;
         MainLoop.zoom := 1; MainLoop.dragging := false;
         MainLoop.last_mouse_pos := (0, 0)%Z;
         MainLoop.selected_body := None;
         MainLoop.info_surface := None |} = Py.Ok st'
    /\ MainLoop.zoom st' = 0.9999 * 1.
Proof.
  match goal with
  | |- exists st', MainLoop.handle_events ?eq ?pl ?mp _ ?st = _ /\ _ =>
      destruct (zoom_in_then_out eq pl mp (fun _ => 0) (fun _ => 0) st)
        as (st' & Hev & Hz & _)
  end.
  - simpl. lra.
  - simpl. lra.
  - exists st'. split; [exact Hev | exact Hz].
Defined.

(** ** Painting and the engine *)

Section Painting.

Variable render : string -> Pygame.Surface.

Implicit Types (s : store) (b : body) (i j k p h : nat).

Lemma insert_uncached s i b :
  <[i := uncached b]> (map uncached s) = map uncached (<[i := b]> s).
Proof. symmetry. apply list_fmap_insert. Qed.

Lemma insert_same_uncached s i b b' :
  s !! i = Some b -> uncached b' = uncached b ->
  map uncached (<[i := b']> s) = map uncached s.
Proof.
  intros Hb Hu. rewrite <- insert_uncached, Hu. apply list_insert_id.
  by rewrite list_lookup_fmap, Hb.
Qed.

Lemma deref_uncached s i :
  CelestialBody.deref (map uncached s) i
  = result_map uncached (CelestialBody.deref s i).
Proof.
  unfold CelestialBody.deref. rewrite list_lookup_fmap.
  by destruct (s !! i).
Qed.

Lemma lookup_uncached s s' i b :
  map uncached s' = map uncached s -> s !! i = Some b ->
  exists b', s' !! i = Some b' /\ uncached b' = uncached b.
Proof.
  intros Hm Hb. assert (map uncached s' !! i = Some (uncached b)) as H
    by (by rewrite Hm, list_lookup_fmap, Hb).
  rewrite list_lookup_fmap in H.
  destruct (s' !! i) as [b'|]; simpl in H; [| discriminate].
  exists b'. split; [reflexivity |]. by apply (inj Some).
Qed.

Lemma update_orbit_surface_uncached s s' i (zoom view_x view_y : R)
    (width height : Z) (calls : list Pygame.call) :
  CelestialBody.update_orbit_surface s i zoom view_x view_y width height
    = Py.Ok (s', calls) ->
  map uncached s' = map uncached s.
Proof.
  intros H.
  assert (exists b, s !! i = Some b) as [b Hb].
  { unfold CelestialBody.update_orbit_surface in H.
    apply bind_Ok in H as (b & Hb & _). apply deref_Ok in Hb. eauto. }
  destruct (CelestialBody.parent b) as [p|] eqn:Hp.
  2:{ unfold CelestialBody.update_orbit_surface in H.
      rewrite (deref_lookup _ _ _ Hb) in H.
      cbn [mbind result_bind Py.bind] in H. rewrite Hp in H.
      by injection H as <- <-. }
  destruct (CelestialBody.orbit_cache_valid b zoom view_x view_y width height)
    eqn:Hv.
  { unfold CelestialBody.update_orbit_surface in H.
    rewrite (deref_lookup _ _ _ Hb) in H.
    cbn [mbind result_bind Py.bind] in H. rewrite Hp, Hv in H.
    by injection H as <- <-. }
  destruct (rebuild_inv _ _ _ _ _ _ _ _ _ _ _ Hb Hp Hv H)
    as (pb & min_x & max_x & min_y & max_y & Hinv).
  cbv zeta in Hinv. destruct Hinv as (_ & _ & _ & _ & _ & _ & -> & _).
  by apply (insert_same_uncached s i b).
Qed.

Lemma discs_app (l1 l2 : list Draw.paint) :
  discs (l1 ++ l2) = discs l1 ++ discs l2.
Proof.
  induction l1 as [|c l1 IH]; [reflexivity |].
  destruct c; simpl; by rewrite ?IH.
Qed.

Lemma discs_offscreen (calls : list Pygame.call) :
  discs (map Draw.Offscreen calls) = [].
Proof. induction calls as [|c calls IH]; [reflexivity | exact IH]. Qed.

Lemma draw_orbit_uncached s s' i (zoom view_x view_y : R) (width height : Z)
    (paints : list Draw.paint) :
  Draw.draw_orbit s i zoom view_x view_y width height = Py.Ok (s', paints) ->
  map uncached s' = map uncached s /\ discs paints = [].
Proof.
  intros H. unfold Draw.draw_orbit in H.
  apply bind_Ok in H as (b & Hb & H).
  destruct (CelestialBody.parent b) as [p|]; [| by injection H as <- <-].
  apply bind_Ok in H as (pb & Hpb & H).
  destruct (negb _).
  - apply bind_Ok in H as (points & _ & H). by injection H as <- <-.
  - apply bind_Ok in H as ([s1 calls] & Hup & H).
    apply update_orbit_surface_uncached in Hup.
    apply bind_Ok in H as (b1 & _ & H). cbn [fst snd] in H.
    destruct (CelestialBody.orbit_surface b1); injection H as <- <-.
    + split; [exact Hup |]. rewrite discs_app, discs_offscreen. reflexivity.
    + split; [exact Hup | apply discs_offscreen].
Qed.

Lemma draw_label_uncached s s' i (sx sy sr : R) (height : Z)
    (paints : list Draw.paint) :
  Draw.draw_label render s i sx sy sr height = Py.Ok (s', paints) ->
  map uncached s' = map uncached s /\ discs paints = [].
Proof.
  intros H. unfold Draw.draw_label in H.
  apply bind_Ok in H as (b & Hb & H). apply deref_Ok in Hb.
  destruct (_ && _); [| by injection H as <- <-].
  injection H as <- <-. split; [| reflexivity].
  destruct (CelestialBody.label_surface b); [reflexivity |].
  by apply (insert_same_uncached s i b).
Qed.

Lemma draw_body_uncached s s' i (zoom view_x view_y : R) (width height : Z)
    (paints : list Draw.paint) :
  Draw.draw_body render s i zoom view_x view_y width height
    = Py.Ok (s', paints) ->
  map uncached s' = map uncached s
  /\ exists b,
       s !! i = Some b
       /\ discs paints
          = if Draw.culled b zoom view_x view_y width height then []
            else [disc_of zoom view_x view_y width height b].
Proof.
  intros H. unfold Draw.draw_body in H.
  apply bind_Ok in H as (b & Hb & H). apply deref_Ok in Hb. cbv zeta in H.
  destruct (Draw.culled b zoom view_x view_y width height) eqn:Hc.
  - injection H as <- <-. split; [reflexivity |]. exists b. by rewrite Hc.
  - apply bind_Ok in H as ([s1 paints1] & Horbit & H).
    apply bind_Ok in H as ([s2 paints2] & Hlabel & H).
    injection H as <- <-. cbn [fst snd] in *.
    apply draw_orbit_uncached in Horbit as [Hs1 Hd1].
    apply draw_label_uncached in Hlabel as [Hs2 Hd2].
    split; [congruence |]. exists b. split; [exact Hb |].
    rewrite Hc, discs_app, Hd1. cbn [app discs]. rewrite Hd2. reflexivity.
Qed.

Lemma omap_lookup_seq {A : Type} (l : list A) (k n : nat) :
  (k + n = length l)%nat -> omap (fun i => l !! i) (seq k n) = drop k l.
Proof.
  revert k. induction n as [|n IH]; intros k Hk.
  - symmetry. apply drop_ge. lia.
  - destruct (lookup_lt_is_Some_2 l k) as [a Ha]; [lia |].
    cbn [seq omap list_omap]. rewrite Ha.
    change (a :: omap (fun i => l !! i) (seq (S k) n) = drop k l).
    rewrite (IH (S k)) by lia. symmetry. by apply drop_S.
Qed.

Lemma draw_bodies_uncached (idxs : list nat) s s' (zoom view_x view_y : R)
    (width height : Z) (paints : list Draw.paint) :
  Draw.draw_bodies render idxs s zoom view_x view_y width height
    = Py.Ok (s', paints) ->
  map uncached s' = map uncached s
  /\ discs paints
     = map (disc_of zoom view_x view_y width height)
         (List.filter
            (fun b => negb (Draw.culled b zoom view_x view_y width height))
            (omap (fun i => map uncached s !! i) idxs)).
Proof.
  revert s paints. induction idxs as [|i rest IH]; intros s paints H;
    simpl in H.
  - by injection H as <- <-.
  - apply bind_Ok in H as ([s1 paints1] & H1 & H).
    apply bind_Ok in H as ([s2 paints2] & H2 & H). injection H as <- <-.
    cbn [fst snd] in *.
    apply draw_body_uncached in H1 as (Hs1 & b & Hb & Hd1).
    apply IH in H2 as (Hs2 & Hd2). split; [congruence |].
    rewrite discs_app, Hd1, Hd2, Hs1. cbn [omap list_omap].
    rewrite list_lookup_fmap, Hb. cbn [fmap option_fmap option_map List.filter].
    change (Draw.culled (uncached b) zoom view_x view_y width height)
      with (Draw.culled b zoom view_x view_y width height).
    destruct (Draw.culled b zoom view_x view_y width height); reflexivity.
Qed.

Lemma culled_in_sight b (zoom view_x view_y : R) (width height : Z) :
  Draw.culled b zoom view_x view_y width height = false
  <-> in_sight b zoom view_x view_y width height.
Proof.
  unfold Draw.culled, in_sight. cbv zeta. rewrite !orb_false_iff.
  unfold Py.ltb. repeat destruct (Rlt_dec _ _); split; intros H;
    try lra; try (destruct H as [[[? ?] ?] ?]; discriminate);
    repeat split; try reflexivity; lra.
Qed.

(** X21. A completed [draw] of the scene has painted one disc for each
    body within the margin of half the longer side around the viewport, in
    the order of [bodies] and before any later body's, and none for the
    others: the disc has the colour of the body, its centre is the screen
    position of the body cut to whole pixels, and its radius is the pixel
    radius times the zoom cut to a whole number, but at least 1. *)
Theorem draw_discs (ss ss' : SolarSystem.t) (zoom view_x view_y : R)
    (width height : Z) (paints : list Draw.paint) :
  Draw.draw render ss zoom view_x view_y width height = Py.Ok (ss', paints) ->
  discs paints
  = map (disc_of zoom view_x view_y width height)
      (List.filter
         (fun b => negb (Draw.culled b zoom view_x view_y width height))
         (SolarSystem.bodies ss))
  /\ Forall (fun d => (1 <= d.2)%Z) (discs paints)
  /\ forall b,
       Draw.culled b zoom view_x view_y width height = false
       <-> in_sight b zoom view_x view_y width height.
Proof.
  intros H. unfold Draw.draw in H.
  apply bind_Ok in H as ([s1 paints1] & H1 & H). injection H as <- <-.
  apply draw_bodies_uncached in H1 as [_ Hd]. cbn [fst snd].
  assert (discs paints1
          = map (disc_of zoom view_x view_y width height)
              (List.filter
                 (fun b => negb (Draw.culled b zoom view_x view_y width height))
                 (SolarSystem.bodies ss))) as Hdiscs.
  { rewrite Hd, omap_lookup_seq by (rewrite length_map; lia).
    rewrite drop_0. clear.
    induction (SolarSystem.bodies ss) as [|b l IH]; [reflexivity |].
    cbn [map List.filter].
    change (Draw.culled (uncached b) zoom view_x view_y width height)
      with (Draw.culled b zoom view_x view_y width height).
    destruct (Draw.culled b zoom view_x view_y width height); cbn [negb map];
      by rewrite IH. }
  split; [exact Hdiscs |]. split; [| intros b; apply culled_in_sight].
  rewrite Hdiscs. apply Forall_map, Forall_forall. intros b _.
  unfold disc_of. cbn [snd]. lia.
Qed.


Lemma update_uncached s i :
  CelestialBody.update (map uncached s) i
  = result_map (map uncached) (CelestialBody.update s i).
Proof.
  unfold CelestialBody.update. rewrite deref_uncached.
  destruct (CelestialBody.deref s i) as [b|e] eqn:Hb; [| reflexivity].
  apply deref_Ok in Hb. cbn [result_map mbind result_bind Py.bind]. cbv zeta.
  change (CelestialBody.set_angle
            (Py.fmod (CelestialBody.angle (uncached b)
                      + CelestialBody.orbit_speed (uncached b)) (2 * PI))
            (uncached b))
    with (uncached (CelestialBody.set_angle
                      (Py.fmod (CelestialBody.angle b
                                + CelestialBody.orbit_speed b) (2 * PI)) b)).
  set (b1 := CelestialBody.set_angle _ b).
  rewrite insert_uncached, deref_uncached.
  rewrite !(deref_insert_eq _ _ _ _ Hb).
  cbn [result_map mbind result_bind Py.bind].
  change (CelestialBody.parent (uncached b1)) with (CelestialBody.parent b1).
  destruct (CelestialBody.parent b1) as [p|]; [| reflexivity].
  change (CelestialBody.eccentricity (uncached b1))
    with (CelestialBody.eccentricity b1).
  change (CelestialBody.angle (uncached b1)) with (CelestialBody.angle b1).
  destruct (CelestialBody.true_anomaly _ _) as [nu|e]; [| reflexivity].
  cbn [mbind result_bind Py.bind].
  change (CelestialBody.orbit_radius (uncached b1) nu)
    with (CelestialBody.orbit_radius b1 nu).
  destruct (CelestialBody.orbit_radius b1 nu) as [r|e]; [| reflexivity].
  cbn [mbind result_bind Py.bind]. rewrite deref_uncached.
  destruct (CelestialBody.deref (<[i := b1]> s) p) as [pb|e]; [| reflexivity].
  cbn [result_map mbind result_bind Py.bind].
  change (CelestialBody.set_x (CelestialBody.x (uncached pb) + r * cos nu)
            (uncached b1))
    with (uncached (CelestialBody.set_x (CelestialBody.x pb + r * cos nu) b1)).
  set (b2 := CelestialBody.set_x _ b1).
  rewrite insert_uncached, list_insert_insert_eq, !deref_uncached.
  rewrite !(deref_insert_eq _ _ _ _ Hb).
  cbn [result_map mbind result_bind Py.bind].
  destruct (CelestialBody.deref (<[i := b2]> s) p) as [pb2|e]; [| reflexivity].
  cbn [result_map mbind result_bind Py.bind].
  change (CelestialBody.set_y (CelestialBody.y (uncached pb2) + r * sin nu)
            (uncached b2))
    with (uncached (CelestialBody.set_y (CelestialBody.y pb2 + r * sin nu)
                      b2)).
  by rewrite insert_uncached.
Qed.

Lemma update_body_uncached (tf : R) s i :
  SolarSystem.update_body tf (map uncached s) i
  = result_map (map uncached) (SolarSystem.update_body tf s i).
Proof.
  unfold SolarSystem.update_body. rewrite deref_uncached.
  destruct (CelestialBody.deref s i) as [b|e]; [| reflexivity].
  cbn [result_map mbind result_bind Py.bind]. cbv zeta.
  change (CelestialBody.parent (uncached b)) with (CelestialBody.parent b).
  destruct (CelestialBody.parent b) as [p|]; [| apply update_uncached].
  change (CelestialBody.set_orbit_speed
            (CelestialBody.base_orbit_speed (uncached b) * tf) (uncached b))
    with (uncached (CelestialBody.set_orbit_speed
                      (CelestialBody.base_orbit_speed b * tf) b)).
  rewrite insert_uncached. apply update_uncached.
Qed.

Lemma for_each_uncached (tf : R) (idxs : list nat) s :
  Py.for_each (SolarSystem.update_body tf) idxs (map uncached s)
  = result_map (map uncached)
      (Py.for_each (SolarSystem.update_body tf) idxs s).
Proof.
  revert s. induction idxs as [|i rest IH]; intros s; [reflexivity |].
  cbn [Py.for_each]. rewrite update_body_uncached.
  destruct (SolarSystem.update_body tf s i) as [s1|e]; [| reflexivity].
  cbn [result_map Py.bind]. apply IH.
Qed.

(** The engine on a scene without its caches. *)
Lemma update_simulation (ss : SolarSystem.t) :
  SolarSystem.update (simulation ss)
  = result_map simulation (SolarSystem.update ss).
Proof.
  unfold SolarSystem.update, simulation. cbn [SolarSystem.bodies
    SolarSystem.time_factor SolarSystem.set_bodies].
  rewrite length_map, for_each_uncached.
  destruct (Py.for_each _ _ _) as [s1|e]; reflexivity.
Qed.

(** X22. Painting is invisible to the engine: a completed [draw] leaves
    every body as it was but for the cached orbit surface (with its rect,
    points and camera) and the label, and the next [update] has the same
    outcome, exception or scene, as it would have had without the
    [draw], up to those caches. *)
Theorem draw_invisible_to_update (ss ss' : SolarSystem.t)
    (zoom view_x view_y : R) (width height : Z) (paints : list Draw.paint) :
  Draw.draw render ss zoom view_x view_y width height = Py.Ok (ss', paints) ->
  simulation ss' = simulation ss
  /\ result_map simulation (SolarSystem.update ss')
     = result_map simulation (SolarSystem.update ss).
Proof.
  intros H.
  assert (simulation ss' = simulation ss) as Hsim.
  { unfold Draw.draw in H. apply bind_Ok in H as ([s1 paints1] & H1 & H).
    injection H as <- <-. apply draw_bodies_uncached in H1 as [Hs _].
    unfold simulation. cbn [fst SolarSystem.bodies SolarSystem.set_bodies
      SolarSystem.stars SolarSystem.planets SolarSystem.moons
      SolarSystem.time_factor]. by rewrite Hs. }
  split; [exact Hsim |]. by rewrite <- !update_simulation, Hsim.
Qed.

Lemma well_formed_uncached s s' :
  map uncached s' = map uncached s -> well_formed s -> well_formed s'.
Proof.
  intros Hm Hwf i b' Hb'.
  destruct (lookup_uncached s' s i b' (eq_sym Hm) Hb') as (b & Hb & Hu).
  specialize (Hwf i b Hb).
  assert (CelestialBody.parent b' = CelestialBody.parent b) as ->
    by exact (f_equal CelestialBody.parent (eq_sym Hu)).
  assert (CelestialBody.orbit_speed b' = CelestialBody.orbit_speed b) as ->
    by exact (f_equal CelestialBody.orbit_speed (eq_sym Hu)).
  assert (CelestialBody.eccentricity b' = CelestialBody.eccentricity b) as ->
    by exact (f_equal CelestialBody.eccentricity (eq_sym Hu)).
  assert (CelestialBody.one_minus_e2 b' = CelestialBody.one_minus_e2 b) as ->
    by exact (f_equal CelestialBody.one_minus_e2 (eq_sym Hu)).
  exact Hwf.
Qed.

Lemma draw_body_returns s i b (zoom view_x view_y : R) (width height : Z) :
  well_formed s -> s !! i = Some b ->
  returns (Draw.draw_body render s i zoom view_x view_y width height).
Proof.
  intros Hwf Hb. unfold Draw.draw_body.
  rewrite (deref_lookup _ _ _ Hb). cbn [mbind result_bind Py.bind]. cbv zeta.
  destruct (Draw.culled b zoom view_x view_y width height); [by eexists |].
  assert (exists r,
            Draw.draw_orbit s i zoom view_x view_y width height = Py.Ok r)
    as [[s1 paints1] Horbit].
  { unfold Draw.draw_orbit. rewrite (deref_lookup _ _ _ Hb).
    cbn [mbind result_bind Py.bind]. specialize (Hwf i b Hb).
    destruct (CelestialBody.parent b) as [p|] eqn:Hp; [| by eexists].
    destruct Hwf as (Hlt & He & Home).
    destruct (lookup_lt_is_Some_2 s p) as [pb Hpb];
      [apply lookup_lt_Some in Hb; lia |].
    rewrite (deref_lookup _ _ _ Hpb). cbn [mbind result_bind Py.bind].
    assert (0 <= CelestialBody.one_minus_e2 b) as Hpos by (rewrite Home; nra).
    destruct (negb _).
    - unfold Draw.orbit_pixels. rewrite sqrt_Ok by exact Hpos. by eexists.
    - destruct (CelestialBody.orbit_cache_valid b zoom view_x view_y width
                  height) eqn:Hv.
      + unfold CelestialBody.update_orbit_surface.
        rewrite (deref_lookup _ _ _ Hb). cbn [mbind result_bind Py.bind].
        rewrite Hp, Hv. cbn [mbind result_bind Py.bind fst snd].
        rewrite (deref_lookup _ _ _ Hb). cbn [mbind result_bind Py.bind].
        destruct (CelestialBody.orbit_surface b); by eexists.
      + destruct (rebuild_Ok s i p b pb zoom view_x view_y width height
                    Hb Hp Hpb Hpos Hv) as (surface & rect & lines & ->).
        cbn [mbind result_bind Py.bind fst snd].
        rewrite (deref_insert_eq _ _ _ _ Hb). cbn [mbind result_bind Py.bind].
        cbn [CelestialBody.orbit_surface CelestialBody.set_orbit_rect
             CelestialBody.set_orbit_surface]. by eexists. }
  rewrite Horbit. cbn [mbind result_bind Py.bind fst snd].
  apply draw_orbit_uncached in Horbit as [Hs1 _].
  destruct (lookup_uncached s s1 i b Hs1 Hb) as (b1 & Hb1 & _).
  unfold Draw.draw_label. rewrite (deref_lookup _ _ _ Hb1).
  cbn [mbind result_bind Py.bind]. destruct (_ && _); by eexists.
Qed.

Lemma draw_bodies_returns (idxs : list nat) s (zoom view_x view_y : R)
    (width height : Z) :
  well_formed s -> (forall i, i ∈ idxs -> (i < length s)%nat) ->
  returns (Draw.draw_bodies render idxs s zoom view_x view_y width height).
Proof.
  revert s. induction idxs as [|i rest IH]; intros s Hs Hidx; [by eexists |].
  cbn [Draw.draw_bodies].
  destruct (lookup_lt_is_Some_2 s i) as [b Hb]; [apply Hidx; by left |].
  destruct (draw_body_returns s i b zoom view_x view_y width height Hs Hb)
    as [[s1 paints1] H1].
  rewrite H1. cbn [mbind result_bind Py.bind fst snd].
  apply draw_body_uncached in H1 as [Hs1 _].
  destruct (IH s1) as [[s2 paints2] H2].
  - by eapply well_formed_uncached.
  - intros j Hj.
    assert (length s1 = length s) as ->
      by (rewrite <- (length_map uncached s1), Hs1; apply length_map).
    apply Hidx. by right.
  - rewrite H2. by eexists.
Qed.

Lemma draw_scene_returns (ss : SolarSystem.t) (zoom view_x view_y : R)
    (width height : Z) :
  well_formed (SolarSystem.bodies ss) ->
  returns (Draw.draw render ss zoom view_x view_y width height).
Proof.
  intros Hwf. unfold Draw.draw.
  destruct (draw_bodies_returns (seq 0 (length (SolarSystem.bodies ss)))
              (SolarSystem.bodies ss) zoom view_x view_y width height Hwf)
    as [[s1 paints1] H1].
  { intros i Hi. apply elem_of_seq in Hi. lia. }
  rewrite H1. by eexists.
Qed.

(** X23. On a scene as the constructors and the engine leave it (a parent
    before its children, eccentricities in [0, 1)), [draw] completes for
    every camera and viewport and leaves such a scene, so that [update]
    and [draw] can follow each other for ever. *)
Theorem draw_returns (ss : SolarSystem.t) (zoom view_x view_y : R)
    (width height : Z) :
  well_formed (SolarSystem.bodies ss) ->
  exists (ss' : SolarSystem.t) (paints : list Draw.paint),
    Draw.draw render ss zoom view_x view_y width height = Py.Ok (ss', paints)
    /\ well_formed (SolarSystem.bodies ss')
    /\ length (SolarSystem.bodies ss') = length (SolarSystem.bodies ss)
    /\ exists ss'', SolarSystem.update ss' = Py.Ok ss''
                    /\ well_formed (SolarSystem.bodies ss'').
Proof.
  intros Hwf.
  destruct (draw_scene_returns ss zoom view_x view_y width height Hwf)
    as [[ss' paints] H].
  exists ss', paints. split; [exact H |].
  unfold Draw.draw in H. apply bind_Ok in H as ([s1 paints1] & H1 & H).
  injection H as <- <-. apply draw_bodies_uncached in H1 as [Hs1 _].
  cbn [fst SolarSystem.bodies SolarSystem.set_bodies].
  assert (well_formed s1) as Hwf1 by (by eapply well_formed_uncached).
  split; [exact Hwf1 |].
  split; [rewrite <- (length_map uncached s1), Hs1; apply length_map |].
  destruct (update_total (SolarSystem.set_bodies s1 ss) Hwf1) as [ss'' Hup].
  exists ss''. split; [exact Hup |].
  eapply update_well_formed; [| exact Hup]. exact Hwf1.
Qed.

End Painting.

Lemma draw_discs_witness :
  exists (ss ss' : SolarSystem.t) (paints : list Draw.paint),
    star_and_planet 3 4 100 (1 / 2) 0 (1 / 100) = Py.Ok ss
    /\ Draw.draw (fun _ => {| Pygame.surf_width := 40;
                              Pygame.surf_height := 14;
                              Pygame.surf_lines := [] |})
         ss 1 0 0 800 600 = Py.Ok (ss', paints)
    /\ Forall (fun d => (1 <= d.2)%Z) (discs paints).
Proof.
  destruct (star_and_planet 3 4 100 (1 / 2) 0 (1 / 100)) as [ss|] eqn:Hss;
    [| discriminate Hss].
  assert (well_formed (SolarSystem.bodies ss)) as Hwf.
  { eapply star_and_planet_well_formed; [| exact Hss]. lra. }
  destruct (draw_scene_returns
              (fun _ => {| Pygame.surf_width := 40; Pygame.surf_height := 14;
                           Pygame.surf_lines := [] |})
              ss 1 0 0 800 600 Hwf) as [[ss' paints] H].
  exists ss, ss', paints. split; [reflexivity |]. split; [exact H |].
  exact (proj1 (proj2 (draw_discs _ _ _ _ _ _ _ _ _ H))).
Defined.

Lemma draw_invisible_to_update_witness :
  exists (ss ss' : SolarSystem.t) (paints : list Draw.paint),
    star_and_planet 3 4 100 (1 / 2) 0 (1 / 100) = Py.Ok ss
    /\ Draw.draw (fun _ => {| Pygame.surf_width := 40;
                              Pygame.surf_height := 14;
                              Pygame.surf_lines := [] |})
         ss 1 0 0 800 600 = Py.Ok (ss', paints)
    /\ simulation ss' = simulation ss.
Proof.
  destruct (star_and_planet 3 4 100 (1 / 2) 0 (1 / 100)) as [ss|] eqn:Hss;
    [| discriminate Hss].
  assert (well_formed (SolarSystem.bodies ss)) as Hwf.
  { eapply star_and_planet_well_formed; [| exact Hss]. lra. }
  destruct (draw_scene_returns
              (fun _ => {| Pygame.surf_width := 40; Pygame.surf_height := 14;
                           Pygame.surf_lines := [] |})
              ss 1 0 0 800 600 Hwf) as [[ss' paints] H].
  exists ss, ss', paints. split; [reflexivity |]. split; [exact H |].
  exact (proj1 (draw_invisible_to_update _ _ _ _ _ _ _ _ _ H)).
Defined.

Lemma draw_returns_witness :
  exists (ss ss' : SolarSystem.t) (paints : list Draw.paint),
    star_and_planet 3 4 100 (1 / 2) 0 (1 / 100) = Py.Ok ss
    /\ Draw.draw (fun _ => {| Pygame.surf_width := 40;
                              Pygame.surf_height := 14;
                              Pygame.surf_lines := [] |})
         ss 1 0 0 800 600 = Py.Ok (ss', paints)
    /\ length (SolarSystem.bodies ss') = length (SolarSystem.bodies ss).
Proof.
  destruct (star_and_planet 3 4 100 (1 / 2) 0 (1 / 100)) as [ss|] eqn:Hss;
    [| discriminate Hss].
  assert (well_formed (SolarSystem.bodies ss)) as Hwf.
  { eapply star_and_planet_well_formed; [| exact Hss]. lra. }
  destruct (draw_returns
              (fun _ => {| Pygame.surf_width := 40; Pygame.surf_height := 14;
                           Pygame.surf_lines := [] |})
              ss 1 0 0 800 600 Hwf) as (ss' & paints & H & _ & Hlen & _).
  exists ss, ss', paints. split; [reflexivity |]. split; [exact H | exact Hlen].
Defined.


(** ** The hierarchy after any number of ticks *)

Section Hierarchy.

Implicit Types (s : store) (b : body) (i j k p : nat).

Lemma ticks_settled (tf : R) (tfs : list R) (ss ss' : SolarSystem.t) :
  well_formed (SolarSystem.bodies ss) ->
  Main.ticks (tf :: tfs) ss = Py.Ok ss' ->
  well_formed (SolarSystem.bodies ss') /\ settled (SolarSystem.bodies ss').
Proof.
  revert tf ss. induction tfs as [|tf' rest IH]; intros tf ss Hwf H;
    cbn [Main.ticks] in H; apply bind_Ok in H as (ss1 & H1 & H).
  - injection H as <-. split.
    + eapply update_well_formed; [| exact H1]. exact Hwf.
    + eapply update_settles; [| exact H1]. exact Hwf.
  - apply (IH tf' ss1); [| exact H].
    eapply update_well_formed; [| exact H1]. exact Hwf.
Qed.

(** X25. After one or more completed ticks of a scene as the constructors
    build it, at any time factors, every orbiting body sits on its orbit
    about the place its parent has now: a moon follows the planet that
    moved in the same tick.  Its angle is reduced to [0, 2 pi), its offset
    from the parent is [r] at the true anomaly of that angle, and its
    distance from the parent is between [a (1 - e)] and [a (1 + e)]. *)
Theorem orbits_follow_parents (tf : R) (tfs : list R)
    (ss ss' : SolarSystem.t) i b p :
  well_formed (SolarSystem.bodies ss) ->
  Main.ticks (tf :: tfs) ss = Py.Ok ss' ->
  SolarSystem.bodies ss' !! i = Some b ->
  CelestialBody.parent b = Some p ->
  0 <= CelestialBody.angle b < 2 * PI
  /\ exists (pb : body) (nu r : R),
       SolarSystem.bodies ss' !! p = Some pb
       /\ CelestialBody.true_anomaly (CelestialBody.eccentricity b)
            (CelestialBody.kepler_E (CelestialBody.angle b)
               (CelestialBody.eccentricity b)) = Py.Ok nu
       /\ CelestialBody.orbit_radius b nu = Py.Ok r
       /\ position b
          = (CelestialBody.x pb + r * cos nu, CelestialBody.y pb + r * sin nu)
       /\ (0 < CelestialBody.semi_major_axis b ->
           CelestialBody.semi_major_axis b * (1 - CelestialBody.eccentricity b)
           <= distance (position b) (position pb)
           <= CelestialBody.semi_major_axis b
              * (1 + CelestialBody.eccentricity b)).
Proof.
  intros Hwf H Hb Hp.
  destruct (ticks_settled tf tfs ss ss' Hwf H) as [Hwf' Hset].
  destruct (Hset i b Hb) as [Hangle Hpos]. split; [exact Hangle |].
  rewrite Hp in Hpos. destruct Hpos as (pb & nu & r & Hpb & Hnu & Hr & Hx & Hy).
  exists pb, nu, r. split; [exact Hpb |]. split; [exact Hnu |].
  split; [exact Hr |]. split; [unfold position; by rewrite Hx, Hy |].
  intros Ha.
  destruct (settled_radius _ i b p Hwf' Hset Hb Hp Ha) as (pb' & Hpb' & Hd).
  rewrite Hpb in Hpb'. by injection Hpb' as <-.
Qed.

End Hierarchy.

Lemma orbits_follow_parents_witness :
  exists (ss ss' : SolarSystem.t) (b : body),
    star_and_planet 3 4 100 (1 / 2) 0 (1 / 100) = Py.Ok ss
    /\ Main.ticks [2; 1 / 2] ss = Py.Ok ss'
    /\ SolarSystem.bodies ss' !! 1%nat = Some b
    /\ 0 <= CelestialBody.angle b < 2 * PI.
Proof.
  destruct (star_and_planet 3 4 100 (1 / 2) 0 (1 / 100)) as [ss|] eqn:Hss;
    [| discriminate Hss].
  assert (well_formed (SolarSystem.bodies ss)) as Hwf.
  { eapply star_and_planet_well_formed; [| exact Hss]. lra. }
  destruct (ticks_total [2; 1 / 2] ss Hwf) as (ss' & Hticks & Hwf').
  assert (exists b, SolarSystem.bodies ss' !! 1%nat = Some b
                    /\ CelestialBody.parent b = Some 0%nat)
    as (b & Hb & Hp).
  { destruct (ticks_keeps _ _ _ Hticks 1%nat) with
      (b := {| CelestialBody.x := 3; CelestialBody.y := 4;
               CelestialBody.radius := 1;
               CelestialBody.color := (50, 100, 200)%Z;
               CelestialBody.semi_major_axis := 100;
               CelestialBody.eccentricity := 1 / 2;
               CelestialBody.angle := Py.uniform 0 0 (2 * PI);
               CelestialBody.base_orbit_speed := 1 / 100;
               CelestialBody.orbit_speed := 1 / 100;
               CelestialBody.parent := Some 0%nat;
               CelestialBody.name := "Planet"; CelestialBody.mass := 0;
               CelestialBody.facts := None;
               CelestialBody.orbit_surface := None;
               CelestialBody.orbit_rect := None;
               CelestialBody.orbit_points := None;
               CelestialBody.label_surface := None;
               CelestialBody.facts_surface := None;
               CelestialBody.one_minus_e2 := 1 - 1 / 2 * (1 / 2);
               CelestialBody.last_zoom := 0; CelestialBody.last_width := 0;
               CelestialBody.last_height := 0; CelestialBody.last_view_x := 0;
               CelestialBody.last_view_y := 0 |})
      as (b & Hb & Hel & _).
    - injection Hss as <-. reflexivity.
    - exists b. split; [exact Hb |]. by destruct Hel as (_ & _ & _ & _ & -> & _). }
  exists ss, ss', b. split; [reflexivity |]. split; [exact Hticks |].
  split; [exact Hb |].
  exact (proj1 (orbits_follow_parents 2 [1 / 2] ss ss' 1 b 0 Hwf Hticks Hb Hp)).
Defined.

(** ** The facts panel *)

Section FactsPanel.

Variable render : string -> Pygame.Surface.

Implicit Types (s : store) (b : body) (i j k p : nat).

Lemma foldl_max_width (init : Z) (surfs : list Pygame.Surface) :
  (init <= foldl (fun m surf => Z.max m (Pygame.surf_width surf)) init surfs)%Z
  /\ Forall (fun surf =>
               (Pygame.surf_width surf
                <= foldl (fun m surf => Z.max m (Pygame.surf_width surf))
                     init surfs)%Z) surfs
  /\ (foldl (fun m surf => Z.max m (Pygame.surf_width surf)) init surfs = init
      \/ exists (k : nat) (surf : Pygame.Surface),
           surfs !! k = Some surf
           /\ foldl (fun m surf => Z.max m (Pygame.surf_width surf)) init surfs
              = Pygame.surf_width surf).
Proof.
  revert init. induction surfs as [|c rest IH]; intros init; simpl.
  - split; [lia |]. split; [constructor | by left].
  - destruct (IH (Z.max init (Pygame.surf_width c))) as (H1 & H2 & H3).
    split; [lia |]. split; [constructor; [lia | exact H2] |].
    destruct H3 as [H3 | (k & surf & Hk & H3)].
    + destruct (Z.max_spec init (Pygame.surf_width c)) as [[_ Hm] | [_ Hm]].
      * right. exists 0%nat, c. split; [reflexivity | congruence].
      * left. congruence.
    + right. exists (S k), surf. split; [exact Hk | exact H3].
Qed.

Lemma facts_cached s i b (width height : Z) :
  s !! i = Some b ->
  is_Some (CelestialBody.facts_surface b) \/ Facts.no_facts b = true ->
  Facts.update_facts_surface render s i width height = Py.Ok (s, []).
Proof.
  intros Hb H. unfold Facts.update_facts_surface.
  rewrite (deref_lookup _ _ _ Hb). cbn [mbind result_bind Py.bind].
  destruct H as [H| ->]; [| by rewrite orb_true_r].
  by rewrite bool_decide_eq_true_2.
Qed.

(** X26. [update_facts_surface] does nothing for a body that has its
    facts surface or has no facts.  Otherwise it builds and keeps one
    surface, [20 n + 24] pixels high for [n] facts and exactly 24 pixels
    wider than the widest rendered line: no line is wider than the
    surface less 24, and one is that wide (or none is wider than 0 and
    the surface is 24 wide).  It blits the line ["key: value"] of the
    k-th fact at [(12, 12 + 20 k)], so that each line ends at least 12
    pixels before the right edge; any later call does nothing. *)
Theorem facts_surface_box s i b (width height : Z) :
  s !! i = Some b ->
  (is_Some (CelestialBody.facts_surface b) \/ Facts.no_facts b = true ->
   Facts.update_facts_surface render s i width height = Py.Ok (s, []))
  /\ forall facts : list (string * string),
       CelestialBody.facts_surface b = None ->
       CelestialBody.facts b = Some facts -> facts <> [] ->
       exists (surface : Pygame.Surface) (ops : list Facts.op),
         Facts.update_facts_surface render s i width height
           = Py.Ok (<[i := Facts.set_facts_surface (Some surface) b]> s, ops)
         /\ Pygame.surf_height surface
            = (20 * Z.of_nat (length facts) + 24)%Z
         /\ (24 <= Pygame.surf_width surface)%Z
         /\ (Pygame.surf_width surface = 24%Z
             \/ exists k (key value : string),
                  facts !! k = Some (key, value)
                  /\ Pygame.surf_width surface
                     = (Pygame.surf_width
                          (render (String.append key
                                     (String.append ": " value))) + 24)%Z)
         /\ length ops = (2 + length facts)%nat
         /\ head ops
            = Some (Facts.NewSurface (Pygame.surf_width surface)
                      (Pygame.surf_height surface))
         /\ (forall k (key value : string),
               facts !! k = Some (key, value) ->
               let line := render (String.append key (String.append ": " value)) in
               ops !! (2 + k)%nat
                 = Some (Facts.BlitLine line (12, 12 + 20 * Z.of_nat k)%Z)
               /\ (12 + Pygame.surf_width line + 12
                   <= Pygame.surf_width surface)%Z)
         /\ forall width' height' : Z,
              Facts.update_facts_surface render
                (<[i := Facts.set_facts_surface (Some surface) b]> s) i
                width' height'
              = Py.Ok (<[i := Facts.set_facts_surface (Some surface) b]> s,
                       []).
Proof.
  intros Hb. split; [by apply facts_cached |].
  intros facts Hnone Hfacts Hne. unfold Facts.update_facts_surface.
  rewrite (deref_lookup _ _ _ Hb). cbn [mbind result_bind Py.bind].
  rewrite bool_decide_eq_false_2 by (rewrite Hnone; by intros [? ?]).
  unfold Facts.no_facts. rewrite Hfacts.
  destruct facts as [|item items] eqn:Hshape; [done |]. rewrite <- Hshape in *.
  cbn [orb default]. unfold Datatypes.id. cbv zeta.
  set (surfs := map render (Facts.fact_lines facts)).
  destruct (foldl_max_width 0 surfs) as (Hmax0 & Hmax & Hwidest).
  eexists _, _. split; [reflexivity |].
  cbn [Pygame.surf_height Pygame.surf_width].
  split; [unfold Facts.fact_lines; rewrite length_map; lia |].
  split; [lia |].
  split.
  { destruct Hwidest as [-> | (k & surf & Hk & ->)]; [by left |]. right.
    unfold surfs, Facts.fact_lines in Hk. rewrite !list_lookup_fmap in Hk.
    destruct (facts !! k) as [[key value]|] eqn:Hfk; [| discriminate].
    cbn [fmap option_fmap option_map fst snd] in Hk. injection Hk as <-.
    by exists k, key, value. }
  split.
  { cbn [length]. unfold surfs, Facts.fact_lines.
    by rewrite length_imap, !length_map. }
  split; [reflexivity |]. split.
  - intros k key value Hk.
    set (line := render (String.append key (String.append ": " value))).
    assert (surfs !! k = Some line) as Hline.
    { unfold surfs, Facts.fact_lines. by rewrite !list_lookup_fmap, Hk. }
    split.
    + change ((2 + k)%nat) with (S (S k)). cbn [lookup list_lookup].
      etrans; [apply list_lookup_imap |]. rewrite Hline.
      cbn [fmap option_fmap option_map].
      do 3 f_equal. lia.
    + rewrite Forall_forall in Hmax.
      specialize (Hmax line (list_elem_of_lookup_2 _ _ _ Hline)). lia.
  - intros width' height'. rewrite (deref_insert_eq _ _ _ _ Hb).
    cbn [mbind result_bind Py.bind CelestialBody.facts_surface
         Facts.set_facts_surface].
    rewrite bool_decide_eq_true_2 by (by eexists). reflexivity.
Qed.

(** X27. With a body selected, the frame never raises in its facts panel.
    The panel is blitted unless the body has neither facts nor a facts
    surface.  It is put 20 pixels right of and below the pointer when it
    fits in the window on that axis, and otherwise ends 20 pixels left of
    or above the pointer: on neither axis does it reach the pointer. *)
Theorem facts_panel_beside_pointer s i b (mouse_pos : Z * Z)
    (WIDTH HEIGHT : Z) :
  s !! i = Some b ->
  exists (s' : store) (ops : list Facts.op)
         (blit : option (Pygame.Surface * (Z * Z))),
    Facts.facts_panel render s (Some i) mouse_pos WIDTH HEIGHT
      = Py.Ok (s', ops, blit)
    /\ (blit = None
        <-> CelestialBody.facts_surface b = None /\ Facts.no_facts b = true)
    /\ forall (surface : Pygame.Surface) (facts_x facts_y : Z),
         blit = Some (surface, (facts_x, facts_y)) ->
         let w := Pygame.surf_width surface in
         let h := Pygame.surf_height surface in
         (exists b', s' !! i = Some b'
                     /\ CelestialBody.facts_surface b' = Some surface)
         /\ ((facts_x = mouse_pos.1 + 20 /\ facts_x + w <= WIDTH)
             \/ (facts_x + w = mouse_pos.1 - 20
                 /\ WIDTH < mouse_pos.1 + 20 + w))%Z
         /\ ((facts_y = mouse_pos.2 + 20 /\ facts_y + h <= HEIGHT)
             \/ (facts_y + h = mouse_pos.2 - 20
                 /\ HEIGHT < mouse_pos.2 + 20 + h))%Z.
Proof.
  intros Hb. unfold Facts.facts_panel.
  assert (exists s1 ops b1,
            Facts.update_facts_surface render s i WIDTH HEIGHT
              = Py.Ok (s1, ops)
            /\ s1 !! i = Some b1
            /\ (CelestialBody.facts_surface b1 = None
                <-> CelestialBody.facts_surface b = None
                    /\ Facts.no_facts b = true))
    as (s1 & ops & b1 & -> & Hb1 & Hiff).
  { destruct (CelestialBody.facts_surface b) as [fs|] eqn:Hfs.
    - exists s, [], b. split; [apply (facts_cached s i b); [done |] |].
      + left. rewrite Hfs. by eexists.
      + split; [exact Hb |]. rewrite Hfs. split; [done | by intros []].
    - destruct (Facts.no_facts b) eqn:Hno.
      + exists s, [], b. split; [apply (facts_cached s i b); [done | by right] |].
        split; [exact Hb |]. by rewrite Hfs.
      + unfold Facts.update_facts_surface.
        rewrite (deref_lookup _ _ _ Hb). cbn [mbind result_bind Py.bind].
        rewrite Hno, bool_decide_eq_false_2
          by (rewrite Hfs; by intros [? ?]).
        cbn [orb]. cbv zeta. eexists _, _, _. split; [reflexivity |].
        split; [apply list_lookup_insert_eq; eapply lookup_lt_Some, Hb |].
        cbn [CelestialBody.facts_surface Facts.set_facts_surface].
        split; [done | by intros []]. }
  cbn [mbind result_bind Py.bind fst snd].
  rewrite (deref_lookup _ _ _ Hb1). cbn [mbind result_bind Py.bind].
  destruct (CelestialBody.facts_surface b1) as [fs|] eqn:Hfs.
  - eexists s1, ops, (Some (fs, (_, _))). split; [reflexivity |]. split.
    + split; [done |]. intros H. by apply Hiff in H.
    + intros surface facts_x facts_y H. injection H as <- <- <-. cbv zeta.
      split; [by exists b1 |].
      split;
        match goal with
        | |- context [(?u <? ?v)%Z] => destruct (Z.ltb_spec u v)
        end; lia.
  - exists s1, ops, None. split; [reflexivity |]. split; [| done].
    split; [intros _; by apply Hiff | done].
Qed.

End FactsPanel.

Lemma facts_surface_box_witness :
  exists (s : store) (b : body) (surface : Pygame.Surface)
         (ops : list Facts.op),
    (SolarSystem.bodies
       (SolarSystem.add_star SolarSystem.init 0 0 5 (255, 255, 190)%Z "Sun" 0
          (Some [("Radius", "696340 km"); ("Discovery", "Prehistoric")]%string)).1)
      = s
    /\ s !! 0%nat = Some b
    /\ Facts.update_facts_surface
         (fun line => {| Pygame.surf_width := 7 * Z.of_nat (String.length line);
                         Pygame.surf_height := 16;
                         Pygame.surf_lines := [] |}) s 0 1200 800
       = Py.Ok (<[0%nat := Facts.set_facts_surface (Some surface) b]> s, ops)
    /\ Pygame.surf_height surface = 64%Z.
Proof.
  eexists _, _. 
  match goal with
  | |- exists _ _, ?s0 = _ /\ _ =>
      destruct (facts_surface_box
                  (fun line =>
                     {| Pygame.surf_width := 7 * Z.of_nat (String.length line);
                        Pygame.surf_height := 16; Pygame.surf_lines := [] |})
                  s0 0 _ 1200 800 eq_refl) as [_ Hbuild]
  end.
  destruct (Hbuild _ eq_refl eq_refl ltac:(discriminate))
    as (surface & ops & Hev & Hh & _).
  exists surface, ops. split; [reflexivity |]. split; [reflexivity |].
  split; [exact Hev | exact Hh].
Defined.

Lemma facts_panel_beside_pointer_witness :
  exists (s' : store) (ops : list Facts.op)
         (blit : option (Pygame.Surface * (Z * Z))),
    Facts.facts_panel
      (fun line => {| Pygame.surf_width := 7 * Z.of_nat (String.length line);
                      Pygame.surf_height := 16; Pygame.surf_lines := [] |})
      (SolarSystem.bodies
         (SolarSystem.add_star SolarSystem.init 0 0 5 (255, 255, 190)%Z "Sun"
            0 (Some [("Radius", "696340 km")]%string)).1)
      (Some 0%nat) (1190, 10)%Z 1200 800 = Py.Ok (s', ops, blit)
    /\ blit <> None.
Proof.
  match goal with
  | |- exists _ _ _, Facts.facts_panel ?r ?s _ ?mp ?W ?H = _ /\ _ =>
      destruct (facts_panel_beside_pointer r s 0 _ mp W H eq_refl)
        as (s' & ops & blit & Hev & Hnone & _)
  end.
  exists s', ops, blit. split; [exact Hev |].
  intros Hb. apply Hnone in Hb as [_ Hno]. discriminate Hno.
Defined.

(** ** The periods of the catalogue *)

Section CataloguePeriods.

Implicit Types (s : store) (b : body) (i j k p : nat).







End CataloguePeriods.

(** ** The Kepler solve inside [update] *)

Section KeplerSolve.

Implicit Types (s : store) (b : body) (i j k p : nat).

Lemma kepler_E_rounds (M e : R) :
  CelestialBody.kepler_E M e = kepler_spec 5 M e.
Proof. reflexivity. Qed.

Lemma sin_quarter_plus (d : R) : sin (PI / 2 + d) = cos d.
Proof. rewrite sin_plus, sin_PI2, cos_PI2. ring. Qed.

(** From a quarter turn the rounds go on changing [E] for ever: each one
    lands on the other side of the solution. *)
Lemma rounds_never_settle (e : R) (k : nat) :
  0 < e < 1 ->
  0 <= kepler_spec k (PI / 2) e - PI / 2 <= e
  /\ 0 <= kepler_spec (S k) (PI / 2) e - PI / 2 <= e
  /\ kepler_spec (S k) (PI / 2) e <> kepler_spec k (PI / 2) e.
Proof.
  intros He. pose proof PI2_1 as Hpi. induction k as [|k IH].
  - cbn [kepler_spec]. rewrite sin_PI2. lra.
  - destruct IH as (Hk & Hk1 & Hne). split; [exact Hk1 |].
    set (d := kepler_spec k (PI / 2) e - PI / 2) in *.
    set (d1 := kepler_spec (S k) (PI / 2) e - PI / 2) in *.
    assert (kepler_spec (S (S k)) (PI / 2) e = PI / 2 + e * cos d1) as Hss.
    { change (kepler_spec (S (S k)) (PI / 2) e)
        with (PI / 2 + e * sin (kepler_spec (S k) (PI / 2) e)).
      replace (kepler_spec (S k) (PI / 2) e) with (PI / 2 + d1)
        by (unfold d1; ring).
      by rewrite sin_quarter_plus. }
    assert (kepler_spec (S k) (PI / 2) e = PI / 2 + e * cos d) as Hs.
    { change (kepler_spec (S k) (PI / 2) e)
        with (PI / 2 + e * sin (kepler_spec k (PI / 2) e)).
      replace (kepler_spec k (PI / 2) e) with (PI / 2 + d)
        by (unfold d; ring).
      by rewrite sin_quarter_plus. }
    assert (0 < cos d1) as Hc1 by (apply cos_gt_0; lra).
    pose proof (COS_bound d1) as [_ Hc1'].
    split; [rewrite Hss; nra |].
    rewrite Hss, Hs. intros Heq.
    assert (cos d1 = cos d) as Hcos by nra.
    assert (d1 <> d) as Hd by (unfold d1, d; lra).
    destruct (Rtotal_order d1 d) as [Hlt | [Heq' | Hgt]]; [| done |].
    + pose proof (cos_decreasing_1 d1 d). lra.
    + pose proof (cos_decreasing_1 d d1). lra.
Qed.

(** C6. [update] places an orbiting body by the eccentric anomaly
    [E] of exactly five rounds of [E <- M + e sin E] from [E = M],
    [M] being the mean anomaly after the advance: the true anomaly is
    taken of that [E], and the body is put at the radius of that anomaly
    from its parent.  The anomaly depends on [M] and [e] alone: another
    body of the same [M] and [e], in whatever store and with whatever
    other elements, is placed in the same direction from its parent.
    Convergence is not tested: from [M = PI / 2] with [e > 0] the value
    after five rounds differs from the value after four, and a sixth round
    would change it again, so it does not solve Kepler's equation. *)
Theorem kepler_E_five_rounds s i p b pb :
  s !! i = Some b -> CelestialBody.parent b = Some p -> p <> i ->
  s !! p = Some pb ->
  0 <= CelestialBody.eccentricity b < 1 ->
  let e := CelestialBody.eccentricity b in
  let M := Py.fmod (CelestialBody.angle b + CelestialBody.orbit_speed b)
                   (2 * PI) in
  let E := M + e * sin (M + e * sin (M + e * sin (M + e * sin
             (M + e * sin M)))) in
  E = kepler_spec 5 M e
  /\ exists (nu : R),
       CelestialBody.true_anomaly e E = Py.Ok nu
       /\ (exists (b' : body) (r : R),
             CelestialBody.update s i = Py.Ok (<[i := b']> s)
             /\ CelestialBody.orbit_radius b nu = Py.Ok r
             /\ CelestialBody.angle b' = M
             /\ CelestialBody.x b' = CelestialBody.x pb + r * cos nu
             /\ CelestialBody.y b' = CelestialBody.y pb + r * sin nu)
       /\ (forall s2 i2 p2 b2 pb2,
             s2 !! i2 = Some b2 -> CelestialBody.parent b2 = Some p2 ->
             p2 <> i2 -> s2 !! p2 = Some pb2 ->
             CelestialBody.eccentricity b2 = e ->
             Py.fmod (CelestialBody.angle b2 + CelestialBody.orbit_speed b2)
                     (2 * PI) = M ->
             exists (b2' : body) (r2 : R),
               CelestialBody.update s2 i2 = Py.Ok (<[i2 := b2']> s2)
               /\ CelestialBody.orbit_radius b2 nu = Py.Ok r2
               /\ CelestialBody.x b2' = CelestialBody.x pb2 + r2 * cos nu
               /\ CelestialBody.y b2' = CelestialBody.y pb2 + r2 * sin nu)
       /\ (M = PI / 2 -> 0 < e ->
           E <> kepler_spec 4 M e
           /\ kepler_spec 6 M e <> E
           /\ E - e * sin E <> M).
Proof.
  intros Hb Hp Hne Hpb He e M E.
  assert (E = kepler_spec 5 M e) as HE by reflexivity.
  split; [exact HE |].
  assert (forall s2 i2 p2 b2 pb2,
            s2 !! i2 = Some b2 -> CelestialBody.parent b2 = Some p2 ->
            p2 <> i2 -> s2 !! p2 = Some pb2 ->
            CelestialBody.eccentricity b2 = e ->
            Py.fmod (CelestialBody.angle b2 + CelestialBody.orbit_speed b2)
                    (2 * PI) = M ->
            exists (b2' : body) (r2 : R),
              CelestialBody.update s2 i2 = Py.Ok (<[i2 := b2']> s2)
              /\ CelestialBody.orbit_radius b2
                   (2 * Py.atan2 (sqrt (1 + e) * sin (E / 2))
                                 (sqrt (1 - e) * cos (E / 2))) = Py.Ok r2
              /\ CelestialBody.angle b2' = M
              /\ CelestialBody.x b2'
                 = CelestialBody.x pb2
                   + r2 * cos (2 * Py.atan2 (sqrt (1 + e) * sin (E / 2))
                                            (sqrt (1 - e) * cos (E / 2)))
              /\ CelestialBody.y b2'
                 = CelestialBody.y pb2
                   + r2 * sin (2 * Py.atan2 (sqrt (1 + e) * sin (E / 2))
                                            (sqrt (1 - e) * cos (E / 2))))
    as Hany.
  { intros s2 i2 p2 b2 pb2 Hb2 Hp2 Hne2 Hpb2 He2 HM2.
    rewrite (update_child _ _ _ _ _ Hb2 Hp2 Hne2 Hpb2). unfold resolve.
    rewrite HM2, He2. fold e.
    change (CelestialBody.kepler_E M e) with E.
    rewrite true_anomaly_Ok by (unfold e; lra).
    cbn [mbind result_bind Py.bind].
    rewrite orbit_radius_Ok by (rewrite He2; exact He).
    cbn [mbind result_bind Py.bind].
    eexists _, _. split; [reflexivity |]. split; [reflexivity |].
    repeat split. }
  eexists. split; [apply true_anomaly_Ok; unfold e; lra |].
  split; [| split].
  - destruct (Hany s i p b pb Hb Hp Hne Hpb eq_refl eq_refl)
      as (b' & r & Hup & Hr & Hangle & Hx & Hy).
    by exists b', r.
  - intros s2 i2 p2 b2 pb2 Hb2 Hp2 Hne2 Hpb2 He2 HM2.
    destruct (Hany s2 i2 p2 b2 pb2 Hb2 Hp2 Hne2 Hpb2 He2 HM2)
      as (b2' & r2 & Hup & Hr & _ & Hx & Hy).
    by exists b2', r2.
  - intros HM Hpos. rewrite HE. clearbody M. subst M.
    assert (0 < e < 1) as He' by (unfold e in *; lra).
    destruct (rounds_never_settle e 4 He') as (_ & _ & H54).
    destruct (rounds_never_settle e 5 He') as (_ & _ & H65).
    split; [exact H54 |]. split; [exact H65 |].
    intros Hfix. apply H65. cbn [kepler_spec] in *. lra.
Qed.

End KeplerSolve.

Lemma kepler_E_five_rounds_witness :
  exists (ss : SolarSystem.t) (b' : body) (nu : R),
    star_and_planet 3 4 100 (1 / 2) 0 (1 / 100) = Py.Ok ss
    /\ CelestialBody.update (SolarSystem.bodies ss) 1
       = Py.Ok (<[1%nat := b']> (SolarSystem.bodies ss))
    /\ CelestialBody.true_anomaly (1 / 2)
         (kepler_spec 5 (Py.fmod (Py.uniform 0 0 (2 * PI) + 1 / 100)
                              (2 * PI)) (1 / 2)) = Py.Ok nu.
Proof.
  destruct (star_and_planet 3 4 100 (1 / 2) 0 (1 / 100)) as [ss|] eqn:Hss;
    [| discriminate Hss].
  exists ss. injection Hss as <-.
  match goal with
  | |- exists _ _, _ /\ CelestialBody.update ?s _ = _ /\ _ =>
      destruct (kepler_E_five_rounds s 1 0 _ _
                  eq_refl eq_refl ltac:(lia) eq_refl ltac:(simpl; lra))
        as (_ & nu & Hnu & (b' & r & Hup & _) & _)
  end.
  exists b', nu. split; [reflexivity |]. split; [exact Hup | exact Hnu].
Defined.

(** ** Whether the cached orbit fits its surface *)

Section OrbitPlacement.

Implicit Types (s : store) (b : body) (i j k p : nat).

Lemma foldl_max_spec (h : R) (t : list R) :
  Forall (fun v => v <= foldl Py.max h t) (h :: t)
  /\ foldl Py.max h t ∈ h :: t.
Proof.
  revert h. induction t as [|v t IH]; intros h; simpl.
  - split; [constructor; [lra | constructor] | by left].
  - destruct (IH (Py.max h v)) as [Hall Hin].
    apply Forall_cons in Hall as [Hhead Htail].
    assert (h <= Py.max h v /\ v <= Py.max h v
            /\ (Py.max h v = h \/ Py.max h v = v)) as (H1 & H2 & H3)
      by (unfold Py.max; destruct (Rlt_dec h v); lra).
    split.
    + constructor; [lra |]. constructor; [lra | exact Htail].
    + apply elem_of_cons in Hin as [Hin | Hin].
      * rewrite Hin. destruct H3 as [-> | ->]; [by left |].
        right. by left.
      * right. by right.
Qed.

Lemma max_of_spec (xs : list R) (m : R) :
  Py.max_of xs = Py.Ok m -> Forall (fun v => v <= m) xs /\ m ∈ xs.
Proof.
  destruct xs as [|h t]; simpl; intros H; [discriminate |].
  injection H as <-. apply foldl_max_spec.
Qed.

Lemma int_floor (v : R) :
  0 <= v -> (0 <= Py.int v)%Z /\ IZR (Py.int v) <= v < IZR (Py.int v) + 1.
Proof.
  intros Hv. unfold Py.int. destruct (Rle_dec 0 v); [| done].
  destruct (base_Int_part v) as [H1 H2]. split; [| split; lra].
  destruct (Z_lt_le_dec (Int_part v) 0) as [Hneg|Hnn]; [| exact Hnn].
  exfalso. assert (Int_part v <= -1)%Z as Hle by lia.
  apply IZR_le in Hle. lra.
Qed.

(** X24. When [update_orbit_surface] builds a surface, the polyline it
    hands to [draw.lines] spans [max - min] of the screen coordinates of
    the orbit on each axis, from 0.  Where the box of the orbit fits the
    viewport ([int(max - min) + 2] is at most its width, or height), the
    surface is that box and every vertex lies more than a pixel inside
    its far edge.  Where the orbit is at least as wide (or high) as the
    viewport, the surface stops at the viewport and some vertex lies at or
    beyond its edge: the polyline leaves the surface it is drawn on. *)
Theorem rebuilt_orbit_fits s s' i p b (zoom view_x view_y : R)
    (width height : Z) (calls : list Pygame.call) :
  s !! i = Some b -> CelestialBody.parent b = Some p ->
  CelestialBody.update_orbit_surface s i zoom view_x view_y width height
    = Py.Ok (s', calls) ->
  calls <> [] ->
  exists (b' : body) (surface : Pygame.Surface) (lines : Pygame.Polyline)
         (span_x span_y : R),
    s' !! i = Some b'
    /\ CelestialBody.orbit_surface b' = Some surface
    /\ last calls = Some (Pygame.DrawLines lines)
    /\ 0 <= span_x /\ 0 <= span_y
    /\ Forall (fun q : R * R => 0 <= q.1 <= span_x /\ 0 <= q.2 <= span_y)
         (Pygame.pl_points lines)
    /\ (exists q : R * R, q ∈ Pygame.pl_points lines /\ q.1 = span_x)
    /\ (exists q : R * R, q ∈ Pygame.pl_points lines /\ q.2 = span_y)
    /\ Pygame.surf_width surface
       = Z.max 1 (Z.min (Py.int span_x + 2) width)
    /\ Pygame.surf_height surface
       = Z.max 1 (Z.min (Py.int span_y + 2) height)
    /\ ((Py.int span_x + 2 <= width)%Z ->
        Pygame.surf_width surface = (Py.int span_x + 2)%Z
        /\ Forall (fun q : R * R =>
                     q.1 < IZR (Pygame.surf_width surface) - 1)
             (Pygame.pl_points lines))
    /\ ((Py.int span_y + 2 <= height)%Z ->
        Pygame.surf_height surface = (Py.int span_y + 2)%Z
        /\ Forall (fun q : R * R =>
                     q.2 < IZR (Pygame.surf_height surface) - 1)
             (Pygame.pl_points lines))
    /\ ((1 <= width <= Py.int span_x)%Z ->
        Pygame.surf_width surface = width
        /\ exists q : R * R,
             q ∈ Pygame.pl_points lines
             /\ IZR (Pygame.surf_width surface) <= q.1)
    /\ ((1 <= height <= Py.int span_y)%Z ->
        Pygame.surf_height surface = height
        /\ exists q : R * R,
             q ∈ Pygame.pl_points lines
             /\ IZR (Pygame.surf_height surface) <= q.2).
Proof.
  intros Hb Hp H Hcalls.
  destruct (CelestialBody.orbit_cache_valid b zoom view_x view_y width height)
    eqn:Hv.
  { unfold CelestialBody.update_orbit_surface in H.
    rewrite (deref_lookup _ _ _ Hb) in H.
    cbn [mbind result_bind Py.bind] in H. rewrite Hp, Hv in H.
    injection H as <- <-. done. }
  destruct (rebuild_inv _ _ _ _ _ _ _ _ _ _ _ Hb Hp Hv H)
    as (pb & min_x & max_x & min_y & max_y & Hinv).
  cbv zeta in Hinv.
  destruct Hinv as (_ & _ & Hmin_x & Hmax_x & Hmin_y & Hmax_y & -> & ->).
  set (pts := CelestialBody.sample_orbit _ _) in *.
  set (screen := map _ pts) in *.
  pose proof (min_of_le _ _ Hmin_x) as Hlo_x.
  pose proof (min_of_le _ _ Hmin_y) as Hlo_y.
  destruct (max_of_spec _ _ Hmax_x) as [Hhi_x Hin_x].
  destruct (max_of_spec _ _ Hmax_y) as [Hhi_y Hin_y].
  rewrite Forall_map in Hlo_x, Hlo_y, Hhi_x, Hhi_y.
  rewrite Forall_forall in Hlo_x, Hlo_y, Hhi_x, Hhi_y.
  apply list_elem_of_fmap in Hin_x as (qx & Hqx & Hqx_in).
  apply list_elem_of_fmap in Hin_y as (qy & Hqy & Hqy_in).
  assert (0 <= max_x - min_x) as Hspan_x
    by (specialize (Hlo_x qx Hqx_in); lra).
  assert (0 <= max_y - min_y) as Hspan_y
    by (specialize (Hlo_y qy Hqy_in); lra).
  destruct (int_floor _ Hspan_x) as [Hix Hfx].
  destruct (int_floor _ Hspan_y) as [Hiy Hfy].
  assert (Forall (fun q : R * R =>
                    0 <= q.1 <= max_x - min_x /\ 0 <= q.2 <= max_y - min_y)
            (map (fun pt : R * R => (pt.1 - min_x, pt.2 - min_y)) screen))
    as Hbox.
  { apply Forall_map, Forall_forall. intros q Hq. cbn [fst snd].
    specialize (Hlo_x q Hq). specialize (Hlo_y q Hq).
    specialize (Hhi_x q Hq). specialize (Hhi_y q Hq). lra. }
  eexists _, _, _, (max_x - min_x), (max_y - min_y).
  split; [apply list_lookup_insert_eq; eapply lookup_lt_Some, Hb |].
  cbn [CelestialBody.orbit_surface CelestialBody.set_orbit_rect
       CelestialBody.set_orbit_surface].
  split; [reflexivity |].
  cbn [Pygame.surf_width Pygame.surf_height Pygame.pl_points last].
  split; [reflexivity |].
  split; [exact Hspan_x |]. split; [exact Hspan_y |].
  split; [exact Hbox |].
  split.
  { exists (qx.1 - min_x, qx.2 - min_y). split; [| cbn [fst]; lra].
    apply list_elem_of_fmap. by exists qx. }
  split.
  { exists (qy.1 - min_x, qy.2 - min_y). split; [| cbn [snd]; lra].
    apply list_elem_of_fmap. by exists qy. }
  split; [reflexivity |]. split; [reflexivity |].
  split; [| split; [| split]].
  - intros Hfit.
    assert (Z.max 1 (Z.min (Py.int (max_x - min_x) + 2) width)
            = Py.int (max_x - min_x) + 2)%Z as -> by lia.
    split; [reflexivity |]. eapply Forall_impl; [exact Hbox |].
    intros q [[_ Hq] _]. cbn beta. rewrite plus_IZR. lra.
  - intros Hfit.
    assert (Z.max 1 (Z.min (Py.int (max_y - min_y) + 2) height)
            = Py.int (max_y - min_y) + 2)%Z as -> by lia.
    split; [reflexivity |]. eapply Forall_impl; [exact Hbox |].
    intros q [_ [_ Hq]]. cbn beta. rewrite plus_IZR. lra.
  - intros Hcut.
    assert (Z.max 1 (Z.min (Py.int (max_x - min_x) + 2) width) = width)
      as -> by lia.
    split; [reflexivity |].
    exists (qx.1 - min_x, qx.2 - min_y).
    split; [apply list_elem_of_fmap; by exists qx |]. cbn [fst].
    assert (IZR width <= IZR (Py.int (max_x - min_x))) by (apply IZR_le; lia).
    lra.
  - intros Hcut.
    assert (Z.max 1 (Z.min (Py.int (max_y - min_y) + 2) height) = height)
      as -> by lia.
    split; [reflexivity |].
    exists (qy.1 - min_x, qy.2 - min_y).
    split; [apply list_elem_of_fmap; by exists qy |]. cbn [snd].
    assert (IZR height <= IZR (Py.int (max_y - min_y)))
      by (apply IZR_le; lia).
    lra.
Qed.

Lemma rebuilt_orbit_fits_witness :
  exists (s s' : store) (calls : list Pygame.call) (b' : body)
         (surface : Pygame.Surface),
    CelestialBody.update_orbit_surface s 1 1 0 0 800 600 = Py.Ok (s', calls)
    /\ s' !! 1%nat = Some b'
    /\ CelestialBody.orbit_surface b' = Some surface.
Proof.
  destruct (star_and_planet 3 4 100 (1 / 2) 0 (1 / 100)) as [ss|] eqn:Hss;
    [| discriminate Hss].
  exists (SolarSystem.bodies ss). injection Hss as <-.
  match goal with
  | |- exists _ _ _ _,
         CelestialBody.update_orbit_surface ?s _ _ _ _ _ _ = _ /\ _ =>
      destruct (rebuild_Ok s 1 0 _ _ 1 0 0 800 600 eq_refl eq_refl eq_refl
                  ltac:(simpl; lra) eq_refl)
        as (surface & rect & lines & Hre);
      destruct (rebuilt_orbit_fits s _ 1 0 _ 1 0 0 800 600 _
                  eq_refl eq_refl Hre ltac:(discriminate))
        as (b' & surface' & lines' & span_x & span_y & Hb' & Hsurf & _)
  end.
  eexists _, _, b', surface'. split; [exact Hre |]. split; [exact Hb' |].
  exact Hsurf.
Defined.

End OrbitPlacement.
